(* ===== verification/_CoqProject ===== *)
-Q . S2P
Prelude.v
CTypes.v
GoProg.v
GoSpec.v
GoTotal.v
Ghost.v
LinuxABI.v
GoRuntime.v
Queues.v
Structs.v
Host.v
SimHost.v
World.v
GoIO.v
WorldSpec.v
Threads.v
Fcntl.v
Stat.v
Signal.v
Futex.v
Mman.v
Socket.v
Sched.v
Misc.v
Discipline.v
Termination.v
ErrnoContract.v
Syscall.v
Kernel.v
SimKernel.v
Typing.v
KernelProps.v
ThreadProps.v
Confined.v
Reapers.v
TermProps.v
FcntlProps.v
FdTable.v
IoProps.v
PathProps.v
StatProps.v
SignalProps.v
FutexProps.v
FutexQueue.v
FutexBits.v
Registry.v
Tenants.v
RegistryProps.v
Sleepers.v
CloseProps.v
MiscProps.v
MmapProps.v
FileTrip.v
Stream.v
VaStd.v
VaA64.v
VaX64.v
VaList.v
VaProps.v
VaAbi.v
