(* ===== verification/Prelude.v ===== *)
(** * microdbg-linux: a verification of the emulated Linux kernel

    microdbg-linux runs Linux programs under the microdbg debugger: a software
    interrupt of the guest reaches [kernel.Kernel] (src/kernel/kernel.go), which
    reads the syscall number and the arguments from the registers, looks the
    handler up in [kernel.Syscall] (src/kernel/syscall.go), runs it and writes
    the result back.  The handlers keep four kinds of state, each with its own
    lock: the flags of descriptors (fcntl.go), the waiters of futexes (futex.go),
    the signal mask and actions (signal.go) and the tasks (sched.go); everything
    else they ask of the debugger, which is not in this repository.  Beside the
    kernel, src/gcc reads C variable argument lists of four architectures.

    ** How the model is built

    - Prelude: machine integers as [Z] with the conversions written out ([int]
      and [uint] are 64 bits wide), bytes, error values, generic lemmas.
    - CTypes: the C type names of src/kernel/stddef.go as Go's integer types; a
      type applied to a value is the conversion.
    - GoProg, GoSpec, GoTotal: a Go routine as a tree [prog] of atomic actions on a shared
      state, with panics, deferred calls, loops and blocking.  [run] executes
      one routine alone, [interleave] several under a schedule; [run_steps] says
      that [run] is one of the schedules.  [spec] and its rules reason about
      returns, panics, blocks and loops at once, and [total] about programs that
      end.
    - Ghost: reasoning about every interleaving.  A goroutine carries a ghost
      value, [guided] says how its actions move it, and [pool_kept] that what the
      moves keep, every schedule keeps.  Three clients: the locks (Threads), the
      futex registrations and the sleeping tasks (Registry) and the tasks that
      [clone] starts (Reapers).
    - GoRuntime, GoIO: what the code uses of the Go library: [sync.RWMutex],
      unbuffered channels, [select], [time.After]; the readers, writers and copy
      loops of package io.  Queues: a receive queue holds, once each, the
      goroutines asleep on its channel, through every step of the runtime.
    - LinuxABI: src/syscall.go and src/errno.go, the two constant blocks.
    - Structs, Host: the structs that cross guest memory, and the class
      [Debugger]: an abstract state with every operation of the debugger, the
      file system, the operating system and gopsutil that the code calls; the
      transfers of a file may block, as on a pipe, and the other calls return.  What a
      theorem needs of them is a named class ([FdLaws], [FileLaws], [RootLaw],
      [RangeLaw], [FlagLaws] here; [MemoryLaws], [ReadsWell], [WritesWell] in
      IoProps; [MapLaws], [SeeksWell] in MmapProps, [TransferLaws] in FileTrip,
      [PickLaw] in FutexQueue, [PtrWrites] in PathProps, [SigsetMemory] in
      SignalProps, [HostProgress] in Termination, [HostTypes] in Typing,
      [PtrRead] in VaProps).
      SimHost and SimKernel have a small debugger that
      runs and satisfies them; the witnesses are evaluated on it.
    - World: the state of the kernel ([Syscall]'s components, [Kernel]'s errno,
      the Go runtime, the host) and the primitive actions.  A Go map is
      [option (gmap _ _)], [None] being the nil map that panics when written.
    - WorldSpec: [ready], the state between syscalls (locks free, tables made),
      and the rules for critical sections.
    - Threads, Discipline: the lock discipline of a goroutine ([disc]: which
      lock it holds at each step, and that it touches a table only under its
      lock), kept by every interleaving of a pool; every handler is disciplined.
    - Confined: which part of the state a handler leaves alone and what it may
      wait for, so that a proof about one table under every schedule has only its
      own handlers to look at.
    - Termination: every handler ends on a host that makes progress.
    - Typing: the ranges of everything the kernel stores.
    - Fcntl and Stat (src/kernel/fcntl.go), Signal (signal.go), Futex (futex.go),
      Mman (mman.go), Socket (socket.go), Sched (sched.go), Misc (time.go,
      random.go, prctl.go, resource.go, ioctl.go, sysinfo.go): a Module per
      component with a definition per method, named as in the source; a piece of
      code that a method repeats is one definition ([with_path], [add_ref]).
    - ErrnoContract, Syscall, Kernel: the errno convention of all handlers; the
      register conversions and the table; the hooks, construction and [Close].
    - Stream, VaStd, VaA64, VaX64, VaList: the stream interface of the decoder as
      a class, with the three argument lists of src/gcc as its instances.

    ** What is proved

    - KernelProps: every syscall keeps [ready], also when it panics or blocks,
      and reports an errno only with -1; a hook delivers the
      handler's result; every reachable state is [ready].
    - ThreadProps: for any number of kernel goroutines under any schedule, no
      race on a table, no deadlock on a lock ([owners] follows a schedule and
      notes who holds what; a holder can always move), and a pool that cannot move holds
      nothing; schedules on what the locks do not protect (the signal mask, a
      channel after [Close], the errno).
    - Reapers: with the goroutines [clone] starts joining the pool, no finished
      task stays in the task table when nobody can move.
    - TermProps: a hook ends for every interrupt.  Typing: results and state
      stay within their Go types.
    - FcntlProps: flags belong to open descriptors after any sequence of calls;
      open, dup and close as seen through fcntl; openat and open agree; the
      translation of flags; totality of fcntl; and what goes wrong: the race of
      close and open, and a kernel used after [Close].
    - FdTable: the abstract table from descriptors to a file and its flags, as a
      step relation; any sequence of descriptor calls is a run of it, and the
      flags of an open call stay through calls on other descriptors.
    - IoProps: read, write and writev transfer exactly the bytes asked for and
      end, writes at the file's offset, by the copy loop or by a file that is an
      io.ReaderFrom; a read past the end of a file loses data.  FileTrip: what was written
      is read back after lseek.  PathProps: readlinkat and faccessat on every
      branch, and how much memory readlinkat writes.
    - StatProps, SignalProps: modes and times against Linux; masks as sets, the
      table of actions as a map, saving and restoring the mask, and the places
      where the numbers or the null pointers of Linux are treated differently.
    - FutexProps: the tables refine counters of waiters; waking is first in,
      first out; a wait from the call over its sleep to its return; a wake that
      does not change the word; closing wakes everyone; how a wakeup is lost.
    - FutexQueue: any number of waiters and their waker, from the waits to the
      returns.
    - Registry, Tenants, RegistryProps: the rules for futex registrations, that
      every handler follows them, and that under every schedule an entry of the
      futex tables counts the goroutines registered under its key, and nothing is
      left at the end.  A task is identified by its [TaskID]; that no two
      goroutines run the same task is assumed only in Sleepers.
    - Sleepers: under every schedule of distinct tasks from a booted kernel each
      sleeping task is in the receive queue of a channel of the tables, where a
      FUTEX_WAKE reaches it, and when nobody can move the goroutines that have not
      finished are such sleepers or wait for a task to be done or for a transfer
      of a file.
    - FutexBits: the same for the bitset operations, with a queue per mask and
      the order [range] takes left open.
    - CloseProps: closing the kernel under waiters, up to what they return; in a
      pool that cannot move it frees every sleeper.
    - MmapProps: mmap of a file at any offset, fixed or not, and where it departs
      from Linux.  MiscProps: clone and its reaper, sockets of every family and
      type, clocks.
    - VaProps: reading an argument list refines a cursor over a byte stream,
      across the register save area and the stack; extraction moves by slots;
      [Skip] does not cross the boundary as [Read] does.
    - VaAbi: [Extract] refines [va_arg] of System V x86-64, AAPCS64 and i386 for
      integers, pointers, floats and doubles in any order, with a decoder that
      reads the stream once per destination, and where it departs from the ARM
      convention.

    ** Fuel

    The only number a run is given bounds the turns of each loop; a run that
    needs more is handed back as [Unfinished], never cut off.  Theorems that say
    a loop returns state how many turns are enough: the bytes transferred for
    the copy loops (each turn but the last moves at least one), the length of
    the queue for a wake.  [hook_terminates] has a bound for every interrupt,
    beyond which the outcome is the same.  Everything else holds for every bound.

    ** What is not modelled

    The execution of guest code, the debugger, file systems and sockets behind
    their interfaces (parameters), the layout of structs in guest memory (the
    debugger's encoding package: a [Shape] names the type), the weak memory of
    unsynchronised Go accesses (the steps are atomic), and
    src/internal/stream.go, a declaration whose body is in the debugger.  Of
    Go's scheduler only what a schedule can do is modelled, no fairness: theorems
    about every schedule say what can happen next, not that it will. *)

From stdpp Require Import base list gmap numbers strings.
From Stdlib Require Import ZArith Lia Strings.Byte.

#[export] Set Default Goal Selector "!".

Declare Scope go_scope.
Delimit Scope go_scope with go.

(** ** Machine integers

    Go's sized integers are [Z] kept in range by the conversions below.  The
    host is a 64-bit one, so [int] is [int64] and [uint] is [uint64]. *)

Local Open Scope Z_scope.

Definition uint16 (x : Z) : Z := x mod 65536.
Definition uint32 (x : Z) : Z := x mod 4294967296.
Definition uint64 (x : Z) : Z := x mod 18446744073709551616.
Definition int32 (x : Z) : Z := (x + 2147483648) mod 4294967296 - 2147483648.
Definition int64 (x : Z) : Z :=
  (x + 9223372036854775808) mod 18446744073709551616 - 9223372036854775808.

Definition MaxUint64 : Z := 18446744073709551615.
Definition MaxInt64 : Z := 9223372036854775807.

Definition is_u32 (x : Z) : Prop := 0 <= x < 4294967296.
Definition is_u64 (x : Z) : Prop := 0 <= x < 18446744073709551616.
Definition is_i32 (x : Z) : Prop := -2147483648 <= x < 2147483648.
Definition is_i64 (x : Z) : Prop := -9223372036854775808 <= x < 9223372036854775808.

Create HintDb goint.

(** [wrap_lia] decides linear goals about the conversions: it exposes every
    [mod] as quotient and remainder equations. *)
Ltac wrap_lia :=
  unfold uint16, uint32, uint64, int32, int64, is_u32, is_u64, is_i32, is_i64,
    MaxUint64, MaxInt64 in *;
  Z.div_mod_to_equations; lia.

Lemma uint32_range x : is_u32 (uint32 x).
Proof. wrap_lia. Qed.
Lemma uint64_range x : is_u64 (uint64 x).
Proof. wrap_lia. Qed.
Lemma int32_range x : is_i32 (int32 x).
Proof. wrap_lia. Qed.
Lemma int64_range x : is_i64 (int64 x).
Proof. wrap_lia. Qed.
Lemma uint32_id x : is_u32 x -> uint32 x = x.
Proof. wrap_lia. Qed.
Lemma uint64_id x : is_u64 x -> uint64 x = x.
Proof. wrap_lia. Qed.
Lemma int32_id x : is_i32 x -> int32 x = x.
Proof. wrap_lia. Qed.
Lemma int64_id x : is_i64 x -> int64 x = x.
Proof. wrap_lia. Qed.

#[export] Hint Resolve uint32_range uint64_range int32_range int64_range : goint.
Create Rewrite HintDb goint_rw.
#[export] Hint Rewrite uint32_id uint64_id int32_id int64_id using wrap_lia : goint_rw.

(** Sign extension of an [int32] to a register, and its inverse. *)
Lemma int32_uint64_int32 r : is_i32 r -> int32 (uint64 r) = r.
Proof. wrap_lia. Qed.

Lemma uint64_minus1 : uint64 (-1) = MaxUint64.
Proof. reflexivity. Qed.

(** Only [-1] is sign extended to the all-ones register. *)
Lemma uint64_all_ones r : is_i64 r -> uint64 r = MaxUint64 -> r = -1.
Proof. wrap_lia. Qed.

(** ** Bit tests *)

Definition has_bits (flags mask : Z) : bool := negb (Z.land flags mask =? 0).

(** Go's [x &^ y] on a 64-bit operand. *)
Definition and_not (x y : Z) : Z := Z.ldiff x y.

(** ** Bytes *)

Definition bytes := list byte.

Definition byteZ (b : byte) : Z := Z.of_N (Byte.to_N b).

Lemma byteZ_range b : 0 <= byteZ b < 256.
Proof.
  unfold byteZ. pose proof (Byte.to_N_bounded b). lia.
Qed.

(** The value of a little-endian byte string: what a store through
    [unsafe.Pointer] leaves in an unsigned integer of the host. *)
Fixpoint le_decode (bs : bytes) : Z :=
  match bs with
  | [] => 0
  | b :: bs => byteZ b + 256 * le_decode bs
  end.

Definition byte_of_Z (z : Z) : byte :=
  match Byte.of_N (Z.to_N (z mod 256)) with Some b => b | None => "000"%byte end.

Fixpoint le_encode (n : nat) (z : Z) : bytes :=
  match n with
  | O => []
  | S n => byte_of_Z z :: le_encode n (z / 256)
  end.

Lemma byteZ_of_Z z : byteZ (byte_of_Z z) = z mod 256.
Proof.
  unfold byte_of_Z, byteZ.
  pose proof (Z.mod_pos_bound z 256 ltac:(lia)) as [H0 H1].
  destruct (Byte.of_N _) as [b|] eqn:E.
  - apply Byte.to_of_N in E. rewrite E. lia.
  - apply Byte.of_N_None_iff in E. lia.
Qed.

Lemma le_decode_range bs : 0 <= le_decode bs < 256 ^ Z.of_nat (length bs).
Proof.
  induction bs as [|b bs IH]; cbn [le_decode length]; [lia|].
  rewrite Nat2Z.inj_succ, Z.pow_succ_r by lia.
  pose proof (byteZ_range b). lia.
Qed.

Lemma length_le_encode n z : length (le_encode n z) = n.
Proof. revert z. induction n; intros z; cbn; [done|by rewrite IHn]. Qed.

Lemma le_decode_encode n z :
  le_decode (le_encode n z) = z mod 256 ^ Z.of_nat n.
Proof.
  revert z. induction n as [|n IH]; intros z.
  - cbn. by rewrite Z.mod_1_r.
  - cbn [le_encode le_decode].
    rewrite byteZ_of_Z, IH, Nat2Z.inj_succ, Z.pow_succ_r by lia.
    rewrite Z.rem_mul_r by lia. lia.
Qed.

(** ** Errors

    The [error] values the code tells apart, by identity ([==]) or through
    [errors.Is], which looks through wrapping. *)
Inductive error :=
| ErrEOF                          (* io.EOF *)
| ErrUnexpectedEOF                (* io.ErrUnexpectedEOF *)
| ErrShortWrite                   (* io.ErrShortWrite *)
| ErrInvalidWrite                 (* io: errInvalidWrite *)
| ErrExist                        (* fs.ErrExist *)
| ErrUnsupported                  (* errors.ErrUnsupported *)
| ErrArgumentInvalid              (* debugger.ErrArgumentInvalid *)
| ErrArchUnsupported              (* emulator.ErrArchUnsupported *)
| ErrOther (code : Z)
| ErrWrapped (e : error).

#[export] Instance error_eq_dec : EqDecision error.
Proof. solve_decision. Defined.

(** [errors.Is(err, fs.ErrExist)] *)
Fixpoint errors_Is_ErrExist (e : error) : bool :=
  match e with
  | ErrExist => true
  | ErrWrapped e => errors_Is_ErrExist e
  | _ => false
  end.

(** ** Lists *)

Definition zlen {A} (l : list A) : Z := Z.of_nat (length l).

Lemma zlen_cons {A} (x : A) l : zlen (x :: l) = 1 + zlen l.
Proof. unfold zlen. cbn [length]. lia. Qed.

Lemma zlen_nonneg {A} (l : list A) : 0 <= zlen l.
Proof. unfold zlen; lia. Qed.

Lemma zlen_app {A} (l k : list A) : zlen (l ++ k) = zlen l + zlen k.
Proof. unfold zlen; rewrite length_app; lia. Qed.

Definition ztake {A} (n : Z) (l : list A) : list A := take (Z.to_nat n) l.
Definition zdrop {A} (n : Z) (l : list A) : list A := drop (Z.to_nat n) l.

Lemma zlen_ztake {A} n (l : list A) : 0 <= n <= zlen l -> zlen (ztake n l) = n.
Proof. unfold zlen, ztake. rewrite length_take. lia. Qed.

Lemma ztake_zdrop {A} n (l : list A) : ztake n l ++ zdrop n l = l.
Proof. apply take_drop. Qed.

Lemma elem_of_ztake {A} (x : A) n l : x ∈ ztake n l -> x ∈ l.
Proof. intros Hx. rewrite <- (ztake_zdrop n l). apply elem_of_app. by left. Qed.

Lemma ztake_fmap {A B} (f : A -> B) n l : ztake n (f <$> l) = f <$> ztake n l.
Proof. unfold ztake. by rewrite fmap_take. Qed.

(** [d] with [b] written over it at [o]; a gap is filled with [x]. *)
Definition splice {A} (x : A) (o : nat) (b d : list A) : list A :=
  match b with [] => d | _ => resize o x d ++ b ++ drop (o + length b) d end.

Lemma splice_cons {A} (x : A) o b d : b <> [] ->
  splice x o b d = resize o x d ++ b ++ drop (o + length b) d.
Proof. by destruct b. Qed.

(** Two writes, one after the other, are one. *)
Lemma splice_app {A} (x : A) o b c d : splice x (o + length b) c (splice x o b d) = splice x o (b ++ c) d.
Proof.
  destruct (decide (b = [])) as [->|Hb]; [by rewrite Nat.add_0_r|].
  destruct (decide (c = [])) as [->|Hc]; [by rewrite app_nil_r|].
  rewrite (splice_cons x o b), (splice_cons x _ c), (splice_cons x o (b ++ c))
    by (by try (destruct b; cbn)).
  pose proof (length_resize d o x) as Hr. rewrite length_app. rewrite !(app_assoc (resize o x d) b).
  assert (length (resize o x d ++ b) = o + length b)%nat as Hl by (rewrite length_app; lia).
  rewrite resize_le by (rewrite length_app; lia).
  rewrite take_app_length', drop_app_ge, drop_drop by lia.
  rewrite <- !app_assoc. do 4 f_equal. lia.
Qed.

(** What was written is there. *)
Lemma drop_splice {A} (x : A) o b d : exists rest, drop o (splice x o b d) = b ++ rest.
Proof.
  destruct (decide (b = [])) as [->|Hb]; [by eexists|].
  rewrite splice_cons by done. rewrite drop_app_length' by (by rewrite length_resize). by eexists.
Qed.

(** Split every conjunction and existential of the context. *)
Ltac deex :=
  repeat match goal with
         | H : exists _, _ |- _ => destruct H
         | H : _ /\ _ |- _ => destruct H
         end.
