(* ===== verification/CTypes.v ===== *)
(** * The C types: src/kernel/stddef.go

    The kernel names its integer types as C does.  A type is its width and
    signedness on a 64-bit host; applied to an integer it is Go's conversion
    to that type.  [has_type] is its range. *)

From stdpp Require Import base numbers.
From S2P Require Import Prelude.
Local Open Scope Z_scope.

(** Go's integer types. *)
Inductive gotype := Gint32 | Gint64 | Guint16 | Guint32 | Guint64.

Definition conv (t : gotype) : Z -> Z :=
  match t with
  | Gint32 => int32
  | Gint64 => int64
  | Guint16 => uint16
  | Guint32 => uint32
  | Guint64 => uint64
  end.

Coercion conv : gotype >-> Funclass.

Definition has_type (t : gotype) (x : Z) : Prop :=
  match t with
  | Gint32 => is_i32 x
  | Gint64 => is_i64 x
  | Guint16 => 0 <= x < 65536
  | Guint32 => is_u32 x
  | Guint64 => is_u64 x
  end.

(** [int] and [uint] are 64 bits wide. *)
Definition emuptr : gotype := Guint64.
Definition emutptr : gotype := emuptr.
Definition long_t : gotype := Gint64.
Definition ulong_t : gotype := Guint64.
Definition size_t : gotype := ulong_t.
Definition ssize_t : gotype := long_t.
Definition time_t : gotype := long_t.
Definition suseconds_t : gotype := long_t.
Definition clockid_t : gotype := Gint32.
Definition off_t : gotype := long_t.
Definition dev_t : gotype := ulong_t.
Definition ino_t : gotype := ulong_t.
Definition mode_t : gotype := Guint32.
Definition nlink_t : gotype := Guint32.
Definition uid_t : gotype := Guint32.
Definition gid_t : gotype := Guint32.
Definition pid_t : gotype := Gint32.
Definition emunullptr : Z := emuptr 0.

(** A conversion lands in its type and is the identity on it. *)
Lemma conv_type t x : has_type t (t x).
Proof. destruct t; cbn; wrap_lia. Qed.

Lemma conv_id t x : has_type t x -> t x = x.
Proof. destruct t; cbn; wrap_lia. Qed.

#[export] Hint Resolve conv_type : goint.

(** A union, intersection or difference of two values of a signed or unsigned
    type stays in it: membership is by the bits from the top one on. *)
Lemma is_u64_bits x : is_u64 x <-> 0 <= x /\ forall n, 64 <= n -> Z.testbit x n = false.
Proof.
  unfold is_u64. change 18446744073709551616 with (2 ^ 64). split.
  - intros H. split; [lia|]. intros n Hn. apply (Z.bits_above_log2); [lia|].
    destruct (decide (x = 0)) as [->|]; [cbn; lia|].
    assert (Z.log2 x < 64) by (apply Z.log2_lt_pow2; lia). lia.
  - intros [H0 H]. split; [done|]. destruct (decide (x = 0)) as [->|]; [lia|].
    apply Z.log2_lt_pow2; [lia|]. destruct (Z_lt_le_dec (Z.log2 x) 64); [done|].
    pose proof (H (Z.log2 x) ltac:(done)). rewrite Z.bit_log2 in *; [done|lia].
Qed.

Lemma is_u64_lor x y : is_u64 x -> is_u64 y -> is_u64 (Z.lor x y).
Proof.
  rewrite !is_u64_bits. intros [H1 H2] [H3 H4]. split; [by apply Z.lor_nonneg|].
  intros n Hn. rewrite Z.lor_spec, H2, H4 by done. done.
Qed.

Lemma is_u64_and_not x y : is_u64 x -> is_u64 (and_not x y).
Proof.
  rewrite !is_u64_bits. intros [H1 H2]. unfold and_not. split; [apply Z.ldiff_nonneg; by left|].
  intros n Hn. rewrite Z.ldiff_spec, H2 by done. done.
Qed.

(** An [int32] by its bits: the sign is repeated from bit 31 on. *)
Lemma is_i32_bits x : is_i32 x <-> forall n, 31 <= n -> Z.testbit x n = (x <? 0).
Proof.
  assert (forall y, 0 <= y -> (y < 2 ^ 31 <-> forall n, 31 <= n -> Z.testbit y n = false)) as Hn.
  { intros y Hy. split.
    - intros H n Hn. apply Z.bits_above_log2; [done|].
      destruct (decide (y = 0)) as [->|]; [cbn; lia|].
      assert (Z.log2 y < 31) by (apply Z.log2_lt_pow2; lia). lia.
    - intros H. destruct (decide (y = 0)) as [->|]; [done|].
      apply Z.log2_lt_pow2; [lia|]. destruct (Z_lt_le_dec (Z.log2 y) 31); [done|].
      pose proof (H (Z.log2 y) ltac:(done)). rewrite Z.bit_log2 in *; [done|lia]. }
  unfold is_i32. destruct (Z.ltb_spec x 0) as [Hx|Hx].
  - specialize (Hn (Z.lnot x) ltac:(apply Z.lnot_nonneg; lia)). unfold Z.lnot in Hn. split.
    + intros H n H31. pose proof (proj1 Hn ltac:(lia) n H31) as E.
      change (Z.pred (- x)) with (Z.lnot x) in E. rewrite Z.lnot_spec in E by lia. by destruct (Z.testbit x n).
    + intros H. assert (Z.pred (- x) < 2 ^ 31); [|lia]. apply Hn. intros n H31.
      change (Z.pred (- x)) with (Z.lnot x). rewrite Z.lnot_spec by lia. by rewrite H.
  - specialize (Hn x Hx). rewrite <- Hn. lia.
Qed.

Lemma is_i32_lor x y : is_i32 x -> is_i32 y -> is_i32 (Z.lor x y).
Proof.
  rewrite !is_i32_bits. intros Hx Hy n Hn. rewrite Z.lor_spec, Hx, Hy by done.
  destruct (Z.ltb_spec (Z.lor x y) 0) as [H|H].
  - apply Z.lor_neg in H. destruct (Z.ltb_spec x 0), (Z.ltb_spec y 0); cbn; lia || done.
  - apply Z.lor_nonneg in H. destruct (Z.ltb_spec x 0), (Z.ltb_spec y 0); cbn; lia || done.
Qed.
