(* ===== verification/GoProg.v ===== *)
(** * Go routines as programs

    A goroutine's body is a [prog]: a tree of atomic actions on the shared
    world.  An action may block ([None]); a [for] loop is [Iter]; a panic is a
    leaf, so that deferred calls run before it leaves the function.  The same
    tree has two semantics: [run], which executes it alone until it returns,
    panics, blocks or has made the loop turns it was given, and [step1], one atomic step, from which the
    interleaved semantics of several goroutines is built.  [run_steps] says
    the first is a schedule of the second. *)

From stdpp Require Import base list gmap numbers strings.
From Stdlib Require Import FunctionalExtensionality.
From S2P Require Import Prelude.

Inductive panic :=
| PanicMsg (s : string)      (* panic(...) in the source *)
| PanicNilMap                (* assignment to entry in nil map *)
| PanicIndex                 (* index out of range *)
| PanicMakeLen               (* makeslice: len out of range *)
| PanicTypeAssert            (* x.(T) without ok *)
| PanicSendClosed            (* send on closed channel *)
| PanicCloseClosed           (* close of closed channel *)
| PanicUnlock.               (* sync: Unlock of unlocked RWMutex *)

#[export] Instance panic_eq_dec : EqDecision panic.
Proof. solve_decision. Defined.

Inductive prog (W A : Type) : Type :=
| Ret (a : A)
| Panic (p : panic)
| Act {X : Type} (f : W -> option (W * X)) (k : X -> prog W A)
| Iter {S X : Type} (body : S -> prog W (S + X)) (s : S) (k : X -> prog W A).
Arguments Ret {W A} a.
Arguments Panic {W A} p.
Arguments Act {W A X} f k.
Arguments Iter {W A S X} body s k.

Inductive outcome (W A : Type) : Type :=
| Returned (a : A) (w : W)
| Panicked (p : panic) (w : W)
| Blocked (m : prog W A) (w : W)       (* the next action of [m] is blocked *)
| Unfinished (m : prog W A) (w : W).   (* a loop has made the turns allowed *)
Arguments Returned {W A} a w.
Arguments Panicked {W A} p w.
Arguments Blocked {W A} m w.
Arguments Unfinished {W A} m w.

Section prog.
Context {W : Type}.

Fixpoint bind {A B} (m : prog W A) (k : A -> prog W B) : prog W B :=
  match m with
  | Ret a => k a
  | Panic p => Panic p
  | Act f h => Act f (fun x => bind (h x) k)
  | Iter body s h => Iter body s (fun x => bind (h x) k)
  end.

(** One turn of a loop, then the rest of it. *)
Definition unroll {A S X} (body : S -> prog W (S + X)) (k : X -> prog W A)
    (r : S + X) : prog W A :=
  match r with inl s => Iter body s k | inr x => k x end.

(** [m] with the deferred call [d] run before a panic leaves it. *)
Fixpoint guard_panic {A} (d : prog W unit) (m : prog W A) : prog W A :=
  match m with
  | Ret a => Ret a
  | Panic p => bind d (fun _ => Panic p)
  | Act f h => Act f (fun x => guard_panic d (h x))
  | Iter body s h =>
      Iter (fun s => guard_panic d (body s)) s (fun x => guard_panic d (h x))
  end.

(** [defer d] around [m]: [d] runs when [m] returns and when it panics. *)
Fixpoint with_defer {A} (d : prog W unit) (m : prog W A) : prog W A :=
  match m with
  | Ret a => bind d (fun _ => Ret a)
  | Panic p => bind d (fun _ => Panic p)
  | Act f h => Act f (fun x => with_defer d (h x))
  | Iter body s h =>
      Iter (fun s => guard_panic d (body s)) s (fun x => with_defer d (h x))
  end.

(** The turns of a loop whose body and continuation run as given, [j] more at
    most before the loop is handed back. *)
Fixpoint loop_with {A S X} (body : S -> prog W (S + X)) (k : X -> prog W A)
    (rb : S -> W -> outcome W (S + X)) (rk : X -> W -> outcome W A)
    (j : nat) (s : S) (w : W) : outcome W A :=
  match rb s w with
  | Returned (inl s') w' =>
      match j with
      | O => Unfinished (Iter body s' k) w'
      | Datatypes.S j' => loop_with body k rb rk j' s' w'
      end
  | Returned (inr x) w' => rk x w'
  | Panicked p w' => Panicked p w'
  | Blocked m' w' => Blocked (bind m' (unroll body k)) w'
  | Unfinished m' w' => Unfinished (bind m' (unroll body k)) w'
  end.

(** Run alone.  The number bounds the turns of each loop; a loop that needs
    more is handed back, not cut off. *)
Fixpoint run {A} (n : nat) (m : prog W A) (w : W) : outcome W A :=
  match m with
  | Ret a => Returned a w
  | Panic p => Panicked p w
  | Act f k =>
      match f w with
      | Some (w', x) => run n (k x) w'
      | None => Blocked m w
      end
  | Iter body s k =>
      loop_with body k (fun s => run n (body s)) (fun x => run n (k x)) n s w
  end.

(** The result of a run that returned, and the state a run ended in. *)
Definition value_of {A} (o : outcome W A) : option A :=
  match o with Returned a _ => Some a | _ => None end.
Definition world_of {A} (o : outcome W A) : W :=
  match o with Returned _ w | Panicked _ w | Blocked _ w | Unfinished _ w => w end.

(** One atomic step of a goroutine; [None] when it is blocked or finished. *)
Definition step1 {A} (m : prog W A) (w : W) : option (prog W A * W) :=
  match m with
  | Ret _ | Panic _ => None
  | Act f k => match f w with Some (w', x) => Some (k x, w') | None => None end
  | Iter body s k => Some (bind (body s) (unroll body k), w)
  end.

Definition steps {A} : relation (prog W A * W) :=
  rtc (fun c c' => step1 c.1 c.2 = Some c').

(** ** Laws *)

Lemma value_of_Some {A} (o : outcome W A) a :
  value_of o = Some a -> o = Returned a (world_of o).
Proof. destruct o; cbn; congruence. Qed.

Lemma bind_assoc {A B C} (m : prog W A) (k : A -> prog W B) (h : B -> prog W C) :
  bind (bind m k) h = bind m (fun a => bind (k a) h).
Proof.
  induction m; cbn; try done; f_equal; extensionality x; auto.
Qed.

Lemma bind_ret_r {A} (m : prog W A) : bind m Ret = m.
Proof. induction m; cbn; try done; f_equal; extensionality x; auto. Qed.

Lemma bind_unroll {A B S X} (body : S -> prog W (S + X)) (k : X -> prog W A)
    (h : A -> prog W B) r :
  bind (unroll body k r) h = unroll body (fun x => bind (k x) h) r.
Proof. by destruct r. Qed.

Definition then_run {A B} (n : nat) (k : A -> prog W B) (o : outcome W A) : outcome W B :=
  match o with
  | Returned a w => run n (k a) w
  | Panicked p w => Panicked p w
  | Blocked m w => Blocked (bind m k) w
  | Unfinished m w => Unfinished (bind m k) w
  end.

(** The turns [run] makes of a loop, [j] at most before it is handed back. *)
Definition run_loop {A S X} (n j : nat) (body : S -> prog W (S + X))
    (k : X -> prog W A) (s : S) (w : W) : outcome W A :=
  loop_with body k (fun s => run n (body s)) (fun x => run n (k x)) j s w.

Lemma run_iter {A S X} n (body : S -> prog W (S + X)) s (k : X -> prog W A) w :
  run n (Iter body s k) w = run_loop n n body k s w.
Proof. done. Qed.

Lemma run_loop_eq {A S X} n j (body : S -> prog W (S + X)) (k : X -> prog W A) s w :
  run_loop n j body k s w =
  match run n (body s) w with
  | Returned (inl s') w' =>
      match j with
      | O => Unfinished (Iter body s' k) w'
      | Datatypes.S j' => run_loop n j' body k s' w'
      end
  | Returned (inr x) w' => run n (k x) w'
  | Panicked p w' => Panicked p w'
  | Blocked m' w' => Blocked (bind m' (unroll body k)) w'
  | Unfinished m' w' => Unfinished (bind m' (unroll body k)) w'
  end.
Proof. by destruct j. Qed.

Lemma run_act {A X} n (f : W -> option (W * X)) (k : X -> prog W A) w :
  run n (Act f k) w =
  match f w with Some (w', x) => run n (k x) w' | None => Blocked (Act f k) w end.
Proof. done. Qed.

Lemma run_loop_bind {A B S X} n j (body : S -> prog W (S + X)) (k : X -> prog W A)
    (h : A -> prog W B) s w :
  (forall x w, run n (bind (k x) h) w = then_run n h (run n (k x) w)) ->
  run_loop n j body (fun x => bind (k x) h) s w =
  then_run n h (run_loop n j body k s w).
Proof.
  intros Hk. revert s w. induction j as [|j IH]; intros s w; rewrite ?run_loop_eq;
    destruct (run n (body s) w) as [[s'|x] w'|p w'|m' w'|m' w']; cbn; auto;
    f_equal; rewrite bind_assoc; f_equal; extensionality r; by rewrite bind_unroll.
Qed.

Lemma run_bind {A B} n (m : prog W A) (k : A -> prog W B) w :
  run n (bind m k) w = then_run n k (run n m w).
Proof.
  revert w. induction m as [A a|A p|A X f h IH|A S X body _ s h IH]; intros w.
  - done.
  - done.
  - cbn [bind]. rewrite !run_act. destruct (f w) as [[w' x]|]; [apply IH|done].
  - cbn [bind]. rewrite !run_iter. by apply run_loop_bind.
Qed.

Lemma steps_bind {A B} (k : A -> prog W B) (m m' : prog W A) w w' :
  steps (m, w) (m', w') -> steps (bind m k, w) (bind m' k, w').
Proof.
  intros H.
  remember (m, w) as c eqn:Ec. remember (m', w') as c' eqn:Ec'.
  revert m w m' w' Ec Ec'.
  induction H as [c|c c1 c2 H1 H2 IH]; intros m w m' w' -> Ec'.
  - by simplify_eq.
  - destruct c1 as [m1 w1]. eapply rtc_l; [|by eapply IH].
    cbn in *. destruct m as [a|p|X f h|S X body s h]; cbn in *; try done.
    + destruct (f w) as [[? ?]|]; by simplify_eq.
    + simplify_eq. rewrite bind_assoc. do 3 f_equal.
      extensionality r. by rewrite bind_unroll.
Qed.

(** The configuration an outcome stands for. *)
Definition residual {A} (o : outcome W A) : prog W A * W :=
  match o with
  | Returned a w => (Ret a, w)
  | Panicked p w => (Panic p, w)
  | Blocked m w | Unfinished m w => (m, w)
  end.

Lemma run_loop_steps {A S X} n j (body : S -> prog W (S + X)) (k : X -> prog W A) s w :
  (forall s w, steps (body s, w) (residual (run n (body s) w))) ->
  (forall x w, steps (k x, w) (residual (run n (k x) w))) ->
  steps (Iter body s k, w) (residual (run_loop n j body k s w)).
Proof.
  intros Hb Hk. revert s w. induction j as [|j IH]; intros s w;
    (eapply rtc_l; [done|]); cbn [fst snd]; rewrite run_loop_eq; specialize (Hb s w);
    destruct (run n (body s) w) as [[s'|x] w'|p w'|m' w'|m' w']; cbn in Hb |- *;
    apply (steps_bind (unroll body k)) in Hb; cbn in Hb;
    (etrans; [apply Hb|]); first [apply Hk | apply IH | apply rtc_refl].
Qed.

(** Running alone is one of the schedules: [run] reaches only configurations
    that [step1] reaches. *)
Lemma run_steps {A} n (m : prog W A) w : steps (m, w) (residual (run n m w)).
Proof.
  revert w. induction m as [A a|A p|A X f h IH|A S X body IHb s h IH]; intros w.
  - apply rtc_refl.
  - apply rtc_refl.
  - rewrite run_act. destruct (f w) as [[w' x]|] eqn:E; [|apply rtc_refl].
    eapply rtc_l; [|apply IH]. cbn. by rewrite E.
  - rewrite run_iter. by apply run_loop_steps.
Qed.

(** ** Schedules

    [interleave sch ts w]: the goroutines [ts] take the steps the schedule names,
    in that order; [None] when it names one that cannot step. *)
Fixpoint interleave {A} (sch : list nat) (ts : list (prog W A)) (w : W) :
    option (list (prog W A) * W) :=
  match sch with
  | [] => Some (ts, w)
  | i :: sch =>
      match ts !! i with
      | None => None
      | Some m =>
          match step1 m w with
          | None => None
          | Some (m', w') => interleave sch (<[i := m']> ts) w'
          end
      end
  end.

Lemma interleave_app {A} sch1 sch2 (ts : list (prog W A)) w :
  interleave (sch1 ++ sch2) ts w =
  match interleave sch1 ts w with Some (ts', w') => interleave sch2 ts' w' | None => None end.
Proof.
  revert ts w. induction sch1 as [|i sch1 IH]; intros ts w; cbn; [done|].
  destruct (ts !! i) as [m|]; [|done]. destruct (step1 m w) as [[m' w']|]; [apply IH|done].
Qed.

(** A goroutine that runs alone for a while is a schedule. *)
Lemma steps_interleave {A} i (m m' : prog W A) w w' : steps (m, w) (m', w') ->
  exists k, forall ts, ts !! i = Some m -> interleave (replicate k i) ts w = Some (<[i := m']> ts, w').
Proof.
  intros H. remember (m, w) as c eqn:Ec. remember (m', w') as c' eqn:Ec'. revert m w m' w' Ec Ec'.
  induction H as [c|c [m1 w1] c2 H1 H2 IH]; intros m w m' w' -> Ec'.
  - simplify_eq. exists 0%nat. intros ts Hi. cbn. by rewrite list_insert_id.
  - destruct (IH m1 w1 m' w' eq_refl Ec') as [k Hk]. exists (Datatypes.S k). intros ts Hi. cbn. cbn in H1.
    rewrite Hi, H1, Hk; [by rewrite list_insert_insert_eq|].
    apply list_lookup_insert_eq. by eapply lookup_lt_Some.
Qed.

End prog.
