(* ===== verification/GoSpec.v ===== *)
(** * Specifications of programs

    [spec P m Q R T U]: started in a world that satisfies [P], a run of [m] that
    returns satisfies [Q], one that panics [R], one that blocks leaves a world
    that satisfies [T], and one that is handed back unfinished one that satisfies
    [U].  [keeps I m] is the case where [I] holds before and after a return, a
    panic and a block; [ends P m Q] the case where the run returns or panics.
    The rules follow the structure of programs. *)

From stdpp Require Import base list gmap numbers.
From Stdlib Require Import FunctionalExtensionality.
From S2P Require Import Prelude GoProg.

Section spec.
Context {W : Type}.

Definition spec {A} (P : W -> Prop) (m : prog W A) (Q : A -> W -> Prop)
    (R : panic -> W -> Prop) (T U : W -> Prop) : Prop :=
  forall n w, P w ->
    match run n m w with
    | Returned a w' => Q a w'
    | Panicked p w' => R p w'
    | Blocked _ w' => T w'
    | Unfinished _ w' => U w'
    end.

Definition keeps {A} (I : W -> Prop) (m : prog W A) : Prop :=
  spec I m (fun _ => I) (fun _ => I) I (fun _ => True).

(** What every result satisfies. *)
Definition yields {A} (P : W -> Prop) (m : prog W A) (Q : A -> W -> Prop) : Prop :=
  spec P m Q (fun _ _ => True) (fun _ => True) (fun _ => True).

(** The run ends, whatever number of loop turns it is given. *)
Definition ends {A} (P : W -> Prop) (m : prog W A) (Q : A -> W -> Prop) : Prop :=
  spec P m Q (fun _ => P) (fun _ => False) (fun _ => False).

Lemma spec_bind {A B} P (m : prog W A) (k : A -> prog W B) Q1 Q R T U :
  spec P m Q1 R T U -> (forall a, spec (Q1 a) (k a) Q R T U) ->
  spec P (bind m k) Q R T U.
Proof.
  intros Hm Hk n w HP. specialize (Hm n w HP). rewrite run_bind.
  destruct (run n m w) as [a w'|p w'|m' w'|m' w']; cbn; [by apply Hk|done..].
Qed.

Lemma spec_ret {A} (P : W -> Prop) (a : A) Q R T U :
  (forall w, P w -> Q a w) -> spec P (Ret a) Q R T U.
Proof. intros H n w HP. by apply H. Qed.

Lemma spec_panic {A} (P : W -> Prop) p Q (R : panic -> W -> Prop) T U :
  (forall w, P w -> R p w) -> spec P (Panic p : prog W A) Q R T U.
Proof. intros H n w HP. by apply H. Qed.

Lemma spec_act {A X} P (f : W -> option (W * X)) (k : X -> prog W A) P1 Q R (T : W -> Prop) U :
  (forall w, P w -> match f w with Some (w', x) => P1 x w' | None => T w end) ->
  (forall x, spec (P1 x) (k x) Q R T U) ->
  spec P (Act f k) Q R T U.
Proof.
  intros Hf Hk n w HP. specialize (Hf w HP). rewrite run_act.
  destruct (f w) as [[w' x]|]; [by apply Hk|done].
Qed.

(** A loop, by an invariant [J] on the loop state and the world. *)
Lemma spec_iter {A S X} (P : W -> Prop) (body : S -> prog W (S + X)) s (k : X -> prog W A)
    (J : S -> W -> Prop) (Q1 : X -> W -> Prop) Q R T (U : W -> Prop) :
  (forall w, P w -> J s w) ->
  (forall s w, J s w -> U w) ->
  (forall s, spec (J s) (body s) (fun r w => match r with inl s' => J s' w | inr x => Q1 x w end)
               R T U) ->
  (forall x, spec (Q1 x) (k x) Q R T U) ->
  spec P (Iter body s k) Q R T U.
Proof.
  intros HJ HU Hb Hk n w HP. apply HJ in HP. rewrite run_iter. clear HJ.
  generalize n at 2 as j. intros j. revert s w HP.
  induction j as [|j IH]; intros s w HP; rewrite run_loop_eq;
    specialize (Hb s n w HP) as Hb1;
    destruct (run n (body s) w) as [[s'|x] w'|p w'|m' w'|m' w']; try done; try by apply Hk.
  - by eapply HU.
  - by apply IH.
Qed.

Lemma spec_weaken {A} P P' (m : prog W A) Q Q' R R' (T T' U U' : W -> Prop) :
  spec P' m Q' R' T' U' ->
  (forall w, P w -> P' w) -> (forall a w, Q' a w -> Q a w) ->
  (forall p w, R' p w -> R p w) -> (forall w, T' w -> T w) -> (forall w, U' w -> U w) ->
  spec P m Q R T U.
Proof.
  intros Hm HP HQ HR HT HU n w Hw. specialize (Hm n w (HP w Hw)).
  destruct (run n m w); auto.
Qed.

(** ** Keeping an invariant *)

Lemma keeps_ret {A} (I : W -> Prop) (a : A) : keeps I (Ret a).
Proof. by apply spec_ret. Qed.

Lemma keeps_panic {A} (I : W -> Prop) p : keeps I (Panic p : prog W A).
Proof. by apply spec_panic. Qed.

Lemma keeps_bind {A B} (I : W -> Prop) (m : prog W A) (k : A -> prog W B) :
  keeps I m -> (forall a, keeps I (k a)) -> keeps I (bind m k).
Proof. intros Hm Hk. eapply spec_bind; [apply Hm|apply Hk]. Qed.

Lemma keeps_act {A X} (I : W -> Prop) (f : W -> option (W * X)) (k : X -> prog W A) :
  (forall w w' x, I w -> f w = Some (w', x) -> I w') ->
  (forall x, keeps I (k x)) -> keeps I (Act f k).
Proof.
  intros Hf Hk. apply (spec_act I f k (fun _ => I)); [|apply Hk].
  intros w Hw. destruct (f w) as [[w' x]|] eqn:E; eauto.
Qed.

Lemma keeps_iter {A S X} (I : W -> Prop) (body : S -> prog W (S + X)) s (k : X -> prog W A) :
  (forall s, keeps I (body s)) -> (forall x, keeps I (k x)) -> keeps I (Iter body s k).
Proof.
  intros Hb Hk.
  apply (spec_iter I body s k (fun _ => I) (fun _ => I)); [done|done| |apply Hk].
  intros s'. eapply spec_weaken; [apply Hb|done| |done..]. by intros [].
Qed.

(** ** Results *)

Lemma yields_ret {A} (P : W -> Prop) (a : A) Q :
  (forall w, P w -> Q a w) -> yields P (Ret a) Q.
Proof. apply spec_ret. Qed.

Lemma yields_panic {A} (P : W -> Prop) p Q : yields P (Panic p : prog W A) Q.
Proof. by apply spec_panic. Qed.

Lemma yields_bind {A B} P (m : prog W A) (k : A -> prog W B) Q1 Q :
  yields P m Q1 -> (forall a, yields (Q1 a) (k a) Q) -> yields P (bind m k) Q.
Proof. intros Hm Hk. eapply spec_bind; [apply Hm|apply Hk]. Qed.

Lemma yields_elim {A} P (m : prog W A) Q n w a w' :
  yields P m Q -> P w -> run n m w = Returned a w' -> Q a w'.
Proof. intros H HP E. specialize (H n w HP). by rewrite E in H. Qed.

(** [quiet I m]: every return keeps [I]. *)
Definition quiet {A} (I : W -> Prop) (m : prog W A) : Prop := yields I m (fun _ => I).

Lemma quiet_act {A X} (I : W -> Prop) (f : W -> option (W * X)) (k : X -> prog W A) Q :
  (forall w w' x, I w -> f w = Some (w', x) -> I w') ->
  (forall x, yields I (k x) Q) -> yields I (Act f k) Q.
Proof.
  intros Hf Hk. apply (spec_act I f k (fun _ => I)); [|apply Hk].
  intros w Hw. destruct (f w) as [[w' x]|] eqn:E; eauto.
Qed.

Lemma quiet_iter {A S X} (I : W -> Prop) (body : S -> prog W (S + X)) s (k : X -> prog W A) Q1 Q :
  (forall s, yields I (body s) (fun r w => match r with inl _ => I w | inr x => Q1 x w end)) ->
  (forall x, yields (Q1 x) (k x) Q) -> yields I (Iter body s k) Q.
Proof.
  intros Hb Hk. apply (spec_iter I body s k (fun _ => I) Q1); [done|done| |apply Hk].
  intros s'. eapply spec_weaken; [apply Hb|done..].
Qed.

(** ** Deferred calls *)

(** Running the deferred call of a function that panics with [p]. *)
Definition panic_after {A} (n : nat) (d : prog W unit) (p : panic) (w : W) : outcome W A :=
  run n (bind d (fun _ => Panic p)) w.

Lemma panic_after_bind {A B} n d p w (k : A -> prog W B) :
  then_run n k (panic_after n d p w) = panic_after n d p w.
Proof.
  unfold panic_after. rewrite !run_bind.
  destruct (run n d w) as [[] w'|q w'|d' w'|d' w']; cbn; rewrite ?bind_assoc; done.
Qed.

Lemma guard_panic_bind {A B} (d : prog W unit) (m : prog W A) (k : A -> prog W B) :
  guard_panic d (bind m k) = bind (guard_panic d m) (fun a => guard_panic d (k a)).
Proof.
  induction m as [A a|A p|A X f h IH|A S X body IHb s h IH]; cbn; [done| | |].
  - by rewrite bind_assoc.
  - f_equal. extensionality x. apply IH.
  - f_equal. extensionality x. apply IH.
Qed.

Lemma with_defer_bind {A B} (d : prog W unit) (m : prog W A) (k : A -> prog W B) :
  with_defer d (bind m k) = bind (guard_panic d m) (fun a => with_defer d (k a)).
Proof.
  induction m as [A a|A p|A X f h IH|A S X body IHb s h IH]; cbn; [done| | |].
  - by rewrite bind_assoc.
  - f_equal. extensionality x. apply IH.
  - f_equal. extensionality x. apply IH.
Qed.

Definition guarded {A} (n : nat) (d : prog W unit) (o : outcome W A) : outcome W A :=
  match o with
  | Returned a w => Returned a w
  | Panicked p w => panic_after n d p w
  | Blocked m w => Blocked (guard_panic d m) w
  | Unfinished m w => Unfinished (guard_panic d m) w
  end.

Definition deferred {A} (n : nat) (d : prog W unit) (o : outcome W A) : outcome W A :=
  match o with
  | Returned a w => run n (bind d (fun _ => Ret a)) w
  | Panicked p w => panic_after n d p w
  | Blocked m w => Blocked (with_defer d m) w
  | Unfinished m w => Unfinished (with_defer d m) w
  end.

(** A panic in a loop body ends the loop: the deferred call runs and the panic
    goes on. *)
Lemma panic_after_loop {A S X} n j d p w (body : S -> prog W (S + X)) (k : X -> prog W A) :
  match panic_after n d p w with
  | Returned (inl s') w' =>
      match j with
      | O => Unfinished (Iter body s' k) w'
      | Datatypes.S j' => run_loop n j' body k s' w'
      end
  | Returned (inr x) w' => run n (k x) w'
  | Panicked p' w' => Panicked p' w'
  | Blocked m' w' => Blocked (bind m' (unroll body k)) w'
  | Unfinished m' w' => Unfinished (bind m' (unroll body k)) w'
  end = panic_after n d p w.
Proof.
  unfold panic_after. rewrite !run_bind.
  destruct (run n d w) as [[] w'|q w'|d' w'|d' w']; cbn; rewrite ?bind_assoc; done.
Qed.

Lemma guard_unroll {A S X} d (body : S -> prog W (S + X)) (k : X -> prog W A) m :
  guard_panic d (bind m (unroll body k)) =
  bind (guard_panic d m) (unroll (fun s => guard_panic d (body s)) (fun x => guard_panic d (k x))).
Proof. rewrite guard_panic_bind. f_equal. extensionality r. by destruct r. Qed.

Lemma defer_unroll {A S X} d (body : S -> prog W (S + X)) (k : X -> prog W A) m :
  with_defer d (bind m (unroll body k)) =
  bind (guard_panic d m) (unroll (fun s => guard_panic d (body s)) (fun x => with_defer d (k x))).
Proof. rewrite with_defer_bind. f_equal. extensionality r. by destruct r. Qed.

Lemma run_guard_panic {A} n (d : prog W unit) (m : prog W A) : forall w,
  run n (guard_panic d m) w = guarded n d (run n m w).
Proof.
  induction m as [A a|A p|A X f h IH|A S X body IHb s h IH]; intros w; [done|done| |].
  - cbn [guard_panic]. rewrite !run_act. destruct (f w) as [[w' x]|]; [apply IH|done].
  - cbn [guard_panic]. rewrite !run_iter. generalize n at 2 5 as j. intros j. revert s w.
    induction j as [|j IHj]; intros s w; rewrite !run_loop_eq, IHb;
      destruct (run n (body s) w) as [[s'|x] w'|p w'|m' w'|m' w']; cbn [guarded]; auto;
      rewrite ?guard_unroll; try done;
      first [apply (panic_after_loop n 0) | apply (panic_after_loop n (Datatypes.S j))].
Qed.

(** What a deferred call makes of the run of the body. *)
Lemma run_defer {A} n (d : prog W unit) (m : prog W A) : forall w,
  run n (with_defer d m) w = deferred n d (run n m w).
Proof.
  induction m as [A a|A p|A X f h IH|A S X body IHb s h IH]; intros w; [done|done| |].
  - cbn [with_defer]. rewrite !run_act. destruct (f w) as [[w' x]|]; [apply IH|done].
  - cbn [with_defer]. rewrite !run_iter. generalize n at 2 5 as j. intros j. revert s w.
    induction j as [|j IHj]; intros s w; rewrite !run_loop_eq, run_guard_panic;
      destruct (run n (body s) w) as [[s'|x] w'|p w'|m' w'|m' w']; cbn [guarded deferred]; auto;
      rewrite ?defer_unroll; try done;
      first [apply (panic_after_loop n 0) | apply (panic_after_loop n (Datatypes.S j))].
Qed.

(** The section a deferred call closes. *)
Lemma spec_defer {A} P (d : prog W unit) (m : prog W A) Q1 R1 Q R T U :
  spec P m Q1 R1 T U ->
  (forall a, spec (Q1 a) d (fun _ => Q a) R T U) ->
  (forall p, spec (R1 p) d (fun _ => R p) R T U) ->
  spec P (with_defer d m) Q R T U.
Proof.
  intros Hm Hd Hp n w HP. specialize (Hm n w HP). rewrite run_defer.
  destruct (run n m w) as [a w'|p w'|m' w'|m' w']; cbn; [| |done..].
  - rewrite run_bind. specialize (Hd a n w' Hm). by destruct (run n d w') as [[]| | |].
  - unfold panic_after. rewrite run_bind. specialize (Hp p n w' Hm).
    by destruct (run n d w') as [[]| | |].
Qed.

Lemma keeps_defer {A} (I : W -> Prop) (d : prog W unit) (m : prog W A) :
  keeps I m -> keeps I d -> keeps I (with_defer d m).
Proof. intros Hm Hd. eapply spec_defer; [apply Hm| |]; intros; apply Hd. Qed.

Lemma yields_defer {A} P (d : prog W unit) (m : prog W A) Q :
  yields P m Q -> (forall a, quiet (Q a) d) -> yields P (with_defer d m) Q.
Proof.
  intros Hm Hd. eapply (spec_defer _ _ _ Q (fun _ _ => True)); [apply Hm|apply Hd|].
  intros p n w _. by destruct (run n d w).
Qed.

End spec.
