(* ===== verification/GoTotal.v ===== *)
(** * Termination of programs

    [total P m Q R]: started in a world that satisfies [P], [m] comes to an end
    within some number of loop turns: it returns with [Q], panics with [R] or
    blocks, and is never handed back unfinished.  More turns than it needs make
    no difference ([run_more]).  A loop ends by a measure that falls on every
    turn that goes round again ([total_iter]). *)

From stdpp Require Import base list gmap numbers.
From S2P Require Import Prelude GoProg GoSpec.

Section total.
Context {W : Type}.

Definition finished {A} (o : outcome W A) : Prop :=
  match o with Unfinished _ _ => False | _ => True end.

Lemma run_loop_more {A S X} n n' (body : S -> prog W (S + X)) (k : X -> prog W A) :
  (forall s w, finished (run n (body s) w) -> run n' (body s) w = run n (body s) w) ->
  (forall x w, finished (run n (k x) w) -> run n' (k x) w = run n (k x) w) ->
  forall j j' s w, j <= j' -> finished (run_loop n j body k s w) ->
  run_loop n' j' body k s w = run_loop n j body k s w.
Proof.
  intros Hb Hk. induction j as [|j IH]; intros j' s w Hj Hf; rewrite !run_loop_eq in *.
  - destruct (run n (body s) w) as [[s1|x] w1|p w1|m1 w1|m1 w1] eqn:E; try done;
      rewrite (Hb s w) by (by rewrite E); rewrite E; auto.
  - destruct (run n (body s) w) as [[s1|x] w1|p w1|m1 w1|m1 w1] eqn:E; try done;
      rewrite (Hb s w) by (by rewrite E); rewrite E; auto.
    destruct j' as [|j']; [lia|]. apply IH; [lia|done].
Qed.

(** A run that came to an end is the same with more turns allowed. *)
Lemma run_more {A} (m : prog W A) : forall n n' w,
  n <= n' -> finished (run n m w) -> run n' m w = run n m w.
Proof.
  induction m as [A a|A p|A X f k IH|A S X body IHb s k IH]; intros n n' w Hn Hf; [done|done| |].
  - rewrite !run_act in *. destruct (f w) as [[w' x]|]; [by apply IH|done].
  - rewrite !run_iter in *. apply run_loop_more; auto.
Qed.

Definition total {A} (P : W -> Prop) (m : prog W A) (Q : A -> W -> Prop)
    (R : panic -> W -> Prop) : Prop :=
  forall w, P w -> exists n,
    match run n m w with
    | Returned a w' => Q a w'
    | Panicked p w' => R p w'
    | Blocked _ _ => True
    | Unfinished _ _ => False
    end.

(** For all larger numbers of turns. *)
Lemma total_finished {A} P (m : prog W A) Q R w :
  total P m Q R -> P w -> exists n0, forall n, n0 <= n -> finished (run n m w).
Proof.
  intros Hm HP. destruct (Hm w HP) as (n0 & H). exists n0. intros n Hn.
  assert (finished (run n0 m w)) as Hf by (by destruct (run n0 m w)).
  by rewrite (run_more m n0 n w Hn Hf).
Qed.

Lemma total_ret {A} (P : W -> Prop) (a : A) Q R :
  (forall w, P w -> Q a w) -> total P (Ret a) Q R.
Proof. intros H w HP. exists 0. by apply H. Qed.

Lemma total_panic {A} (P : W -> Prop) p Q (R : panic -> W -> Prop) :
  (forall w, P w -> R p w) -> total P (Panic p : prog W A) Q R.
Proof. intros H w HP. exists 0. by apply H. Qed.

Lemma total_act {A X} P (f : W -> option (W * X)) (k : X -> prog W A) P1 Q R :
  (forall w, P w -> match f w with Some (w', x) => P1 x w' | None => True end) ->
  (forall x, total (P1 x) (k x) Q R) -> total P (Act f k) Q R.
Proof.
  intros Hf Hk w HP. specialize (Hf w HP).
  destruct (f w) as [[w' x]|] eqn:E; [|exists 0; by rewrite run_act, E].
  destruct (Hk x w' Hf) as (n & Hn). exists n. by rewrite run_act, E.
Qed.

Lemma total_weaken {A} P P' (m : prog W A) Q Q' R R' :
  total P' m Q' R' -> (forall w, P w -> P' w) -> (forall a w, Q' a w -> Q a w) ->
  (forall p w, R' p w -> R p w) -> total P m Q R.
Proof.
  intros Hm HP HQ HR w Hw. destruct (Hm w (HP w Hw)) as (n & H). exists n.
  destruct (run n m w); auto.
Qed.

Lemma total_pure {A} (P : W -> Prop) (F : Prop) (m : prog W A) Q R :
  (F -> total P m Q R) -> total (fun w => P w /\ F) m Q R.
Proof. intros H w [HP HF]. by apply H. Qed.

Lemma total_bind {A B} P (m : prog W A) (k : A -> prog W B) Q1 Q R :
  total P m Q1 R -> (forall a, total (Q1 a) (k a) Q R) -> total P (bind m k) Q R.
Proof.
  intros Hm Hk w HP. destruct (Hm w HP) as (n1 & H1).
  destruct (run n1 m w) as [a w1|p w1|m1 w1|m1 w1] eqn:E1.
  - destruct (Hk a w1 H1) as (n2 & H2). exists (n1 `max` n2). rewrite run_bind.
    rewrite (run_more m n1) by (rewrite ?E1; done || lia). rewrite E1. cbn.
    rewrite (run_more (k a) n2); [done|lia|]. by destruct (run n2 (k a) w1).
  - exists n1. by rewrite run_bind, E1.
  - exists n1. by rewrite run_bind, E1.
  - done.
Qed.

(** A loop whose measure falls. *)
Lemma total_iter {A S X} (P : W -> Prop) (body : S -> prog W (S + X)) s (k : X -> prog W A)
    (J : S -> W -> Prop) (mu : S -> W -> nat) (Q1 : X -> W -> Prop) Q R :
  (forall w, P w -> J s w) ->
  (forall s i, total (fun w => J s w /\ mu s w = i) (body s)
     (fun r w => match r with inl s' => J s' w /\ mu s' w < i | inr x => Q1 x w end) R) ->
  (forall x, total (Q1 x) (k x) Q R) ->
  total P (Iter body s k) Q R.
Proof.
  intros HP Hb Hk w Hw. apply HP in Hw. clear HP.
  remember (mu s w) as i eqn:Hi. revert s w Hw Hi.
  induction i as [i IH] using lt_wf_ind. intros s w Hw Hi.
  destruct (Hb s i w) as (n1 & H1); [by split|].
  assert (finished (run n1 (body s) w)) as Hf by (by destruct (run n1 (body s) w)).
  destruct (run n1 (body s) w) as [[s'|x] w'|p w'|m' w'|m' w'] eqn:E1; [| | | |done].
  - destruct H1 as [HJ Hlt]. destruct (IH _ Hlt s' w' HJ eq_refl) as (n2 & H2).
    exists (Datatypes.S (n1 `max` n2)). rewrite run_iter, run_loop_eq.
    rewrite (run_more (body s) n1) by (rewrite ?E1; done || lia). rewrite E1.
    rewrite run_iter in H2. rewrite (run_loop_more n2 _ body k) with (j := n2); [done|..].
    + intros; apply run_more; [lia|done].
    + intros; apply run_more; [lia|done].
    + lia.
    + by destruct (run_loop n2 n2 body k s' w').
  - destruct (Hk x w' H1) as (n2 & H2). exists (n1 `max` n2). rewrite run_iter, run_loop_eq.
    rewrite (run_more (body s) n1) by (rewrite ?E1; done || lia). rewrite E1.
    rewrite (run_more (k x) n2); [done|lia|]. by destruct (run n2 (k x) w').
  - exists n1. by rewrite run_iter, run_loop_eq, E1.
  - exists n1. by rewrite run_iter, run_loop_eq, E1.
Qed.

Lemma total_defer {A} P (d : prog W unit) (m : prog W A) Q1 R1 Q R :
  total P m Q1 R1 ->
  (forall a, total (Q1 a) d (fun _ => Q a) R) -> (forall p, total (R1 p) d (fun _ => R p) R) ->
  total P (with_defer d m) Q R.
Proof.
  intros Hm Hd Hp w HP. destruct (Hm w HP) as (n1 & H1).
  assert (finished (run n1 m w)) as Hf by (by destruct (run n1 m w)).
  destruct (run n1 m w) as [a w1|p w1|m1 w1|m1 w1] eqn:E1; [| | |done].
  - destruct (Hd a w1 H1) as (n2 & H2). exists (n1 `max` n2). rewrite run_defer.
    rewrite (run_more m n1) by (rewrite ?E1; done || lia). rewrite E1. cbn. rewrite run_bind.
    rewrite (run_more d n2); [by destruct (run n2 d w1)|lia|by destruct (run n2 d w1)].
  - destruct (Hp p w1 H1) as (n2 & H2). exists (n1 `max` n2). rewrite run_defer.
    rewrite (run_more m n1) by (rewrite ?E1; done || lia). rewrite E1. cbn.
    unfold panic_after. rewrite run_bind.
    rewrite (run_more d n2); [by destruct (run n2 d w1)|lia|by destruct (run n2 d w1)].
  - exists n1. by rewrite run_defer, E1.
Qed.

End total.
