(* ===== verification/Ghost.v ===== *)
(** * Ghost state for goroutines

    A way to reason about every interleaving.  Each goroutine carries a ghost
    value: what it holds, what it is registered for.  [guided m g gp Q] says
    that a goroutine with the ghost value [g] can run [m] so that every action
    moves the ghost value as [act_ok] allows, returns with a [Q] and panics with
    the value [gp].  When the actions allowed keep an invariant between the ghost
    values of all goroutines and the state, every interleaving keeps it
    ([pool_kept]). *)

From stdpp Require Import base list.
From S2P Require Import Prelude GoProg GoSpec.

Section ghost.
Context {W G : Type}.

(** [act_ok g f R]: with the ghost value [g] the action [f] is allowed, and its
    result [x] comes with a new value in [R x]. *)
Context (act_ok : forall X, G -> (W -> option (W * X)) -> (X -> G -> Prop) -> Prop).
Context (panic_ok : panic -> Prop).

Fixpoint guided {A} (m : prog W A) (g gp : G) (Q : A -> G -> Prop) : Prop :=
  match m with
  | Ret a => Q a g
  | Panic p => g = gp /\ panic_ok p
  | Act f k => exists R, act_ok _ g f R /\ forall x g1, R x g1 -> guided (k x) g1 gp Q
  | Iter body s k =>
      (forall s, guided (body s) g gp (fun _ g' => g' = g)) /\ forall x, guided (k x) g gp Q
  end.

Lemma guided_mono {A} (m : prog W A) : forall g gp (Q Q' : A -> G -> Prop),
  (forall a g', Q a g' -> Q' a g') -> guided m g gp Q -> guided m g gp Q'.
Proof.
  induction m as [A a|A p|A X f k IH|A S X body _ s k IH]; intros g gp Q Q' HQ; cbn.
  - apply HQ.
  - done.
  - intros (R & Hf & Hk). exists R. split; [done|]. intros x g1 Hx. by eapply IH; [|apply Hk].
  - intros [Hb Hk]. split; [done|]. intros x. by eapply IH; [|apply Hk].
Qed.

Lemma guided_bind {A B} (m : prog W A) (k : A -> prog W B) : forall g gp Q Q',
  guided m g gp Q -> (forall a g', Q a g' -> guided (k a) g' gp Q') -> guided (bind m k) g gp Q'.
Proof.
  induction m as [A a|A p|A X f h0 IH|A S X body _ s h0 IH]; intros g gp Q Q' Hm Hk; cbn in *.
  - by apply Hk.
  - done.
  - destruct Hm as (R & Hf & Hm). exists R. split; [done|]. intros x g1 Hx. eauto.
  - destruct Hm as [Hb Hm]. split; [done|]. intros x. eauto.
Qed.

Lemma guided_guard {A} (d : prog W unit) (m : prog W A) : forall g g1 gp Q,
  guided m g g1 Q -> guided d g1 gp (fun _ g' => g' = gp) -> guided (guard_panic d m) g gp Q.
Proof.
  induction m as [A a|A p|A X f k IH|A S X body IHb s k IH]; intros g g1 gp Q Hm Hd; cbn in *.
  - done.
  - destruct Hm as [-> Hp]. eapply guided_bind; [apply Hd|]. cbn. by intros _ g' ->.
  - destruct Hm as (R & Hf & Hm). exists R. split; [done|]. intros x g2 Hx. eauto.
  - destruct Hm as [Hb Hm]. split; [|eauto]. intros s'. eauto.
Qed.

(** A deferred call runs from where the body returns and from where it panics. *)
Lemma guided_defer {A} (d : prog W unit) (m : prog W A) : forall g g1 gp Q Q',
  guided m g g1 Q -> guided d g1 gp (fun _ g' => g' = gp) ->
  (forall a g', Q a g' -> guided d g' gp (fun _ => Q' a)) ->
  guided (with_defer d m) g gp Q'.
Proof.
  induction m as [A a|A p|A X f k IH|A S X body IHb s k IH]; intros g g1 gp Q Q' Hm Hd Hr; cbn in *.
  - eapply guided_bind; [by apply Hr|]. done.
  - destruct Hm as [-> Hp]. eapply guided_bind; [apply Hd|]. cbn. by intros _ g' ->.
  - destruct Hm as (R & Hf & Hm). exists R. split; [done|]. intros x g2 Hx. eauto.
  - destruct Hm as [Hb Hm]. split; [|eauto]. intros s'. by eapply guided_guard.
Qed.

(** ** Pools *)

Context (Inv : list G -> W -> Prop).

(** What is allowed keeps the invariant, which does not depend on the order of
    the goroutines. *)
Class Sound : Prop := {
  sound_perm :: Proper ((≡ₚ) ==> (=) ==> iff) Inv;
  sound_act {X} g (f : W -> option (W * X)) R others w w' x :
    act_ok X g f R -> Inv (g :: others) w -> f w = Some (w', x) ->
    exists g1, R x g1 /\ Inv (g1 :: others) w'
}.
Context `{!Sound}.

Lemma guided_step {A} (m m' : prog W A) g gp Q others w w' :
  guided m g gp Q -> Inv (g :: others) w -> step1 m w = Some (m', w') ->
  exists g', guided m' g' gp Q /\ Inv (g' :: others) w'.
Proof.
  destruct m as [a|p|X f k|S X body s k]; cbn; try done.
  - intros (R & Hf & Hk) Hw E. destruct (f w) as [[w1 x]|] eqn:Ef; [|done]. simplify_eq.
    destruct (sound_act _ _ _ _ _ _ _ Hf Hw Ef) as (g1 & HR & Hw1). eauto.
  - intros [Hb Hk] Hw E. simplify_eq. exists g. split; [|done].
    eapply guided_bind; [apply Hb|]. intros [s'|x] g' ->; cbn; [by split|apply Hk].
Qed.

(** A goroutine that ends, and panics, with one of the ghost values [home]. *)
Definition homing {A} (home : G -> Prop) (m : prog W A) (g : G) : Prop :=
  exists g0, home g0 /\ guided m g g0 (fun _ g' => g' = g0).

Definition pool_guided {A} (home : G -> Prop) (ts : list (prog W A)) (gs : list G) : Prop :=
  Forall2 (homing home) ts gs.

Lemma homing_step {A} home (m m' : prog W A) g others w w' :
  homing home m g -> Inv (g :: others) w -> step1 m w = Some (m', w') ->
  exists g', homing home m' g' /\ Inv (g' :: others) w'.
Proof.
  intros (g0 & Hg0 & Hm) Hw E. destruct (guided_step m m' g g0 _ others w w' Hm Hw E) as (g' & Hm' & Hw').
  exists g'. split; [by exists g0|done].
Qed.

Lemma pool_pick {A} home (ts : list (prog W A)) gs i m w :
  pool_guided home ts gs -> Inv gs w -> ts !! i = Some m ->
  exists g others, gs !! i = Some g /\ gs ≡ₚ g :: others /\
    homing home m g /\ Inv (g :: others) w /\
    forall g', <[i := g']> gs ≡ₚ g' :: others.
Proof.
  intros HF Hw Hi. destruct (Forall2_lookup_l _ _ _ _ _ HF Hi) as (g & Hg & Hd).
  exists g, (delete i gs). pose proof (delete_Permutation gs i g Hg) as HP.
  split_and!; try done; [by rewrite <- HP|].
  intros g'. pose proof (lookup_lt_Some _ _ _ Hg) as Hlt.
  rewrite insert_take_drop, delete_take_drop by done. by rewrite Permutation_middle.
Qed.

Lemma pool_kept {A} home sch : forall (ts ts' : list (prog W A)) gs w w',
  pool_guided home ts gs -> Inv gs w -> interleave sch ts w = Some (ts', w') ->
  exists gs', pool_guided home ts' gs' /\ Inv gs' w'.
Proof.
  induction sch as [|i sch IH]; intros ts ts' gs w w' HF Hw E; cbn in E; [simplify_eq; eauto|].
  destruct (ts !! i) as [m|] eqn:Ei; [|done].
  destruct (step1 m w) as [[m1 w1]|] eqn:Es; [|done].
  destruct (pool_pick home ts gs i m w HF Hw Ei) as (g & others & Hg & HP & Hd & Hw1 & Hins).
  destruct (homing_step home m m1 g others w w1 Hd Hw1 Es) as (g1 & Hd1 & Hw2).
  eapply (IH _ _ (<[i := g1]> gs)); [by apply Forall2_insert|by rewrite Hins|done].
Qed.

Lemma homing_eq {A} g0 (m : prog W A) g : homing (eq g0) m g <-> guided m g g0 (fun _ g' => g' = g0).
Proof. split; [by intros (? & <- & ?)|]. by exists g0. Qed.

(** Every goroutine starts at home. *)
Lemma pool_begin {A} home (ts : list (prog W A)) gs :
  Forall2 (fun m g => home g /\ guided m g g (fun _ g' => g' = g)) ts gs -> pool_guided home ts gs.
Proof. intros HF. eapply Forall2_impl; [exact HF|]. intros m g [? ?]. by exists g. Qed.

End ghost.
