(* ===== verification/LinuxABI.v ===== *)
(** * The Linux ABI constants of the root package

    [NR] (src/syscall.go) and [Errno] (src/errno.go) are Go [int] types with one
    [const] block each, numbered by [iota].  The constants are constructors
    here, in the order of the source; [NR_val] and [Errno_val] are the numbers
    the blocks give them. *)

From stdpp Require Import base list gmap numbers.
From S2P Require Import Prelude.
Local Open Scope Z_scope.

Inductive NR :=
| NR_none | NR_reject | NR_ignore | NR_io_setup | NR_io_destroy | NR_io_submit
| NR_io_cancel | NR_io_getevents | NR_setxattr | NR_lsetxattr | NR_fsetxattr | NR_getxattr
| NR_lgetxattr | NR_fgetxattr | NR_listxattr | NR_llistxattr | NR_flistxattr
| NR_removexattr | NR_lremovexattr | NR_fremovexattr | NR_getcwd | NR_lookup_dcookie
| NR_eventfd2 | NR_epoll_create1 | NR_epoll_ctl | NR_epoll_pwait | NR_dup | NR_dup3
| NR_fcntl | NR_inotify_init1 | NR_inotify_add_watch | NR_inotify_rm_watch | NR_ioctl
| NR_ioprio_set | NR_ioprio_get | NR_flock | NR_mknodat | NR_mkdirat | NR_unlinkat
| NR_symlinkat | NR_linkat | NR_renameat | NR_umount2 | NR_mount | NR_pivot_root
| NR_nfsservctl | NR_statfs | NR_fstatfs | NR_truncate | NR_ftruncate | NR_fallocate
| NR_faccessat | NR_chdir | NR_fchdir | NR_chroot | NR_fchmod | NR_fchmodat | NR_fchownat
| NR_fchown | NR_open | NR_openat | NR_close | NR_vhangup | NR_pipe2 | NR_quotactl
| NR_getdents64 | NR_lseek | NR_read | NR_write | NR_readv | NR_writev | NR_pread64
| NR_pwrite64 | NR_preadv | NR_pwritev | NR_sendfile | NR_pselect6 | NR_ppoll
| NR_signalfd4 | NR_vmsplice | NR_splice | NR_tee | NR_readlinkat | NR_fstatat64
| NR_fstat64 | NR_sync | NR_fsync | NR_fdatasync | NR_sync_file_range | NR_timerfd_create
| NR_timerfd_settime | NR_timerfd_gettime | NR_utimensat | NR_acct | NR_capget | NR_capset
| NR_personality | NR_exit | NR_exit_group | NR_waitid | NR_set_tid_address | NR_unshare
| NR_futex | NR_set_robust_list | NR_get_robust_list | NR_nanosleep | NR_getitimer
| NR_setitimer | NR_kexec_load | NR_init_module | NR_delete_module | NR_timer_create
| NR_timer_gettime | NR_timer_getoverrun | NR_timer_settime | NR_timer_delete
| NR_clock_settime | NR_clock_gettime | NR_clock_getres | NR_clock_nanosleep | NR_syslog
| NR_ptrace | NR_sched_setparam | NR_sched_setscheduler | NR_sched_getscheduler
| NR_sched_getparam | NR_sched_setaffinity | NR_sched_getaffinity | NR_sched_yield
| NR_sched_get_priority_max | NR_sched_get_priority_min | NR_sched_rr_get_interval
| NR_restart_syscall | NR_kill | NR_tkill | NR_tgkill | NR_sigaltstack | NR_rt_sigsuspend
| NR_rt_sigaction | NR_rt_sigprocmask | NR_rt_sigpending | NR_rt_sigtimedwait
| NR_rt_sigqueueinfo | NR_rt_sigreturn | NR_setpriority | NR_getpriority | NR_reboot
| NR_setregid | NR_setgid | NR_setreuid | NR_setuid | NR_setresuid | NR_getresuid
| NR_setresgid | NR_getresgid | NR_setfsuid | NR_setfsgid | NR_times | NR_setpgid
| NR_getpgid | NR_getsid | NR_setsid | NR_getgroups | NR_setgroups | NR_uname
| NR_sethostname | NR_setdomainname | NR_getrlimit | NR_setrlimit | NR_getrusage | NR_umask
| NR_prctl | NR_getcpu | NR_gettimeofday | NR_settimeofday | NR_adjtimex | NR_getpid
| NR_getppid | NR_getuid | NR_geteuid | NR_getgid | NR_getegid | NR_gettid | NR_sysinfo
| NR_mq_open | NR_mq_unlink | NR_mq_timedsend | NR_mq_timedreceive | NR_mq_notify
| NR_mq_getsetattr | NR_msgget | NR_msgctl | NR_msgrcv | NR_msgsnd | NR_semget | NR_semctl
| NR_semtimedop | NR_semop | NR_shmget | NR_shmctl | NR_shmat | NR_shmdt | NR_socket
| NR_socketpair | NR_bind | NR_listen | NR_accept | NR_connect | NR_getsockname
| NR_getpeername | NR_sendto | NR_recvfrom | NR_setsockopt | NR_getsockopt | NR_shutdown
| NR_sendmsg | NR_recvmsg | NR_readahead | NR_brk | NR_munmap | NR_mremap | NR_add_key
| NR_request_key | NR_keyctl | NR_clone | NR_execve | NR_mmap | NR_mmap2 | NR_fadvise64
| NR_swapon | NR_swapoff | NR_mprotect | NR_msync | NR_mlock | NR_munlock | NR_mlockall
| NR_munlockall | NR_mincore | NR_madvise | NR_remap_file_pages | NR_mbind
| NR_get_mempolicy | NR_set_mempolicy | NR_migrate_pages | NR_move_pages
| NR_rt_tgsigqueueinfo | NR_perf_event_open | NR_accept4 | NR_recvmmsg
| NR_arch_specific_syscall | NR_wait4 | NR_prlimit64 | NR_fanotify_init | NR_fanotify_mark
| NR_name_to_handle_at | NR_open_by_handle_at | NR_clock_adjtime | NR_syncfs | NR_setns
| NR_sendmmsg | NR_process_vm_readv | NR_process_vm_writev | NR_kcmp | NR_finit_module
| NR_sched_setattr | NR_sched_getattr | NR_renameat2 | NR_seccomp | NR_getrandom
| NR_memfd_create | NR_bpf | NR_execveat | NR_userfaultfd | NR_membarrier | NR_mlock2
| NR_copy_file_range | NR_preadv2 | NR_pwritev2 | NR_pkey_mprotect | NR_pkey_alloc
| NR_pkey_free | NR_statx | NR_io_pgetevents | NR_rseq | NR_kexec_file_load.

(** The const block of src/syscall.go, in source order. *)
Definition NR_block_1 : list NR :=
  [NR_none; NR_reject; NR_ignore; NR_io_setup; NR_io_destroy; NR_io_submit; NR_io_cancel;
   NR_io_getevents; NR_setxattr; NR_lsetxattr; NR_fsetxattr; NR_getxattr; NR_lgetxattr;
   NR_fgetxattr; NR_listxattr; NR_llistxattr; NR_flistxattr; NR_removexattr;
   NR_lremovexattr; NR_fremovexattr; NR_getcwd; NR_lookup_dcookie; NR_eventfd2;
   NR_epoll_create1; NR_epoll_ctl; NR_epoll_pwait; NR_dup; NR_dup3; NR_fcntl;
   NR_inotify_init1; NR_inotify_add_watch; NR_inotify_rm_watch; NR_ioctl; NR_ioprio_set;
   NR_ioprio_get; NR_flock; NR_mknodat; NR_mkdirat; NR_unlinkat; NR_symlinkat; NR_linkat;
   NR_renameat; NR_umount2; NR_mount; NR_pivot_root; NR_nfsservctl; NR_statfs; NR_fstatfs;
   NR_truncate; NR_ftruncate; NR_fallocate; NR_faccessat; NR_chdir; NR_fchdir; NR_chroot;
   NR_fchmod; NR_fchmodat; NR_fchownat; NR_fchown; NR_open; NR_openat; NR_close;
   NR_vhangup; NR_pipe2; NR_quotactl; NR_getdents64; NR_lseek; NR_read; NR_write; NR_readv;
   NR_writev; NR_pread64; NR_pwrite64; NR_preadv; NR_pwritev; NR_sendfile; NR_pselect6;
   NR_ppoll; NR_signalfd4; NR_vmsplice; NR_splice; NR_tee; NR_readlinkat; NR_fstatat64;
   NR_fstat64; NR_sync; NR_fsync; NR_fdatasync; NR_sync_file_range; NR_timerfd_create;
   NR_timerfd_settime; NR_timerfd_gettime; NR_utimensat; NR_acct; NR_capget; NR_capset;
   NR_personality; NR_exit; NR_exit_group; NR_waitid; NR_set_tid_address; NR_unshare;
   NR_futex; NR_set_robust_list; NR_get_robust_list; NR_nanosleep; NR_getitimer;
   NR_setitimer; NR_kexec_load; NR_init_module; NR_delete_module; NR_timer_create;
   NR_timer_gettime; NR_timer_getoverrun; NR_timer_settime; NR_timer_delete;
   NR_clock_settime; NR_clock_gettime; NR_clock_getres; NR_clock_nanosleep; NR_syslog;
   NR_ptrace; NR_sched_setparam; NR_sched_setscheduler; NR_sched_getscheduler;
   NR_sched_getparam; NR_sched_setaffinity; NR_sched_getaffinity; NR_sched_yield;
   NR_sched_get_priority_max; NR_sched_get_priority_min; NR_sched_rr_get_interval;
   NR_restart_syscall; NR_kill; NR_tkill; NR_tgkill; NR_sigaltstack; NR_rt_sigsuspend;
   NR_rt_sigaction; NR_rt_sigprocmask; NR_rt_sigpending; NR_rt_sigtimedwait;
   NR_rt_sigqueueinfo; NR_rt_sigreturn].

Definition NR_block_2 : list NR :=
  [NR_setpriority; NR_getpriority; NR_reboot; NR_setregid; NR_setgid; NR_setreuid;
   NR_setuid; NR_setresuid; NR_getresuid; NR_setresgid; NR_getresgid; NR_setfsuid;
   NR_setfsgid; NR_times; NR_setpgid; NR_getpgid; NR_getsid; NR_setsid; NR_getgroups;
   NR_setgroups; NR_uname; NR_sethostname; NR_setdomainname; NR_getrlimit; NR_setrlimit;
   NR_getrusage; NR_umask; NR_prctl; NR_getcpu; NR_gettimeofday; NR_settimeofday;
   NR_adjtimex; NR_getpid; NR_getppid; NR_getuid; NR_geteuid; NR_getgid; NR_getegid;
   NR_gettid; NR_sysinfo; NR_mq_open; NR_mq_unlink; NR_mq_timedsend; NR_mq_timedreceive;
   NR_mq_notify; NR_mq_getsetattr; NR_msgget; NR_msgctl; NR_msgrcv; NR_msgsnd; NR_semget;
   NR_semctl; NR_semtimedop; NR_semop; NR_shmget; NR_shmctl; NR_shmat; NR_shmdt; NR_socket;
   NR_socketpair; NR_bind; NR_listen; NR_accept; NR_connect; NR_getsockname;
   NR_getpeername; NR_sendto; NR_recvfrom; NR_setsockopt; NR_getsockopt; NR_shutdown;
   NR_sendmsg; NR_recvmsg; NR_readahead; NR_brk; NR_munmap; NR_mremap; NR_add_key;
   NR_request_key; NR_keyctl; NR_clone; NR_execve; NR_mmap; NR_mmap2; NR_fadvise64;
   NR_swapon; NR_swapoff; NR_mprotect; NR_msync; NR_mlock; NR_munlock; NR_mlockall;
   NR_munlockall; NR_mincore; NR_madvise; NR_remap_file_pages; NR_mbind; NR_get_mempolicy;
   NR_set_mempolicy; NR_migrate_pages; NR_move_pages; NR_rt_tgsigqueueinfo;
   NR_perf_event_open; NR_accept4; NR_recvmmsg; NR_arch_specific_syscall; NR_wait4;
   NR_prlimit64; NR_fanotify_init; NR_fanotify_mark; NR_name_to_handle_at;
   NR_open_by_handle_at; NR_clock_adjtime; NR_syncfs; NR_setns; NR_sendmmsg;
   NR_process_vm_readv; NR_process_vm_writev; NR_kcmp; NR_finit_module; NR_sched_setattr;
   NR_sched_getattr; NR_renameat2; NR_seccomp; NR_getrandom; NR_memfd_create; NR_bpf;
   NR_execveat; NR_userfaultfd; NR_membarrier; NR_mlock2; NR_copy_file_range; NR_preadv2;
   NR_pwritev2; NR_pkey_mprotect; NR_pkey_alloc; NR_pkey_free; NR_statx; NR_io_pgetevents;
   NR_rseq; NR_kexec_file_load].

(** The [const] block, in two parts. *)
Definition NR_block : list NR := NR_block_1 ++ NR_block_2.

(** [iota]: the number of a constant is its position in the block. *)
Definition NR_val (c : NR) : Z :=
  match c with
  | NR_none => 0 | NR_reject => 1 | NR_ignore => 2 | NR_io_setup => 3
  | NR_io_destroy => 4 | NR_io_submit => 5 | NR_io_cancel => 6 | NR_io_getevents => 7
  | NR_setxattr => 8 | NR_lsetxattr => 9 | NR_fsetxattr => 10 | NR_getxattr => 11
  | NR_lgetxattr => 12 | NR_fgetxattr => 13 | NR_listxattr => 14 | NR_llistxattr => 15
  | NR_flistxattr => 16 | NR_removexattr => 17 | NR_lremovexattr => 18 | NR_fremovexattr => 19
  | NR_getcwd => 20 | NR_lookup_dcookie => 21 | NR_eventfd2 => 22 | NR_epoll_create1 => 23
  | NR_epoll_ctl => 24 | NR_epoll_pwait => 25 | NR_dup => 26 | NR_dup3 => 27
  | NR_fcntl => 28 | NR_inotify_init1 => 29 | NR_inotify_add_watch => 30 | NR_inotify_rm_watch => 31
  | NR_ioctl => 32 | NR_ioprio_set => 33 | NR_ioprio_get => 34 | NR_flock => 35
  | NR_mknodat => 36 | NR_mkdirat => 37 | NR_unlinkat => 38 | NR_symlinkat => 39
  | NR_linkat => 40 | NR_renameat => 41 | NR_umount2 => 42 | NR_mount => 43
  | NR_pivot_root => 44 | NR_nfsservctl => 45 | NR_statfs => 46 | NR_fstatfs => 47
  | NR_truncate => 48 | NR_ftruncate => 49 | NR_fallocate => 50 | NR_faccessat => 51
  | NR_chdir => 52 | NR_fchdir => 53 | NR_chroot => 54 | NR_fchmod => 55
  | NR_fchmodat => 56 | NR_fchownat => 57 | NR_fchown => 58 | NR_open => 59
  | NR_openat => 60 | NR_close => 61 | NR_vhangup => 62 | NR_pipe2 => 63
  | NR_quotactl => 64 | NR_getdents64 => 65 | NR_lseek => 66 | NR_read => 67
  | NR_write => 68 | NR_readv => 69 | NR_writev => 70 | NR_pread64 => 71
  | NR_pwrite64 => 72 | NR_preadv => 73 | NR_pwritev => 74 | NR_sendfile => 75
  | NR_pselect6 => 76 | NR_ppoll => 77 | NR_signalfd4 => 78 | NR_vmsplice => 79
  | NR_splice => 80 | NR_tee => 81 | NR_readlinkat => 82 | NR_fstatat64 => 83
  | NR_fstat64 => 84 | NR_sync => 85 | NR_fsync => 86 | NR_fdatasync => 87
  | NR_sync_file_range => 88 | NR_timerfd_create => 89 | NR_timerfd_settime => 90 | NR_timerfd_gettime => 91
  | NR_utimensat => 92 | NR_acct => 93 | NR_capget => 94 | NR_capset => 95
  | NR_personality => 96 | NR_exit => 97 | NR_exit_group => 98 | NR_waitid => 99
  | NR_set_tid_address => 100 | NR_unshare => 101 | NR_futex => 102 | NR_set_robust_list => 103
  | NR_get_robust_list => 104 | NR_nanosleep => 105 | NR_getitimer => 106 | NR_setitimer => 107
  | NR_kexec_load => 108 | NR_init_module => 109 | NR_delete_module => 110 | NR_timer_create => 111
  | NR_timer_gettime => 112 | NR_timer_getoverrun => 113 | NR_timer_settime => 114 | NR_timer_delete => 115
  | NR_clock_settime => 116 | NR_clock_gettime => 117 | NR_clock_getres => 118 | NR_clock_nanosleep => 119
  | NR_syslog => 120 | NR_ptrace => 121 | NR_sched_setparam => 122 | NR_sched_setscheduler => 123
  | NR_sched_getscheduler => 124 | NR_sched_getparam => 125 | NR_sched_setaffinity => 126 | NR_sched_getaffinity => 127
  | NR_sched_yield => 128 | NR_sched_get_priority_max => 129 | NR_sched_get_priority_min => 130 | NR_sched_rr_get_interval => 131
  | NR_restart_syscall => 132 | NR_kill => 133 | NR_tkill => 134 | NR_tgkill => 135
  | NR_sigaltstack => 136 | NR_rt_sigsuspend => 137 | NR_rt_sigaction => 138 | NR_rt_sigprocmask => 139
  | NR_rt_sigpending => 140 | NR_rt_sigtimedwait => 141 | NR_rt_sigqueueinfo => 142 | NR_rt_sigreturn => 143
  | NR_setpriority => 144 | NR_getpriority => 145 | NR_reboot => 146 | NR_setregid => 147
  | NR_setgid => 148 | NR_setreuid => 149 | NR_setuid => 150 | NR_setresuid => 151
  | NR_getresuid => 152 | NR_setresgid => 153 | NR_getresgid => 154 | NR_setfsuid => 155
  | NR_setfsgid => 156 | NR_times => 157 | NR_setpgid => 158 | NR_getpgid => 159
  | NR_getsid => 160 | NR_setsid => 161 | NR_getgroups => 162 | NR_setgroups => 163
  | NR_uname => 164 | NR_sethostname => 165 | NR_setdomainname => 166 | NR_getrlimit => 167
  | NR_setrlimit => 168 | NR_getrusage => 169 | NR_umask => 170 | NR_prctl => 171
  | NR_getcpu => 172 | NR_gettimeofday => 173 | NR_settimeofday => 174 | NR_adjtimex => 175
  | NR_getpid => 176 | NR_getppid => 177 | NR_getuid => 178 | NR_geteuid => 179
  | NR_getgid => 180 | NR_getegid => 181 | NR_gettid => 182 | NR_sysinfo => 183
  | NR_mq_open => 184 | NR_mq_unlink => 185 | NR_mq_timedsend => 186 | NR_mq_timedreceive => 187
  | NR_mq_notify => 188 | NR_mq_getsetattr => 189 | NR_msgget => 190 | NR_msgctl => 191
  | NR_msgrcv => 192 | NR_msgsnd => 193 | NR_semget => 194 | NR_semctl => 195
  | NR_semtimedop => 196 | NR_semop => 197 | NR_shmget => 198 | NR_shmctl => 199
  | NR_shmat => 200 | NR_shmdt => 201 | NR_socket => 202 | NR_socketpair => 203
  | NR_bind => 204 | NR_listen => 205 | NR_accept => 206 | NR_connect => 207
  | NR_getsockname => 208 | NR_getpeername => 209 | NR_sendto => 210 | NR_recvfrom => 211
  | NR_setsockopt => 212 | NR_getsockopt => 213 | NR_shutdown => 214 | NR_sendmsg => 215
  | NR_recvmsg => 216 | NR_readahead => 217 | NR_brk => 218 | NR_munmap => 219
  | NR_mremap => 220 | NR_add_key => 221 | NR_request_key => 222 | NR_keyctl => 223
  | NR_clone => 224 | NR_execve => 225 | NR_mmap => 226 | NR_mmap2 => 227
  | NR_fadvise64 => 228 | NR_swapon => 229 | NR_swapoff => 230 | NR_mprotect => 231
  | NR_msync => 232 | NR_mlock => 233 | NR_munlock => 234 | NR_mlockall => 235
  | NR_munlockall => 236 | NR_mincore => 237 | NR_madvise => 238 | NR_remap_file_pages => 239
  | NR_mbind => 240 | NR_get_mempolicy => 241 | NR_set_mempolicy => 242 | NR_migrate_pages => 243
  | NR_move_pages => 244 | NR_rt_tgsigqueueinfo => 245 | NR_perf_event_open => 246 | NR_accept4 => 247
  | NR_recvmmsg => 248 | NR_arch_specific_syscall => 249 | NR_wait4 => 250 | NR_prlimit64 => 251
  | NR_fanotify_init => 252 | NR_fanotify_mark => 253 | NR_name_to_handle_at => 254 | NR_open_by_handle_at => 255
  | NR_clock_adjtime => 256 | NR_syncfs => 257 | NR_setns => 258 | NR_sendmmsg => 259
  | NR_process_vm_readv => 260 | NR_process_vm_writev => 261 | NR_kcmp => 262 | NR_finit_module => 263
  | NR_sched_setattr => 264 | NR_sched_getattr => 265 | NR_renameat2 => 266 | NR_seccomp => 267
  | NR_getrandom => 268 | NR_memfd_create => 269 | NR_bpf => 270 | NR_execveat => 271
  | NR_userfaultfd => 272 | NR_membarrier => 273 | NR_mlock2 => 274 | NR_copy_file_range => 275
  | NR_preadv2 => 276 | NR_pwritev2 => 277 | NR_pkey_mprotect => 278 | NR_pkey_alloc => 279
  | NR_pkey_free => 280 | NR_statx => 281 | NR_io_pgetevents => 282 | NR_rseq => 283
  | NR_kexec_file_load => 284
  end.

(** The members of the errno block: an [iota + 1] constant or an alias. *)
Inductive Errno :=
| EPERM | ENOENT | ESRCH | EINTR | EIO | ENXIO | E2BIG | ENOEXEC | EBADF | ECHILD | EAGAIN
| ENOMEM | EACCES | EFAULT | ENOTBLK | EBUSY | EEXIST | EXDEV | ENODEV | ENOTDIR | EISDIR
| EINVAL | ENFILE | EMFILE | ENOTTY | ETXTBSY | EFBIG | ENOSPC | ESPIPE | EROFS | EMLINK
| EPIPE | EDOM | ERANGE | EDEADLK | ENAMETOOLONG | ENOLCK | ENOSYS | ENOTEMPTY | ELOOP
| EWOULDBLOCK | ENOMSG | EIDRM | ECHRNG | EL2NSYNC | EL3HLT | EL3RST | ELNRNG | EUNATCH
| ENOCSI | EL2HLT | EBADE | EBADR | EXFULL | ENOANO | EBADRQC | EBADSLT | EDEADLOCK
| EBFONT | ENOSTR | ENODATA | ETIME | ENOSR | ENONET | ENOPKG | EREMOTE | ENOLINK | EADV
| ESRMNT | ECOMM | EPROTO | EMULTIHOP | EDOTDOT | EBADMSG | EOVERFLOW | ENOTUNIQ | EBADFD
| EREMCHG | ELIBACC | ELIBBAD | ELIBSCN | ELIBMAX | ELIBEXEC | EILSEQ | ERESTART | ESTRPIPE
| EUSERS | ENOTSOCK | EDESTADDRREQ | EMSGSIZE | EPROTOTYPE | ENOPROTOOPT | EPROTONOSUPPORT
| ESOCKTNOSUPPORT | EOPNOTSUPP | EPFNOSUPPORT | EAFNOSUPPORT | EADDRINUSE | EADDRNOTAVAIL
| ENETDOWN | ENETUNREACH | ENETRESET | ECONNABORTED | ECONNRESET | ENOBUFS | EISCONN
| ENOTCONN | ESHUTDOWN | ETOOMANYREFS | ETIMEDOUT | ECONNREFUSED | EHOSTDOWN | EHOSTUNREACH
| EALREADY | EINPROGRESS | ESTALE | EUCLEAN | ENOTNAM | ENAVAIL | EISNAM | EREMOTEIO
| EDQUOT | ENOMEDIUM | EMEDIUMTYPE | ECANCELED | ENOKEY | EKEYEXPIRED | EKEYREVOKED
| EKEYREJECTED | EOWNERDEAD | ENOTRECOVERABLE | ERFKILL | EHWPOISON.

Inductive errno_decl := ByIota (e : Errno) | AliasOf (e target : Errno).

(** The const block of src/errno.go, in source order. *)
Definition errno_block : list errno_decl :=
  [ByIota EPERM; ByIota ENOENT; ByIota ESRCH; ByIota EINTR; ByIota EIO; ByIota ENXIO;
   ByIota E2BIG; ByIota ENOEXEC; ByIota EBADF; ByIota ECHILD; ByIota EAGAIN; ByIota ENOMEM;
   ByIota EACCES; ByIota EFAULT; ByIota ENOTBLK; ByIota EBUSY; ByIota EEXIST; ByIota EXDEV;
   ByIota ENODEV; ByIota ENOTDIR; ByIota EISDIR; ByIota EINVAL; ByIota ENFILE;
   ByIota EMFILE; ByIota ENOTTY; ByIota ETXTBSY; ByIota EFBIG; ByIota ENOSPC;
   ByIota ESPIPE; ByIota EROFS; ByIota EMLINK; ByIota EPIPE; ByIota EDOM; ByIota ERANGE;
   ByIota EDEADLK; ByIota ENAMETOOLONG; ByIota ENOLCK; ByIota ENOSYS; ByIota ENOTEMPTY;
   ByIota ELOOP; AliasOf EWOULDBLOCK EAGAIN; ByIota ENOMSG; ByIota EIDRM; ByIota ECHRNG;
   ByIota EL2NSYNC; ByIota EL3HLT; ByIota EL3RST; ByIota ELNRNG; ByIota EUNATCH;
   ByIota ENOCSI; ByIota EL2HLT; ByIota EBADE; ByIota EBADR; ByIota EXFULL; ByIota ENOANO;
   ByIota EBADRQC; ByIota EBADSLT; AliasOf EDEADLOCK EDEADLK; ByIota EBFONT; ByIota ENOSTR;
   ByIota ENODATA; ByIota ETIME; ByIota ENOSR; ByIota ENONET; ByIota ENOPKG;
   ByIota EREMOTE; ByIota ENOLINK; ByIota EADV; ByIota ESRMNT; ByIota ECOMM; ByIota EPROTO;
   ByIota EMULTIHOP; ByIota EDOTDOT; ByIota EBADMSG; ByIota EOVERFLOW; ByIota ENOTUNIQ;
   ByIota EBADFD; ByIota EREMCHG; ByIota ELIBACC; ByIota ELIBBAD; ByIota ELIBSCN;
   ByIota ELIBMAX; ByIota ELIBEXEC; ByIota EILSEQ; ByIota ERESTART; ByIota ESTRPIPE;
   ByIota EUSERS; ByIota ENOTSOCK; ByIota EDESTADDRREQ; ByIota EMSGSIZE; ByIota EPROTOTYPE;
   ByIota ENOPROTOOPT; ByIota EPROTONOSUPPORT; ByIota ESOCKTNOSUPPORT; ByIota EOPNOTSUPP;
   ByIota EPFNOSUPPORT; ByIota EAFNOSUPPORT; ByIota EADDRINUSE; ByIota EADDRNOTAVAIL;
   ByIota ENETDOWN; ByIota ENETUNREACH; ByIota ENETRESET; ByIota ECONNABORTED;
   ByIota ECONNRESET; ByIota ENOBUFS; ByIota EISCONN; ByIota ENOTCONN; ByIota ESHUTDOWN;
   ByIota ETOOMANYREFS; ByIota ETIMEDOUT; ByIota ECONNREFUSED; ByIota EHOSTDOWN;
   ByIota EHOSTUNREACH; ByIota EALREADY; ByIota EINPROGRESS; ByIota ESTALE; ByIota EUCLEAN;
   ByIota ENOTNAM; ByIota ENAVAIL; ByIota EISNAM; ByIota EREMOTEIO; ByIota EDQUOT;
   ByIota ENOMEDIUM; ByIota EMEDIUMTYPE; ByIota ECANCELED; ByIota ENOKEY;
   ByIota EKEYEXPIRED; ByIota EKEYREVOKED; ByIota EKEYREJECTED; ByIota EOWNERDEAD;
   ByIota ENOTRECOVERABLE; ByIota ERFKILL; ByIota EHWPOISON].

(** The number the block gives a constant: [iota + 1] at its own line, the
    target's for an alias. *)
Definition Errno_val (e : Errno) : Z :=
  match e with
  | EPERM => 1 | ENOENT => 2 | ESRCH => 3 | EINTR => 4
  | EIO => 5 | ENXIO => 6 | E2BIG => 7 | ENOEXEC => 8
  | EBADF => 9 | ECHILD => 10 | EAGAIN => 11 | ENOMEM => 12
  | EACCES => 13 | EFAULT => 14 | ENOTBLK => 15 | EBUSY => 16
  | EEXIST => 17 | EXDEV => 18 | ENODEV => 19 | ENOTDIR => 20
  | EISDIR => 21 | EINVAL => 22 | ENFILE => 23 | EMFILE => 24
  | ENOTTY => 25 | ETXTBSY => 26 | EFBIG => 27 | ENOSPC => 28
  | ESPIPE => 29 | EROFS => 30 | EMLINK => 31 | EPIPE => 32
  | EDOM => 33 | ERANGE => 34 | EDEADLK => 35 | ENAMETOOLONG => 36
  | ENOLCK => 37 | ENOSYS => 38 | ENOTEMPTY => 39 | ELOOP => 40
  | EWOULDBLOCK => 11 | ENOMSG => 42 | EIDRM => 43 | ECHRNG => 44
  | EL2NSYNC => 45 | EL3HLT => 46 | EL3RST => 47 | ELNRNG => 48
  | EUNATCH => 49 | ENOCSI => 50 | EL2HLT => 51 | EBADE => 52
  | EBADR => 53 | EXFULL => 54 | ENOANO => 55 | EBADRQC => 56
  | EBADSLT => 57 | EDEADLOCK => 35 | EBFONT => 59 | ENOSTR => 60
  | ENODATA => 61 | ETIME => 62 | ENOSR => 63 | ENONET => 64
  | ENOPKG => 65 | EREMOTE => 66 | ENOLINK => 67 | EADV => 68
  | ESRMNT => 69 | ECOMM => 70 | EPROTO => 71 | EMULTIHOP => 72
  | EDOTDOT => 73 | EBADMSG => 74 | EOVERFLOW => 75 | ENOTUNIQ => 76
  | EBADFD => 77 | EREMCHG => 78 | ELIBACC => 79 | ELIBBAD => 80
  | ELIBSCN => 81 | ELIBMAX => 82 | ELIBEXEC => 83 | EILSEQ => 84
  | ERESTART => 85 | ESTRPIPE => 86 | EUSERS => 87 | ENOTSOCK => 88
  | EDESTADDRREQ => 89 | EMSGSIZE => 90 | EPROTOTYPE => 91 | ENOPROTOOPT => 92
  | EPROTONOSUPPORT => 93 | ESOCKTNOSUPPORT => 94 | EOPNOTSUPP => 95 | EPFNOSUPPORT => 96
  | EAFNOSUPPORT => 97 | EADDRINUSE => 98 | EADDRNOTAVAIL => 99 | ENETDOWN => 100
  | ENETUNREACH => 101 | ENETRESET => 102 | ECONNABORTED => 103 | ECONNRESET => 104
  | ENOBUFS => 105 | EISCONN => 106 | ENOTCONN => 107 | ESHUTDOWN => 108
  | ETOOMANYREFS => 109 | ETIMEDOUT => 110 | ECONNREFUSED => 111 | EHOSTDOWN => 112
  | EHOSTUNREACH => 113 | EALREADY => 114 | EINPROGRESS => 115 | ESTALE => 116
  | EUCLEAN => 117 | ENOTNAM => 118 | ENAVAIL => 119 | EISNAM => 120
  | EREMOTEIO => 121 | EDQUOT => 122 | ENOMEDIUM => 123 | EMEDIUMTYPE => 124
  | ECANCELED => 125 | ENOKEY => 126 | EKEYEXPIRED => 127 | EKEYREVOKED => 128
  | EKEYREJECTED => 129 | EOWNERDEAD => 130 | ENOTRECOVERABLE => 131 | ERFKILL => 132
  | EHWPOISON => 133
  end.

(** ** The blocks and their numbers *)

(** What [iota] means for a block: the declaration at line [i] gets [i]. *)
Definition iota_ok (i : nat) (c : NR) : bool := NR_val c =? Z.of_nat i.

Definition errno_decl_ok (i : nat) (d : errno_decl) : bool :=
  match d with
  | ByIota e => Errno_val e =? Z.of_nat i + 1
  | AliasOf e t => Errno_val e =? Errno_val t
  end.

Fixpoint forallb_at {A} (f : nat -> A -> bool) (i : nat) (l : list A) : bool :=
  match l with [] => true | x :: l => f i x && forallb_at f (S i) l end.

Lemma forallb_at_lookup {A} (f : nat -> A -> bool) l : forall i j x,
  forallb_at f i l = true -> l !! j = Some x -> f (i + j)%nat x = true.
Proof.
  induction l as [|y l IH]; intros i j x H Hj; [done|].
  cbn in H. apply andb_prop in H as [H1 H2]. destruct j as [|j]; cbn in Hj.
  - simplify_eq. by rewrite Nat.add_0_r.
  - rewrite <- Nat.add_succ_comm. by apply IH.
Qed.

Lemma NR_block_complete c : exists i, NR_block !! i = Some c.
Proof. exists (Z.to_nat (NR_val c)). by destruct c. Qed.

Lemma NR_block_iota i c : NR_block !! i = Some c -> NR_val c = Z.of_nat i.
Proof.
  intros H. apply Z.eqb_eq. revert H.
  apply (forallb_at_lookup iota_ok NR_block 0). by vm_compute.
Qed.

Lemma NR_val_inj c d : NR_val c = NR_val d -> c = d.
Proof.
  intros E. destruct (NR_block_complete c) as [i Hi], (NR_block_complete d) as [j Hj].
  apply NR_block_iota in Hi as Ei. apply NR_block_iota in Hj as Ej.
  replace j with i in Hj by lia. congruence.
Qed.

Lemma errno_block_numbers i d :
  errno_block !! i = Some d -> errno_decl_ok i d = true.
Proof. apply (forallb_at_lookup errno_decl_ok errno_block 0). by vm_compute. Qed.

Lemma Errno_val_range e : 1 <= Errno_val e <= 133.
Proof. destruct e; cbn; lia. Qed.

(** An error number is never the success value. *)
Lemma Errno_val_nonzero e : Errno_val e <> 0.
Proof. pose proof (Errno_val_range e); lia. Qed.
