(* ===== verification/GoRuntime.v ===== *)
(** * The Go runtime the handlers use

    [sync.RWMutex], unbuffered channels, [select] and [time.After], as pure
    operations on a runtime state.  A goroutine that finds no ready case of a
    [select] is parked on the receive queue of every channel of it; a
    non-blocking send hands its value to the first goroutine of the queue, a
    [close] wakes all of them, and a timer wakes the goroutine whose [select]
    holds it.  Whoever wakes a goroutine takes it off every queue, so it is
    woken once. *)

From stdpp Require Import base list gmap numbers.
From S2P Require Import Prelude.
Local Open Scope Z_scope.

(** ** sync.RWMutex *)

Record rwmutex := RW { rw_writer : bool; rw_readers : nat }.

Definition rw_free : rwmutex := RW false 0.

(** Acquiring blocks ([None]) while the lock is held in a conflicting way.  A
    writer that waits does not hold new readers back here, as it does with
    [sync.RWMutex]: the schedules of the code are among those of the model. *)
Definition rw_lock (m : rwmutex) : option rwmutex :=
  match m with RW false O => Some (RW true 0) | _ => None end.
Definition rw_rlock (m : rwmutex) : option rwmutex :=
  match m with RW false n => Some (RW false (S n)) | _ => None end.

(** Releasing a lock that is not held is a fatal error ([None]). *)
Definition rw_unlock (m : rwmutex) : option rwmutex :=
  match m with RW true n => Some (RW false n) | _ => None end.
Definition rw_runlock (m : rwmutex) : option rwmutex :=
  match m with RW b (S n) => Some (RW b n) | _ => None end.

(** ** Channels, timers and parked goroutines *)

Record chan := Chan { ch_closed : bool; ch_recvq : list Z }.

Record timer := Timer { tm_dur : Z; tm_fired : bool }.

(** How a [select] comes back: its timeout, or case [i] with a value and the
    second result of the receive. *)
Inductive wakeup :=
| WkTimeout
| WkRecv (i : nat) (v : Z) (ok : bool).

Record parked := Parked {
  pk_timer : option Z;       (* the timer channel of the select, if any *)
  pk_chans : list Z;         (* its other channels, in order *)
  pk_wake : option wakeup    (* set by whoever wakes the goroutine *)
}.

Record runtime := Runtime {
  rt_next : Z;               (* the next fresh identity *)
  rt_chans : gmap Z chan;
  rt_timers : gmap Z timer;
  rt_parked : gmap Z parked  (* by goroutine *)
}.

#[export] Instance wakeup_eq_dec : EqDecision wakeup.
Proof. solve_decision. Defined.
#[export] Instance rwmutex_eq_dec : EqDecision rwmutex.
Proof. solve_decision. Defined.
#[export] Instance chan_eq_dec : EqDecision chan.
Proof. solve_decision. Defined.

Definition rt_init : runtime := Runtime 1 ∅ ∅ ∅.

Definition make_chan (r : runtime) : runtime * Z :=
  (Runtime (rt_next r + 1) (<[rt_next r := Chan false []]> (rt_chans r))
     (rt_timers r) (rt_parked r),
   rt_next r).

Definition time_After (d : Z) (r : runtime) : runtime * Z :=
  (Runtime (rt_next r + 1) (rt_chans r)
     (<[rt_next r := Timer d false]> (rt_timers r)) (rt_parked r),
   rt_next r).

Fixpoint index_of (c : Z) (l : list Z) : nat :=
  match l with
  | [] => 0
  | x :: l => if x =? c then 0 else S (index_of c l)
  end.

Definition unqueue (t : Z) (c : chan) : chan :=
  Chan (ch_closed c) (filter (fun x => x <> t) (ch_recvq c)).

(** Wake goroutine [t]: it leaves every receive queue. *)
Definition wake (t : Z) (p : parked) (wk : wakeup) (r : runtime) : runtime :=
  Runtime (rt_next r) (unqueue t <$> rt_chans r) (rt_timers r)
    (<[t := Parked (pk_timer p) (pk_chans p) (Some wk)]> (rt_parked r)).

Inductive send_result :=
| SendClosed                 (* panics *)
| SendNoReceiver             (* the [default] case *)
| SendTo (r : runtime).

(** [select { case ch <- v: ... default: ... }] *)
Definition try_send (ch v : Z) (r : runtime) : send_result :=
  match rt_chans r !! ch with
  | None => SendNoReceiver   (* a nil channel is never ready *)
  | Some c =>
      if ch_closed c then SendClosed
      else match ch_recvq c with
           | [] => SendNoReceiver
           | t :: _ =>
               match rt_parked r !! t with
               | None => SendNoReceiver
               | Some p =>
                   SendTo (wake t p (WkRecv (index_of ch (pk_chans p)) v true) r)
               end
           end
  end.

Definition wake_closed (ch : Z) (t : Z) (r : runtime) : runtime :=
  match rt_parked r !! t with
  | None => r
  | Some p => wake t p (WkRecv (index_of ch (pk_chans p)) 0 false) r
  end.

(** [close(ch)]; [None] when it panics. *)
Definition close_chan (ch : Z) (r : runtime) : option runtime :=
  match rt_chans r !! ch with
  | None => None
  | Some c =>
      if ch_closed c then None
      else
        let r' := foldl (fun r t => wake_closed ch t r) r (ch_recvq c) in
        Some (Runtime (rt_next r') (<[ch := Chan true []]> (rt_chans r'))
                (rt_timers r') (rt_parked r'))
  end.

(** The cases of a [select] that are ready when it starts: a timer that has
    fired and the channels that are closed (no sender ever waits). *)
Definition timer_fired (tm : option Z) (r : runtime) : bool :=
  match tm with
  | None => false
  | Some i => match rt_timers r !! i with Some t => tm_fired t | None => false end
  end.

Fixpoint closed_cases (i : nat) (chans : list Z) (r : runtime) : list wakeup :=
  match chans with
  | [] => []
  | c :: cs =>
      match rt_chans r !! c with
      | Some (Chan true _) => [WkRecv i 0 false]
      | _ => []
      end ++ closed_cases (S i) cs r
  end.

Definition ready_cases (tm : option Z) (chans : list Z) (r : runtime) : list wakeup :=
  (if timer_fired tm r then [WkTimeout] else []) ++ closed_cases 0 chans r.

Definition enqueue (t : Z) (m : gmap Z chan) (c : Z) : gmap Z chan :=
  alter (fun x => Chan (ch_closed x) (ch_recvq x ++ [t])) c m.

Definition park (t : Z) (tm : option Z) (chans : list Z) (r : runtime) : runtime :=
  Runtime (rt_next r) (foldl (enqueue t) (rt_chans r) chans) (rt_timers r)
    (<[t := Parked tm chans None]> (rt_parked r)).

(** Entering a [select]: with a ready case one of them is picked (the runtime
    picks at random: [pick] chooses), otherwise the goroutine parks. *)
Definition select_enter (t : Z) (tm : option Z) (chans : list Z) (pick : nat)
    (r : runtime) : runtime :=
  match ready_cases tm chans r with
  | [] => park t tm chans r
  | c :: cs =>
      let wk := default c ((c :: cs) !! (pick mod S (length cs))%nat) in
      Runtime (rt_next r) (rt_chans r) (rt_timers r)
        (<[t := Parked tm chans (Some wk)]> (rt_parked r))
  end.

(** Leaving it: blocked until woken. *)
Definition select_leave (t : Z) (r : runtime) : option (runtime * wakeup) :=
  match rt_parked r !! t with
  | Some (Parked _ _ (Some wk)) =>
      Some (Runtime (rt_next r) (rt_chans r) (rt_timers r) (delete t (rt_parked r)), wk)
  | _ => None
  end.

(** A timer fires: the channel becomes readable, and a goroutine parked on it
    is woken. *)
Definition holds_timer (i : Z) (tp : Z * parked) : bool :=
  match pk_timer tp.2, pk_wake tp.2 with
  | Some j, None => i =? j
  | _, _ => false
  end.

Definition fire_timer (i : Z) (r : runtime) : runtime :=
  let r' := Runtime (rt_next r) (rt_chans r)
              (alter (fun t => Timer (tm_dur t) true) i (rt_timers r)) (rt_parked r) in
  match List.find (holds_timer i) (map_to_list (rt_parked r)) with
  | Some (t, p) => wake t p WkTimeout r'
  | None => r'
  end.

(** ** Lemmas *)

Lemma rw_lock_unlock m m' : rw_lock m = Some m' -> rw_unlock m' = Some m.
Proof. destruct m as [[] []]; naive_solver. Qed.

Lemma rw_rlock_runlock m m' : rw_rlock m = Some m' -> rw_runlock m' = Some m.
Proof. destruct m as [[] n]; naive_solver. Qed.

(** A writer excludes everyone. *)
Lemma rw_writer_excludes m m' :
  rw_lock m = Some m' -> rw_lock m' = None /\ rw_rlock m' = None.
Proof. destruct m as [[] []]; naive_solver. Qed.

Lemma filter_other (t : Z) (q : list Z) : t ∉ q -> filter (fun x => x <> t) q = q.
Proof.
  induction q as [|x q IH]; intros H; [done|]. apply not_elem_of_cons in H as [H1 H2].
  rewrite filter_cons_True by congruence. by rewrite IH.
Qed.

(** A woken goroutine is on no receive queue. *)
Lemma wake_unqueued t p wk r ch c :
  rt_chans (wake t p wk r) !! ch = Some c -> t ∉ ch_recvq c.
Proof.
  cbn. rewrite lookup_fmap_Some. intros (c' & <- & _). cbn.
  rewrite list_elem_of_filter. naive_solver.
Qed.
