(* ===== verification/Queues.v ===== *)
(** * Receive queues and the goroutines on them

    What the runtime keeps between its channels and the goroutines parked in a
    [select] ([queues_ok]): a receive queue holds, once each, the goroutines that
    wait for its channel and have not been woken.  Sends, timers, new channels,
    entering a [select] and leaving it keep it. *)

From stdpp Require Import base list gmap numbers.
From S2P Require Import Prelude GoRuntime.
Local Open Scope Z_scope.

(** Goroutine [t] sleeps in a [select] with the channel [ch]. *)
Definition waits_on (r : runtime) (ch t : Z) : Prop :=
  exists p, rt_parked r !! t = Some p /\ pk_wake p = None /\ ch ∈ pk_chans p.

Record queues_ok (r : runtime) : Prop := {
  qk_next ch : is_Some (rt_chans r !! ch) -> ch < rt_next r;
  qk_made t p ch : rt_parked r !! t = Some p -> ch ∈ pk_chans p -> is_Some (rt_chans r !! ch);
  qk_nodup ch c : rt_chans r !! ch = Some c -> NoDup (ch_recvq c);
  qk_queue ch c t : rt_chans r !! ch = Some c -> t ∈ ch_recvq c <-> waits_on r ch t
}.

(** The channel can be sent on. *)
Definition open_chan (r : runtime) (ch : Z) : Prop := exists q, rt_chans r !! ch = Some (Chan false q).

(** What goroutine [t] waits for in a [select], woken or not. *)
Definition selecting (r : runtime) (t : Z) : option (list Z) := pk_chans <$> rt_parked r !! t.

(** The steps of the runtime that no goroutine goes to sleep in. *)
Inductive rt_quiet (r : runtime) : runtime -> Prop :=
| quiet_timer d : rt_quiet r (time_After d r).1
| quiet_fire i : rt_quiet r (fire_timer i r)
| quiet_send ch v r' : try_send ch v r = SendTo r' -> rt_quiet r r'.

Lemma queues_init : queues_ok rt_init.
Proof. split; cbn; intros *; rewrite ?lookup_empty; try done; by intros []. Qed.

(** Only the channels, the parked goroutines and a bound on the channels count. *)
Lemma queues_ext r r' :
  rt_next r <= rt_next r' -> rt_chans r' = rt_chans r -> rt_parked r' = rt_parked r ->
  queues_ok r -> queues_ok r'.
Proof.
  intros Hn Ec Ep [H1 H2 H3 H4]. split; unfold waits_on; rewrite ?Ec, ?Ep; try done.
  intros ch Hc. specialize (H1 ch Hc). lia.
Qed.

(** ** Waking *)

Section wake.
Context (t : Z) (p : parked) (wk : wakeup) (r : runtime) (Hp : rt_parked r !! t = Some p).

Lemma wake_waits ch t' : waits_on (wake t p wk r) ch t' <-> t' <> t /\ waits_on r ch t'.
Proof.
  unfold waits_on. cbn. destruct (decide (t' = t)) as [->|Hne].
  - rewrite lookup_insert_eq. split; [|naive_solver]. by intros (p' & [= <-] & ? & _).
  - rewrite lookup_insert_ne by done. naive_solver.
Qed.

Lemma wake_selecting t' : selecting (wake t p wk r) t' = selecting r t'.
Proof.
  unfold selecting. cbn. destruct (decide (t' = t)) as [->|Hne];
    [by rewrite lookup_insert_eq, Hp|by rewrite lookup_insert_ne].
Qed.

Lemma wake_open ch : open_chan r ch -> open_chan (wake t p wk r) ch.
Proof. intros [q Hq]. unfold open_chan. cbn. rewrite lookup_fmap, Hq. by eexists. Qed.

Lemma wake_queues : queues_ok r -> queues_ok (wake t p wk r).
Proof.
  intros [H1 H2 H3 H4]. split.
  - intros ch. cbn. rewrite lookup_fmap, fmap_is_Some. apply H1.
  - intros t' p' ch Hp' Hin. cbn. rewrite lookup_fmap, fmap_is_Some.
    assert (selecting r t' = Some (pk_chans p')) as (p0 & Hp0 & E)%fmap_Some
      by (rewrite <- wake_selecting; unfold selecting; by rewrite Hp').
    eapply H2; [done|]. by rewrite <- E.
  - intros ch c. cbn. rewrite lookup_fmap_Some. intros (c' & <- & Hc). apply list.NoDup_filter. by eapply H3.
  - intros ch c t'. cbn [wake rt_chans]. rewrite lookup_fmap_Some. intros (c' & <- & Hc).
    rewrite wake_waits, <- (H4 ch c' t' Hc). cbn. by rewrite list_elem_of_filter.
Qed.

End wake.

(** ** Quiet steps *)

Lemma fire_timer_wakes i r :
  exists tms, let r' := Runtime (rt_next r) (rt_chans r) tms (rt_parked r) in
    fire_timer i r = r' \/ exists t p, rt_parked r !! t = Some p /\ fire_timer i r = wake t p WkTimeout r'.
Proof.
  unfold fire_timer. eexists. cbv zeta.
  destruct (List.find _ _) as [[t p]|] eqn:E; [right|by left]. exists t, p. split; [|done].
  apply find_some in E as [E _]. by apply list_elem_of_In, elem_of_map_to_list in E.
Qed.

Lemma try_send_wakes ch v r r' :
  try_send ch v r = SendTo r' -> exists t p wk, rt_parked r !! t = Some p /\ r' = wake t p wk r.
Proof.
  unfold try_send. intros E. repeat case_match; try discriminate. injection E as <-. eauto.
Qed.

(** What others see of them. *)
Definition rt_calm (r r' : runtime) : Prop :=
  (queues_ok r -> queues_ok r') /\ (forall ch, open_chan r ch -> open_chan r' ch) /\
  forall t, selecting r' t = selecting r t.

Lemma calm_refl r : rt_calm r r.
Proof. done. Qed.

Lemma quiet_calm r r' : rt_quiet r r' -> rt_calm r r'.
Proof.
  intros [d|i|ch v r1 E].
  - split; [|done]. apply queues_ext; cbn; [lia|done..].
  - destruct (fire_timer_wakes i r) as (tms & [->|(t & p & Hp & ->)]).
    + split; [|done]. apply queues_ext; cbn; [lia|done..].
    + split; [|split; [intros ch Ho; by apply wake_open|intros t'; by rewrite wake_selecting]].
      intros Hq. apply wake_queues; [done|]. eapply queues_ext; [..|exact Hq]; cbn; [lia|done..].
  - destruct (try_send_wakes ch v r r1 E) as (t & p & wk & Hp & ->).
    split; [by apply wake_queues|]. split; [intros c; apply wake_open|intros t'; by apply wake_selecting].
Qed.

(** ** A new channel *)

Lemma make_chan_queues r : queues_ok r -> queues_ok (make_chan r).1.
Proof.
  intros [H1 H2 H3 H4]. split; cbn.
  - intros ch. destruct (decide (ch = rt_next r)) as [->|]; [lia|]. rewrite lookup_insert_ne by done.
    intros Hc. specialize (H1 ch Hc). lia.
  - intros t p ch Hp Hin. apply lookup_insert_is_Some. specialize (H2 t p ch Hp Hin).
    destruct (decide (rt_next r = ch)); auto.
  - intros ch c [[<- <-]|[_ Hc]]%lookup_insert_Some; [constructor|by eapply H3].
  - intros ch c t [[<- <-]|[_ Hc]]%lookup_insert_Some; [|by apply H4]. cbn.
    split; [by intros ?%not_elem_of_nil|]. intros (p & Hp & _ & Hin). specialize (H1 _ (H2 t p _ Hp Hin)). lia.
Qed.

Lemma make_chan_open r : open_chan (make_chan r).1 (rt_next r).
Proof. exists []. cbn. by rewrite lookup_insert_eq. Qed.

Lemma make_chan_keeps r ch :
  queues_ok r -> open_chan r ch -> ch <> rt_next r /\ open_chan (make_chan r).1 ch.
Proof.
  intros Hq [q Hc]. assert (ch <> rt_next r) as Hne.
  { intros ->. pose proof (qk_next _ Hq (rt_next r) (mk_is_Some _ _ Hc)). lia. }
  split; [done|]. exists q. cbn. by rewrite lookup_insert_ne.
Qed.

(** ** Entering a select and leaving it *)

Lemma enqueue_lookup t chs : forall m ch,
  NoDup chs ->
  foldl (enqueue t) m chs !! ch =
    (fun c => if decide (ch ∈ chs) then Chan (ch_closed c) (ch_recvq c ++ [t]) else c) <$> m !! ch.
Proof.
  induction chs as [|c0 chs IH]; intros m ch Hnd; cbn [foldl].
  { destruct (m !! ch); [|done]. cbn. by rewrite decide_False by (apply not_elem_of_nil). }
  apply list.NoDup_cons in Hnd as [Hn Hnd]. rewrite IH by done. unfold enqueue.
  destruct (decide (ch = c0)) as [->|Hne].
  - rewrite lookup_alter_eq. destruct (m !! c0); [|done]. cbn. f_equal.
    by rewrite (decide_False (P := c0 ∈ chs)), decide_True by (done || by left).
  - rewrite lookup_alter_ne by done. destruct (m !! ch); [|done]. cbn. f_equal.
    destruct (decide (ch ∈ chs)); [by rewrite decide_True by (by right)|].
    rewrite decide_False; [done|]. by intros [|]%elem_of_cons.
Qed.

Section select.
Context (t : Z) (r : runtime) (Hq : queues_ok r).

Section enter.
Context (tm : option Z) (chs : list Z) (Hnd : NoDup chs) (Hn : rt_parked r !! t = None).
Context (Hmade : forall ch, ch ∈ chs -> is_Some (rt_chans r !! ch)).

Lemma insert_made w t' p ch :
  <[t := Parked tm chs w]> (rt_parked r) !! t' = Some p -> ch ∈ pk_chans p -> is_Some (rt_chans r !! ch).
Proof. intros [[<- <-]|[_ Hp]]%lookup_insert_Some Hin; [by apply Hmade|by eapply qk_made]. Qed.

Lemma insert_waits m tms w ch t' :
  waits_on (Runtime (rt_next r) m tms (<[t := Parked tm chs w]> (rt_parked r))) ch t' <->
  waits_on r ch t' \/ (t' = t /\ w = None /\ ch ∈ chs).
Proof.
  unfold waits_on. cbn. destruct (decide (t' = t)) as [->|Hne].
  - rewrite lookup_insert_eq, Hn. naive_solver.
  - rewrite lookup_insert_ne by done. naive_solver.
Qed.

Lemma park_queues : queues_ok (park t tm chs r).
Proof.
  split.
  - intros ch. cbn. rewrite enqueue_lookup, fmap_is_Some by done. apply Hq.
  - intros t' p ch Hp Hin. cbn. rewrite enqueue_lookup, fmap_is_Some by done. exact (insert_made None t' p ch Hp Hin).
  - intros ch c. cbn. rewrite enqueue_lookup, fmap_Some by done. intros (c' & Hc & ->).
    pose proof (qk_nodup _ Hq ch c' Hc). case_decide; [|done]. cbn. apply list.NoDup_app.
    split; [done|]. split; [|apply list.NoDup_singleton].
    intros x Hx ->%list_elem_of_singleton. apply (qk_queue _ Hq ch c' t Hc) in Hx as (p & Hp & _). congruence.
  - intros ch c t'. cbn [park rt_chans]. rewrite enqueue_lookup, fmap_Some by done. intros (c' & Hc & ->).
    unfold park. rewrite insert_waits, <- (qk_queue _ Hq ch c' t' Hc).
    case_decide; cbn; [rewrite elem_of_app, list_elem_of_singleton|]; naive_solver.
Qed.

Lemma select_enter_queues pick : queues_ok (select_enter t tm chs pick r).
Proof.
  unfold select_enter. destruct (ready_cases tm chs r); [apply park_queues|]. split.
  - apply Hq.
  - intros t' p ch. apply insert_made.
  - apply Hq.
  - intros ch c t' Hc. rewrite insert_waits, <- (qk_queue _ Hq ch c t' Hc). naive_solver.
Qed.

Lemma select_enter_open pick ch : open_chan r ch -> open_chan (select_enter t tm chs pick r) ch.
Proof.
  intros [q Hc]. unfold select_enter. destruct (ready_cases tm chs r); [|by exists q].
  unfold open_chan. cbn. rewrite enqueue_lookup, Hc by done. cbn. case_decide; by eexists.
Qed.

Lemma select_enter_selecting pick t' :
  selecting (select_enter t tm chs pick r) t' = if decide (t' = t) then Some chs else selecting r t'.
Proof.
  unfold select_enter, selecting. destruct (ready_cases tm chs r); cbn; case_decide; subst;
    by rewrite ?lookup_insert_eq, ?lookup_insert_ne.
Qed.

End enter.

Lemma select_leave_keeps r' wk :
  select_leave t r = Some (r', wk) ->
  queues_ok r' /\ rt_chans r' = rt_chans r /\
  forall t', selecting r' t' = if decide (t' = t) then None else selecting r t'.
Proof.
  unfold select_leave. intros E. destruct (rt_parked r !! t) as [[tm chs [wk0|]]|] eqn:Ep; [|done..].
  injection E as <- _. split; [|split; [done|]].
  - destruct Hq as [H1 H2 H3 H4]. split; cbn; [done| |done|].
    + intros t' p ch [_ Hp]%lookup_delete_Some. by eapply H2.
    + intros ch c t' Hc. rewrite (H4 ch c t' Hc). unfold waits_on. cbn.
      destruct (decide (t' = t)) as [->|Hne]; [rewrite lookup_delete_eq, Ep|by rewrite lookup_delete_ne].
      naive_solver.
  - intros t'. unfold selecting. cbn. case_decide; subst; by rewrite ?lookup_delete_eq, ?lookup_delete_ne.
Qed.

End select.
