(* ===== verification/Structs.v ===== *)
(** * The structs that cross the guest's memory

    The Go structs the handlers read from and write to guest memory, field by
    field and with their blank padding fields.  How a struct is laid out is the
    debugger's [encoding] package, which is a parameter: a [Shape] names the Go
    type handed to it and [denote] is that type. *)

From stdpp Require Import base list numbers.
From S2P Require Import Prelude.
Local Open Scope Z_scope.

(** src/kernel/time.go *)
Record timespec := Timespec { tv_sec : Z; tv_nsec : Z }.
Record timeval := Timeval { tvl_sec : Z; tvl_usec : Z }.
Record timezone := Timezone { tz_minuteswest : Z; tz_dsttime : Z }.

(** src/kernel/fcntl.go *)
Record iovec := Iovec { iov_base : Z; iov_len : Z }.

Record stat3264 := Stat3264 {
  s32_dev : Z; s32_pad0 : Z; s32__ino : Z; s32_mode : Z; s32_nlink : Z;
  s32_uid : Z; s32_gid : Z; s32_rdev : Z; s32_pad1 : Z; s32_size : Z;
  s32_blksize : Z; s32_blocks : Z;
  s32_atim : timespec; s32_mtim : timespec; s32_ctim : timespec; s32_ino : Z }.

Record stat64 := Stat64 {
  s64_dev : Z; s64_ino : Z; s64_mode : Z; s64_nlink : Z; s64_uid : Z;
  s64_gid : Z; s64_rdev : Z; s64_pad0 : Z; s64_size : Z; s64_blksize : Z;
  s64_pad1 : Z; s64_blocks : Z;
  s64_atim : timespec; s64_mtim : timespec; s64_ctim : timespec;
  s64_pad2 : Z; s64_pad3 : Z }.

(** src/kernel/signal.go *)
Record sigaction := Sigaction {
  sa_handler : Z; sa_flags : Z; sa_mask : Z; sa_restorer : Z }.
Record siginfo_t := Siginfo {
  si_signo : Z; si_errno : Z; si_code : Z; si_pad : list Z }.

(** src/kernel/resource.go *)
Record rlimit := Rlimit { rlim_cur : Z; rlim_max : Z }.

(** src/kernel/sysinfo.go *)
Record sysinfo_t := Sysinfo {
  si_uptime : Z; si_loads : list Z; si_totalram : Z; si_freeram : Z;
  si_sharedram : Z; si_bufferram : Z; si_totalswap : Z; si_freeswap : Z;
  si_procs : Z; si_f : list Z }.

(** The anonymous struct of [clone] in src/kernel/sched.go. *)
Record clone_call := CloneCall { cc_fn : Z; cc_arg : Z }.

(** The register-save structs of src/gcc/arm64/va.go and src/gcc/x86_64/va.go,
    without the [emu] field that the encoding ignores. *)
Record va_arm64 := VaArm64 {
  a64_stack : Z; a64_gr_top : Z; a64_vr_top : Z; a64_gr_offs : Z; a64_vr_offs : Z }.
Record va_x86_64 := VaX8664 {
  x64_gp_offset : Z; x64_fp_offset : Z; x64_overflow_arg_area : Z; x64_reg_save_area : Z }.

(** Zero values, as [var x T] and [new(T)] leave them. *)
Definition zero_timespec := Timespec 0 0.
Definition zero_sigaction := Sigaction 0 0 0 0.
Definition zero_siginfo := Siginfo 0 0 0 (replicate 29 0).
Definition zero_iovec := Iovec 0 0.
Definition zero_clone_call := CloneCall 0 0.
Definition zero_va_arm64 := VaArm64 0 0 0 0 0.
Definition zero_va_x86_64 := VaX8664 0 0 0 0.
Definition zero_stat3264 :=
  Stat3264 0 0 0 0 0 0 0 0 0 0 0 0 zero_timespec zero_timespec zero_timespec 0.
Definition zero_stat64 :=
  Stat64 0 0 0 0 0 0 0 0 0 0 0 0 zero_timespec zero_timespec zero_timespec 0 0.

Inductive Shape :=
| ShTimespec | ShTimeval | ShTimezone | ShIovecs | ShStat3264 | ShStat64
| ShSigaction | ShSigset | ShSiginfo | ShRlimit | ShSysinfo | ShCloneCall
| ShInt32Pair | ShBytes | ShVaArm64 | ShVaX8664.

Definition denote (s : Shape) : Type :=
  match s with
  | ShTimespec => timespec
  | ShTimeval => timeval
  | ShTimezone => timezone
  | ShIovecs => list iovec
  | ShStat3264 => stat3264
  | ShStat64 => stat64
  | ShSigaction => sigaction
  | ShSigset => Z
  | ShSiginfo => siginfo_t
  | ShRlimit => rlimit
  | ShSysinfo => sysinfo_t
  | ShCloneCall => clone_call
  | ShInt32Pair => Z * Z
  | ShBytes => bytes
  | ShVaArm64 => va_arm64
  | ShVaX8664 => va_x86_64
  end.

(** ** io/fs *)

(** What the handlers use of an [fs.FileInfo]. *)
Record FileInfo := MkFileInfo {
  fi_Mode : Z;           (* fs.FileMode, a uint32 *)
  fi_Size : Z;           (* int64 *)
  fi_UnixNano : Z        (* ModTime().UnixNano(), an int64 *)
}.

(** The bits of [fs.FileMode]. *)
Definition ModeDir : Z := 2 ^ 31.
Definition ModeSymlink : Z := 2 ^ 27.
Definition ModeDevice : Z := 2 ^ 26.
Definition ModeNamedPipe : Z := 2 ^ 25.
Definition ModeSocket : Z := 2 ^ 24.
Definition ModeCharDevice : Z := 2 ^ 21.
Definition ModeIrregular : Z := 2 ^ 19.
Definition ModeType : Z :=
  ModeDir + ModeSymlink + ModeNamedPipe + ModeSocket + ModeDevice + ModeCharDevice
  + ModeIrregular.
Definition ModePerm : Z := 511.

Definition mode_Type (m : Z) : Z := Z.land m ModeType.
Definition mode_Perm (m : Z) : Z := Z.land m ModePerm.
