(* ===== verification/Host.v ===== *)
(** * The debugger and the machine under the kernel

    The kernel emulates syscalls on top of the microdbg debugger (guest memory,
    registers, tasks, a file table), of its file system and sockets, of the
    gopsutil library and of the operating system.  None of that is in this
    repository: it is the parameter [Debugger], an abstract state [Host] with
    the operations the kernel calls.  An operation that can change anything
    outside the kernel returns the next [Host].  The transfers of a file ([Read],
    [Write], [ReadFrom]) can block: a pipe may be empty or full.  Every other
    operation returns.  The classes after it state what the theorems use of their
    documented behaviour. *)

From stdpp Require Import base list gmap numbers.
From S2P Require Import Prelude Structs.
Local Open Scope Z_scope.

(** emulator.Arch: the four the kernel names, and the rest. *)
Inductive Arch := ARCH_ARM | ARCH_ARM64 | ARCH_X86 | ARCH_X86_64 | ARCH_OTHER (n : Z).

(** The registers the kernel names. *)
Inductive Reg :=
| ARM_REG_R0 | ARM_REG_R1 | ARM_REG_R2 | ARM_REG_R3 | ARM_REG_R4 | ARM_REG_R5
| ARM_REG_R7 | ARM_REG_C13_C0_3
| ARM64_REG_X0 | ARM64_REG_X1 | ARM64_REG_X2 | ARM64_REG_X3 | ARM64_REG_X4
| ARM64_REG_X5 | ARM64_REG_X8 | ARM64_REG_TPIDR_EL0
| X86_REG_GS | X86_REG_FS
| RegOther (n : Z).

#[export] Instance Arch_eq_dec : EqDecision Arch.
Proof. solve_decision. Defined.
#[export] Instance Reg_eq_dec : EqDecision Reg.
Proof. solve_decision. Defined.

(** socket.Network; [NetNone] is the empty string. *)
Inductive Network := NetNone | NetUnix | NetUnixGram | NetTCP | NetUDP.

(** What sysinfo reads of gopsutil's results. *)
Record VirtualMemoryStat := VMStat {
  vm_Total : Z; vm_Free : Z; vm_Shared : Z; vm_Buffers : Z }.
Record SwapMemoryStat := SMStat { sm_Total : Z; sm_Free : Z }.

(** time.Now(): Unix(), Nanosecond() and the offset of Zone(). *)
Record time_now := TimeNow { now_Unix : Z; now_Nanosecond : Z; now_ZoneOffset : Z }.

Class Debugger := {
  Host : Type;

  (** ** Guest memory: the debugger and emulator.Pointer *)
  MemReadPtr : Host -> Z -> Z -> bytes + error;
  MemWritePtr : Host -> Z -> bytes -> Host * option error;
  MemReadString : Host -> Z -> bytes + error;
  MemExtract : Host -> Z -> forall s : Shape, denote s -> denote s * option error;
  MemWrite : Host -> Z -> forall s : Shape, denote s -> Host * option error;
  (* Pointer as io.ReaderAt and io.WriterAt: base address, then offset *)
  PtrReadAt : Host -> Z -> Z -> Z -> bytes * option error;
  PtrWriteAt : Host -> Z -> bytes -> Z -> Host * (Z * option error);
  MemProt : Type;
  to_MemProt : Z -> MemProt;
  MapFree : Host -> Z -> Z -> Host * option error;
  MemUnmap : Host -> Z -> Z -> Host * option error;
  MemMap : Host -> Z -> Z -> MemProt -> Host * (Z + error);
  MapAlloc : Host -> Z -> MemProt -> Host * (Z + error);
  MemProtect : Host -> Z -> Z -> MemProt -> Host * option error;

  (** ** Files: the descriptor table, type assertions and methods *)
  File : Type;
  FS : Type;               (* filesystem.FS *)
  ReadlinkFS : Type;       (* filesystem.ReadlinkFS *)
  IoFS : Type;             (* fs.FS *)
  FileFlag : Type;
  GetFile : Host -> Z -> File + error;
  DupFile : Host -> Z -> Host * (Z + error);
  Dup2File : Host -> Z -> Z -> Host * option error;
  OpenFile : Host -> bytes -> FileFlag -> Z -> Host * (File + error);
  GetFS : Host -> FS;
  CreateFileDescriptor : Host -> File -> Host * Z;
  CloseFileDescriptor : Host -> Z -> Host * (File + error);
  NewSocket : Host -> Network -> Host * (File + error);
  as_FS : File -> option FS;
  as_ReadlinkFS : File -> option ReadlinkFS;
  as_IoFS : File -> option IoFS;
  FS_as_ReadlinkFS : FS -> option ReadlinkFS;
  FS_IoFS : FS -> IoFS;
  is_Seeker : File -> bool;
  is_Reader : File -> bool;
  is_Writer : File -> bool;
  is_ReaderFrom : File -> bool;
  is_ReadFile : File -> bool;
  is_ControlFile : File -> bool;
  FS_OpenFile : Host -> FS -> bytes -> FileFlag -> Z -> Host * (File + error);
  FS_Readlink : Host -> ReadlinkFS -> bytes -> bytes + error;
  FS_Stat : Host -> IoFS -> bytes -> FileInfo + error;
  file_Stat : Host -> File -> FileInfo + error;
  file_Close : Host -> File -> Host * option error;
  file_Seek : Host -> File -> Z -> Z -> Host * (Z + error);
  (* None: the call blocks, until the host changes *)
  file_Read : Host -> File -> Z -> option (Host * (bytes * option error));
  file_Write : Host -> File -> bytes -> option (Host * (Z * option error));
  (* io.ReaderFrom on a section of guest memory: base, offset, limit *)
  file_ReadFrom : Host -> File -> Z -> Z -> Z -> option (Host * (Z * option error));
  file_Control : Host -> File -> Z -> Z -> Host * option error;

  (** filesystem.FileFlag constants *)
  fs_O_RDONLY : FileFlag;
  fs_O_WRONLY : FileFlag;
  fs_O_RDWR : FileFlag;
  fs_O_APPEND : FileFlag;
  fs_O_CREATE : FileFlag;
  fs_O_EXCL : FileFlag;
  fs_O_SYNC : FileFlag;
  fs_O_TRUNC : FileFlag;
  flag_or : FileFlag -> FileFlag -> FileFlag;

  (** ** Tasks, registers and hooks *)
  dbg_Arch : Host -> Arch;
  StackSize : Host -> Z;
  Ctx : Type;                        (* debugger.Context *)
  Task : Type;
  TaskID : Ctx -> Z;
  TaskFork : Host -> Ctx -> Host * (Task + error);
  task_Context : Task -> Ctx;
  task_ID : Task -> Z;
  task_Run : Host -> Task -> Host * option error;
  task_Close : Host -> Task -> Host * option error;
  task_Done : Host -> Task -> bool;  (* the Done channel is readable *)
  CallTaskOf : Host -> Task -> Z -> Host * option error;
  RegSP : Ctx -> Reg;
  RegRead : Host -> Ctx -> Reg -> Z + error;
  RegReadBatch : Host -> Ctx -> list Reg -> list Z + error;
  RegWrite : Host -> Ctx -> Reg -> Z -> Host * option error;
  RetWrite_nil : Host -> Ctx -> Host * option error;
  ArgWrite : Host -> Ctx -> Z -> Host * option error;
  ARM_INTR_EXCP_SWI : Z;
  Hook : Type;
  AddHook_INTR : Host -> Host * (Hook + error);
  hook_Close : Host -> Hook -> Host * option error;

  (** ** The operating system and gopsutil *)
  os_Pipe : Host -> Host * ((File * File) + error);
  os_Getpid : Host -> Z;
  C_clock_gettime : Host -> Z -> Z * timespec;
  time_Now : Host -> time_now;
  rand_Read : Host -> Z -> Host * (bytes + error);
  rand_Reader_Read : Host -> Z -> Host * (bytes * option error);
  host_Uptime : Host -> Z + error;
  mem_VirtualMemory : Host -> VirtualMemoryStat + error;
  mem_SwapMemory : Host -> SwapMemoryStat + error;
  process_Pids : Host -> list Z + error;

  (** ** What the Go runtime chooses: a map's iteration order, a select case *)
  range_order : Host -> list Z -> Host * list Z;
  select_pick : Host -> Host * nat
}.

(** A [range] visits every key once, in some order. *)
Class RangeLaw `{Debugger} : Prop :=
  range_order_perm : forall h l, (range_order h l).2 ≡ₚ l.

(** ** The descriptor table *)

Definition is_open `{Debugger} (h : Host) (fd : Z) : bool :=
  match GetFile h fd with inl _ => true | inr _ => false end.

(** The open descriptors are the same. *)
Definition same_fds `{Debugger} (h h' : Host) : Prop :=
  forall fd, is_open h' fd = is_open h fd.

(** What the calls do to the set of open descriptors: a new descriptor was
    free, [Dup2File] opens the one it is given, [CloseFileDescriptor] closes its
    own, and a call that fails changes nothing. *)
Class FdLaws `{Debugger} : Prop := {
  fd_create h f fd :
    is_open (CreateFileDescriptor h f).1 fd =
      (fd =? (CreateFileDescriptor h f).2) || is_open h fd;
  fd_create_file h f :
    GetFile (CreateFileDescriptor h f).1 (CreateFileDescriptor h f).2 = inl f;
  fd_create_fresh h f : is_open h (CreateFileDescriptor h f).2 = false;
  fd_dup h fd :
    match DupFile h fd with
    | (h', inl n) => is_open h n = false /\
                     forall x, is_open h' x = (x =? n) || is_open h x
    | (h', inr _) => same_fds h h'
    end;
  fd_dup2 h o n :
    match Dup2File h o n with
    | (h', None) => forall x, is_open h' x = (x =? n) || is_open h x
    | (h', Some _) => same_fds h h'
    end;
  fd_close h fd :
    match CloseFileDescriptor h fd with
    | (h', inl _) => forall x, is_open h' x = negb (x =? fd) && is_open h x
    | (h', inr _) => same_fds h h'
    end;
  fd_OpenFile h p fl m : same_fds h (OpenFile h p fl m).1;
  fd_FS_OpenFile h d p fl m : same_fds h (FS_OpenFile h d p fl m).1;
  fd_file_Close h f : same_fds h (file_Close h f).1;
  fd_Pipe h : same_fds h (os_Pipe h).1;
  fd_MemWrite h a s v : same_fds h (MemWrite h a s v).1;
  fd_NewSocket h n : same_fds h (NewSocket h n).1
}.

(** The file behind a descriptor. *)
Definition file_at `{Debugger} (h : Host) (fd : Z) : option File :=
  match GetFile h fd with inl f => Some f | inr _ => None end.

Definition same_files `{Debugger} (h h' : Host) : Prop :=
  forall fd, file_at h' fd = file_at h fd.

(** The same calls, with the files: a new descriptor is free and leads to the
    file it was made for, a duplicate leads to the file of its original, and all
    other descriptors lead where they did. *)
Class FileLaws `{Debugger} : Prop := {
  files_create h f x :
    file_at (CreateFileDescriptor h f).1 x =
      if x =? (CreateFileDescriptor h f).2 then Some f else file_at h x;
  files_create_fresh h f : file_at h (CreateFileDescriptor h f).2 = None;
  files_dup h fd :
    match DupFile h fd with
    | (h', inl n) => is_Some (file_at h fd) /\ file_at h n = None /\
                     forall x, file_at h' x = if x =? n then file_at h fd else file_at h x
    | (h', inr _) => same_files h h'
    end;
  files_dup2 h o n :
    match Dup2File h o n with
    | (h', None) => is_Some (file_at h o) /\
                    forall x, file_at h' x = if x =? n then file_at h o else file_at h x
    | (h', Some _) => same_files h h'
    end;
  files_close h fd :
    match CloseFileDescriptor h fd with
    | (h', inl f) => file_at h fd = Some f /\
                     forall x, file_at h' x = if x =? fd then None else file_at h x
    | (h', inr _) => same_files h h'
    end;
  files_OpenFile h p fl m : same_files h (OpenFile h p fl m).1;
  files_FS_OpenFile h d p fl m : same_files h (FS_OpenFile h d p fl m).1;
  files_file_Close h f : same_files h (file_Close h f).1;
  files_Pipe h : same_files h (os_Pipe h).1;
  files_MemWrite h a s v : same_files h (MemWrite h a s v).1;
  files_NewSocket h n : same_files h (NewSocket h n).1
}.

Lemma is_open_file_at `{Debugger} h fd : is_open h fd = bool_decide (is_Some (file_at h fd)).
Proof. unfold is_open, file_at. by destruct (GetFile h fd). Qed.

(** Open is what leads to a file. *)
#[export] Instance files_fd `{FileLaws} : FdLaws.
Proof.
  assert (forall h h', same_files h h' -> same_fds h h') as Hs.
  { intros h h' E fd. by rewrite !is_open_file_at, E. }
  assert (forall h h' n o, (forall x, file_at h' x = if x =? n then o else file_at h x) ->
    forall x, is_open h' x = if x =? n then bool_decide (is_Some o) else is_open h x) as Hu.
  { intros h h' n o E x. rewrite !is_open_file_at, E. by destruct (x =? n). }
  split; intros; try (apply Hs; apply H0).
  - rewrite (Hu _ _ _ _ (files_create h f)). by destruct (fd =? _).
  - pose proof (files_create h f (CreateFileDescriptor h f).2) as E. rewrite Z.eqb_refl in E.
    unfold file_at in E. destruct (GetFile _ _); by simplify_eq.
  - by rewrite is_open_file_at, files_create_fresh.
  - pose proof (files_dup h fd) as E. destruct (DupFile h fd) as [h' [n|e]]; [|by apply Hs].
    destruct E as ([f Ef] & E1 & E2). split; [by rewrite is_open_file_at, E1|]. intros x.
    rewrite (Hu _ _ _ _ E2), Ef. by destruct (x =? n).
  - pose proof (files_dup2 h o n) as E. destruct (Dup2File h o n) as [h' [e|]]; [by apply Hs|].
    destruct E as ([f Ef] & E2). intros x. rewrite (Hu _ _ _ _ E2), Ef. by destruct (x =? n).
  - pose proof (files_close h fd) as E. destruct (CloseFileDescriptor h fd) as [h' [f|e]]; [|by apply Hs].
    destruct E as [_ E2]. intros x. rewrite (Hu _ _ _ _ E2). by destruct (x =? fd).
Qed.

(** The file system the debugger opens paths in is the one it hands out. *)
Class RootLaw `{Debugger} : Prop :=
  root_open : forall h p fl m, OpenFile h p fl m = FS_OpenFile h (GetFS h) p fl m.

(** ** File flags: distinct bits under a union *)

Inductive flag_bit := FWrOnly | FRdWr | FAppend | FCreate | FExcl | FSync | FTrunc.

#[export] Instance flag_bit_eq_dec : EqDecision flag_bit.
Proof. solve_decision. Defined.

Definition flag_const `{Debugger} (b : flag_bit) : FileFlag :=
  match b with
  | FWrOnly => fs_O_WRONLY | FRdWr => fs_O_RDWR | FAppend => fs_O_APPEND
  | FCreate => fs_O_CREATE | FExcl => fs_O_EXCL | FSync => fs_O_SYNC | FTrunc => fs_O_TRUNC
  end.

(** [test f b]: flag [b] is in the set [f]. *)
Class FlagLaws `{Debugger} (test : FileFlag -> flag_bit -> bool) : Prop := {
  flag_rdonly b : test fs_O_RDONLY b = false;
  flag_single b c : test (flag_const b) c = bool_decide (b = c);
  flag_union f g b : test (flag_or f g) b = test f b || test g b
}.
