(* ===== verification/SimHost.v ===== *)
(** * A small concrete debugger

    An instance of [Debugger] that runs: byte-addressed guest memory, typed
    cells for the structs, a descriptor table over in-memory files, registers
    and a few counters.  It is the host the examples and witnesses are evaluated
    on; no theorem about the kernel depends on it. *)

From stdpp Require Import base list gmap numbers.
From Stdlib Require Import Strings.Byte.
From S2P Require Import Prelude Structs Host.
Local Open Scope Z_scope.

#[export] Instance byte_eq_dec : EqDecision byte := Byte.byte_eq_dec.

#[export] Instance Shape_eq_dec : EqDecision Shape.
Proof. solve_decision. Defined.

(** A file handle: its identity and what its dynamic type implements. *)
Record sim_file := SimFile {
  sf_id : Z; sf_dir : bool; sf_seek : bool; sf_read : bool; sf_write : bool; sf_ctl : bool;
  sf_from : bool;       (* an io.ReaderFrom *)
  sf_pipe : bool        (* an end of a pipe *) }.

Record sim := Sim {
  sm_mem : gmap Z byte;
  sm_cells : list (Z * {s : Shape & denote s});
  sm_fds : gmap Z sim_file;
  sm_data : gmap Z (bytes * Z);           (* contents and position, by identity *)
  sm_names : list (bytes * sim_file);     (* the file system *)
  sm_next : Z;
  sm_arch : Arch;
  sm_regs : list (Z * Reg * Z);
  sm_maps : list (Z * Z)
}.

Definition sim_set_mem m (h : sim) : sim :=
  Sim m (sm_cells h) (sm_fds h) (sm_data h) (sm_names h) (sm_next h) (sm_arch h) (sm_regs h) (sm_maps h).
Definition sim_set_cells c (h : sim) : sim :=
  Sim (sm_mem h) c (sm_fds h) (sm_data h) (sm_names h) (sm_next h) (sm_arch h) (sm_regs h) (sm_maps h).
Definition sim_set_fds f (h : sim) : sim :=
  Sim (sm_mem h) (sm_cells h) f (sm_data h) (sm_names h) (sm_next h) (sm_arch h) (sm_regs h) (sm_maps h).
Definition sim_set_data d (h : sim) : sim :=
  Sim (sm_mem h) (sm_cells h) (sm_fds h) d (sm_names h) (sm_next h) (sm_arch h) (sm_regs h) (sm_maps h).
Definition sim_set_next n (h : sim) : sim :=
  Sim (sm_mem h) (sm_cells h) (sm_fds h) (sm_data h) (sm_names h) n (sm_arch h) (sm_regs h) (sm_maps h).
Definition sim_set_regs r (h : sim) : sim :=
  Sim (sm_mem h) (sm_cells h) (sm_fds h) (sm_data h) (sm_names h) (sm_next h) (sm_arch h) r (sm_maps h).
Definition sim_set_maps m (h : sim) : sim :=
  Sim (sm_mem h) (sm_cells h) (sm_fds h) (sm_data h) (sm_names h) (sm_next h) (sm_arch h) (sm_regs h) m.

Definition sim_err : error := ErrOther 1.

(** The mapped bytes from [a] on, at most [n]. *)
Fixpoint sim_peek (m : gmap Z byte) (a : Z) (n : nat) : bytes :=
  match n with
  | O => []
  | S n => match m !! a with Some b => b :: sim_peek m (a + 1) n | None => [] end
  end.

Fixpoint sim_poke (m : gmap Z byte) (a : Z) (bs : bytes) : gmap Z byte :=
  match bs with [] => m | b :: bs => sim_poke (<[a := b]> m) (a + 1) bs end.

(** How many bytes from [a] on are mapped, at most [n]. *)
Definition sim_mapped (h : sim) (a n : Z) : Z := zlen (sim_peek (sm_mem h) a (Z.to_nat n)).

Fixpoint until_nul (bs : bytes) : option bytes :=
  match bs with
  | [] => None
  | b :: bs => if byteZ b =? 0 then Some [] else cons b <$> until_nul bs
  end.

Fixpoint sim_find_cell (cs : list (Z * {s : Shape & denote s})) (a : Z) (s : Shape) :
    option (denote s) :=
  match cs with
  | [] => None
  | (a', existT s' v) :: cs =>
      match decide (s' = s) with
      | left e => if a =? a' then Some (eq_rect s' denote v s e) else sim_find_cell cs a s
      | right _ => sim_find_cell cs a s
      end
  end.

(** A decoded value is in the range of its type. *)
Definition sim_decode (s : Shape) : denote s -> denote s :=
  match s with ShSigset => fun v => uint64 v | _ => fun v => v end.

(** Contents and position; a file never written is empty. *)
Definition sim_contents (h : sim) (f : sim_file) : bytes * Z := default ([], 0) (sm_data h !! sf_id f).

(** A read of an empty pipe blocks; at its end, a file says so. *)
Definition sim_read_file (h : sim) (f : sim_file) (n : Z) : option (sim * (bytes * option error)) :=
  let '(d, pos) := sim_contents h f in
  let b := ztake n (zdrop pos d) in
  if (zlen b =? 0) && (0 <? n) then if sf_pipe f then None else Some (h, ([], Some ErrEOF))
  else Some (sim_set_data (<[sf_id f := (d, Z.max 0 pos + zlen b)]> (sm_data h)) h, (b, None)).

(** A pipe is written at its end, a file at its position, which moves on. *)
Definition sim_offset (h : sim) (f : sim_file) : nat :=
  let '(d, pos) := sim_contents h f in if sf_pipe f then length d else Z.to_nat pos.

Definition sim_write_file (h : sim) (f : sim_file) (b : bytes) : sim * (Z * option error) :=
  let '(d, pos) := sim_contents h f in
  let o := sim_offset h f in
  (sim_set_data (<[sf_id f := (splice "000"%byte o b d, if sf_pipe f then pos else Z.of_nat o + zlen b)]> (sm_data h)) h,
   (zlen b, None)).

Fixpoint sim_lookup_name (ns : list (bytes * sim_file)) (p : bytes) : option sim_file :=
  match ns with
  | [] => None
  | (n, f) :: ns => if decide (n = p) then Some f else sim_lookup_name ns p
  end.

(** The lowest descriptor that is free, from 3 on. *)
Fixpoint sim_free_fd (m : gmap Z sim_file) (fd : Z) (n : nat) : Z :=
  match n with
  | O => fd
  | S n => match m !! fd with Some _ => sim_free_fd m (fd + 1) n | None => fd end
  end.

Definition sim_new_fd (h : sim) : Z := sim_free_fd (sm_fds h) 3 (size (sm_fds h)).

Fixpoint sim_get_reg (rs : list (Z * Reg * Z)) (c : Z) (r : Reg) : Z :=
  match rs with
  | [] => 0
  | (c', r', v) :: rs => if decide (c' = c /\ r' = r) then v else sim_get_reg rs c r
  end.

Definition sim_open (h : sim) (p : bytes) (excl : bool) : sim * (sim_file + error) :=
  match sim_lookup_name (sm_names h) p with
  | Some f => (h, if excl then inr (ErrWrapped ErrExist) else inl f)
  | None => (h, inr sim_err)
  end.

Definition sim_stat (h : sim) (f : sim_file) : FileInfo :=
  MkFileInfo (if sf_dir f then ModeDir + 493 else 420)
    (match sm_data h !! sf_id f with Some (d, _) => zlen d | None => 0 end) 1500000000000000007.

#[export] Instance SimDebugger : Debugger := {|
  Host := sim;
  MemReadPtr h a n := if sim_mapped h a n =? n then inl (sim_peek (sm_mem h) a (Z.to_nat n)) else inr sim_err;
  MemWritePtr h a b :=
    if sim_mapped h a (zlen b) =? zlen b then (sim_set_mem (sim_poke (sm_mem h) a b) h, None)
    else (h, Some sim_err);
  MemReadString h a :=
    match until_nul (sim_peek (sm_mem h) a 64) with Some s => inl s | None => inr sim_err end;
  MemExtract h a s init :=
    match sim_find_cell (sm_cells h) a s with
    | Some v => (sim_decode s v, None)
    | None => (init, Some sim_err)
    end;
  MemWrite h a s v :=
    if a =? 0 then (h, Some sim_err) else (sim_set_cells ((a, existT s v) :: sm_cells h) h, None);
  PtrReadAt h base n off :=
    let b := sim_peek (sm_mem h) (base + off) (Z.to_nat n) in
    (b, if zlen b =? n then None else Some sim_err);
  PtrWriteAt h base b off :=
    if sim_mapped h (base + off) (zlen b) =? zlen b
    then (sim_set_mem (sim_poke (sm_mem h) (base + off) b) h, (zlen b, None))
    else (h, (0, Some sim_err));
  MemProt := Z;
  to_MemProt z := z;
  MapFree h a n := (sim_set_maps (filter (fun m => m <> (a, n)) (sm_maps h)) h, None);
  MemUnmap h a n := (sim_set_maps (filter (fun m => m <> (a, n)) (sm_maps h)) h, None);
  MemMap h a n _ := (sim_set_maps ((a, n) :: sm_maps h) h, inl a);
  MapAlloc h n _ :=
    if n =? 0 then (h, inr sim_err)
    else (sim_set_maps ((0x5000, n) :: sm_maps h)
            (sim_set_mem (sim_poke (sm_mem h) 0x5000 (replicate (Z.to_nat n) "000"%byte)) h), inl 0x5000);
  MemProtect h _ _ _ := (h, None);
  File := sim_file;
  FS := unit;
  ReadlinkFS := unit;
  IoFS := unit;
  FileFlag := list Z;
  GetFile h fd := match sm_fds h !! fd with Some f => inl f | None => inr sim_err end;
  DupFile h fd :=
    match sm_fds h !! fd with
    | Some f => (sim_set_fds (<[sim_new_fd h := f]> (sm_fds h)) h, inl (sim_new_fd h))
    | None => (h, inr sim_err)
    end;
  Dup2File h o n :=
    match sm_fds h !! o with
    | Some f => (sim_set_fds (<[n := f]> (sm_fds h)) h, None)
    | None => (h, Some sim_err)
    end;
  OpenFile h p fl _ := sim_open h p (bool_decide (5 ∈ fl));
  GetFS _ := tt;
  CreateFileDescriptor h f := (sim_set_fds (<[sim_new_fd h := f]> (sm_fds h)) h, sim_new_fd h);
  CloseFileDescriptor h fd :=
    match sm_fds h !! fd with
    | Some f => (sim_set_fds (delete fd (sm_fds h)) h, inl f)
    | None => (h, inr sim_err)
    end;
  NewSocket h _ := (sim_set_next (sm_next h + 1) h, inl (SimFile (sm_next h) false false true true false false true));
  as_FS f := if sf_dir f then Some tt else None;
  as_ReadlinkFS f := if sf_dir f then Some tt else None;
  as_IoFS f := if sf_dir f then Some tt else None;
  FS_as_ReadlinkFS _ := Some tt;
  FS_IoFS _ := tt;
  is_Seeker := sf_seek;
  is_Reader := sf_read;
  is_Writer := sf_write;
  is_ReaderFrom := sf_from;
  is_ReadFile := sf_read;
  is_ControlFile := sf_ctl;
  FS_OpenFile h _ p fl _ := sim_open h p (bool_decide (5 ∈ fl));
  FS_Readlink h _ p :=
    match sim_lookup_name (sm_names h) p with Some _ => inl p | None => inr sim_err end;
  FS_Stat h _ p :=
    match sim_lookup_name (sm_names h) p with Some f => inl (sim_stat h f) | None => inr sim_err end;
  file_Stat h f := inl (sim_stat h f);
  file_Close h _ := (h, None);
  file_Seek h f off _ :=
    match sm_data h !! sf_id f with
    | Some (d, _) =>
        if off <? 0 then (h, inr sim_err)
        else (sim_set_data (<[sf_id f := (d, off)]> (sm_data h)) h, inl off)
    | None => (h, inr sim_err)
    end;
  file_Read := sim_read_file;
  file_Write h f b := Some (sim_write_file h f b);
  file_ReadFrom h f base off lim :=
    let b := sim_peek (sm_mem h) (base + off) (Z.to_nat (lim - off)) in
    let '(h', r) := sim_write_file h f b in
    Some (h', if zlen b =? lim - off then r else (r.1, Some sim_err));
  file_Control h _ cmd _ := (h, if cmd =? 1 then None else Some sim_err);
  fs_O_RDONLY := [0];
  fs_O_WRONLY := [1];
  fs_O_RDWR := [2];
  fs_O_APPEND := [3];
  fs_O_CREATE := [4];
  fs_O_EXCL := [5];
  fs_O_SYNC := [6];
  fs_O_TRUNC := [7];
  flag_or a b := a ++ b;
  dbg_Arch := sm_arch;
  StackSize _ := 0x100000;
  Ctx := Z;
  Task := Z;
  TaskID c := c;
  TaskFork h _ := (sim_set_next (sm_next h + 1) h, inl (sm_next h));
  task_Context t := t;
  task_ID t := t;
  task_Run h _ := (h, None);
  task_Close h _ := (h, None);
  task_Done _ t := Z.even t;            (* the tasks with odd numbers run on *)
  CallTaskOf h _ _ := (h, None);
  RegSP _ := RegOther 0;
  RegRead h c r := inl (sim_get_reg (sm_regs h) c r);
  RegReadBatch h c rs := inl (sim_get_reg (sm_regs h) c <$> rs);
  RegWrite h c r v := (sim_set_regs ((c, r, v) :: sm_regs h) h, None);
  RetWrite_nil h _ := (h, None);
  ArgWrite h _ _ := (h, None);
  ARM_INTR_EXCP_SWI := 2;
  Hook := unit;
  AddHook_INTR h := (h, inl tt);
  hook_Close h _ := (h, None);
  os_Pipe h :=
    (sim_set_data (<[sm_next h := ([], 0)]> (sm_data h)) (sim_set_next (sm_next h + 1) h),
     inl (SimFile (sm_next h) false false true false false false true,
          SimFile (sm_next h) false false false true false true true));
  os_Getpid _ := 4242;
  C_clock_gettime _ c := if c <? 0 then (-1, zero_timespec) else (0, Timespec 1700000000 5);
  time_Now _ := TimeNow 1700000000 123456789 3600;
  rand_Read h n := (h, inl (replicate (Z.to_nat n) "042"%byte));
  rand_Reader_Read h n := (h, (replicate (Z.to_nat n) "042"%byte, None));
  host_Uptime _ := inl 77;
  mem_VirtualMemory _ := inl (VMStat 1000 500 10 20);
  mem_SwapMemory _ := inl (SMStat 0 0);
  process_Pids _ := inl [1; 2; 3];
  range_order h l := (h, l);
  select_pick h := (h, 0%nat)
|}.

(** A host for the examples: 64 bytes mapped at 0x1000 holding the path ["ab"]
    and zeros, a regular file of ten bytes on descriptor 5 and a directory on
    descriptor 6; the name ["ab"] is the file. *)
Definition sim_regular : sim_file := SimFile 1 false true true true false false false.
Definition sim_directory : sim_file := SimFile 2 true false false false false false false.

Definition sim_path : bytes := [byte_of_Z 97; byte_of_Z 98].

Definition sim_ten : bytes := byte_of_Z <$> [1; 2; 3; 4; 5; 6; 7; 8; 9; 10].

Definition sim0 : sim :=
  Sim (sim_poke ∅ 0x1000 (sim_path ++ replicate 62 "000"%byte)) []
    (<[5 := sim_regular]> (<[6 := sim_directory]> ∅))
    (<[1 := (sim_ten, 0)]> ∅) [(sim_path, sim_regular)] 100 ARCH_ARM64 [] [].

(** ** The laws, for this debugger *)

Lemma sim_free_fd_taken m n : forall fd,
  is_Some (m !! sim_free_fd m fd n) -> forall i, (i <= n)%nat -> is_Some (m !! (fd + Z.of_nat i)).
Proof.
  induction n as [|n IH]; intros fd H i Hi; cbn in H.
  - replace (fd + Z.of_nat i) with fd by lia. done.
  - destruct (m !! fd) as [f|] eqn:E; [|by destruct H; congruence].
    destruct i as [|i]; [by rewrite Z.add_0_r, E|].
    replace (fd + Z.of_nat (S i)) with (fd + 1 + Z.of_nat i) by lia. apply IH; [done|lia].
Qed.

(** Among [size m + 1] consecutive descriptors one is free. *)
Lemma sim_free_fd_fresh m fd : m !! sim_free_fd m fd (size m) = None.
Proof.
  destruct (m !! sim_free_fd m fd (size m)) as [f|] eqn:E; [exfalso|done].
  pose proof (sim_free_fd_taken m (size m) fd (mk_is_Some _ _ E)) as H.
  set (ks := (fun i => fd + Z.of_nat i) <$> seq 0 (S (size m))).
  assert (NoDup ks) as Hnd.
  { apply NoDup_fmap_2; [intros x y Hxy; lia|apply NoDup_seq]. }
  assert (list_to_set ks ⊆ dom m) as Hsub.
  { intros k Hk. apply elem_of_list_to_set, list_elem_of_fmap in Hk as (i & -> & Hi).
    apply elem_of_seq in Hi. apply elem_of_dom, H. lia. }
  apply subseteq_size in Hsub.
  rewrite size_list_to_set, size_dom in Hsub by done.
  unfold ks in Hsub. rewrite length_fmap, length_seq in Hsub. lia.
Qed.

Lemma sim_free_fd_range m n : forall fd, fd <= sim_free_fd m fd n <= fd + Z.of_nat n.
Proof.
  induction n as [|n IH]; intros fd; cbn; [lia|].
  destruct (m !! fd); [specialize (IH (fd + 1)); lia|lia].
Qed.

Lemma sim_file_at (h : sim) fd : file_at (h : Host) fd = sm_fds h !! fd.
Proof. unfold file_at. cbn. by destruct (sm_fds h !! fd). Qed.

Lemma sim_file_insert (h : sim) fd f x :
  file_at (sim_set_fds (<[fd := f]> (sm_fds h)) h : Host) x = if x =? fd then Some f else file_at (h : Host) x.
Proof.
  rewrite !sim_file_at. cbn. destruct (Z.eqb_spec x fd) as [->|Hne].
  - by rewrite lookup_insert_eq.
  - by rewrite lookup_insert_ne.
Qed.

#[export] Instance sim_file_laws : FileLaws.
Proof.
  split; cbn -[file_at].
  - intros h f x. apply sim_file_insert.
  - intros h f. rewrite sim_file_at. unfold sim_new_fd. by rewrite sim_free_fd_fresh.
  - intros h fd. destruct (sm_fds h !! fd) as [f|] eqn:E; [|done].
    assert (file_at (h : Host) fd = Some f) as -> by (rewrite sim_file_at; exact E). split; [done|]. split; [|intros x; apply sim_file_insert].
    rewrite sim_file_at. unfold sim_new_fd. by rewrite sim_free_fd_fresh.
  - intros h o n. destruct (sm_fds h !! o) as [f|] eqn:E; [|done].
    assert (file_at (h : Host) o = Some f) as -> by (rewrite sim_file_at; exact E). split; [done|]. intros x. apply sim_file_insert.
  - intros h fd. destruct (sm_fds h !! fd) as [f|] eqn:E; [|done].
    split; [by rewrite sim_file_at|]. intros x. rewrite !sim_file_at. cbn.
    destruct (Z.eqb_spec x fd) as [->|Hne]; [by rewrite lookup_delete_eq|by rewrite lookup_delete_ne].
  - intros h p fl m. unfold sim_open. by destruct (sim_lookup_name _ _).
  - intros h d p fl m. unfold sim_open. by destruct (sim_lookup_name _ _).
  - done.
  - done.
  - intros h a s v. by destruct (a =? 0).
  - done.
Qed.

#[export] Instance sim_root_law : RootLaw.
Proof. done. Qed.

Definition sim_flag_test (f : list Z) (b : flag_bit) : bool :=
  match b with
  | FWrOnly => bool_decide (1 ∈ f) | FRdWr => bool_decide (2 ∈ f)
  | FAppend => bool_decide (3 ∈ f) | FCreate => bool_decide (4 ∈ f)
  | FExcl => bool_decide (5 ∈ f) | FSync => bool_decide (6 ∈ f) | FTrunc => bool_decide (7 ∈ f)
  end.

#[export] Instance sim_flag_laws : FlagLaws sim_flag_test.
Proof.
  split; cbn.
  - by intros [].
  - by intros [] [].
  - intros f g []; cbn; case_bool_decide as H; rewrite elem_of_app in H;
      symmetry; apply eq_bool_prop_intro; rewrite ?orb_True, ?bool_decide_spec; naive_solver.
Qed.

#[export] Instance sim_range_law : RangeLaw.
Proof. by intros h l. Qed.
