(* ===== verification/World.v ===== *)
(** * The state of the kernel and the primitive actions of its handlers

    [World] is everything a handler can touch: the components of the [Syscall]
    struct (src/kernel/syscall.go), the errno of [Kernel] (src/kernel/kernel.go),
    the Go runtime and the host.  A Go map is [option (gmap _ _)]: [None] is the
    nil map, which reads as empty and panics when written.  Every primitive
    below is one atomic action. *)

From stdpp Require Import base list gmap numbers.
From S2P Require Import Prelude GoProg LinuxABI GoRuntime Structs Host.
Local Open Scope Z_scope.

(** Reading a map that may be nil. *)
Definition nmap_get {V} (m : option (gmap Z V)) (k : Z) : option V :=
  match m with Some m => m !! k | None => None end.

Record fcntl_t := Fcntl {
  fc_rw : rwmutex;
  fc_flags : option (gmap Z Z)
}.

(** [futexAwait] and [futexBitAwait]: both pair a channel with a count. *)
Record await := Await { aw_ch : Z; aw_ref : Z }.

Record futex_t := Futex {
  fx_rw : rwmutex;
  fx_awaits : option (gmap Z await);
  fx_bitAwaits : option (gmap Z await)
}.

Record signal_t := Signal {
  sg_set : Z;
  sg_rw : rwmutex;
  sg_table : option (gmap Z sigaction)
}.

Section world.
Context {D : Debugger}.

Record sched_t := Sched {
  sd_tasks : gmap Z Task;
  sd_reapers : list (Z * Task)     (* goroutines started by clone *)
}.

Record World := mkWorld {
  w_host : Host;
  w_rt : runtime;
  w_fcntl : fcntl_t;
  w_futex : futex_t;
  w_signal : signal_t;
  w_sched : sched_t;
  w_err : Z
}.

Definition set_host (h : Host) (w : World) : World :=
  mkWorld h (w_rt w) (w_fcntl w) (w_futex w) (w_signal w) (w_sched w) (w_err w).
Definition set_rt (r : runtime) (w : World) : World :=
  mkWorld (w_host w) r (w_fcntl w) (w_futex w) (w_signal w) (w_sched w) (w_err w).
Definition set_fcntl (f : fcntl_t) (w : World) : World :=
  mkWorld (w_host w) (w_rt w) f (w_futex w) (w_signal w) (w_sched w) (w_err w).
Definition set_futex (f : futex_t) (w : World) : World :=
  mkWorld (w_host w) (w_rt w) (w_fcntl w) f (w_signal w) (w_sched w) (w_err w).
Definition set_signal (s : signal_t) (w : World) : World :=
  mkWorld (w_host w) (w_rt w) (w_fcntl w) (w_futex w) s (w_sched w) (w_err w).
Definition set_sched (s : sched_t) (w : World) : World :=
  mkWorld (w_host w) (w_rt w) (w_fcntl w) (w_futex w) (w_signal w) s (w_err w).
Definition set_err (e : Z) (w : World) : World :=
  mkWorld (w_host w) (w_rt w) (w_fcntl w) (w_futex w) (w_signal w) (w_sched w) e.

(** ** Actions on the host *)

Definition hget {X} (f : Host -> X) : prog World X :=
  Act (fun w => Some (w, f (w_host w))) Ret.

Definition hdo {X} (f : Host -> Host * X) : prog World X :=
  Act (fun w => Some (set_host (f (w_host w)).1 w, (f (w_host w)).2)) Ret.

(** A call that can block. *)
Definition hwait {X} (f : Host -> option (Host * X)) : prog World X :=
  Act (fun w => match f (w_host w) with
                | Some (h, x) => Some (set_host h w, x)
                | None => None
                end) Ret.

(** ** errno *)

(** [ctx.SetErrno]: the context forwards to the debugger, whose kernel part is
    this one. *)
Definition SetErrno (e : Errno) : prog World unit :=
  Act (fun w => Some (set_err (Errno_val e) w, tt)) Ret.

(** [ctx.SetErrno(e); return -1] *)
Definition fail (e : Errno) : prog World Z :=
  bind (SetErrno e) (fun _ => Ret (-1)).

(** ** Locks *)

Inductive lock_id := LkFcntl | LkFutex | LkSignal.

Definition get_rw (l : lock_id) (w : World) : rwmutex :=
  match l with
  | LkFcntl => fc_rw (w_fcntl w)
  | LkFutex => fx_rw (w_futex w)
  | LkSignal => sg_rw (w_signal w)
  end.

Definition set_rw (l : lock_id) (m : rwmutex) (w : World) : World :=
  match l with
  | LkFcntl => set_fcntl (Fcntl m (fc_flags (w_fcntl w))) w
  | LkFutex => set_futex (Futex m (fx_awaits (w_futex w)) (fx_bitAwaits (w_futex w))) w
  | LkSignal => set_signal (Signal (sg_set (w_signal w)) m (sg_table (w_signal w))) w
  end.

(** Acquire: blocked while [acq] is. *)
Definition acquire (acq : rwmutex -> option rwmutex) (l : lock_id) : prog World unit :=
  Act (fun w => match acq (get_rw l w) with
                | Some m => Some (set_rw l m w, tt)
                | None => None
                end) Ret.

(** Release: a fatal error when the lock is not held. *)
Definition release (rel : rwmutex -> option rwmutex) (l : lock_id) : prog World unit :=
  Act (fun w => match rel (get_rw l w) with
                | Some m => Some (set_rw l m w, true)
                | None => Some (w, false)
                end)
      (fun held : bool => if held then Ret tt else Panic PanicUnlock).

Definition Lock := acquire rw_lock.
Definition RLock := acquire rw_rlock.
Definition Unlock := release rw_unlock.
Definition RUnlock := release rw_runlock.

(** Every lock of the kernel is free: the state between syscalls of one task. *)
Definition locks_free (w : World) : Prop :=
  forall l, get_rw l w = rw_free.

(** ** Channels and timers *)

Definition rtdo {X} (f : runtime -> runtime * X) : prog World X :=
  Act (fun w => Some (set_rt (f (w_rt w)).1 w, (f (w_rt w)).2)) Ret.

(** The second half of a [select]: goroutine [t] goes on when it is woken. *)
Definition select_wait (t : Z) : prog World wakeup :=
  Act (fun w => match select_leave t (w_rt w) with
                | Some (r, wk) => Some (set_rt r w, wk)
                | None => None
                end) Ret.

(** [select] with a timer and channels, by goroutine [t]. *)
Definition select (t : Z) (tm : option Z) (chans : list Z) : prog World wakeup :=
  Act (fun w =>
         let hp := select_pick (w_host w) in
         Some (set_rt (select_enter t tm chans hp.2 (w_rt w)) (set_host hp.1 w), tt))
      (fun _ => select_wait t).

(** A non-blocking send: [true] when a receiver took the value. *)
Definition send_nb (ch v : Z) : prog World bool :=
  Act (fun w => match try_send ch v (w_rt w) with
                | SendTo r => Some (set_rt r w, Some true)
                | SendNoReceiver => Some (w, Some false)
                | SendClosed => Some (w, None)
                end)
      (fun r : option bool =>
         match r with Some b => Ret b | None => Panic PanicSendClosed end).

Definition chan_close (ch : Z) : prog World unit :=
  Act (fun w => match close_chan ch (w_rt w) with
                | Some r => Some (set_rt r w, true)
                | None => Some (w, false)
                end)
      (fun ok : bool => if ok then Ret tt else Panic PanicCloseClosed).

End world.

(** ** Notation: Go's sequencing *)

Notation "'let!' x ':=' m 'in' k" := (bind m (fun x => k))
  (at level 10, x name, m at level 100, k at level 200) : go_scope.
Notation "'let!' ' p ':=' m 'in' k" := (bind m (fun x => match x with p => k end))
  (at level 10, p strict pattern, m at level 100, k at level 200) : go_scope.
Notation "m ';;;' k" := (bind m (fun _ => k))
  (at level 199, k at level 200, right associativity) : go_scope.

(** ** Executing a handler symbolically

    [go] runs the host actions at the head of a program; the host's answers
    stay as terms to split on. *)

Section exec.
Context {D : Debugger}.

Lemma run_hget {X A} n (f : Host -> X) (k : X -> prog World A) w :
  run n (bind (hget f) k) w = run n (k (f (w_host w))) w.
Proof. done. Qed.

Lemma run_hdo {X A} n (f : Host -> Host * X) (k : X -> prog World A) w :
  run n (bind (hdo f) k) w = run n (k (f (w_host w)).2) (set_host (f (w_host w)).1 w).
Proof. done. Qed.

Lemma run_hwait {X A} n (f : Host -> option (Host * X)) (k : X -> prog World A) w h x :
  f (w_host w) = Some (h, x) -> run n (bind (hwait f) k) w = run n (k x) (set_host h w).
Proof. intros E. cbn. by rewrite E. Qed.

Lemma run_rtdo {X A} n (f : runtime -> runtime * X) (k : X -> prog World A) w :
  run n (bind (rtdo f) k) w = run n (k (f (w_rt w)).2) (set_rt (f (w_rt w)).1 w).
Proof. done. Qed.

Lemma run_fail n e w : run n (fail e) w = Returned (-1) (set_err (Errno_val e) w).
Proof. done. Qed.

Lemma run_ret {A} n (a : A) (w : World) : run n (Ret a) w = Returned a w.
Proof. done. Qed.

End exec.

Create Rewrite HintDb go.
#[export] Hint Rewrite @run_hget @run_hdo @run_rtdo @run_fail @run_ret : go.

Ltac go := autorewrite with go; cbn beta iota.
