(* ===== verification/GoIO.v ===== *)
(** * Package io

    What the handlers use of Go's [io]: [LimitedReader], [SectionReader],
    [OffsetWriter], the copy loop of [Copy] and [CopyN], and [ReadFull], as
    their documentation and code define them.  Files, guest memory and the
    random source stay behind the host. *)

From stdpp Require Import base list gmap numbers.
From S2P Require Import Prelude GoProg LinuxABI GoRuntime Structs Host World.
Local Open Scope Z_scope.
Local Open Scope go_scope.

Section io.
Context {D : Debugger}.

(** A reader or writer is a step on its own state. *)
Definition reader (S : Type) := S -> Z -> prog World (S * bytes * option error).
Definition writer (S : Type) := S -> bytes -> prog World (S * Z * option error).

(** The [Read] of a file, and of [rand.Reader], into a buffer of length [n]. *)
Definition raw_reader := Z -> prog World (bytes * option error).
Definition file_reader (f : File) : raw_reader := fun n => hwait (fun h => file_Read h f n).
Definition rand_reader : raw_reader := fun n => hdo (fun h => rand_Reader_Read h n).

(** [io.LimitedReader]: the state is the bytes remaining. *)
Definition limited_read (src : raw_reader) : reader Z := fun N n =>
  if N <=? 0 then Ret (N, [], Some ErrEOF)
  else
    let! '(b, e) := src (Z.min n N) in
    Ret (N - zlen b, b, e).

(** [io.SectionReader] on guest memory at [base]: the state is the offset. *)
Definition section_read (base limit : Z) : reader Z := fun off n =>
  if limit <=? off then Ret (off, [], Some ErrEOF)
  else
    let! '(b, e) := hget (fun h => PtrReadAt h base (Z.min n (limit - off)) off) in
    Ret (off + zlen b, b, e).

(** [io.NewSectionReader(r, 0, n)]: where the section ends.  The guard of the
    library compares with [math.MaxInt64 - n], an [int64] that wraps when [n] is
    negative. *)
Definition section_limit (n : Z) : Z :=
  if 0 <=? int64 (MaxInt64 - n) then n else MaxInt64.

(** [io.NewOffsetWriter(ptr, 0)] at [base]. *)
Definition offset_write (base : Z) : writer Z := fun off b =>
  let! '(n, e) := hdo (fun h => PtrWriteAt h base b off) in
  Ret (off + n, n, e).

Definition file_write (f : File) : writer unit := fun _ b =>
  let! '(n, e) := hwait (fun h => file_Write h f b) in
  Ret (tt, n, e).

(** After a read has been passed on: go round again, or stop. *)
Definition copy_next {S T} (r : S) (s : T) (written : Z) (er : option error) :
    prog World ((S * T * Z) + (Z * option error)) :=
  match er with
  | None => Ret (inl (r, s, written))
  | Some e => Ret (inr (written, if decide (e = ErrEOF) then None else Some e))
  end.

(** One turn of the copy loop with a buffer of [size] bytes. *)
Definition copy_turn {S T} (rd : reader S) (wr : writer T) (size : Z)
    (st : S * T * Z) : prog World ((S * T * Z) + (Z * option error)) :=
  let '(r, s, written) := st in
  let! '(r', buf, er) := rd r size in
  if 0 <? zlen buf then
    let! '(s', nw, ew) := wr s buf in
    let bad := (nw <? 0) || (zlen buf <? nw) in
    let nw' := if bad then 0 else nw in
    let ew' := if bad then Some (default ErrInvalidWrite ew) else ew in
    let written' := written + nw' in
    match ew' with
    | Some e => Ret (inr (written', Some e))
    | None =>
        if zlen buf =? nw' then copy_next r' s' written' er
        else Ret (inr (written', Some ErrShortWrite))
    end
  else copy_next r' s written er.

Definition copy_loop {S T} (rd : reader S) (wr : writer T) (size : Z) (r : S) (s : T) :
    prog World (Z * option error) :=
  Iter (copy_turn rd wr size) (r, s, 0) Ret.

(** [io.Copy(w, io.NewSectionReader(ptr, 0, n))]: a writer that can read from
    another reader does the copy itself. *)
Definition io_Copy_section (w : File) (base n : Z) : prog World (Z * option error) :=
  if is_ReaderFrom w then
    hwait (fun h => file_ReadFrom h w base 0 (section_limit n))
  else copy_loop (section_read base (section_limit n)) (file_write w) 32768 0 tt.

(** The buffer [io.Copy] allocates for a [LimitedReader] of [N] bytes. *)
Definition copy_buffer (N : Z) : Z :=
  if N <? 32768 then (if N <? 1 then 1 else N) else 32768.

(** [io.CopyN(io.NewOffsetWriter(ptr, 0), src, n)] *)
Definition io_CopyN_offset (base : Z) (src : raw_reader) (n : Z) : prog World (Z * option error) :=
  let! '(written, err) :=
    copy_loop (limited_read src) (offset_write base) (copy_buffer n) n 0 in
  if written =? n then Ret (n, None)
  else if (written <? n) && (match err with None => true | _ => false end)
  then Ret (written, Some ErrEOF)
  else Ret (written, err).

(** [io.ReadFull(f, make([]byte, n))]: the bytes read and the error. *)
Definition read_full_turn (src : raw_reader) (len : Z) (st : bytes) :
    prog World (bytes + (bytes * option error)) :=
  if len <=? zlen st then Ret (inr (st, None))
  else
    let! '(b, e) := src (len - zlen st) in
    match e with
    | None => Ret (inl (st ++ b))
    | Some e =>
        if len <=? zlen (st ++ b) then Ret (inr (st ++ b, None))
        else Ret (inr (st ++ b,
                       Some (if decide (e = ErrEOF) then
                               if 0 <? zlen (st ++ b) then ErrUnexpectedEOF else ErrEOF
                             else e)))
    end.

Definition io_ReadFull (src : raw_reader) (len : Z) : prog World (bytes * option error) :=
  Iter (read_full_turn src len) [] Ret.

End io.

Ltac io_unfold :=
  unfold io_CopyN_offset, io_Copy_section, copy_loop, copy_turn, copy_next, limited_read,
    section_read, offset_write, file_write, file_reader, rand_reader.
