(* ===== verification/WorldSpec.v ===== *)
(** * The kernel between and inside critical sections

    [ready] is the state the kernel is in between syscalls: every lock free and
    every table made.  The lemmas say which primitive actions keep it, and that
    a critical section whose body neither panics nor blocks keeps it too. *)

From stdpp Require Import base list gmap numbers.
From S2P Require Import Prelude GoProg GoSpec LinuxABI GoRuntime Structs Host World GoIO.
Local Open Scope Z_scope.
Local Open Scope go_scope.

#[export] Instance lock_id_eq_dec : EqDecision lock_id.
Proof. solve_decision. Defined.

Create HintDb kernel.

Section worldspec.
Context {D : Debugger}.

(** Every map of the kernel has been made. *)
Definition tables_made (w : World) : Prop :=
  is_Some (fc_flags (w_fcntl w)) /\ is_Some (fx_awaits (w_futex w)) /\
  is_Some (fx_bitAwaits (w_futex w)) /\ is_Some (sg_table (w_signal w)).

(** Lock [l] is in state [m], the others are free. *)
Definition holding (l : lock_id) (m : rwmutex) (w : World) : Prop :=
  (forall l', get_rw l' w = if decide (l' = l) then m else rw_free) /\ tables_made w.

Definition ready (w : World) : Prop := locks_free w /\ tables_made w.

Lemma ready_holding l w : ready w <-> holding l rw_free w.
Proof.
  unfold ready, holding, locks_free. split; intros [H ?]; split; try done; intros l'.
  - rewrite H. by case_decide.
  - rewrite H. by case_decide.
Qed.

Lemma get_set_rw l l' m w : get_rw l' (set_rw l m w) = if decide (l' = l) then m else get_rw l' w.
Proof. by destruct l, l'. Qed.

Lemma tables_set_rw l m w : tables_made (set_rw l m w) <-> tables_made w.
Proof. by destruct l. Qed.

Lemma holding_set_rw l m m' w : holding l m w -> holding l m' (set_rw l m' w).
Proof.
  intros [H HT]. split; [|by rewrite tables_set_rw].
  intros l'. rewrite get_set_rw. case_decide; [done|]. rewrite H. by case_decide.
Qed.

(** ** What does not touch the locks and the tables *)

Class Untouched (I : World -> Prop) : Prop := {
  untouched_host h w : I w -> I (set_host h w);
  untouched_rt r w : I w -> I (set_rt r w);
  untouched_sched s w : I w -> I (set_sched s w)
}.

#[global] Instance ready_untouched : Untouched ready.
Proof.
  split; (intros ? w [H HT]; split; [intros l; specialize (H l); by destruct l|done]).
Qed.

#[global] Instance holding_untouched l m : Untouched (holding l m).
Proof.
  split; (intros ? w [H HT]; split; [intros l'; specialize (H l'); by destruct l'|done]).
Qed.

(** The errno-free predicates used for the errno contract. *)
Definition errno_clear (w : World) : Prop := w_err w = 0.

#[global] Instance errno_clear_untouched : Untouched errno_clear.
Proof. done. Qed.

Section prims.
Context (I : World -> Prop) `{!Untouched I}.

Lemma keeps_hget {X} (f : Host -> X) : keeps I (hget f).
Proof. apply keeps_act; [by intros; simplify_eq|]. intros; apply keeps_ret. Qed.

Lemma keeps_hdo {X} (f : Host -> Host * X) : keeps I (hdo f).
Proof.
  apply keeps_act; [intros; simplify_eq; by apply untouched_host|]. intros; apply keeps_ret.
Qed.

Lemma keeps_hwait {X} (f : Host -> option (Host * X)) : keeps I (hwait f).
Proof.
  apply keeps_act; [|intros; apply keeps_ret]. intros w w' x Hw E.
  destruct (f (w_host w)) as [[h y]|]; simplify_eq. by apply untouched_host.
Qed.

Lemma keeps_rtdo {X} (f : runtime -> runtime * X) : keeps I (rtdo f).
Proof.
  apply keeps_act; [intros; simplify_eq; by apply untouched_rt|]. intros; apply keeps_ret.
Qed.

Lemma keeps_select t tm chans : keeps I (select t tm chans).
Proof.
  apply keeps_act; [|intros _; apply keeps_act; [|intros; apply keeps_ret]].
  - intros w w' x Hw E. cbv zeta in E. simplify_eq. by apply untouched_rt, untouched_host.
  - intros w w' x Hw E. destruct (select_leave t (w_rt w)) as [[]|]; simplify_eq.
    by apply untouched_rt.
Qed.

Lemma keeps_send ch v : keeps I (send_nb ch v).
Proof.
  apply keeps_act.
  - intros w w' x Hw E. destruct (try_send ch v (w_rt w)); simplify_eq; try done.
    by apply untouched_rt.
  - intros [b|]; [apply keeps_ret|apply keeps_panic].
Qed.

(** ** Package io *)

Lemma keeps_raw_file f n : keeps I (file_reader f n).
Proof. apply keeps_hwait. Qed.

Lemma keeps_raw_rand n : keeps I (rand_reader n).
Proof. apply keeps_hdo. Qed.

Lemma keeps_limited src N n : (forall n, keeps I (src n)) -> keeps I (limited_read src N n).
Proof.
  intros H. unfold limited_read. destruct (N <=? 0); [apply keeps_ret|].
  apply keeps_bind; [apply H|]. intros [b e]. apply keeps_ret.
Qed.

Lemma keeps_copy {S T} (rd : reader S) (wr : writer T) size r s :
  (forall r n, keeps I (rd r n)) -> (forall s b, keeps I (wr s b)) ->
  keeps I (copy_loop rd wr size r s).
Proof.
  intros Hr Hw. unfold copy_loop. apply keeps_iter; [|intros; apply keeps_ret].
  intros [[r1 s1] wn]. unfold copy_turn, copy_next.
  apply keeps_bind; [apply Hr|]. intros [[r2 b] er].
  destruct (0 <? zlen b).
  - apply keeps_bind; [apply Hw|]. intros [[s2 nw] ew].
    repeat case_match; first [apply keeps_ret|done].
  - destruct er; apply keeps_ret.
Qed.

Lemma keeps_CopyN base src n :
  (forall n, keeps I (src n)) -> keeps I (io_CopyN_offset base src n).
Proof.
  intros H. unfold io_CopyN_offset. apply keeps_bind.
  - apply keeps_copy; [intros; by apply keeps_limited|].
    intros s b. unfold offset_write. apply keeps_bind; [apply keeps_hdo|].
    intros []; apply keeps_ret.
  - intros [wn err]. repeat case_match; apply keeps_ret.
Qed.

Lemma keeps_Copy w base n : keeps I (io_Copy_section w base n).
Proof.
  unfold io_Copy_section. destruct (is_ReaderFrom w); [apply keeps_hwait|].
  apply keeps_copy.
  - intros off k. unfold section_read. destruct (_ <=? off); [apply keeps_ret|].
    apply keeps_bind; [apply keeps_hget|]. intros []; apply keeps_ret.
  - intros s b. unfold file_write. apply keeps_bind; [apply keeps_hwait|].
    intros []; apply keeps_ret.
Qed.

Lemma keeps_ReadFull src n : (forall n, keeps I (src n)) -> keeps I (io_ReadFull src n).
Proof.
  intros H. unfold io_ReadFull. apply keeps_iter; [|intros; apply keeps_ret].
  intros st. unfold read_full_turn. destruct (_ <=? _); [apply keeps_ret|].
  apply keeps_bind; [apply H|]. intros [b [e|]]; repeat case_match; apply keeps_ret.
Qed.

End prims.

(** ** ready *)

Lemma ready_set_err e w : ready w -> ready (set_err e w).
Proof. intros [H HT]. split; [|done]. intros l. specialize (H l). by destruct l. Qed.

Lemma keeps_SetErrno e : keeps ready (SetErrno e).
Proof.
  apply keeps_act; [|intros; apply keeps_ret]. intros w w' x Hw E. simplify_eq.
  by apply ready_set_err.
Qed.

Lemma keeps_fail e : keeps ready (fail e).
Proof. apply keeps_bind; [apply keeps_SetErrno|]. intros; apply keeps_ret. Qed.

(** ** Critical sections *)

(** A body that runs to its end with the lock held. *)
Definition in_section {A} (l : lock_id) (m : rwmutex) (p : prog World A) : Prop :=
  spec (holding l m) p (fun _ => holding l m) (fun _ _ => False) (fun _ => False) (fun _ => False).

Lemma in_section_ret {A} l m (a : A) : in_section l m (Ret a).
Proof. by apply spec_ret. Qed.

Lemma in_section_bind {A B} l m (p : prog World A) (k : A -> prog World B) :
  in_section l m p -> (forall a, in_section l m (k a)) -> in_section l m (bind p k).
Proof. intros Hp Hk. eapply spec_bind; [apply Hp|apply Hk]. Qed.

(** An action that does not block and keeps [holding]. *)
Lemma in_section_act {A X} l m (f : World -> option (World * X)) (k : X -> prog World A)
    (P1 : X -> Prop) :
  (forall w, holding l m w -> exists w' x, f w = Some (w', x) /\ holding l m w' /\ P1 x) ->
  (forall x, P1 x -> in_section l m (k x)) -> in_section l m (Act f k).
Proof.
  intros Hf Hk. apply (spec_act _ f k (fun x w => holding l m w /\ P1 x)).
  - intros w Hw. by destruct (Hf w Hw) as (w' & x & -> & ?).
  - intros x n w [Hw Hx]. by apply (Hk x Hx n w).
Qed.

Lemma in_section_rtdo {X} l m (f : runtime -> runtime * X) : in_section l m (rtdo f).
Proof.
  apply (in_section_act _ _ _ _ (fun _ => True)); [|intros; apply in_section_ret].
  intros w Hw. do 2 eexists. split; [done|]. split; [by apply untouched_rt|done].
Qed.

(** Entering and leaving. *)
Lemma spec_acquire acq l m :
  acq rw_free = Some m ->
  spec ready (acquire acq l) (fun _ => holding l m) (fun _ _ => False) (fun _ => False)
    (fun _ => False).
Proof.
  intros E. apply (spec_act _ _ _ (fun _ => holding l m)); [|intros; by apply spec_ret].
  intros w Hw. apply (ready_holding l) in Hw as Hh.
  destruct Hh as [H ?]. rewrite (H l). rewrite decide_True by done. rewrite E.
  by eapply holding_set_rw.
Qed.

Lemma spec_release rel l m :
  rel m = Some rw_free ->
  spec (holding l m) (release rel l) (fun _ => ready) (fun _ _ => False) (fun _ => False)
    (fun _ => False).
Proof.
  intros E. apply (spec_act _ _ _ (fun ok w => ready w /\ ok = true)).
  - intros w Hw. destruct Hw as [H HT]. rewrite (H l). rewrite decide_True by done. rewrite E.
    split; [|done]. apply (ready_holding l). by eapply holding_set_rw.
  - intros []; intros n w [Hw E']; done.
Qed.

(** The rest of a function that holds [l]: it gives the lock back. *)
Definition closes {A} (l : lock_id) (m : rwmutex) (p : prog World A) : Prop :=
  spec (holding l m) p (fun _ => ready) (fun _ => ready) ready (fun _ => True).

Lemma keeps_acquire {A} acq l m (k : unit -> prog World A) :
  acq rw_free = Some m -> closes l m (k tt) -> keeps ready (bind (acquire acq l) k).
Proof.
  intros Ea Hk. eapply (spec_bind ready _ _ (fun _ => holding l m)); [|intros []; apply Hk].
  eapply spec_weaken; [by eapply (spec_acquire acq l m)|..]; done.
Qed.

Lemma closes_bind {A B} l m (p : prog World A) (k : A -> prog World B) :
  in_section l m p -> (forall a, closes l m (k a)) -> closes l m (bind p k).
Proof.
  intros Hp Hk. eapply (spec_bind _ _ _ (fun _ => holding l m)); [|apply Hk].
  eapply spec_weaken; [apply Hp|..]; done.
Qed.

Lemma closes_release {A} rel l m (k : unit -> prog World A) :
  rel m = Some rw_free -> keeps ready (k tt) -> closes l m (bind (release rel l) k).
Proof.
  intros Er Hk. eapply (spec_bind _ _ _ (fun _ => ready)); [|intros []; apply Hk].
  eapply spec_weaken; [by eapply (spec_release rel l m)|..]; done.
Qed.

Lemma closes_release_end rel l m :
  rel m = Some rw_free -> closes l m (release rel l).
Proof. intros Er. eapply spec_weaken; [by eapply (spec_release rel l m)|..]; done. Qed.

(** A body that may loop and panic, but does not block. *)
Definition in_loop_section {A} (l : lock_id) (m : rwmutex) (p : prog World A) : Prop :=
  spec (holding l m) p (fun _ => holding l m) (fun _ => holding l m) (fun _ => False)
    (fun _ => True).

Lemma in_section_loop {A} l m (p : prog World A) : in_section l m p -> in_loop_section l m p.
Proof. intros H. by eapply spec_weaken. Qed.

(** [defer unlock; p] under the lock *)
Lemma closes_defer_loop {A} rel l m (p : prog World A) :
  rel m = Some rw_free -> in_loop_section l m p -> closes l m (with_defer (release rel l) p).
Proof.
  intros Er Hp. eapply (spec_defer _ _ _ (fun _ => holding l m) (fun _ => holding l m)).
  - by eapply spec_weaken; [apply Hp|..].
  - intros a. by eapply spec_weaken; [by eapply (spec_release rel l m)|..].
  - intros a. by eapply spec_weaken; [by eapply (spec_release rel l m)|..].
Qed.

Lemma closes_defer {A} rel l m (p : prog World A) :
  rel m = Some rw_free -> in_section l m p -> closes l m (with_defer (release rel l) p).
Proof. intros Er Hp. by apply closes_defer_loop, in_section_loop. Qed.

End worldspec.

#[export] Hint Resolve keeps_ret keeps_panic keeps_hget keeps_hdo keeps_rtdo keeps_select
  keeps_send keeps_CopyN keeps_Copy keeps_ReadFull keeps_raw_file keeps_raw_rand
  keeps_SetErrno keeps_fail in_section_ret in_section_rtdo : kernel.

(** Follow the structure of a handler: binds, matches, loops and deferred calls. *)
Ltac keeps_step :=
  match goal with
  | |- keeps _ (match ?x with _ => _ end) => destruct x
  | |- keeps _ (if ?b then _ else _) => destruct b
  | |- keeps _ (let '(_, _) := ?x in _) => destruct x
  | |- keeps ready (bind (Lock _) _) => eapply keeps_acquire; [done|]
  | |- keeps ready (bind (RLock _) _) => eapply keeps_acquire; [done|]
  | |- keeps _ (bind _ _) => apply keeps_bind; [|intros ?]
  | |- closes _ _ (bind (Unlock _) _) => apply closes_release; [done|]
  | |- closes _ _ (bind (RUnlock _) _) => apply closes_release; [done|]
  | |- closes _ _ (Unlock _) => by apply closes_release_end
  | |- closes _ _ (bind _ _) => apply closes_bind; [|intros ?]
  | |- closes _ _ (with_defer _ _) => apply closes_defer; [done|]
  | |- in_section _ _ (match ?x with _ => _ end) => destruct x
  | |- in_section _ _ (if ?b then _ else _) => destruct b
  | |- in_section _ _ (bind _ _) => apply in_section_bind; [|intros ?]
  | |- keeps _ (with_defer _ _) => apply keeps_defer
  | |- keeps _ (Iter _ _ _) => apply keeps_iter; [intros ?|intros ?]
  end.

Ltac keeps_solve :=
  repeat first [ solve [auto with kernel typeclass_instances] | keeps_step | progress cbv zeta ].
