(* ===== verification/Threads.v ===== *)
(** * Goroutines under any schedule

    A lock discipline for programs, and what it gives when several goroutines
    are interleaved.  [disc m h hp Q]: a goroutine that holds [h] (at most one
    lock of the kernel) and runs [m] acquires and releases locks in order,
    touches a table only while it holds the lock that guards it, writes it only
    while it holds it for writing, never waits while it holds one, returns with
    a [Q] and panics with [hp] held.  [pool_interleave] says that the pool of
    disciplined goroutines stays one whatever the schedule. *)

From stdpp Require Import base list gmap numbers.
From Stdlib Require Import FunctionalExtensionality.
From S2P Require Import Prelude GoProg GoSpec Ghost LinuxABI GoRuntime Structs Host World GoIO WorldSpec.
Local Open Scope go_scope.

Inductive mode := Rd | Wr.

#[export] Instance mode_eq_dec : EqDecision mode.
Proof. solve_decision. Defined.

(** What a goroutine holds. *)
Definition held := option (lock_id * mode).

Definition count (l : lock_id) (md : mode) (hs : list held) : nat :=
  length (filter (fun h : held => h = Some (l, md)) hs).

(** The panics of a program that misuses its locks or its maps. *)
Definition misuse (p : panic) : bool :=
  match p with PanicUnlock | PanicNilMap => true | _ => false end.

Section threads.
Context {D : Debugger}.

(** The state of a lock that [r] goroutines hold for reading and [n] for
    writing. *)
Definition lock_state (n r : nat) (m : rwmutex) : Prop :=
  match n with
  | O => m = RW false r
  | 1 => r = 0 /\ m = RW true 0
  | _ => False
  end.

(** The locks are in the state of the goroutines that hold them. *)
Definition lock_inv (hs : list held) (w : World) : Prop :=
  tables_made w /\ forall l, lock_state (count l Wr hs) (count l Rd hs) (get_rw l w).

(** ** The tables the locks guard *)

Definition same_data (l : lock_id) (w w' : World) : Prop :=
  match l with
  | LkFcntl => fc_flags (w_fcntl w') = fc_flags (w_fcntl w)
  | LkFutex => fx_awaits (w_futex w') = fx_awaits (w_futex w) /\
               fx_bitAwaits (w_futex w') = fx_bitAwaits (w_futex w)
  | LkSignal => sg_table (w_signal w') = sg_table (w_signal w)
  end.

(** The worlds differ in the table of [l] only. *)
Definition same_but (l : lock_id) (w w' : World) : Prop :=
  match l with
  | LkFcntl => exists t, w' = set_fcntl (Fcntl (fc_rw (w_fcntl w)) t) w
  | LkFutex => exists a b, w' = set_futex (Futex (fx_rw (w_futex w)) a b) w
  | LkSignal => exists t, w' = set_signal (Signal (sg_set (w_signal w)) (sg_rw (w_signal w)) t) w
  end.

(** The action does not change the table of [l]. *)
Definition preserves {X} (l : lock_id) (f : World -> option (World * X)) : Prop :=
  forall w w' x, f w = Some (w', x) -> same_data l w w'.

(** The action does the same whatever is in the table of [l]. *)
Definition ignores {X} (l : lock_id) (f : World -> option (World * X)) : Prop :=
  forall w1 w2, same_but l w1 w2 ->
    match f w1, f w2 with
    | Some (w1', x1), Some (w2', x2) => x1 = x2 /\ same_but l w1' w2'
    | None, None => True
    | _, _ => False
    end.

(** The next action of a goroutine. *)
Definition next_preserves {A} (l : lock_id) (m : prog World A) : Prop :=
  match m with Act f _ => preserves l f | _ => True end.
Definition next_ignores {A} (l : lock_id) (m : prog World A) : Prop :=
  match m with Act f _ => ignores l f | _ => True end.

(** ** The discipline *)

(** What an action does to the locks, in a pool whose other goroutines hold
    [others]: it blocks only with nothing held. *)
Definition locks_ok {X} (h : held) (f : World -> option (World * X))
    (R : X -> held -> Prop) : Prop :=
  forall others w, lock_inv (h :: others) w ->
    match f w with
    | Some (w', x) => exists h1, R x h1 /\ lock_inv (h1 :: others) w'
    | None => h = None
    end.

Definition tables_ok {X} (h : held) (f : World -> option (World * X)) : Prop :=
  forall l, (h = Some (l, Wr) \/ preserves l f) /\
            ((exists md, h = Some (l, md)) \/ ignores l f).

Definition act_ok {X} (h : held) (f : World -> option (World * X))
    (R : X -> held -> Prop) : Prop := locks_ok h f R /\ tables_ok h f.

Definition disc {A} (m : prog World A) (h hp : held) (Q : A -> held -> Prop) : Prop :=
  guided (@act_ok) (fun p => misuse p = false) m h hp Q.

(** A whole goroutine: nothing is held before and after. *)
Definition disciplined {A} (m : prog World A) : Prop :=
  disc m None None (fun _ h => h = None).

(** The body of a critical section. *)
Definition sect {A} (h : held) (m : prog World A) : Prop :=
  disc m h h (fun _ h' => h' = h).

Lemma disc_mono {A} (m : prog World A) h hp (Q Q' : A -> held -> Prop) :
  (forall a h', Q a h' -> Q' a h') -> disc m h hp Q -> disc m h hp Q'.
Proof. apply guided_mono. Qed.

Lemma disc_bind {A B} (m : prog World A) (k : A -> prog World B) h hp Q Q' :
  disc m h hp Q -> (forall a h', Q a h' -> disc (k a) h' hp Q') -> disc (bind m k) h hp Q'.
Proof. apply guided_bind. Qed.

Lemma disc_defer {A} (d : prog World unit) (m : prog World A) h h1 hp Q Q' :
  disc m h h1 Q -> disc d h1 hp (fun _ h' => h' = hp) ->
  (forall a h', Q a h' -> disc d h' hp (fun _ => Q' a)) ->
  disc (with_defer d m) h hp Q'.
Proof. apply guided_defer. Qed.

(** ** Waiting *)

(** A goroutine that holds a lock is not at its end and does not wait. *)
Lemma disc_progress {A} (m : prog World A) h Q others w :
  disc m h None Q -> (forall a h', Q a h' -> h' = None) -> lock_inv (h :: others) w ->
  step1 m w = None -> h = None.
Proof.
  destruct m as [a|p|X f k|S X body s k]; cbn; try done.
  - eauto.
  - by intros [-> _].
  - intros (R & [Hf _] & Hk) _ Hw E. specialize (Hf others w Hw).
    by destruct (f w) as [[]|].
Qed.

(** ** Pools *)

Lemma count_perm l md hs hs' : hs ≡ₚ hs' -> count l md hs = count l md hs'.
Proof. intros H. unfold count. by rewrite H. Qed.

Lemma count_none l md hs : Forall (fun h : held => h = None) hs -> count l md hs = 0.
Proof.
  intros H. unfold count. induction H as [|h hs -> _ IH]; [done|].
  by rewrite filter_cons_False.
Qed.

#[global] Instance lock_inv_proper : Proper ((≡ₚ) ==> (=) ==> iff) lock_inv.
Proof.
  intros hs hs' H w _ <-. unfold lock_inv.
  apply and_iff_compat_l. split; intros Hl l; specialize (Hl l);
    rewrite ?(count_perm l _ hs hs') in * by done; done.
Qed.

#[local] Instance lock_sound : Sound (@act_ok) lock_inv.
Proof.
  split; [apply _|]. intros X h f R others w w' x [Hf _] Hw E. specialize (Hf others w Hw).
  by rewrite E in Hf.
Qed.

Definition pool_ok {A} (ts : list (prog World A)) (w : World) : Prop :=
  exists hs, pool_guided (@act_ok) (fun p => misuse p = false) (eq None) ts hs /\ lock_inv hs w.

Lemma pool_interleave {A} sch (ts ts' : list (prog World A)) w w' :
  pool_ok ts w -> interleave sch ts w = Some (ts', w') -> pool_ok ts' w'.
Proof. intros (hs & HF & Hw) E. by eapply (pool_kept _ _ lock_inv). Qed.

(** At the start nobody holds anything. *)
Lemma pool_none {A} (ts : list (prog World A)) w :
  Forall disciplined ts -> ready w ->
  pool_guided (@act_ok) (fun p => misuse p = false) (eq None) ts (replicate (length ts) None) /\
  lock_inv (replicate (length ts) None) w.
Proof.
  intros HF [Hl HT]. split.
  { apply pool_begin, Forall2_replicate_r; [done|]. eapply Forall_impl; [|exact HF]. by intros m Hm. }
  split; [done|]. intros l. rewrite !count_none by (by apply Forall_replicate). apply Hl.
Qed.

(** ** Holders *)

(** What the next action may do to a table. *)
Lemma disc_tables {A} (m : prog World A) h hp Q l :
  disc m h hp Q ->
  (h = Some (l, Wr) \/ next_preserves l m) /\ ((exists md, h = Some (l, md)) \/ next_ignores l m).
Proof. destruct m; cbn; auto. intros (R & [_ Ht] & _). apply Ht. Qed.

Lemma count_pos l md hs i : hs !! i = Some (Some (l, md)) -> (0 < count l md hs)%nat.
Proof.
  intros H. rewrite (count_perm l md hs (Some (l, md) :: delete i hs)) by (by apply delete_Permutation).
  unfold count. rewrite filter_cons_True by done. cbn. lia.
Qed.

Lemma count_two l md1 md2 hs i j :
  hs !! i = Some (Some (l, md1)) -> hs !! j = Some (Some (l, md2)) -> i <> j ->
  if decide (md1 = md2) then (2 <= count l md1 hs)%nat
  else (0 < count l md1 hs)%nat /\ (0 < count l md2 hs)%nat.
Proof.
  intros Hi Hj Hij. case_decide as E; [subst md2|by split; eapply count_pos].
  rewrite (count_perm l md1 hs (Some (l, md1) :: delete i hs)) by (by apply delete_Permutation).
  unfold count. rewrite filter_cons_True by done. cbn [length].
  assert (exists k, delete i hs !! k = Some (Some (l, md1))) as [k Hk].
  { destruct (decide (j < i)%nat) as [Hlt|Hge].
    - exists j. by rewrite list_lookup_delete_lt.
    - exists (j - 1)%nat. rewrite list_lookup_delete_ge by lia. by replace (S (j - 1)) with j by lia. }
  pose proof (count_pos _ _ _ _ Hk) as Hp. unfold count in Hp. lia.
Qed.

(** A writer is alone. *)
Lemma lock_excludes hs w i j l md :
  lock_inv hs w -> hs !! i = Some (Some (l, Wr)) -> hs !! j = Some (Some (l, md)) -> i <> j -> False.
Proof.
  intros [_ Hl] Hi Hj Hij. specialize (Hl l). pose proof (count_two _ _ _ _ _ _ Hi Hj Hij) as Hc.
  case_decide as E; [subst md|].
  - destruct (count l Wr hs) as [|[|]]; [lia|lia|done].
  - destruct md; [|done]. destruct (count l Wr hs) as [|[|]]; [lia|destruct Hl; lia|done].
Qed.

Lemma count_holder l md hs : (0 < count l md hs)%nat -> exists i, hs !! i = Some (Some (l, md)).
Proof.
  unfold count. intros H.
  destruct (filter (fun h : held => h = Some (l, md)) hs) as [|h r] eqn:E; [cbn in H; lia|].
  assert (h ∈ filter (fun h : held => h = Some (l, md)) hs) as Hin by (rewrite E; by left).
  apply list_elem_of_filter in Hin as [-> Hin]. by apply list_elem_of_lookup in Hin.
Qed.

(** A lock that is not free is held by a goroutine of the pool. *)
Lemma lock_holder hs w l :
  lock_inv hs w -> get_rw l w = rw_free \/ exists i md, hs !! i = Some (Some (l, md)).
Proof.
  intros [_ Hl]. specialize (Hl l).
  destruct (count l Wr hs) as [|n] eqn:Ew.
  - destruct (count l Rd hs) as [|r] eqn:Er; [by left|].
    destruct (count_holder l Rd hs) as [i Hi]; [lia|]. eauto.
  - destruct (count_holder l Wr hs) as [i Hi]; [lia|]. eauto.
Qed.

Lemma pool_holds {A} (ts : list (prog World A)) (hs : list held) i m (h : held) w :
  pool_guided (@act_ok) (fun p => misuse p = false) (eq None) ts hs -> lock_inv hs w ->
  ts !! i = Some m -> hs !! i = Some h -> step1 m w = None -> h = None.
Proof.
  intros HF Hw Hm Hh Hs.
  destruct (pool_pick _ _ lock_inv (eq None) ts hs i m w HF Hw Hm) as (h' & others & Hh' & _ & Hd & Hw1 & _).
  apply homing_eq in Hd.
  assert (h' = h) as -> by (rewrite Hh in Hh'; by injection Hh').
  by apply (disc_progress m h (fun _ h' => h' = None) others w).
Qed.

(** When no goroutine can take a step, no lock is held. *)
Lemma pool_stuck {A} (ts : list (prog World A)) w :
  pool_ok ts w -> Forall (fun m => step1 m w = None) ts -> ready w.
Proof.
  intros (hs & HF & Hw) Hs. split; [|apply Hw]. intros l.
  destruct (lock_holder hs w l Hw) as [?|(i & md & Hi)]; [done|].
  destruct (Forall2_lookup_r _ _ _ _ _ HF Hi) as (m & Hm & _).
  rewrite Forall_lookup in Hs. by pose proof (pool_holds ts hs i m _ w HF Hw Hm Hi (Hs i m Hm)).
Qed.

(** ** Who holds what, as the locks show it

    [owners] follows a schedule and notes after every step what the goroutine
    that took it has acquired or released. *)

Definition holding (k : lock_id * mode) (w : World) : nat :=
  match k.2 with Rd => rw_readers (get_rw k.1 w) | Wr => Nat.b2n (rw_writer (get_rw k.1 w)) end.

Definition lock_modes : list (lock_id * mode) :=
  [(LkFcntl, Rd); (LkFcntl, Wr); (LkFutex, Rd); (LkFutex, Wr); (LkSignal, Rd); (LkSignal, Wr)].

(** After a step from [w] to [w1] of a goroutine that held [h]. *)
Definition took (w w1 : World) (h : held) : held :=
  match filter (fun k => holding k w < holding k w1) lock_modes with
  | k :: _ => Some k
  | [] =>
      match h with
      | Some k => if decide (holding k w1 < holding k w) then None else Some k
      | None => None
      end
  end.

Fixpoint owners {A} (sch : list nat) (ts : list (prog World A)) (hs : list held) (w : World) : list held :=
  match sch with
  | [] => hs
  | i :: sch =>
      match m ← ts !! i; step1 m w with
      | Some (m', w') => owners sch (<[i := m']> ts) (alter (took w w') i hs) w'
      | None => hs
      end
  end.

Lemma holding_count hs w k : lock_inv hs w -> holding k w = count k.1 k.2 hs.
Proof.
  intros [_ Hl]. destruct k as [l md]. specialize (Hl l). unfold lock_state, holding in *. cbn [fst snd] in *.
  destruct (count l Wr hs) as [|[|]] eqn:E; [rewrite Hl|destruct Hl as [Hr ->]|done]; destruct md; cbn; congruence.
Qed.

Lemma count_cons l md h hs :
  count l md (h :: hs) = (if decide (h = Some (l, md)) then 1 else 0) + count l md hs.
Proof. unfold count. rewrite filter_cons. by case_decide. Qed.

(** The locks show exactly what the step did. *)
Lemma took_spec h h1 others w w1 :
  lock_inv (h :: others) w -> lock_inv (h1 :: others) w1 -> took w w1 h = h1.
Proof.
  intros Hw Hw1.
  assert (forall k, holding k w = (if decide (h = Some k) then 1 else 0) + count k.1 k.2 others) as E.
  { intros [l md]. by rewrite (holding_count _ _ _ Hw), count_cons. }
  assert (forall k, holding k w1 = (if decide (h1 = Some k) then 1 else 0) + count k.1 k.2 others) as E1.
  { intros [l md]. by rewrite (holding_count _ _ _ Hw1), count_cons. }
  unfold took. destruct (filter _ lock_modes) as [|k ks] eqn:Ef.
  - assert (forall k, ~ holding k w < holding k w1) as Hno.
    { intros k Hk. assert (k ∈ filter (fun k => holding k w < holding k w1) lock_modes) as Hin.
      - apply list_elem_of_filter. split; [done|]. unfold lock_modes. destruct k as [[] []]; set_solver.
      - rewrite Ef in Hin. by apply not_elem_of_nil in Hin. }
    assert (forall k, h1 = Some k -> h = Some k) as Hsub.
    { intros k ->. specialize (Hno k). rewrite E, E1 in Hno. destruct (decide (h = Some k)); [done|].
      rewrite decide_True in Hno by done. lia. }
    destruct h1 as [k1|]; [rewrite (Hsub k1 eq_refl), decide_False; [done|rewrite E1, E, (Hsub k1 eq_refl); lia]|].
    destruct h as [k|]; [|done]. rewrite decide_True; [done|]. rewrite E1, E, decide_False, decide_True by done. lia.
  - assert (k ∈ filter (fun k => holding k w < holding k w1) lock_modes) as Hin by (rewrite Ef; by left).
    apply list_elem_of_filter in Hin as [Hlt _]. rewrite E, E1 in Hlt.
    destruct (decide (h1 = Some k)); [done|]. lia.
Qed.

Lemma pool_owners {A} sch : forall (ts ts' : list (prog World A)) hs w w',
  pool_guided (@act_ok) (fun p => misuse p = false) (eq None) ts hs -> lock_inv hs w ->
  interleave sch ts w = Some (ts', w') ->
  pool_guided (@act_ok) (fun p => misuse p = false) (eq None) ts' (owners sch ts hs w) /\
  lock_inv (owners sch ts hs w) w'.
Proof.
  induction sch as [|i sch IH]; intros ts ts' hs w w' HF Hw E; cbn in E |- *; [by simplify_eq|].
  destruct (ts !! i) as [m|] eqn:Ei; [|done]. cbn. destruct (step1 m w) as [[m1 w1]|] eqn:Es; [|done].
  destruct (pool_pick _ _ lock_inv (eq None) ts hs i m w HF Hw Ei) as (h & others & Hh & HP & Hd & Hw1 & Hins).
  destruct (homing_step _ _ lock_inv (eq None) m m1 h others w w1 Hd Hw1 Es) as (h1 & Hd1 & Hw2).
  assert (alter (took w w1) i hs = <[i := h1]> hs) as ->.
  { apply list_eq. intros j. destruct (decide (i = j)) as [<-|Hne].
    - rewrite list_lookup_alter_eq, Hh. cbn. rewrite (took_spec h h1 others w w1 Hw1 Hw2).
      symmetry. apply list_lookup_insert_eq. by eapply lookup_lt_Some.
    - by rewrite list_lookup_alter_ne, list_lookup_insert_ne. }
  apply (IH _ _ (<[i := h1]> hs)); [by apply Forall2_insert|by rewrite Hins|done].
Qed.

Lemma set_rw_id l m w : get_rw l w = m -> set_rw l m w = w.
Proof. intros <-. destruct w as [? ? [] [] [] ? ?]. by destruct l. Qed.

End threads.
