(* ===== verification/Fcntl.v ===== *)
(** * Files: src/kernel/fcntl.go

    The [fcntl] component keeps one thing of its own, the table of the open
    flags by descriptor, under its lock; descriptors and files live in the
    debugger.  This file has every handler but the four [stat] ones (file
    Stat), and the theorems about descriptors and their flags. *)

From stdpp Require Import base list gmap numbers strings.
From S2P Require Import Prelude GoProg GoSpec LinuxABI GoRuntime Structs Host World GoIO WorldSpec.
Local Open Scope Z_scope.
Local Open Scope go_scope.

Module Fcntl.
Section fcntl.
Context {D : Debugger}.

Definition AT_FDCWD : Z := -100.

(** The commands of [fcntl]. *)
Definition F_DUPFD : Z := 0.
Definition F_GETFD : Z := 1.
Definition F_SETFD : Z := 2.
Definition F_GETFL : Z := 3.
Definition F_SETFL : Z := 4.
Definition F_GETLK : Z := 5.
Definition F_SETLK : Z := 6.
Definition F_SETLKW : Z := 7.
Definition F_GETLK64 : Z := 12.
Definition F_SETLK64 : Z := 13.
Definition F_SETLKW64 : Z := 14.
Definition O_CLOEXEC : Z := 0x80000.

(** ** The flags table *)

Definition ctor : prog World unit :=
  Act (fun w => Some (set_fcntl (Fcntl (fc_rw (w_fcntl w)) (Some ∅)) w, tt)) Ret.

Definition dtor : prog World unit :=
  Act (fun w => Some (set_fcntl (Fcntl (fc_rw (w_fcntl w)) None) w, tt)) Ret.

(** [f.flags\[fd\]] as a value: 0 when absent. *)
Definition flag_of (w : World) (fd : Z) : Z :=
  default 0 (nmap_get (fc_flags (w_fcntl w)) fd).

Definition flags_get (fd : Z) : prog World Z :=
  Act (fun w => Some (w, flag_of w fd)) Ret.

(** [f.flags\[fd\] = v] *)
Definition flags_put (fd v : Z) : prog World unit :=
  Act (fun w =>
         match fc_flags (w_fcntl w) with
         | Some m => Some (set_fcntl (Fcntl (fc_rw (w_fcntl w)) (Some (<[fd := v]> m))) w, true)
         | None => Some (w, false)
         end)
      (fun ok : bool => if ok then Ret tt else Panic PanicNilMap).

(** [delete(f.flags, fd)] *)
Definition flags_delete (fd : Z) : prog World unit :=
  Act (fun w =>
         match fc_flags (w_fcntl w) with
         | Some m => Some (set_fcntl (Fcntl (fc_rw (w_fcntl w)) (Some (delete fd m))) w, tt)
         | None => Some (w, tt)
         end) Ret.

(** [f.rw.Lock(); f.flags\[fd\] = v; f.rw.Unlock()] *)
Definition store_flags (fd v : Z) : prog World unit :=
  Lock LkFcntl ;;;
  flags_put fd v ;;;
  Unlock LkFcntl.

(** ** Helpers for the code the path handlers repeat *)

(** [path, err := ctx.ToPointer(filename).MemReadString()] *)
Definition with_path (filename : Z) (k : bytes -> prog World Z) : prog World Z :=
  let! path := hget (fun h => MemReadString h filename) in
  match path with
  | inr _ => fail ENOENT
  | inl path => k path
  end.

(** The directory of an [at] call: a descriptor that is one, or the root. *)
Definition with_dir {X} (as_dir : File -> option X) (cwd : prog World X) (dfd : Z)
    (k : X -> prog World Z) : prog World Z :=
  if negb (dfd =? AT_FDCWD) then
    let! file := hget (fun h => GetFile h dfd) in
    match file with
    | inr _ => fail EBADF
    | inl file =>
        match as_dir file with
        | None => fail ENOTDIR
        | Some dir => k dir
        end
    end
  else
    let! dir := cwd in k dir.

(** The tail of [open] and [openat]: errors, then a descriptor with its flags. *)
Definition finish_open (flags : Z) (r : File + error) : prog World Z :=
  match r with
  | inr err => if errors_Is_ErrExist err then fail EEXIST else fail ENOENT
  | inl file =>
      let! fd := hdo (fun h => CreateFileDescriptor h file) in
      store_flags fd flags ;;;
      Ret (int32 fd)
  end.

(** ** toFileFlag *)

Definition O_WRONLY : Z := 1.
Definition O_RDWR : Z := 2.
Definition O_APPEND : Z := 0x400.
Definition O_CREAT : Z := 0x40.
Definition O_EXCL : Z := 0x80.
Definition O_SYNC : Z := 0x101000.
Definition O_TRUNC : Z := 0x200.

Definition toFileFlag (flags : Z) : FileFlag :=
  let ff := fs_O_RDONLY in
  let ff := if has_bits flags O_WRONLY then fs_O_WRONLY else ff in
  let ff := if has_bits flags O_RDWR then fs_O_RDWR else ff in
  let ff := if has_bits flags O_APPEND then flag_or ff fs_O_APPEND else ff in
  let ff := if has_bits flags O_CREAT then flag_or ff fs_O_CREATE else ff in
  let ff := if has_bits flags O_EXCL then flag_or ff fs_O_EXCL else ff in
  let ff := if has_bits flags O_SYNC then flag_or ff fs_O_SYNC else ff in
  let ff := if has_bits flags O_TRUNC then flag_or ff fs_O_TRUNC else ff in
  ff.

(** ** Descriptors *)

Definition dup3 (oldfd newfd flags : Z) : prog World Z :=
  let! err := hdo (fun h => Dup2File h oldfd newfd) in
  match err with
  | Some _ => fail EBADF
  | None =>
      store_flags newfd flags ;;;
      Ret (int32 newfd)
  end.

Definition fcntl (fd cmd arg : Z) : prog World Z :=
  let! file := hget (fun h => GetFile h fd) in
  match file with
  | inr _ => fail EBADF
  | inl _ =>
      if cmd =? F_DUPFD then
        let! r := hdo (fun h => DupFile h fd) in
        match r with
        | inr _ => fail EBADF
        | inl newfd =>
            Lock LkFcntl ;;;
            let! v := flags_get fd in
            flags_put newfd v ;;;
            Unlock LkFcntl ;;;
            Ret (int32 newfd)
        end
      else if cmd =? F_GETFD then
        RLock LkFcntl ;;;
        let! v := flags_get fd in
        RUnlock LkFcntl ;;;
        Ret (if has_bits v O_CLOEXEC then 1 else 0)
      else if cmd =? F_SETFD then
        Lock LkFcntl ;;;
        let! v := flags_get fd in
        flags_put fd (Z.lor v O_CLOEXEC) ;;;
        Unlock LkFcntl ;;;
        Ret 0
      else if cmd =? F_GETFL then
        RLock LkFcntl ;;;
        let! v := flags_get fd in
        RUnlock LkFcntl ;;;
        Ret v
      else if cmd =? F_SETFL then
        store_flags fd (int32 arg) ;;;
        Ret 0
      else if (cmd =? F_GETLK) || (cmd =? F_GETLK64) then Ret 0
      else if (cmd =? F_SETLK) || (cmd =? F_SETLKW) || (cmd =? F_SETLK64) || (cmd =? F_SETLKW64)
      then Ret 0
      else Panic (PanicMsg "fcntl: unsupported")
  end.

Definition faccessat (dfd filename mode : Z) : prog World Z :=
  with_path filename (fun path =>
  with_dir as_FS (hget GetFS) dfd (fun dir =>
    let! r := hdo (fun h => FS_OpenFile h dir path fs_O_RDONLY (uint32 mode)) in
    match r with
    | inr _ => fail ENOENT
    | inl file =>
        let! _ := hdo (fun h => file_Close h file) in
        Ret 0
    end)).

Definition open (filename flags mode : Z) : prog World Z :=
  with_path filename (fun path =>
    let! r := hdo (fun h => OpenFile h path (toFileFlag flags) (uint32 mode)) in
    finish_open flags r).

Definition openat (dfd filename flags mode : Z) : prog World Z :=
  with_path filename (fun path =>
  with_dir as_FS (hget GetFS) dfd (fun dir =>
    let! r := hdo (fun h => FS_OpenFile h dir path (toFileFlag flags) (uint32 mode)) in
    finish_open flags r)).

Definition close (fd : Z) : prog World Z :=
  let! r := hdo (fun h => CloseFileDescriptor h fd) in
  match r with
  | inr _ => fail EBADF
  | inl file =>
      let! _ := hdo (fun h => file_Close h file) in
      Lock LkFcntl ;;;
      flags_delete fd ;;;
      Unlock LkFcntl ;;;
      Ret 0
  end.

Definition pipe2 (fildes flags : Z) : prog World Z :=
  let! p := hdo os_Pipe in
  match p with
  | inr _ => fail EMFILE
  | inl (r, w) =>
      let! rfd := hdo (fun h => CreateFileDescriptor h r) in
      let! wfd := hdo (fun h => CreateFileDescriptor h w) in
      Lock LkFcntl ;;;
      flags_put rfd flags ;;;
      flags_put wfd flags ;;;
      Unlock LkFcntl ;;;
      let! _ := hdo (fun h => MemWrite h fildes ShInt32Pair (int32 rfd, int32 wfd)) in
      Ret 0
  end.

(** ** Transfers *)

Definition lseek (fd offset whence : Z) : prog World Z :=
  let! file := hget (fun h => GetFile h fd) in
  match file with
  | inr _ => fail EBADF
  | inl file =>
      if is_Seeker file then
        let! r := hdo (fun h => file_Seek h file offset whence) in
        match r with
        | inr _ => fail EINVAL
        | inl off => Ret off
        end
      else fail EINVAL
  end.

Definition read (fd buf count : Z) : prog World Z :=
  let! file := hget (fun h => GetFile h fd) in
  match file with
  | inr _ => fail EBADF
  | inl file =>
      if is_Reader file then
        let! '(n, err) := io_CopyN_offset buf (file_reader file) (int64 count) in
        match err with
        | Some _ => fail EIO
        | None => Ret n
        end
      else fail EINTR
  end.

Definition write (fd buf count : Z) : prog World Z :=
  let! file := hget (fun h => GetFile h fd) in
  match file with
  | inr _ => fail EBADF
  | inl file =>
      if is_Writer file then
        let! '(n, err) := io_Copy_section file buf (int64 count) in
        match err with
        | Some _ => fail EIO
        | None => Ret n
        end
      else fail EINTR
  end.

(** The loop of [writev] over the vectors, with the total so far. *)
Fixpoint writev_loop (w : File) (arr : list iovec) (n : Z) : prog World Z :=
  match arr with
  | [] => Ret n
  | v :: arr =>
      let! '(m, err) := io_Copy_section w (iov_base v) (int64 (iov_len v)) in
      match err with
      | Some _ => fail EIO
      | None => writev_loop w arr (int64 (n + m))
      end
  end.

Definition writev (fd iov iovcnt : Z) : prog World Z :=
  let! file := hget (fun h => GetFile h fd) in
  match file with
  | inr _ => fail EBADF
  | inl file =>
      if is_Writer file then
        if iovcnt <? 0 then Panic PanicMakeLen
        else
          let! '(arr, _) :=
            hget (fun h => MemExtract h iov ShIovecs (replicate (Z.to_nat iovcnt) zero_iovec)) in
          writev_loop file arr 0
      else fail EINTR
  end.

Definition readlinkat (dfd filename buf bufsiz : Z) : prog World Z :=
  with_path filename (fun path =>
  with_dir as_ReadlinkFS
    (let! fs := hget GetFS in
     match FS_as_ReadlinkFS fs with
     | Some dir => Ret dir
     | None => Panic PanicTypeAssert
     end) dfd (fun dir =>
    let! link := hget (fun h => FS_Readlink h dir path) in
    match link with
    | inr _ => fail EINVAL
    | inl link =>
        let size := Z.min (zlen link) bufsiz in
        let! _ := hdo (fun h => MemWritePtr h buf (ztake size link)) in
        Ret size
    end)).

(** ** Critical sections on the flags table *)

Lemma flags_get_section m fd : in_section LkFcntl m (flags_get fd).
Proof.
  apply (in_section_act _ _ _ _ (fun _ => True)); [|intros; apply in_section_ret].
  intros w Hw. by do 2 eexists.
Qed.

Lemma holding_flags m (w : World) f :
  holding LkFcntl m w -> holding LkFcntl m (set_fcntl (World.Fcntl (fc_rw (w_fcntl w)) (Some f)) w).
Proof.
  intros [H (HT1 & HT2)]. split; [intros l'; specialize (H l'); by destruct l'|].
  split; [done|apply HT2].
Qed.

Lemma flags_put_section m fd v : in_section LkFcntl m (flags_put fd v).
Proof.
  apply (in_section_act _ _ _ _ (fun ok => ok = true)); [|intros ? ->; apply in_section_ret].
  intros w Hw. pose proof Hw as [_ [[f Ef] _]]. rewrite Ef.
  do 2 eexists. split; [done|]. split; [by apply holding_flags|done].
Qed.

Lemma flags_delete_section m fd : in_section LkFcntl m (flags_delete fd).
Proof.
  apply (in_section_act _ _ _ _ (fun _ => True)); [|intros; apply in_section_ret].
  intros w Hw. pose proof Hw as [_ [[f Ef] _]]. rewrite Ef.
  do 2 eexists. split; [done|]. split; [by apply holding_flags|done].
Qed.

End fcntl.

#[global] Hint Resolve flags_get_section flags_put_section flags_delete_section : kernel.

(** Every handler of the component keeps the kernel ready. *)
Section fcntl_ready.
Context {D : Debugger}.

Lemma keeps_store fd v : keeps ready (store_flags fd v).
Proof. unfold store_flags. keeps_solve. Qed.
#[local] Hint Resolve keeps_store : kernel.

Lemma keeps_finish_open flags r : keeps ready (finish_open flags r).
Proof. unfold finish_open. keeps_solve. Qed.
#[local] Hint Resolve keeps_finish_open : kernel.

Lemma keeps_path f k : (forall p, keeps ready (k p)) -> keeps ready (with_path f k).
Proof. intros. unfold with_path. keeps_solve. Qed.

Lemma keeps_dir {X} as_dir (cwd : prog World X) dfd k :
  keeps ready cwd -> (forall d, keeps ready (k d)) -> keeps ready (with_dir as_dir cwd dfd k).
Proof. intros. unfold with_dir. keeps_solve. Qed.

Lemma keeps_dup3 o n f : keeps ready (dup3 o n f).
Proof. unfold dup3. keeps_solve. Qed.
Lemma keeps_fcntl fd cmd arg : keeps ready (fcntl fd cmd arg).
Proof. unfold fcntl. keeps_solve. Qed.
Lemma keeps_faccessat d f m : keeps ready (faccessat d f m).
Proof. apply keeps_path; intros. apply keeps_dir; intros; keeps_solve. Qed.
Lemma keeps_open f fl m : keeps ready (open f fl m).
Proof. apply keeps_path; intros. keeps_solve. Qed.
Lemma keeps_openat d f fl m : keeps ready (openat d f fl m).
Proof. apply keeps_path; intros. apply keeps_dir; intros; keeps_solve. Qed.
Lemma keeps_close fd : keeps ready (close fd).
Proof. unfold close. keeps_solve. Qed.
Lemma keeps_pipe2 p f : keeps ready (pipe2 p f).
Proof. unfold pipe2. keeps_solve. Qed.
Lemma keeps_lseek fd o wh : keeps ready (lseek fd o wh).
Proof. unfold lseek. keeps_solve. Qed.
Lemma keeps_read fd b c : keeps ready (read fd b c).
Proof. unfold read. keeps_solve. Qed.
Lemma keeps_write fd b c : keeps ready (write fd b c).
Proof. unfold write. keeps_solve. Qed.
Lemma keeps_writev_loop f arr : forall n, keeps ready (writev_loop f arr n).
Proof. induction arr; intros; cbn [writev_loop]; keeps_solve. Qed.
#[local] Hint Resolve keeps_writev_loop : kernel.
Lemma keeps_writev fd i c : keeps ready (writev fd i c).
Proof. unfold writev. keeps_solve. Qed.
Lemma keeps_readlinkat d f b s : keeps ready (readlinkat d f b s).
Proof. apply keeps_path; intros. apply keeps_dir; intros; keeps_solve. Qed.

End fcntl_ready.
#[global] Hint Resolve keeps_dup3 keeps_fcntl keeps_faccessat keeps_open keeps_openat keeps_close
  keeps_pipe2 keeps_lseek keeps_read keeps_write keeps_writev keeps_readlinkat : kernel.
(** ** Runs on the flags table *)

Section fcntl_runs.
Context {D : Debugger}.

Definition with_flags (m : gmap Z Z) (w : World) : World :=
  set_fcntl (World.Fcntl rw_free (Some m)) w.

Lemma run_store {A} n fd v (k : unit -> prog World A) w m :
  fc_rw (w_fcntl w) = rw_free -> fc_flags (w_fcntl w) = Some m ->
  run n (bind (store_flags fd v) k) w = run n (k tt) (with_flags (<[fd := v]> m) w).
Proof. destruct w as [h r [rw fl] fx sg sd e]. cbn. by intros -> ->. Qed.

(** The table is gone: the write panics while the lock is held. *)
Lemma run_store_closed {A} n fd v (k : unit -> prog World A) w :
  fc_rw (w_fcntl w) = rw_free -> fc_flags (w_fcntl w) = None ->
  run n (bind (store_flags fd v) k) w = Panicked PanicNilMap (set_rw LkFcntl (RW true 0) w).
Proof. destruct w as [h r [rw fl] fx sg sd e]. cbn. by intros -> ->. Qed.

(** [Lock; v := flags\[fd\]; flags\[fd'\] = g v; Unlock] *)
Lemma run_update {A} n fd fd' (g : Z -> Z) (k : unit -> prog World A) w m :
  fc_rw (w_fcntl w) = rw_free -> fc_flags (w_fcntl w) = Some m ->
  run n (Lock LkFcntl ;;; let! v := flags_get fd in flags_put fd' (g v) ;;; bind (Unlock LkFcntl) k) w =
  run n (k tt) (with_flags (<[fd' := g (default 0 (m !! fd))]> m) w).
Proof. destruct w as [h r [rw fl] fx sg sd e]. cbn. by intros -> ->. Qed.

(** [RLock; v := flags\[fd\]; RUnlock] *)
Lemma run_peek {A} n fd (k : Z -> prog World A) w :
  fc_rw (w_fcntl w) = rw_free ->
  run n (RLock LkFcntl ;;; let! v := flags_get fd in RUnlock LkFcntl ;;; k v) w =
  run n (k (flag_of w fd)) w.
Proof. destruct w as [h r [rw fl] fx sg sd e]. cbn. by intros ->. Qed.

Lemma run_delete {A} n fd (k : unit -> prog World A) w m :
  fc_rw (w_fcntl w) = rw_free -> fc_flags (w_fcntl w) = Some m ->
  run n (Lock LkFcntl ;;; flags_delete fd ;;; bind (Unlock LkFcntl) k) w =
  run n (k tt) (with_flags (delete fd m) w).
Proof. destruct w as [h r [rw fl] fx sg sd e]. cbn. by intros -> ->. Qed.

Lemma run_store2 {A} n fd1 fd2 v (k : unit -> prog World A) w m :
  fc_rw (w_fcntl w) = rw_free -> fc_flags (w_fcntl w) = Some m ->
  run n (Lock LkFcntl ;;; flags_put fd1 v ;;; flags_put fd2 v ;;; bind (Unlock LkFcntl) k) w =
  run n (k tt) (with_flags (<[fd2 := v]> (<[fd1 := v]> m)) w).
Proof. destruct w as [h r [rw fl] fx sg sd e]. cbn. by intros -> ->. Qed.

End fcntl_runs.

End Fcntl.
