(* ===== verification/Stat.v ===== *)
(** * File status: the stat handlers of src/kernel/fcntl.go

    [fstatat3264], [fstatat64], [fstat3264] and [fstat64] repeat one piece of
    code on two structs: the mode, the size and the modification time of an
    [fs.FileInfo].  [st_mode_of] and [ts_of_nano] are that code. *)

From stdpp Require Import base list gmap numbers strings.
From S2P Require Import Prelude GoProg GoSpec LinuxABI GoRuntime Structs Host World GoIO WorldSpec.
From S2P Require Import Fcntl.
Local Open Scope Z_scope.
Local Open Scope go_scope.

Module Stat.

Definition S_IFIFO : Z := 0x1000.
Definition S_IFCHR : Z := 0x2000.
Definition S_IFDIR : Z := 0x4000.
Definition S_IFBLK : Z := 0x6000.
Definition S_IFREG : Z := 0x8000.
Definition S_IFLNK : Z := 0xA000.
Definition S_IFSOCK : Z := 0xC000.

(** [switch mode.Type()] *)
Definition st_type_of (t : Z) : Z :=
  if t =? ModeCharDevice then S_IFCHR
  else if t =? ModeDevice then S_IFBLK
  else if t =? ModeDir then S_IFDIR
  else if t =? ModeNamedPipe then S_IFIFO
  else if t =? ModeSymlink then S_IFLNK
  else if t =? ModeSocket then S_IFSOCK
  else S_IFREG.

Definition st_mode_of (mode : Z) : Z :=
  Z.lor (uint32 (mode_Perm mode)) (st_type_of (mode_Type mode)).

(** Go's [/] and [%] truncate towards zero. *)
Definition ts_of_nano (nano : Z) : timespec :=
  Timespec (Z.quot nano 1000000000) (Z.rem nano 1000000000).

Definition stat3264_of (info : FileInfo) : stat3264 :=
  let ts := ts_of_nano (fi_UnixNano info) in
  Stat3264 0 0 0 (st_mode_of (fi_Mode info)) 0 0 0 0 0 (fi_Size info) 0 0 ts ts ts 0.

Definition stat64_of (info : FileInfo) : stat64 :=
  let ts := ts_of_nano (fi_UnixNano info) in
  Stat64 0 0 (st_mode_of (fi_Mode info)) 0 0 0 0 0 (fi_Size info) 0 0 0 ts ts ts 0 0.

Section stat.
Context {D : Debugger}.

Definition fstatat3264 (dfd filename statbuf flag : Z) : prog World Z :=
  Fcntl.with_path filename (fun path =>
  Fcntl.with_dir as_IoFS (hget (fun h => FS_IoFS (GetFS h))) dfd (fun dir =>
    let! info := hget (fun h => FS_Stat h dir path) in
    match info with
    | inr _ => fail ENOENT
    | inl info =>
        let! _ := hdo (fun h => MemWrite h statbuf ShStat3264 (stat3264_of info)) in
        Ret 0
    end)).

Definition fstatat64 (dfd filename statbuf flag : Z) : prog World Z :=
  Fcntl.with_path filename (fun path =>
  Fcntl.with_dir as_IoFS (hget (fun h => FS_IoFS (GetFS h))) dfd (fun dir =>
    let! info := hget (fun h => FS_Stat h dir path) in
    match info with
    | inr _ => fail ENOENT
    | inl info =>
        let! _ := hdo (fun h => MemWrite h statbuf ShStat64 (stat64_of info)) in
        Ret 0
    end)).

Definition fstat3264 (fd statbuf : Z) : prog World Z :=
  let! file := hget (fun h => GetFile h fd) in
  match file with
  | inr _ => fail EBADF
  | inl file =>
      let! info := hget (fun h => file_Stat h file) in
      match info with
      | inr _ => fail ENOENT
      | inl info =>
          let! _ := hdo (fun h => MemWrite h statbuf ShStat3264 (stat3264_of info)) in
          Ret 0
      end
  end.

Definition fstat64 (fd statbuf : Z) : prog World Z :=
  let! file := hget (fun h => GetFile h fd) in
  match file with
  | inr _ => fail EBADF
  | inl file =>
      let! info := hget (fun h => file_Stat h file) in
      match info with
      | inr _ => fail ENOENT
      | inl info =>
          let! _ := hdo (fun h => MemWrite h statbuf ShStat64 (stat64_of info)) in
          Ret 0
      end
  end.

End stat.
(** Every handler keeps the kernel ready. *)
Section stat_ready.
Context {D : Debugger}.

Lemma keeps_fstatat3264 d f b fl : keeps ready (fstatat3264 d f b fl).
Proof. apply Fcntl.keeps_path; intros. apply Fcntl.keeps_dir; intros; keeps_solve. Qed.
Lemma keeps_fstatat64 d f b fl : keeps ready (fstatat64 d f b fl).
Proof. apply Fcntl.keeps_path; intros. apply Fcntl.keeps_dir; intros; keeps_solve. Qed.
Lemma keeps_fstat3264 fd b : keeps ready (fstat3264 fd b).
Proof. unfold fstat3264. keeps_solve. Qed.
Lemma keeps_fstat64 fd b : keeps ready (fstat64 fd b).
Proof. unfold fstat64. keeps_solve. Qed.

End stat_ready.
#[global] Hint Resolve keeps_fstatat3264 keeps_fstatat64 keeps_fstat3264 keeps_fstat64 : kernel.

End Stat.
