(* ===== verification/Signal.v ===== *)
(** * Signals: src/kernel/signal.go

    The blocked-signal mask, the table of actions under its lock, and the
    handlers [rt_sigaction], [rt_sigprocmask] and [rt_tgsigqueueinfo]. *)

From stdpp Require Import base list gmap numbers strings.
From S2P Require Import Prelude GoProg GoSpec LinuxABI GoRuntime Structs Host World GoIO WorldSpec.
Local Open Scope Z_scope.
Local Open Scope go_scope.

Module Signal.

(** ** sigset_t

    A 64-bit set.  A shift count is [uint(sig-1)] with [sig-1] computed in
    [int32]; Go's shift gives 0 from 64 on. *)
Definition sig_shift (sig : Z) : Z := uint64 (int32 (sig - 1)).
Definition sig_bit (sig : Z) : Z :=
  if sig_shift sig <? 64 then Z.shiftl 1 (sig_shift sig) else 0.

Definition sigemptyset : Z := 0.
Definition sigfillset : Z := MaxUint64.
Definition sigaddset (set sig : Z) : Z := Z.lor set (sig_bit sig).
Definition sigdelset (set sig : Z) : Z := and_not set (sig_bit sig).

Section signal.
Context {D : Debugger}.

Definition ctor : prog World unit :=
  Act (fun w => Some (set_signal (Signal (sg_set (w_signal w)) (sg_rw (w_signal w)) (Some ∅)) w, tt)) Ret.

Definition dtor : prog World unit :=
  Act (fun w => Some (set_signal (Signal (sg_set (w_signal w)) (sg_rw (w_signal w)) None) w, tt)) Ret.

(** [old, ok := s.table\[signal\]] *)
Definition table_get (sig : Z) : prog World (option sigaction) :=
  Act (fun w => Some (w, nmap_get (sg_table (w_signal w)) sig)) Ret.

(** [s.table\[signal\] = action] *)
Definition table_put (sig : Z) (a : sigaction) : prog World unit :=
  Act (fun w =>
         match sg_table (w_signal w) with
         | Some m =>
             Some (set_signal (Signal (sg_set (w_signal w)) (sg_rw (w_signal w))
                                 (Some (<[sig := a]> m))) w, true)
         | None => Some (w, false)
         end)
      (fun ok : bool => if ok then Ret tt else Panic PanicNilMap).

Definition set_get : prog World Z :=
  Act (fun w => Some (w, sg_set (w_signal w))) Ret.

Definition set_put (v : Z) : prog World unit :=
  Act (fun w => Some (set_signal (Signal v (sg_rw (w_signal w)) (sg_table (w_signal w))) w, tt)) Ret.

Definition rt_sigaction (sig act oldact size : Z) : prog World Z :=
  let! '(action, err) := hget (fun h => MemExtract h act ShSigaction zero_sigaction) in
  match err with
  | Some _ => fail EFAULT
  | None =>
      Lock LkSignal ;;;
      let! old := table_get sig in
      table_put sig action ;;;
      Unlock LkSignal ;;;
      match old with
      | None => Ret 0
      | Some old =>
          if oldact =? 0 then Ret 0
          else
            let! _ := hdo (fun h => MemWrite h oldact ShSigaction old) in
            Ret 0
      end
  end.

Definition SIG_BLOCK : Z := 1.
Definition SIG_UNBLOCK : Z := 2.
Definition SIG_SETMASK : Z := 3.

(** From [var value sigset_t] on. *)
Definition sigprocmask_set (how set : Z) : prog World Z :=
  let! '(value, err) := hget (fun h => MemExtract h set ShSigset 0) in
  match err with
  | Some _ => fail EFAULT
  | None =>
      if how =? SIG_BLOCK then
        let! s := set_get in set_put (Z.lor s value) ;;; Ret 0
      else if how =? SIG_UNBLOCK then
        let! s := set_get in set_put (and_not s value) ;;; Ret 0
      else if how =? SIG_SETMASK then
        set_put value ;;; Ret 0
      else fail EINVAL
  end.

Definition rt_sigprocmask (how set oldset size : Z) : prog World Z :=
  if negb (oldset =? 0) then
    let! s := set_get in
    let! err := hdo (fun h => MemWrite h oldset ShSigset s) in
    match err with
    | Some _ => fail EFAULT
    | None => sigprocmask_set how set
    end
  else sigprocmask_set how set.

(** The two lines after the [panic] are never reached. *)
Definition rt_tgsigqueueinfo (tgid tid sig info : Z) : prog World Z :=
  let! '(_, err) := hget (fun h => MemExtract h info ShSiginfo zero_siginfo) in
  match err with
  | Some _ => fail EFAULT
  | None => Panic (PanicMsg "rt_tgsigqueueinfo")
  end.

End signal.
(** Every handler keeps the kernel ready. *)
Section signal_ready.
Context {D : Debugger}.

Lemma table_get_section m sig : in_section LkSignal m (table_get sig).
Proof.
  apply (in_section_act _ _ _ _ (fun _ => True)); [|intros; apply in_section_ret].
  intros w Hw. by do 2 eexists.
Qed.

Lemma table_put_section m sig a : in_section LkSignal m (table_put sig a).
Proof.
  apply (in_section_act _ _ _ _ (fun ok => ok = true)); [|intros ? ->; apply in_section_ret].
  intros w [H (HT1 & HT2 & HT3 & [t Et])]. rewrite Et. do 2 eexists. split; [done|].
  split; [|done]. split; [intros l'; specialize (H l'); by destruct l'|]. by split_and!.
Qed.
#[local] Hint Resolve table_get_section table_put_section : kernel.

Lemma keeps_set_get : keeps ready set_get.
Proof. apply keeps_act; [by intros; simplify_eq|]. intros; apply keeps_ret. Qed.

Lemma keeps_set_put v : keeps ready (set_put v).
Proof.
  apply keeps_act; [|intros; apply keeps_ret]. intros w w' x [H HT] E. simplify_eq.
  split; [intros l; specialize (H l); by destruct l|done].
Qed.
#[local] Hint Resolve keeps_set_get keeps_set_put : kernel.

Lemma keeps_rt_sigaction s a o n : keeps ready (rt_sigaction s a o n).
Proof. unfold rt_sigaction. keeps_solve. Qed.
Lemma keeps_sigprocmask_set h s : keeps ready (sigprocmask_set h s).
Proof. unfold sigprocmask_set. keeps_solve. Qed.
#[local] Hint Resolve keeps_sigprocmask_set : kernel.
Lemma keeps_rt_sigprocmask h s o n : keeps ready (rt_sigprocmask h s o n).
Proof. unfold rt_sigprocmask. keeps_solve. Qed.
Lemma keeps_rt_tgsigqueueinfo g t s i : keeps ready (rt_tgsigqueueinfo g t s i).
Proof. unfold rt_tgsigqueueinfo. keeps_solve. Qed.

End signal_ready.
#[global] Hint Resolve keeps_rt_sigaction keeps_rt_sigprocmask keeps_rt_tgsigqueueinfo : kernel.

End Signal.
