(* ===== verification/Futex.v ===== *)
(** * Futexes: src/kernel/futex.go

    A waiter is registered on a channel shared by all waiters of its address
    (and, for the bitset operations, on one shared by all waiters of its bit
    mask); the registration is counted, and the last waiter to leave removes
    it.  A wake makes non-blocking sends on the channel. *)

From stdpp Require Import base list gmap numbers strings.
From S2P Require Import Prelude GoProg GoSpec LinuxABI GoRuntime Structs Host World GoIO WorldSpec.
Local Open Scope Z_scope.
Local Open Scope go_scope.

Module Futex.
Section futex.
Context {D : Debugger}.

Definition FUTEX_WAIT : Z := 0.
Definition FUTEX_WAKE : Z := 1.
Definition FUTEX_CMP_REQUEUE : Z := 4.
Definition FUTEX_WAIT_BITSET : Z := 9.
Definition FUTEX_WAKE_BITSET : Z := 10.
Definition FUTEX_PRIVATE_FLAG : Z := 128.
Definition FUTEX_CLOCK_REALTIME : Z := 256.
Definition FUTEX_CMD_MASK : Z := Z.lnot (Z.lor FUTEX_PRIVATE_FLAG FUTEX_CLOCK_REALTIME).

(** ** The tables *)

Inductive table := Awaits | BitAwaits.

Definition get_table (t : table) (f : futex_t) : option (gmap Z await) :=
  match t with Awaits => fx_awaits f | BitAwaits => fx_bitAwaits f end.

Definition set_table (t : table) (m : option (gmap Z await)) (f : futex_t) : futex_t :=
  match t with
  | Awaits => Futex (fx_rw f) m (fx_bitAwaits f)
  | BitAwaits => Futex (fx_rw f) (fx_awaits f) m
  end.

Definition ctor : prog World unit :=
  Act (fun w => Some (set_futex (Futex (fx_rw (w_futex w)) (Some ∅) (Some ∅)) w, tt)) Ret.

(** [await, ok := f.awaits\[key\]] *)
Definition lookup_await (t : table) (key : Z) : prog World (option await) :=
  Act (fun w => Some (w, nmap_get (get_table t (w_futex w)) key)) Ret.

(** [f.awaits\[key\] = &futexAwait{ch, ref}]; also the update of [await.ref]
    through the pointer the map holds. *)
Definition store_await (t : table) (key : Z) (a : await) : prog World unit :=
  Act (fun w =>
         match get_table t (w_futex w) with
         | Some m =>
             Some (set_futex (set_table t (Some (<[key := a]> m)) (w_futex w)) w, true)
         | None => Some (w, false)
         end)
      (fun ok : bool => if ok then Ret tt else Panic PanicNilMap).

(** [delete(f.awaits, key)] *)
Definition delete_await (t : table) (key : Z) : prog World unit :=
  Act (fun w =>
         match get_table t (w_futex w) with
         | Some m => Some (set_futex (set_table t (Some (delete key m)) (w_futex w)) w, tt)
         | None => Some (w, tt)
         end) Ret.

(** [range] over a table: its keys in the order the runtime picks. *)
Definition table_keys (m : option (gmap Z await)) : list Z :=
  match m with Some m => (map_to_list m).*1 | None => [] end.

Definition range_table (t : table) : prog World (list Z) :=
  Act (fun w =>
         let o := range_order (w_host w) (table_keys (get_table t (w_futex w))) in
         Some (set_host o.1 w, o.2)) Ret.

(** [for _, await := range f.awaits { close(await.ch) }], the keys being given *)
Fixpoint close_keys (t : table) (keys : list Z) : prog World unit :=
  match keys with
  | [] => Ret tt
  | k :: keys =>
      let! a := lookup_await t k in
      match a with
      | Some a => chan_close (aw_ch a) ;;; close_keys t keys
      | None => close_keys t keys
      end
  end.

Definition close_table (t : table) : prog World unit :=
  let! keys := range_table t in
  close_keys t keys.

Definition dtor : prog World unit :=
  Lock LkFutex ;;;
  close_table Awaits ;;;
  close_table BitAwaits ;;;
  Act (fun w => Some (set_futex (Futex (fx_rw (w_futex w)) None None) w, tt)) Ret ;;;
  Unlock LkFutex.

(** ** Registration *)

Definition getAwait (addr : Z) : prog World (option Z) :=
  RLock LkFutex ;;;
  with_defer (RUnlock LkFutex)
    (let! a := lookup_await Awaits addr in
     Ret (aw_ch <$> a)).

(** [await.ref++] on an entry, or a new entry with a new channel. *)
Definition add_ref (t : table) (key : Z) : prog World Z :=
  let! a := lookup_await t key in
  match a with
  | Some a =>
      store_await t key (Await (aw_ch a) (int64 (aw_ref a + 1))) ;;;
      Ret (aw_ch a)
  | None =>
      let! ch := rtdo make_chan in
      store_await t key (Await ch 1) ;;;
      Ret ch
  end.

(** [await.ref--], and the entry goes when no one is left. *)
Definition del_ref (t : table) (key : Z) : prog World unit :=
  let! a := lookup_await t key in
  match a with
  | None => Ret tt
  | Some a =>
      let ref := int64 (aw_ref a - 1) in
      store_await t key (Await (aw_ch a) ref) ;;;
      (if ref <=? 0 then delete_await t key else Ret tt)
  end.

Definition addAwait (addr : Z) : prog World Z :=
  Lock LkFutex ;;;
  with_defer (Unlock LkFutex) (add_ref Awaits addr).

Definition delAwait (addr : Z) : prog World unit :=
  Lock LkFutex ;;;
  with_defer (Unlock LkFutex) (del_ref Awaits addr).

Definition addBitAwait (addr bit : Z) : prog World (Z * Z) :=
  Lock LkFutex ;;;
  with_defer (Unlock LkFutex)
    (let! ch1 := add_ref Awaits addr in
     let! ch2 := add_ref BitAwaits bit in
     Ret (ch1, ch2)).

Definition delBitAwait (addr bit : Z) : prog World unit :=
  Lock LkFutex ;;;
  with_defer (Unlock LkFutex)
    (del_ref Awaits addr ;;; del_ref BitAwaits bit).

(** ** The operations *)

(** [MemReadPtr(4, unsafe.Pointer(&raw))] *)
Definition read_u32 (addr : Z) : prog World (Z + error) :=
  let! r := hget (fun h => MemReadPtr h addr 4) in
  Ret (match r with inl b => inl (le_decode b) | inr e => inr e end).

(** [time.Duration(ts.tv_sec)*time.Second + time.Duration(ts.tv_nsec)] *)
Definition duration_of (ts : timespec) : Z :=
  int64 (int64 (tv_sec ts * 1000000000) + tv_nsec ts).

(** The part [FUTEX_WAIT] and [FUTEX_WAIT_BITSET] start with: compare the word,
    set up the timeout, go on. *)
Definition wait_prepare (uaddr val utime : Z) (k : option Z -> prog World Z) : prog World Z :=
  let! raw := read_u32 uaddr in
  match raw with
  | inr _ => fail EFAULT
  | inl raw =>
      if negb (raw =? val) then fail EAGAIN
      else if negb (utime =? 0) then
        let! '(ts, err) := hget (fun h => MemExtract h utime ShTimespec zero_timespec) in
        match err with
        | Some _ => fail EFAULT
        | None =>
            let! tm := rtdo (time_After (duration_of ts)) in
            k (Some tm)
        end
      else k None
  end.

(** The cases of the [FUTEX_WAIT] loop. *)
Definition wait_case (val : Z) (wk : wakeup) : prog World (unit + Z) :=
  match wk with
  | WkTimeout => let! r := fail ETIMEDOUT in Ret (inr r)
  | WkRecv _ raw ok =>
      if negb ok then let! r := fail EPERM in Ret (inr r)
      else if negb (raw =? val) then Ret (inr 0)
      else Ret (inl tt)
  end.

(** One turn of it. *)
Definition wait_turn (tid val : Z) (tm : option Z) (ch : Z) (_ : unit) : prog World (unit + Z) :=
  let! wk := select tid tm [ch] in wait_case val wk.

Definition futex_wait (tid uaddr val utime : Z) : prog World Z :=
  wait_prepare uaddr val utime (fun tm =>
    let! ch := addAwait uaddr in
    with_defer (delAwait uaddr) (Iter (wait_turn tid val tm ch) tt Ret)).

(** The cases of the [FUTEX_WAIT_BITSET] loop: case 0 is the address channel,
    case 1 the bit channel. *)
Definition wait_bitset_case (uaddr val : Z) (wk : wakeup) : prog World (unit + Z) :=
  match wk with
  | WkTimeout => let! r := fail ETIMEDOUT in Ret (inr r)
  | WkRecv O raw ok =>
      if negb ok then let! r := fail EPERM in Ret (inr r)
      else if negb (raw =? val) then Ret (inr 0)
      else Ret (inl tt)
  | WkRecv (S _) _ _ =>
      let! raw := read_u32 uaddr in
      match raw with
      | inr _ => let! r := fail EFAULT in Ret (inr r)
      | inl raw => if negb (raw =? val) then Ret (inr 0) else Ret (inl tt)
      end
  end.

(** One turn of it. *)
Definition wait_bitset_turn (tid uaddr val : Z) (tm : option Z) (ch1 ch2 : Z) (_ : unit) :
    prog World (unit + Z) :=
  let! wk := select tid tm [ch1; ch2] in wait_bitset_case uaddr val wk.

Definition futex_wait_bitset (tid uaddr val utime val3 : Z) : prog World Z :=
  wait_prepare uaddr val utime (fun tm =>
    let! '(ch1, ch2) := addBitAwait uaddr val3 in
    with_defer (delBitAwait uaddr val3)
      (Iter (wait_bitset_turn tid uaddr val tm ch1 ch2) tt Ret)).

(** [for i := int32(0); i != count; i++ { select { case ch <- v: default: return i } }] *)
Definition wake_turn (ch value count i : Z) : prog World (Z + Z) :=
  if i =? count then Ret (inr count)
  else
    let! sent := send_nb ch value in
    if sent then Ret (inl (int32 (i + 1))) else Ret (inr i).

Definition futex_wake (uaddr val : Z) : prog World Z :=
  let! ch := getAwait uaddr in
  match ch with
  | None => Ret 0
  | Some ch =>
      let! value := read_u32 uaddr in
      match value with
      | inr _ => fail EFAULT
      | inl value => Iter (wake_turn ch value (int32 val)) 0 Ret
      end
  end.

(** [for ; i != count; i++ { select { case await.ch <- struct{}{}: default: goto exit } }] *)
Definition wake_bit_turn (ch count i : Z) : prog World (Z + Z) :=
  if i =? count then Ret (inr i)
  else
    let! sent := send_nb ch 0 in
    if sent then Ret (inl (int32 (i + 1))) else Ret (inr i).

(** The [range] over the bit masks, in the order given. *)
Fixpoint wake_bits (bits : list Z) (val3 count i : Z) : prog World Z :=
  match bits with
  | [] => Ret i
  | bit :: bits =>
      if Z.land bit val3 =? 0 then wake_bits bits val3 count i
      else
        let! a := lookup_await BitAwaits bit in
        match a with
        | None => wake_bits bits val3 count i
        | Some a =>
            let! i := Iter (wake_bit_turn (aw_ch a) count) i Ret in
            if i =? count then Ret i else wake_bits bits val3 count i
        end
  end.

Definition futex_wake_bitset (val val3 : Z) : prog World Z :=
  RLock LkFutex ;;;
  with_defer (RUnlock LkFutex)
    (let! bits := range_table BitAwaits in
     wake_bits bits val3 (int32 val) 0).

Definition futex (tid uaddr op val utime uaddr2 val3 : Z) : prog World Z :=
  let cmd := Z.land op FUTEX_CMD_MASK in
  if cmd =? FUTEX_WAIT then futex_wait tid uaddr val utime
  else if cmd =? FUTEX_WAKE then futex_wake uaddr val
  else if cmd =? FUTEX_CMP_REQUEUE then Panic (PanicMsg "futex: FUTEX_CMP_REQUEUE")
  else if cmd =? FUTEX_WAIT_BITSET then futex_wait_bitset tid uaddr val utime val3
  else if cmd =? FUTEX_WAKE_BITSET then futex_wake_bitset val val3
  else fail ENOSYS.

End futex.
(** Every operation keeps the kernel ready, also when it blocks or panics. *)
Section futex_ready.
Context {D : Debugger}.

Lemma lookup_section m t key : in_section LkFutex m (lookup_await t key).
Proof.
  apply (in_section_act _ _ _ _ (fun _ => True)); [|intros; apply in_section_ret].
  intros w Hw. by do 2 eexists.
Qed.

Lemma get_table_made t (w : World) : tables_made w -> is_Some (get_table t (w_futex w)).
Proof. intros (? & ? & ? & ?). by destruct t. Qed.

Lemma holding_table m t f (w : World) :
  holding LkFutex m w -> holding LkFutex m (set_futex (set_table t (Some f) (w_futex w)) w).
Proof.
  intros [H (H1 & H2 & H3 & H4)]. split.
  - intros l'; specialize (H l'); by destruct l', t.
  - by destruct t; split_and!.
Qed.

Lemma store_section m t key a : in_section LkFutex m (store_await t key a).
Proof.
  apply (in_section_act _ _ _ _ (fun ok => ok = true)); [|intros ? ->; apply in_section_ret].
  intros w Hw. destruct (get_table_made t w) as [f Ef]; [apply Hw|]. rewrite Ef.
  do 2 eexists. split; [done|]. split; [by apply holding_table|done].
Qed.

Lemma delete_section m t key : in_section LkFutex m (delete_await t key).
Proof.
  apply (in_section_act _ _ _ _ (fun _ => True)); [|intros; apply in_section_ret].
  intros w Hw. destruct (get_table_made t w) as [f Ef]; [apply Hw|]. rewrite Ef.
  do 2 eexists. split; [done|]. split; [by apply holding_table|done].
Qed.
#[local] Hint Resolve lookup_section store_section delete_section : kernel.

Lemma add_ref_section m t key : in_section LkFutex m (add_ref t key).
Proof. unfold add_ref. keeps_solve. Qed.
Lemma del_ref_section m t key : in_section LkFutex m (del_ref t key).
Proof. unfold del_ref. keeps_solve. Qed.
#[local] Hint Resolve add_ref_section del_ref_section : kernel.

Lemma keeps_getAwait a : keeps ready (getAwait a).
Proof. unfold getAwait. keeps_solve. Qed.
Lemma keeps_addAwait a : keeps ready (addAwait a).
Proof. unfold addAwait. keeps_solve. Qed.
Lemma keeps_delAwait a : keeps ready (delAwait a).
Proof. unfold delAwait. keeps_solve. Qed.
Lemma keeps_addBitAwait a b : keeps ready (addBitAwait a b).
Proof. unfold addBitAwait. keeps_solve. Qed.
Lemma keeps_delBitAwait a b : keeps ready (delBitAwait a b).
Proof. unfold delBitAwait. keeps_solve. Qed.
#[local] Hint Resolve keeps_getAwait keeps_addAwait keeps_delAwait keeps_addBitAwait
  keeps_delBitAwait : kernel.

Lemma keeps_read_u32 a : keeps ready (read_u32 a).
Proof. unfold read_u32. keeps_solve. Qed.
#[local] Hint Resolve keeps_read_u32 : kernel.

Lemma keeps_wait_prepare u v t k :
  (forall tm, keeps ready (k tm)) -> keeps ready (wait_prepare u v t k).
Proof. intros. unfold wait_prepare. keeps_solve. Qed.

Lemma keeps_futex_wait tid u v t : keeps ready (futex_wait tid u v t).
Proof. apply keeps_wait_prepare. intros. unfold wait_turn, wait_case. keeps_solve. Qed.

Lemma keeps_futex_wait_bitset tid u v t v3 : keeps ready (futex_wait_bitset tid u v t v3).
Proof. apply keeps_wait_prepare. intros. unfold wait_bitset_turn, wait_bitset_case. keeps_solve. Qed.

Lemma keeps_futex_wake u v : keeps ready (futex_wake u v).
Proof. unfold futex_wake, wake_turn. keeps_solve. Qed.

Lemma send_loop_section m ch v : in_loop_section LkFutex m (send_nb ch v).
Proof.
  apply (spec_act _ _ _ (fun _ => holding LkFutex m)).
  - intros w Hw. by destruct (try_send ch v (w_rt w)).
  - intros [b|]; [by apply spec_ret|by apply spec_panic].
Qed.

Lemma wake_bit_turn_section m ch count i : in_loop_section LkFutex m (wake_bit_turn ch count i).
Proof.
  unfold wake_bit_turn. destruct (i =? count); [by apply spec_ret|].
  eapply spec_bind; [apply send_loop_section|]. intros []; by apply spec_ret.
Qed.

Lemma wake_bits_section m val3 count bits : forall i,
  in_loop_section LkFutex m (wake_bits bits val3 count i).
Proof.
  induction bits as [|bit bits IH]; intros i; cbn [wake_bits]; [by apply spec_ret|].
  destruct (_ =? 0); [apply IH|].
  eapply spec_bind; [apply in_section_loop, lookup_section|]. intros [a|]; [|apply IH].
  eapply (spec_bind _ _ _ (fun _ => holding LkFutex m)).
  - apply (spec_iter _ _ _ _ (fun _ => holding LkFutex m) (fun _ => holding LkFutex m));
      [done|done| |intros; by apply spec_ret].
    intros s. eapply spec_weaken; [apply wake_bit_turn_section|done| |done..]. by intros [].
  - intros j. destruct (j =? count); [by apply spec_ret|apply IH].
Qed.

Lemma keeps_futex_wake_bitset v v3 : keeps ready (futex_wake_bitset v v3).
Proof.
  unfold futex_wake_bitset.
  apply (keeps_acquire rw_rlock LkFutex (RW false 1)); [done|]. apply closes_defer_loop; [done|].
  eapply spec_bind; [|intros; apply wake_bits_section].
  apply (spec_act _ _ _ (fun _ => holding LkFutex (RW false 1)));
    [|intros; by apply spec_ret].
  intros w Hw. cbv zeta. by apply untouched_host.
Qed.
#[local] Hint Resolve keeps_futex_wait keeps_futex_wake keeps_futex_wait_bitset
  keeps_futex_wake_bitset : kernel.

Lemma keeps_futex tid u op v t u2 v3 : keeps ready (futex tid u op v t u2 v3).
Proof. unfold futex. keeps_solve. Qed.

End futex_ready.
#[global] Hint Resolve keeps_futex : kernel.

End Futex.
