(* ===== verification/Mman.v ===== *)
(** * Memory mappings: src/kernel/mman.go

    mmap, mmap2, munmap and mprotect; the mappings themselves are the
    debugger's. *)

From stdpp Require Import base list gmap numbers strings.
From S2P Require Import Prelude CTypes GoProg GoSpec LinuxABI GoRuntime Structs Host World GoIO WorldSpec.
Local Open Scope Z_scope.
Local Open Scope go_scope.

Module Mman.

Definition PAGE_SIZE : Z := 4096.
Definition MAP_FAILED : Z := MaxUint64.
Definition MAP_FIXED : Z := 0x10.
Definition MAP_ANONYMOUS : Z := 0x20.

(** The longest slice [make] gives on a 64-bit host. *)
Definition max_make : Z := 2 ^ 48.

Section mman.
Context {D : Debugger}.

(** [ctx.SetErrno(e); return MAP_FAILED] *)
Definition map_fail (e : Errno) : prog World Z :=
  SetErrno e ;;; Ret MAP_FAILED.

Definition munmap (addr len : Z) : prog World Z :=
  let! err := hdo (fun h => MapFree h addr len) in
  match err with
  | Some _ => fail EINVAL
  | None => Ret 0
  end.

(** Move to [offset]: seek, or read that much and drop it. *)
Definition skip_to (f : File) (offset : Z) : prog World (option error) :=
  if is_Seeker f then
    let! r := hdo (fun h => file_Seek h f offset 0) in
    Ret (match r with inl _ => None | inr e => Some e end)
  else if (offset <? 0) || (max_make <? offset) then Panic PanicMakeLen
  else
    let! '(_, e) := io_ReadFull (file_reader f) offset in
    Ret e.

(** The address range, then the file's bytes into it. *)
Definition map_region (addr len : Z) (prot : MemProt) (flags : Z) (f : option File) :
    prog World Z :=
  let! region :=
    (if has_bits flags MAP_FIXED then
       let! _ := hdo (fun h => MemUnmap h addr len) in
       hdo (fun h => MemMap h addr len prot)
     else hdo (fun h => MapAlloc h len prot)) in
  match region with
  | inr _ => map_fail EINVAL
  | inl addr =>
      match f with
      | None => Ret addr
      | Some f =>
          let! '(_, err) := io_CopyN_offset addr (file_reader f) (int64 len) in
          match err with
          | Some _ =>
              let! _ := hdo (fun h => MapFree h addr len) in
              map_fail ENODEV
          | None => Ret addr
          end
      end
  end.

Definition mmap (addr len : Z) (prot : MemProt) (flags fd offset : Z) : prog World Z :=
  if negb (has_bits flags MAP_ANONYMOUS) && (0 <=? fd) then
    let! file := hget (fun h => GetFile h fd) in
    match file with
    | inr _ => map_fail EBADF
    | inl f =>
        if negb (is_ReadFile f) then map_fail ENODEV
        else if negb (offset =? 0) then
          let! err := skip_to f offset in
          match err with
          | Some _ => map_fail ENODEV
          | None => map_region addr len prot flags (Some f)
          end
        else map_region addr len prot flags (Some f)
    end
  else map_region addr len prot flags None.

(** [count*PAGE_SIZE] is computed in [size_t], then converted to [off_t]. *)
Definition mmap2 (addr len : Z) (prot : MemProt) (flags fd count : Z) : prog World Z :=
  mmap addr len prot flags fd (off_t (size_t (count * PAGE_SIZE))).

Definition mprotect (start len : Z) (prot : MemProt) : prog World Z :=
  let! err := hdo (fun h => MemProtect h start len prot) in
  match err with
  | Some _ => fail EINVAL
  | None => Ret 0
  end.

End mman.
(** Every handler keeps the kernel ready. *)
Section mman_ready.
Context {D : Debugger}.

Lemma keeps_map_fail e : keeps ready (map_fail e).
Proof. unfold map_fail. keeps_solve. Qed.
#[local] Hint Resolve keeps_map_fail : kernel.
Lemma keeps_skip_to f o : keeps ready (skip_to f o).
Proof. unfold skip_to. keeps_solve. Qed.
Lemma keeps_map_region a l p fl f : keeps ready (map_region a l p fl f).
Proof. unfold map_region. keeps_solve. Qed.
#[local] Hint Resolve keeps_skip_to keeps_map_region : kernel.
Lemma keeps_munmap a l : keeps ready (munmap a l).
Proof. unfold munmap. keeps_solve. Qed.
Lemma keeps_mmap a l p fl fd o : keeps ready (mmap a l p fl fd o).
Proof. unfold mmap. keeps_solve. Qed.
Lemma keeps_mmap2 a l p fl fd c : keeps ready (mmap2 a l p fl fd c).
Proof. apply keeps_mmap. Qed.
Lemma keeps_mprotect s l p : keeps ready (mprotect s l p).
Proof. unfold mprotect. keeps_solve. Qed.

End mman_ready.
#[global] Hint Resolve keeps_munmap keeps_mmap keeps_mmap2 keeps_mprotect : kernel.

End Mman.
