(* ===== verification/Socket.v ===== *)
(** * Sockets: src/kernel/socket.go

    The one handler, [socket], with its translation of domain and type. *)

From stdpp Require Import base list gmap numbers strings.
From S2P Require Import Prelude GoProg GoSpec LinuxABI GoRuntime Structs Host World GoIO WorldSpec.
Local Open Scope Z_scope.
Local Open Scope go_scope.

Module Socket.

Definition AF_UNSPEC : Z := 0.
Definition AF_UNIX : Z := 1.
Definition AF_LOCAL : Z := 1.
Definition AF_INET : Z := 2.
Definition AF_AX25 : Z := 3.
Definition AF_IPX : Z := 4.
Definition AF_APPLETALK : Z := 5.
Definition AF_NETROM : Z := 6.
Definition AF_BRIDGE : Z := 7.
Definition AF_ATMPVC : Z := 8.
Definition AF_X25 : Z := 9.
Definition AF_INET6 : Z := 10.
Definition AF_ROSE : Z := 11.
Definition AF_DECnet : Z := 12.
Definition AF_NETBEUI : Z := 13.
Definition AF_SECURITY : Z := 14.
Definition AF_KEY : Z := 15.
Definition AF_NETLINK : Z := 16.
Definition AF_ROUTE : Z := AF_NETLINK.
Definition AF_PACKET : Z := 17.
Definition AF_ASH : Z := 18.
Definition AF_ECONET : Z := 19.
Definition AF_ATMSVC : Z := 20.
Definition AF_RDS : Z := 21.
Definition AF_SNA : Z := 22.
Definition AF_IRDA : Z := 23.
Definition AF_PPPOX : Z := 24.
Definition AF_WANPIPE : Z := 25.
Definition AF_LLC : Z := 26.
Definition AF_CAN : Z := 29.
Definition AF_TIPC : Z := 30.
Definition AF_BLUETOOTH : Z := 31.
Definition AF_IUCV : Z := 32.
Definition AF_RXRPC : Z := 33.
Definition AF_ISDN : Z := 34.
Definition AF_PHONET : Z := 35.
Definition AF_IEEE802154 : Z := 36.
Definition AF_CAIF : Z := 37.
Definition AF_ALG : Z := 38.
Definition AF_NFC : Z := 39.
Definition AF_VSOCK : Z := 40.
Definition AF_KCM : Z := 41.
Definition AF_QIPCRTR : Z := 42.
Definition AF_MAX : Z := 43.

Definition SOCK_STREAM : Z := 1.
Definition SOCK_DGRAM : Z := 2.
Definition SOCK_RAW : Z := 3.
Definition SOCK_RDM : Z := 4.
Definition SOCK_SEQPACKET : Z := 5.
Definition SOCK_DCCP : Z := 6.
Definition SOCK_PACKET : Z := 10.

(** The address families and the socket types of the [const] block. *)
Definition address_families : list Z :=
  [AF_UNSPEC; AF_UNIX; AF_LOCAL; AF_INET; AF_AX25; AF_IPX; AF_APPLETALK; AF_NETROM;
   AF_BRIDGE; AF_ATMPVC; AF_X25; AF_INET6; AF_ROSE; AF_DECnet; AF_NETBEUI; AF_SECURITY;
   AF_KEY; AF_NETLINK; AF_ROUTE; AF_PACKET; AF_ASH; AF_ECONET; AF_ATMSVC; AF_RDS; AF_SNA;
   AF_IRDA; AF_PPPOX; AF_WANPIPE; AF_LLC; AF_CAN; AF_TIPC; AF_BLUETOOTH; AF_IUCV; AF_RXRPC;
   AF_ISDN; AF_PHONET; AF_IEEE802154; AF_CAIF; AF_ALG; AF_NFC; AF_VSOCK; AF_KCM;
   AF_QIPCRTR; AF_MAX].
Definition socket_types : list Z :=
  [SOCK_STREAM; SOCK_DGRAM; SOCK_RAW; SOCK_RDM; SOCK_SEQPACKET; SOCK_DCCP; SOCK_PACKET].

(** The [switch] on the domain and, inside, on the masked type. *)
Definition network_of (domain typ : Z) : Network :=
  if domain =? AF_LOCAL then
    if typ =? SOCK_STREAM then NetUnix
    else if typ =? SOCK_DGRAM then NetUnixGram else NetNone
  else if (domain =? AF_INET) || (domain =? AF_INET6) then
    if typ =? SOCK_STREAM then NetTCP
    else if typ =? SOCK_DGRAM then NetUDP else NetNone
  else NetNone.

Definition mask_type (typ : Z) : Z := Z.land typ 0x7ffff.

Section socket.
Context {D : Debugger}.

Definition socket (domain typ protocol : Z) : prog World Z :=
  let typ := mask_type typ in
  if domain =? AF_UNSPEC then Panic (PanicMsg "socket: AF_UNSPEC")
  else
    match network_of domain typ with
    | NetNone => fail EAFNOSUPPORT
    | network =>
        let! s := hdo (fun h => NewSocket h network) in
        match s with
        | inr _ => fail EACCES
        | inl s =>
            let! fd := hdo (fun h => CreateFileDescriptor h s) in
            Ret (int32 fd)
        end
    end.

End socket.
Section socket_ready.
Context {D : Debugger}.

Lemma keeps_socket d t p : keeps ready (socket d t p).
Proof. unfold socket. keeps_solve. Qed.

End socket_ready.
#[global] Hint Resolve keeps_socket : kernel.

End Socket.
