(* ===== verification/Sched.v ===== *)
(** * Tasks: src/kernel/sched.go

    [clone] forks the debugger's task, points it at the child's stack and
    function, runs it, and either waits for it ([CLONE_VFORK]) or starts a
    goroutine that does. *)

From stdpp Require Import base list gmap numbers strings.
From S2P Require Import Prelude GoProg GoSpec LinuxABI GoRuntime Structs Host World GoIO WorldSpec.
Local Open Scope Z_scope.
Local Open Scope go_scope.

Module Sched.

Definition CLONE_VFORK : Z := 0x4000.
Definition CLONE_SETTLS : Z := 0x80000.

Section sched.
Context {D : Debugger}.

(** [<-task.Done()] *)
Definition wait_done (task : Task) : prog World unit :=
  Act (fun w => if task_Done (w_host w) task then Some (w, tt) else None) Ret.

(** [s.tasks.Store(pid, task)] and [s.tasks.Delete(pid)] *)
Definition tasks_Store (pid : Z) (task : Task) : prog World unit :=
  Act (fun w => Some (set_sched (Sched (<[pid := task]> (sd_tasks (w_sched w)))
                                   (sd_reapers (w_sched w))) w, tt)) Ret.
Definition tasks_Delete (pid : Z) : prog World unit :=
  Act (fun w => Some (set_sched (Sched (delete pid (sd_tasks (w_sched w)))
                                   (sd_reapers (w_sched w))) w, tt)) Ret.

(** The body of the goroutine [clone] starts. *)
Definition reap (pid : Z) (task : Task) : prog World unit :=
  wait_done task ;;;
  tasks_Delete pid ;;;
  let! _ := hdo (fun h => task_Close h task) in
  Ret tt.

(** [go func() { ... }()] *)
Definition spawn_reaper (pid : Z) (task : Task) : prog World unit :=
  Act (fun w => Some (set_sched (Sched (sd_tasks (w_sched w))
                                   ((pid, task) :: sd_reapers (w_sched w))) w, tt)) Ret.

(** [task.Close(); ctx.SetErrno(EAGAIN); return -1] *)
Definition clone_abort (task : Task) : prog World Z :=
  let! _ := hdo (fun h => task_Close h task) in
  fail EAGAIN.

(** The child's program counter and stack; [true] when it is ready to run. *)
Definition set_entry (task : Task) (child_stack : Z) : prog World bool :=
  let c := task_Context task in
  if child_stack =? 0 then
    let! _ := hdo (fun h => RetWrite_nil h c) in Ret true
  else
    let! _ := hdo (fun h => RegWrite h c (RegSP c) child_stack) in
    let! '(call, _) := hget (fun h => MemExtract h child_stack ShCloneCall zero_clone_call) in
    let! err := hdo (fun h => CallTaskOf h task (cc_fn call)) in
    match err with
    | Some _ => Ret false
    | None =>
        let! _ := hdo (fun h => ArgWrite h c (cc_arg call)) in Ret true
    end.

Definition tls_reg (a : Arch) : option Reg :=
  match a with
  | ARCH_ARM => Some ARM_REG_C13_C0_3
  | ARCH_ARM64 => Some ARM64_REG_TPIDR_EL0
  | ARCH_X86 => Some X86_REG_GS
  | ARCH_X86_64 => Some X86_REG_FS
  | ARCH_OTHER _ => None
  end.

Definition set_tls (task : Task) (flags tls : Z) : prog World unit :=
  if has_bits flags CLONE_SETTLS then
    let! a := hget dbg_Arch in
    match tls_reg a with
    | Some r => let! _ := hdo (fun h => RegWrite h (task_Context task) r tls) in Ret tt
    | None => Ret tt
    end
  else Ret tt.

(** From [task.Run()] on. *)
Definition run_child (task : Task) (flags child_tid : Z) : prog World Z :=
  let! err := hdo (fun h => task_Run h task) in
  match err with
  | Some _ => clone_abort task
  | None =>
      let pid := int32 (task_ID task) in
      (if negb (child_tid =? 0) then
         let! _ := hdo (fun h => MemWritePtr h child_tid (le_encode 4 pid)) in Ret tt
       else Ret tt) ;;;
      (if has_bits flags CLONE_VFORK then
         wait_done task ;;;
         let! _ := hdo (fun h => task_Close h task) in Ret tt
       else
         tasks_Store pid task ;;; spawn_reaper pid task) ;;;
      Ret pid
  end.

Definition clone (ctx : Ctx) (flags child_stack parent_tid tls child_tid : Z) : prog World Z :=
  let! r := hdo (fun h => TaskFork h ctx) in
  match r with
  | inr _ => fail EAGAIN
  | inl task =>
      let! ready := set_entry task child_stack in
      if negb ready then clone_abort task
      else
        set_tls task flags tls ;;;
        run_child task flags child_tid
  end.

Definition execve (filename argv envp : Z) : prog World Z := fail ENOSYS.

End sched.
(** Every handler keeps the kernel ready. *)
Section sched_ready.
Context {D : Debugger}.

Lemma keeps_wait_done t : keeps ready (wait_done t).
Proof.
  apply keeps_act; [|intros; apply keeps_ret].
  intros w w' x Hw E. by destruct (task_Done _ _); simplify_eq.
Qed.
Lemma keeps_tasks_Store p t : keeps ready (tasks_Store p t).
Proof.
  apply keeps_act; [|intros; apply keeps_ret].
  intros; simplify_eq; by apply untouched_sched.
Qed.
Lemma keeps_spawn_reaper p t : keeps ready (spawn_reaper p t).
Proof.
  apply keeps_act; [|intros; apply keeps_ret].
  intros; simplify_eq; by apply untouched_sched.
Qed.
#[local] Hint Resolve keeps_wait_done keeps_tasks_Store keeps_spawn_reaper : kernel.

Lemma keeps_clone_abort t : keeps ready (clone_abort t).
Proof. unfold clone_abort. keeps_solve. Qed.
Lemma keeps_set_entry t s : keeps ready (set_entry t s).
Proof. unfold set_entry. keeps_solve. Qed.
Lemma keeps_set_tls t f v : keeps ready (set_tls t f v).
Proof. unfold set_tls. keeps_solve. Qed.
#[local] Hint Resolve keeps_clone_abort keeps_set_entry keeps_set_tls : kernel.
Lemma keeps_run_child t f c : keeps ready (run_child t f c).
Proof. unfold run_child. keeps_solve. Qed.
#[local] Hint Resolve keeps_run_child : kernel.
Lemma keeps_clone ctx f s p t c : keeps ready (clone ctx f s p t c).
Proof. unfold clone. keeps_solve. Qed.
Lemma keeps_execve f a e : keeps ready (execve f a e).
Proof. unfold execve. keeps_solve. Qed.

End sched_ready.
#[global] Hint Resolve keeps_clone keeps_execve : kernel.

End Sched.
