(* ===== verification/Misc.v ===== *)
(** * The small handlers

    src/kernel/time.go, random.go, prctl.go, resource.go, ioctl.go and
    sysinfo.go: each asks the host and writes the answer to the guest. *)

From stdpp Require Import base list gmap numbers strings.
From S2P Require Import Prelude GoProg GoSpec LinuxABI GoRuntime Structs Host World GoIO WorldSpec.
Local Open Scope Z_scope.
Local Open Scope go_scope.

Module Misc.
Section misc.
Context {D : Debugger}.

(** ** time.go *)

Definition clock_gettime (clock ts : Z) : prog World Z :=
  let! '(r, st) := hget (fun h => C_clock_gettime h clock) in
  (if r =? 0 then
     let! _ := hdo (fun h => MemWrite h ts ShTimespec (Timespec (tv_sec st) (tv_nsec st))) in Ret tt
   else Ret tt) ;;;
  Ret (int32 r).

Definition timeval_of (now : time_now) : timeval :=
  Timeval (now_Unix now) (Z.quot (now_Nanosecond now) 1000).

Definition timezone_of (now : time_now) : timezone :=
  Timezone (int32 (Z.quot (now_ZoneOffset now) 60)) 0.

Definition gettimeofday (tv tz : Z) : prog World Z :=
  let! now := hget time_Now in
  let! _ := hdo (fun h => MemWrite h tv ShTimeval (timeval_of now)) in
  let! _ := hdo (fun h => MemWrite h tz ShTimezone (timezone_of now)) in
  Ret 0.

(** ** random.go *)

Definition GRND_RANDOM : Z := 1.

Definition getrandom (buf count flags : Z) : prog World Z :=
  if has_bits flags GRND_RANDOM then
    let! '(n, err) := io_CopyN_offset buf rand_reader (int64 count) in
    match err with
    | Some _ => fail EAGAIN
    | None => Ret n
    end
  else
    let! data := hdo (fun h => rand_Read h (Z.min count 256)) in
    match data with
    | inr _ => fail EAGAIN
    | inl data =>
        let! _ := hdo (fun h => MemWrite h buf ShBytes data) in
        Ret (zlen data)
    end.

(** ** prctl.go *)

Definition PR_SET_VMA : Z := 0x53564d41.

Definition prctl (option arg1 arg2 arg3 arg4 : Z) : prog World Z :=
  if option =? PR_SET_VMA then Ret 0 else fail EINVAL.

Definition getpid : prog World Z :=
  let! pid := hget os_Getpid in Ret (int32 pid).

Definition gettid (ctx : Ctx) : prog World Z := Ret (int32 (TaskID ctx)).

(** ** resource.go *)

Definition RLIMIT_STACK : Z := 3.

Definition getrlimit (resource rlim : Z) : prog World Z :=
  if resource =? RLIMIT_STACK then
    let! size := hget StackSize in
    let! _ := hdo (fun h => MemWrite h rlim ShRlimit (Rlimit (uint64 size) (uint64 size))) in
    Ret 0
  else Ret 0.

Definition setrlimit (resource rlim : Z) : prog World Z := Ret 0.

(** ** ioctl.go *)

Definition ioctl (fd cmd arg : Z) : prog World Z :=
  let! file := hget (fun h => GetFile h fd) in
  match file with
  | inr _ => fail EBADF
  | inl file =>
      if is_ControlFile file then
        let! err := hdo (fun h => file_Control h file cmd arg) in
        match err with
        | Some _ => fail EINVAL
        | None => Ret 0
        end
      else fail ENOTTY
  end.

(** ** sysinfo.go *)

Definition sysinfo_of (uptime : Z) (vm : VirtualMemoryStat) (sm : SwapMemoryStat)
    (pids : list Z) : sysinfo_t :=
  Sysinfo (int64 uptime) [0; 0; 0] (vm_Total vm) (vm_Free vm) (vm_Shared vm) (vm_Buffers vm)
    (sm_Total sm) (sm_Free sm) (uint16 (zlen pids)) (replicate 22 0).

(** [x, err := f(); if err != nil { errno = EINVAL; return -1 }] *)
Definition or_EINVAL {X} (f : Host -> X + error) (k : X -> prog World Z) : prog World Z :=
  let! r := hget f in
  match r with
  | inr _ => fail EINVAL
  | inl x => k x
  end.

Definition sysinfo (info : Z) : prog World Z :=
  or_EINVAL host_Uptime (fun uptime =>
  or_EINVAL mem_VirtualMemory (fun vm =>
  or_EINVAL mem_SwapMemory (fun sm =>
  or_EINVAL process_Pids (fun pids =>
    let! err := hdo (fun h => MemWrite h info ShSysinfo (sysinfo_of uptime vm sm pids)) in
    match err with
    | Some _ => fail EINVAL
    | None => Ret 0
    end)))).

End misc.
(** Every handler keeps the kernel ready. *)
Section misc_ready.
Context {D : Debugger}.

Lemma keeps_clock_gettime c t : keeps ready (clock_gettime c t).
Proof. unfold clock_gettime. keeps_solve. Qed.
Lemma keeps_gettimeofday a b : keeps ready (gettimeofday a b).
Proof. unfold gettimeofday. keeps_solve. Qed.
Lemma keeps_getrandom b c f : keeps ready (getrandom b c f).
Proof. unfold getrandom. keeps_solve. Qed.
Lemma keeps_prctl o a b c d : keeps ready (prctl o a b c d).
Proof. unfold prctl. keeps_solve. Qed.
Lemma keeps_getpid : keeps ready getpid.
Proof. unfold getpid. keeps_solve. Qed.
Lemma keeps_getrlimit r l : keeps ready (getrlimit r l).
Proof. unfold getrlimit. keeps_solve. Qed.
Lemma keeps_ioctl fd c a : keeps ready (ioctl fd c a).
Proof. unfold ioctl. keeps_solve. Qed.
Lemma keeps_sysinfo i : keeps ready (sysinfo i).
Proof. unfold sysinfo, or_EINVAL. keeps_solve. Qed.

End misc_ready.
#[global] Hint Resolve keeps_clock_gettime keeps_gettimeofday keeps_getrandom keeps_prctl
  keeps_getpid keeps_getrlimit keeps_ioctl keeps_sysinfo : kernel.

End Misc.
