(* ===== verification/Discipline.v ===== *)
(** * The lock discipline of the handlers

    Every primitive action and every handler is disciplined in the sense of
    Threads: locks are taken and given back in order, tables are touched under
    their lock. *)

From stdpp Require Import base list gmap numbers.
From S2P Require Import Prelude GoProg GoSpec LinuxABI GoRuntime Structs Host World GoIO WorldSpec.
From S2P Require Import Threads Fcntl Stat Signal Futex Mman Socket Sched Misc.
Local Open Scope Z_scope.
Local Open Scope go_scope.

Create HintDb disc.

(** Worlds that differ in one table, as such. *)
Ltac but_inv :=
  repeat match goal with
  | H : same_but _ _ _ |- _ => unfold same_but in H
  | H : exists _, _ |- _ => destruct H as [? H]
  end; subst.

Section prims.
Context {D : Debugger}.

(** ** Rules for actions *)

Lemma lock_inv_same hs w w' :
  (forall l, get_rw l w' = get_rw l w) -> tables_made w' -> lock_inv hs w -> lock_inv hs w'.
Proof. intros Hr HT [_ Hl]. split; [done|]. intros l. by rewrite Hr. Qed.

Lemma tables_made_same w w' : (forall l, same_data l w w') -> tables_made w -> tables_made w'.
Proof.
  intros H (H1 & H2 & H3 & H4).
  pose proof (H LkFcntl) as E1. pose proof (H LkFutex) as [E2 E3]. pose proof (H LkSignal) as E4.
  cbn in *. unfold tables_made. by rewrite E1, E2, E3, E4.
Qed.

(** An action that has nothing to do with the locks and the tables. *)
Lemma disc_neutral {A X} (f : World -> option (World * X)) (k : X -> prog World A) h hp Q :
  (forall w w' x, f w = Some (w', x) ->
     (forall l, get_rw l w' = get_rw l w) /\ (forall l, same_data l w w')) ->
  (forall l, ignores l f) -> (forall w, f w = None -> h = None) ->
  (forall x, disc (k x) h hp Q) -> disc (Act f k) h hp Q.
Proof.
  intros Hf Hi Hn Hk. exists (fun _ h1 => h1 = h). split; [|by intros x h1 ->]. split.
  - intros others w Hw. destruct (f w) as [[w' x]|] eqn:E; [|eauto].
    destruct (Hf _ _ _ E) as [Hr Hd]. exists h. split; [done|].
    eapply lock_inv_same; [done| |done]. eapply tables_made_same; [done|apply Hw].
  - intros l. split; right; [|apply Hi]. intros w w' x E. by eapply Hf.
Qed.

(** An action on the table whose lock is held; [R] is what it returns when the
    tables are made. *)
Lemma disc_guarded {A X} (f : World -> option (World * X)) (k : X -> prog World A) l md hp Q
    (R : X -> Prop) :
  (forall w, tables_made w ->
     exists w' x, f w = Some (w', x) /\ R x /\ tables_made w' /\
       (forall l', get_rw l' w' = get_rw l' w)) ->
  (forall l', l' <> l -> preserves l' f /\ ignores l' f) -> (md = Rd -> preserves l f) ->
  (forall x, R x -> disc (k x) (Some (l, md)) hp Q) -> disc (Act f k) (Some (l, md)) hp Q.
Proof.
  intros Hf Ho Hp Hk. exists (fun x h1 => h1 = Some (l, md) /\ R x).
  split; [|by intros x h1 [-> Hx]; apply Hk]. split.
  - intros others w Hw. destruct (Hf w) as (w' & x & -> & Hx & HT & Hr); [apply Hw|].
    exists (Some (l, md)). split; [done|]. by eapply lock_inv_same.
  - intros l'. destruct (decide (l' = l)) as [->|Hl].
    + split; [|by left; eauto]. destruct md; [right; by apply Hp|by left].
    + destruct (Ho l' Hl). split; by right.
Qed.

(** ** Locks *)

Lemma set_rw_data l l' m w : same_data l' w (set_rw l m w).
Proof. by destruct l, l'. Qed.

Lemma set_rw_but l l' m w1 w2 : same_but l' w1 w2 -> same_but l' (set_rw l m w1) (set_rw l m w2).
Proof. destruct l, l'; intros Hw; but_inv; cbn; eauto. Qed.

Lemma same_but_rw l l' w1 w2 : same_but l w1 w2 -> get_rw l' w2 = get_rw l' w1.
Proof. destruct l, l'; intros Hw; but_inv; cbn; eauto. Qed.

Lemma lock_act_tables (f : World -> option (World * unit)) acq l :
  f = (fun w => match acq (get_rw l w) with Some m => Some (set_rw l m w, tt) | None => None end) ->
  forall l', preserves l' f /\ ignores l' f.
Proof.
  intros -> l'. split.
  - intros w w' x E. destruct (acq _); simplify_eq. apply set_rw_data.
  - intros w1 w2 Hw. rewrite (same_but_rw l' l w1 w2) by done.
    destruct (acq _); [|done]. split; [done|]. by apply set_rw_but.
Qed.

Lemma unlock_act_tables rel l (f : World -> option (World * bool)) :
  f = (fun w => match rel (get_rw l w) with
                | Some m => Some (set_rw l m w, true) | None => Some (w, false) end) ->
  forall l', preserves l' f /\ ignores l' f.
Proof.
  intros -> l'. split.
  - intros w w' x E. destruct (rel _); simplify_eq; [apply set_rw_data|]. by destruct l'.
  - intros w1 w2 Hw. rewrite (same_but_rw l' l w1 w2) by done.
    destruct (rel _); (split; [done|]); [|done]. by apply set_rw_but.
Qed.

(** The lock of [l] changes as the goroutine's holding does; the others stay. *)
Lemma lock_inv_move l (h h1 : held) others m w :
  (forall l' md, l' <> l -> h <> Some (l', md) /\ h1 <> Some (l', md)) ->
  lock_state (count l Wr (h1 :: others)) (count l Rd (h1 :: others)) m ->
  lock_inv (h :: others) w -> lock_inv (h1 :: others) (set_rw l m w).
Proof.
  intros Hl Hm [HT Hw]. split; [by rewrite tables_set_rw|].
  intros l'. rewrite get_set_rw. case_decide as E; [by subst|].
  specialize (Hw l'). rewrite !count_cons in *.
  destruct (Hl l' Rd E), (Hl l' Wr E).
  by rewrite !decide_False in * by done.
Qed.

Ltac no_other := intros ? ? ?; split; congruence.

Lemma disc_acquire {A} acq md l hp Q (k : unit -> prog World A) :
  (acq = rw_lock /\ md = Wr) \/ (acq = rw_rlock /\ md = Rd) ->
  disc (k tt) (Some (l, md)) hp Q -> disc (bind (acquire acq l) k) None hp Q.
Proof.
  intros Ha Hk. exists (fun _ h1 => h1 = Some (l, md)).
  split; [|by intros [] h1 ->]. split.
  - intros others w Hw. pose proof Hw as [_ Hl]. specialize (Hl l).
    rewrite !count_cons, !decide_False in Hl by done. cbn in Hl.
    destruct (count l Wr others) as [|[|]] eqn:Ew; cbn in Hl; [| |done].
    + rewrite Hl. destruct Ha as [[-> ->]|[-> ->]].
      * destruct (count l Rd others) eqn:Er; [|done]. cbn. eexists. split; [done|].
        apply (lock_inv_move l None); [no_other| |done].
        by rewrite !count_cons, Ew, Er, decide_True, decide_False.
      * cbn. eexists. split; [done|]. apply (lock_inv_move l None); [no_other| |done].
        by rewrite !count_cons, Ew, decide_False, decide_True.
    + destruct Hl as [_ ->]. by destruct Ha as [[-> ->]|[-> ->]].
  - intros l'. split; right; by eapply lock_act_tables.
Qed.

Lemma disc_release {A} rel md l hp Q (k : unit -> prog World A) :
  (rel = rw_unlock /\ md = Wr) \/ (rel = rw_runlock /\ md = Rd) ->
  disc (k tt) None hp Q -> disc (bind (release rel l) k) (Some (l, md)) hp Q.
Proof.
  intros Ha Hk. exists (fun ok h1 => ok = true /\ h1 = None).
  split; [|intros ok h1 [-> ->]; exact Hk]. split.
  - intros others w Hw. pose proof Hw as [_ Hl]. specialize (Hl l). rewrite !count_cons in Hl.
    destruct Ha as [[-> ->]|[-> ->]].
    + rewrite decide_True, decide_False in Hl by done. cbn in Hl.
      destruct (count l Wr others) eqn:Ew; [|done]. destruct Hl as [Hr ->]. cbn.
      eexists. split; [done|]. apply (lock_inv_move l (Some (l, Wr))); [no_other| |done].
      by rewrite !count_cons, Ew, Hr, !decide_False.
    + rewrite decide_False, decide_True in Hl by done. cbn in Hl.
      destruct (count l Wr others) as [|[|]] eqn:Ew; cbn in Hl; [|by destruct Hl|done].
      rewrite Hl. cbn. eexists. split; [done|]. apply (lock_inv_move l (Some (l, Rd))); [no_other| |done].
      by rewrite !count_cons, Ew, !decide_False.
  - intros l'. split; right; by eapply unlock_act_tables.
Qed.

Lemma disc_Lock {A} l hp Q (k : unit -> prog World A) :
  disc (k tt) (Some (l, Wr)) hp Q -> disc (bind (Lock l) k) None hp Q.
Proof. apply disc_acquire. by left. Qed.
Lemma disc_RLock {A} l hp Q (k : unit -> prog World A) :
  disc (k tt) (Some (l, Rd)) hp Q -> disc (bind (RLock l) k) None hp Q.
Proof. apply disc_acquire. by right. Qed.
Lemma disc_Unlock {A} l hp Q (k : unit -> prog World A) :
  disc (k tt) None hp Q -> disc (bind (Unlock l) k) (Some (l, Wr)) hp Q.
Proof. apply disc_release. by left. Qed.
Lemma disc_RUnlock {A} l hp Q (k : unit -> prog World A) :
  disc (k tt) None hp Q -> disc (bind (RUnlock l) k) (Some (l, Rd)) hp Q.
Proof. apply disc_release. by right. Qed.
Lemma disc_Unlock_end l hp (Q : unit -> held -> Prop) :
  Q tt None -> disc (Unlock l) (Some (l, Wr)) hp Q.
Proof. intros H. rewrite <- (bind_ret_r (Unlock l)). by apply disc_Unlock. Qed.
Lemma disc_RUnlock_end l hp (Q : unit -> held -> Prop) :
  Q tt None -> disc (RUnlock l) (Some (l, Rd)) hp Q.
Proof. intros H. rewrite <- (bind_ret_r (RUnlock l)). by apply disc_RUnlock. Qed.

(** ** The other actions *)

(** An action on a part of the world that no lock guards. *)
Ltac neutral :=
  match goal with
  | |- disc (Act _ _) _ _ _ =>
      apply disc_neutral;
      [ intros ? ? ? E; cbv zeta in E; repeat case_match; simplify_eq;
        (split; intros []; done)
      | intros [] ? ? Hw; but_inv; cbn; repeat case_match; simplify_eq; eauto
      | intros ? E; cbv zeta in E; repeat case_match; done
      | intros ? ]
  end.

Lemma disc_hget {X} (f : Host -> X) h hp : disc (hget f) h hp (fun _ h' => h' = h).
Proof. unfold hget. by neutral. Qed.
Lemma disc_hdo {X} (f : Host -> Host * X) h hp : disc (hdo f) h hp (fun _ h' => h' = h).
Proof. unfold hdo. by neutral. Qed.
Lemma disc_rtdo {X} (f : runtime -> runtime * X) h hp : disc (rtdo f) h hp (fun _ h' => h' = h).
Proof. unfold rtdo. by neutral. Qed.
Lemma disc_SetErrno e h hp : disc (SetErrno e) h hp (fun _ h' => h' = h).
Proof. unfold SetErrno. by neutral. Qed.
Lemma disc_fail e h hp : disc (fail e) h hp (fun _ h' => h' = h).
Proof. eapply disc_bind; [apply disc_SetErrno|]. by intros _ h' ->. Qed.
Lemma disc_set_get h hp : disc Signal.set_get h hp (fun _ h' => h' = h).
Proof. unfold Signal.set_get. by neutral. Qed.
Lemma disc_set_put v h hp : disc (Signal.set_put v) h hp (fun _ h' => h' = h).
Proof. unfold Signal.set_put. by neutral. Qed.
Lemma disc_tasks_Store p t h hp : disc (Sched.tasks_Store p t) h hp (fun _ h' => h' = h).
Proof. unfold Sched.tasks_Store. by neutral. Qed.
Lemma disc_tasks_Delete p h hp : disc (Sched.tasks_Delete p) h hp (fun _ h' => h' = h).
Proof. unfold Sched.tasks_Delete. by neutral. Qed.
Lemma disc_spawn_reaper p t h hp : disc (Sched.spawn_reaper p t) h hp (fun _ h' => h' = h).
Proof. unfold Sched.spawn_reaper. by neutral. Qed.

(** A send may panic, on a closed channel. *)
Lemma disc_send ch v h : disc (send_nb ch v) h h (fun _ h' => h' = h).
Proof. unfold send_nb. neutral. by case_match. Qed.

(** These wait. *)
Lemma disc_wait_done t hp : disc (Sched.wait_done t) None hp (fun _ h' => h' = None).
Proof. unfold Sched.wait_done. by neutral. Qed.
Lemma disc_hwait {X} (f : Host -> option (Host * X)) hp : disc (hwait f) None hp (fun _ h' => h' = None).
Proof. unfold hwait. by neutral. Qed.
Lemma disc_select t tm chans hp : disc (select t tm chans) None hp (fun _ h' => h' = None).
Proof. unfold select, select_wait. neutral. by neutral. Qed.

(** ** The tables *)

(** An action on the table of lock [l], whose other obligations are by
    computation. *)
Ltac guarded R :=
  apply (disc_guarded _ _ _ _ _ _ R);
  [ intros ? ([? E1] & [? E2] & [? E3] & [? E4]);
    do 2 eexists; split; [cbv zeta; cbn; rewrite ?E1, ?E2, ?E3, ?E4; done|]; cbn;
    split; [done|]; split; [unfold tables_made; cbn; by rewrite ?E1, ?E2, ?E3, ?E4|by intros []]
  | intros [] ?; try done;
    (split; [intros ? ? ? E; cbv zeta in E; repeat case_match; simplify_eq; done
            |intros ? ? Hw; but_inv; cbn; repeat case_match; simplify_eq; eauto])
  | try done; intros _ ? ? ? E; cbv zeta in E; repeat case_match; simplify_eq; done
  | intros ? ?; subst ].

Lemma disc_flags_get fd md hp :
  disc (Fcntl.flags_get fd) (Some (LkFcntl, md)) hp (fun _ h' => h' = Some (LkFcntl, md)).
Proof. unfold Fcntl.flags_get. by guarded (fun _ : Z => True). Qed.
Lemma disc_flags_put fd v hp :
  disc (Fcntl.flags_put fd v) (Some (LkFcntl, Wr)) hp (fun _ h' => h' = Some (LkFcntl, Wr)).
Proof. unfold Fcntl.flags_put. by guarded (fun ok => ok = true). Qed.
Lemma disc_flags_delete fd hp :
  disc (Fcntl.flags_delete fd) (Some (LkFcntl, Wr)) hp (fun _ h' => h' = Some (LkFcntl, Wr)).
Proof. unfold Fcntl.flags_delete. by guarded (fun _ : unit => True). Qed.
Lemma disc_table_get s md hp :
  disc (Signal.table_get s) (Some (LkSignal, md)) hp (fun _ h' => h' = Some (LkSignal, md)).
Proof. unfold Signal.table_get. by guarded (fun _ : option sigaction => True). Qed.
Lemma disc_table_put s a hp :
  disc (Signal.table_put s a) (Some (LkSignal, Wr)) hp (fun _ h' => h' = Some (LkSignal, Wr)).
Proof. unfold Signal.table_put. by guarded (fun ok => ok = true). Qed.
Lemma disc_lookup t k md hp :
  disc (Futex.lookup_await t k) (Some (LkFutex, md)) hp (fun _ h' => h' = Some (LkFutex, md)).
Proof. unfold Futex.lookup_await. by guarded (fun _ : option await => True). Qed.
Lemma disc_range t md hp :
  disc (Futex.range_table t) (Some (LkFutex, md)) hp (fun _ h' => h' = Some (LkFutex, md)).
Proof. unfold Futex.range_table. by guarded (fun _ : list Z => True). Qed.
Lemma disc_store t k a hp :
  disc (Futex.store_await t k a) (Some (LkFutex, Wr)) hp (fun _ h' => h' = Some (LkFutex, Wr)).
Proof. unfold Futex.store_await. destruct t; cbn [Futex.get_table Futex.set_table]; by guarded (fun ok => ok = true). Qed.
Lemma disc_delete t k hp :
  disc (Futex.delete_await t k) (Some (LkFutex, Wr)) hp (fun _ h' => h' = Some (LkFutex, Wr)).
Proof. unfold Futex.delete_await. destruct t; cbn [Futex.get_table Futex.set_table]; by guarded (fun _ : unit => True). Qed.

(** ** Package io *)

Lemma disc_iter {A S X} (body : S -> prog World (S + X)) s (k : X -> prog World A) h hp Q :
  (forall s, disc (body s) h hp (fun _ h' => h' = h)) -> (forall x, disc (k x) h hp Q) ->
  disc (Iter body s k) h hp Q.
Proof. done. Qed.

End prims.

#[export] Hint Resolve disc_hget disc_hdo disc_rtdo disc_SetErrno disc_fail disc_set_get
  disc_set_put disc_tasks_Store disc_tasks_Delete disc_spawn_reaper disc_send disc_wait_done disc_hwait
  disc_select disc_flags_get disc_flags_put disc_flags_delete disc_table_get disc_table_put
  disc_lookup disc_range disc_store disc_delete : disc.

(** Follow the structure of a handler. *)
Ltac disc_step :=
  match goal with
  | |- disc (match ?x with _ => _ end) _ _ _ => destruct x
  | |- disc (bind (Lock _) _) None _ _ => apply disc_Lock
  | |- disc (bind (RLock _) _) None _ _ => apply disc_RLock
  | |- disc (bind (Unlock _) _) _ _ _ => apply disc_Unlock
  | |- disc (bind (RUnlock _) _) _ _ _ => apply disc_RUnlock
  | |- disc (Unlock _) _ _ _ => by apply disc_Unlock_end
  | |- disc (RUnlock _) _ _ _ => by apply disc_RUnlock_end
  | |- disc (bind _ _) ?h _ _ =>
      apply (disc_bind _ _ h _ (fun _ h' => h' = h)); [|intros ? ? ->]
  | |- disc (with_defer _ _) ?h _ _ =>
      apply (disc_defer _ _ h h _ (fun _ h' => h' = h)); [| |intros ? ? ->]
  | |- disc (Iter _ _ _) _ _ _ => apply disc_iter; [intros ?|intros ?]
  | |- disc (Ret _) _ _ _ => done
  | |- disc (Panic _) _ _ _ => done
  end.
Ltac disc_solve :=
  repeat first [ solve [eauto with disc] | disc_step | progress cbv zeta ].

Section handlers.
Context {D : Debugger}.

Notation plain m := (disc m None None (fun _ h' => h' = None)).

(** ** Package io *)

Lemma disc_limited src N n : (forall n, plain (src n)) -> plain (limited_read src N n).
Proof. intros. unfold limited_read. disc_solve. Qed.
Lemma disc_copy {S T} (rd : reader S) (wr : writer T) size r s :
  (forall r n, plain (rd r n)) -> (forall s b, plain (wr s b)) -> plain (copy_loop rd wr size r s).
Proof. intros. unfold copy_loop, copy_turn, copy_next. disc_solve. Qed.
Lemma disc_CopyN base src n : (forall n, plain (src n)) -> plain (io_CopyN_offset base src n).
Proof.
  intros. unfold io_CopyN_offset. apply (disc_bind _ _ _ _ (fun _ h' => h' = None)).
  - apply disc_copy; intros; [by apply disc_limited|]. unfold offset_write. disc_solve.
  - intros ? ? ->. disc_solve.
Qed.
Lemma disc_Copy w base n : plain (io_Copy_section w base n).
Proof.
  unfold io_Copy_section. destruct (is_ReaderFrom w); [disc_solve|].
  apply disc_copy; intros; unfold section_read, file_write; disc_solve.
Qed.
Lemma disc_ReadFull src n : (forall n, plain (src n)) -> plain (io_ReadFull src n).
Proof. intros. unfold io_ReadFull, read_full_turn. disc_solve. Qed.
Lemma disc_file_reader f n : plain (file_reader f n).
Proof. apply disc_hwait. Qed.
Lemma disc_rand_reader n : plain (rand_reader n).
Proof. apply disc_hdo. Qed.
#[local] Hint Resolve disc_CopyN disc_Copy disc_ReadFull disc_file_reader disc_rand_reader : disc.

(** ** Files *)

Lemma disc_store_flags fd v : plain (Fcntl.store_flags fd v).
Proof. unfold Fcntl.store_flags. disc_solve. Qed.
#[local] Hint Resolve disc_store_flags : disc.
Lemma disc_finish_open fl r : plain (Fcntl.finish_open fl r).
Proof. unfold Fcntl.finish_open. disc_solve. Qed.
#[local] Hint Resolve disc_finish_open : disc.
Lemma disc_path f k : (forall p, plain (k p)) -> plain (Fcntl.with_path f k).
Proof. intros. unfold Fcntl.with_path. disc_solve. Qed.
Lemma disc_dir {X} as_dir (cwd : prog World X) dfd k :
  plain cwd -> (forall d, plain (k d)) -> plain (Fcntl.with_dir as_dir cwd dfd k).
Proof. intros. unfold Fcntl.with_dir. disc_solve. Qed.
Lemma disc_dup3 o n f : plain (Fcntl.dup3 o n f).
Proof. unfold Fcntl.dup3. disc_solve. Qed.
Lemma disc_fcntl fd cmd arg : plain (Fcntl.fcntl fd cmd arg).
Proof. unfold Fcntl.fcntl. disc_solve. Qed.
Lemma disc_faccessat d f m : plain (Fcntl.faccessat d f m).
Proof. apply disc_path; intros. apply disc_dir; intros; disc_solve. Qed.
Lemma disc_open f fl m : plain (Fcntl.open f fl m).
Proof. apply disc_path; intros. disc_solve. Qed.
Lemma disc_openat d f fl m : plain (Fcntl.openat d f fl m).
Proof. apply disc_path; intros. apply disc_dir; intros; disc_solve. Qed.
Lemma disc_close fd : plain (Fcntl.close fd).
Proof. unfold Fcntl.close. disc_solve. Qed.
Lemma disc_pipe2 p f : plain (Fcntl.pipe2 p f).
Proof. unfold Fcntl.pipe2. disc_solve. Qed.
Lemma disc_lseek fd o wh : plain (Fcntl.lseek fd o wh).
Proof. unfold Fcntl.lseek. disc_solve. Qed.
Lemma disc_read fd b c : plain (Fcntl.read fd b c).
Proof. unfold Fcntl.read. disc_solve. Qed.
Lemma disc_write fd b c : plain (Fcntl.write fd b c).
Proof. unfold Fcntl.write. disc_solve. Qed.
Lemma disc_writev_loop f arr : forall n, plain (Fcntl.writev_loop f arr n).
Proof. induction arr; intros; cbn [Fcntl.writev_loop]; disc_solve. Qed.
#[local] Hint Resolve disc_writev_loop : disc.
Lemma disc_writev fd i c : plain (Fcntl.writev fd i c).
Proof. unfold Fcntl.writev. disc_solve. Qed.
Lemma disc_readlinkat d f b s : plain (Fcntl.readlinkat d f b s).
Proof. apply disc_path; intros. apply disc_dir; intros; disc_solve. Qed.
Lemma disc_fstatat3264 d f b l : plain (Stat.fstatat3264 d f b l).
Proof. apply disc_path; intros. apply disc_dir; intros; disc_solve. Qed.
Lemma disc_fstatat64 d f b l : plain (Stat.fstatat64 d f b l).
Proof. apply disc_path; intros. apply disc_dir; intros; disc_solve. Qed.
Lemma disc_fstat3264 fd b : plain (Stat.fstat3264 fd b).
Proof. unfold Stat.fstat3264. disc_solve. Qed.
Lemma disc_fstat64 fd b : plain (Stat.fstat64 fd b).
Proof. unfold Stat.fstat64. disc_solve. Qed.

(** ** Signals, mappings, sockets, tasks and the rest *)

Lemma disc_rt_sigaction s a o n : plain (Signal.rt_sigaction s a o n).
Proof. unfold Signal.rt_sigaction. disc_solve. Qed.
Lemma disc_rt_sigprocmask h s o n : plain (Signal.rt_sigprocmask h s o n).
Proof. unfold Signal.rt_sigprocmask, Signal.sigprocmask_set. disc_solve. Qed.
Lemma disc_rt_tgsigqueueinfo g t s i : plain (Signal.rt_tgsigqueueinfo g t s i).
Proof. unfold Signal.rt_tgsigqueueinfo. disc_solve. Qed.
Lemma disc_map_fail e : plain (Mman.map_fail e).
Proof. unfold Mman.map_fail. disc_solve. Qed.
#[local] Hint Resolve disc_map_fail : disc.
Lemma disc_munmap a l : plain (Mman.munmap a l).
Proof. unfold Mman.munmap. disc_solve. Qed.
Lemma disc_map_region a l p fl f : plain (Mman.map_region a l p fl f).
Proof. unfold Mman.map_region. disc_solve. Qed.
#[local] Hint Resolve disc_map_region : disc.
Lemma disc_mmap a l p fl fd o : plain (Mman.mmap a l p fl fd o).
Proof. unfold Mman.mmap, Mman.skip_to. disc_solve. Qed.
Lemma disc_mprotect s l p : plain (Mman.mprotect s l p).
Proof. unfold Mman.mprotect. disc_solve. Qed.
Lemma disc_socket d t p : plain (Socket.socket d t p).
Proof. unfold Socket.socket. disc_solve. Qed.
Lemma disc_clone_abort t : plain (Sched.clone_abort t).
Proof. unfold Sched.clone_abort. disc_solve. Qed.
#[local] Hint Resolve disc_clone_abort : disc.
Lemma disc_clone ctx f s p t c : plain (Sched.clone ctx f s p t c).
Proof. unfold Sched.clone, Sched.set_entry, Sched.set_tls, Sched.run_child. disc_solve. Qed.
Lemma disc_reap p t : plain (Sched.reap p t).
Proof. unfold Sched.reap. disc_solve. Qed.
Lemma disc_clock_gettime c t : plain (Misc.clock_gettime c t).
Proof. unfold Misc.clock_gettime. disc_solve. Qed.
Lemma disc_gettimeofday a b : plain (Misc.gettimeofday a b).
Proof. unfold Misc.gettimeofday. disc_solve. Qed.
Lemma disc_getrandom b c f : plain (Misc.getrandom b c f).
Proof. unfold Misc.getrandom. disc_solve. Qed.
Lemma disc_prctl o a b c d : plain (Misc.prctl o a b c d).
Proof. unfold Misc.prctl. disc_solve. Qed.
Lemma disc_getpid : plain Misc.getpid.
Proof. unfold Misc.getpid. disc_solve. Qed.
Lemma disc_getrlimit r l : plain (Misc.getrlimit r l).
Proof. unfold Misc.getrlimit. disc_solve. Qed.
Lemma disc_ioctl fd c a : plain (Misc.ioctl fd c a).
Proof. unfold Misc.ioctl. disc_solve. Qed.
Lemma disc_sysinfo i : plain (Misc.sysinfo i).
Proof. unfold Misc.sysinfo, Misc.or_EINVAL. disc_solve. Qed.

(** ** Futexes *)

Lemma disc_add_ref t key :
  disc (Futex.add_ref t key) (Some (LkFutex, Wr)) (Some (LkFutex, Wr))
    (fun _ h' => h' = Some (LkFutex, Wr)).
Proof. unfold Futex.add_ref. disc_solve. Qed.
Lemma disc_del_ref t key :
  disc (Futex.del_ref t key) (Some (LkFutex, Wr)) (Some (LkFutex, Wr))
    (fun _ h' => h' = Some (LkFutex, Wr)).
Proof. unfold Futex.del_ref. disc_solve. Qed.
#[local] Hint Resolve disc_add_ref disc_del_ref : disc.
Lemma disc_getAwait a : plain (Futex.getAwait a).
Proof. unfold Futex.getAwait. disc_solve. Qed.
Lemma disc_addAwait a : plain (Futex.addAwait a).
Proof. unfold Futex.addAwait. disc_solve. Qed.
Lemma disc_delAwait a : plain (Futex.delAwait a).
Proof. unfold Futex.delAwait. disc_solve. Qed.
Lemma disc_addBitAwait a b : plain (Futex.addBitAwait a b).
Proof. unfold Futex.addBitAwait. disc_solve. Qed.
Lemma disc_delBitAwait a b : plain (Futex.delBitAwait a b).
Proof. unfold Futex.delBitAwait. disc_solve. Qed.
#[local] Hint Resolve disc_getAwait disc_addAwait disc_delAwait disc_addBitAwait
  disc_delBitAwait : disc.
Lemma disc_wait_prepare u v t k :
  (forall tm, plain (k tm)) -> plain (Futex.wait_prepare u v t k).
Proof. intros. unfold Futex.wait_prepare, Futex.read_u32. disc_solve. Qed.
Lemma disc_futex_wait tid u v t : plain (Futex.futex_wait tid u v t).
Proof. apply disc_wait_prepare. intros. unfold Futex.wait_turn, Futex.wait_case. disc_solve. Qed.
Lemma disc_futex_wait_bitset tid u v t v3 : plain (Futex.futex_wait_bitset tid u v t v3).
Proof.
  apply disc_wait_prepare. intros. unfold Futex.wait_bitset_turn, Futex.wait_bitset_case, Futex.read_u32. disc_solve.
Qed.
Lemma disc_futex_wake u v : plain (Futex.futex_wake u v).
Proof. unfold Futex.futex_wake, Futex.wake_turn, Futex.read_u32. disc_solve. Qed.
Lemma disc_wake_bits v3 count bits : forall i,
  disc (Futex.wake_bits bits v3 count i) (Some (LkFutex, Rd)) (Some (LkFutex, Rd))
    (fun _ h' => h' = Some (LkFutex, Rd)).
Proof.
  induction bits as [|bit bits IH]; intros i; cbn [Futex.wake_bits]; [done|].
  unfold Futex.wake_bit_turn. disc_solve.
Qed.
#[local] Hint Resolve disc_wake_bits : disc.
Lemma disc_futex_wake_bitset v v3 : plain (Futex.futex_wake_bitset v v3).
Proof. unfold Futex.futex_wake_bitset. disc_solve. Qed.
#[local] Hint Resolve disc_futex_wait disc_futex_wait_bitset disc_futex_wake
  disc_futex_wake_bitset : disc.
Lemma disc_futex tid u op v t u2 v3 : plain (Futex.futex tid u op v t u2 v3).
Proof. unfold Futex.futex. disc_solve. Qed.

End handlers.

#[export] Hint Resolve disc_dup3 disc_fcntl disc_faccessat disc_open disc_openat disc_close
  disc_pipe2 disc_lseek disc_read disc_write disc_writev disc_readlinkat disc_fstatat3264
  disc_fstatat64 disc_fstat3264 disc_fstat64 disc_rt_sigaction disc_rt_sigprocmask
  disc_rt_tgsigqueueinfo disc_munmap disc_mmap disc_mprotect disc_socket disc_clone disc_reap
  disc_clock_gettime disc_gettimeofday disc_getrandom disc_prctl disc_getpid disc_getrlimit
  disc_ioctl disc_sysinfo disc_futex : disc.
