(* ===== verification/Termination.v ===== *)
(** * The handlers come to an end

    Each handler returns, panics or blocks within some number of loop turns.
    The copy loops end because a read that reports no error has read something
    ([HostProgress], what the documentation of [io.Reader] and [io.ReaderAt]
    asks of implementations); a wake ends because every send takes a goroutine
    off the queue; a wait ends because it parks, as long as the channels of the
    tables are open. *)

From stdpp Require Import base list gmap numbers.
From S2P Require Import Prelude GoProg GoSpec GoTotal LinuxABI GoRuntime Structs Host World GoIO.
From S2P Require Import WorldSpec Fcntl Stat Signal Futex Mman Socket Sched Misc.
Local Open Scope Z_scope.
Local Open Scope go_scope.

Create HintDb halts.

(** A read of a positive number of bytes that reports no error reads some. *)
Class HostProgress `{Debugger} : Prop := {
  file_Read_progress h f n h' b : 0 < n -> file_Read h f n = Some (h', (b, None)) -> 0 < zlen b;
  rand_Read_progress h n h' b : 0 < n -> rand_Reader_Read h n = (h', (b, None)) -> 0 < zlen b;
  PtrReadAt_progress h base n off b : 0 < n -> PtrReadAt h base n off = (b, None) -> 0 < zlen b
}.

Section halts.
Context {D : Debugger}.

Definition halts {A} (m : prog World A) : Prop :=
  total (fun _ => True) m (fun _ _ => True) (fun _ _ => True).

Lemma halts_ret {A} (a : A) : halts (Ret a).
Proof. by apply total_ret. Qed.
Lemma halts_panic {A} p : halts (Panic p : prog World A).
Proof. by apply total_panic. Qed.
Lemma halts_act {A X} (f : World -> option (World * X)) (k : X -> prog World A) :
  (forall x, halts (k x)) -> halts (Act f k).
Proof.
  intros Hk. apply (total_act _ _ _ (fun _ _ => True)); [|apply Hk].
  intros w _. by destruct (f w) as [[]|].
Qed.
Lemma halts_bind {A B} (m : prog World A) (k : A -> prog World B) :
  halts m -> (forall a, halts (k a)) -> halts (bind m k).
Proof. intros Hm Hk. by eapply total_bind; [apply Hm|apply Hk]. Qed.
Lemma halts_defer {A} (d : prog World unit) (m : prog World A) :
  halts m -> halts d -> halts (with_defer d m).
Proof. intros Hm Hd. eapply total_defer; [apply Hm| |]; intros; apply Hd. Qed.

Lemma halts_hget {X} (f : Host -> X) : halts (hget f).
Proof. apply halts_act. intros; apply halts_ret. Qed.
Lemma halts_hdo {X} (f : Host -> Host * X) : halts (hdo f).
Proof. apply halts_act. intros; apply halts_ret. Qed.
Lemma halts_hwait {X} (f : Host -> option (Host * X)) : halts (hwait f).
Proof. apply halts_act. intros; apply halts_ret. Qed.
Lemma halts_rtdo {X} (f : runtime -> runtime * X) : halts (rtdo f).
Proof. apply halts_act. intros; apply halts_ret. Qed.
Lemma halts_SetErrno e : halts (SetErrno e).
Proof. apply halts_act. intros; apply halts_ret. Qed.
Lemma halts_fail e : halts (fail e).
Proof. apply halts_act. intros; apply halts_ret. Qed.
Lemma halts_acquire acq l : halts (acquire acq l).
Proof. apply halts_act. intros; apply halts_ret. Qed.
Lemma halts_release rel l : halts (release rel l).
Proof. apply halts_act. intros []; [apply halts_ret|apply halts_panic]. Qed.
Lemma halts_Lock l : halts (Lock l).
Proof. apply halts_acquire. Qed.
Lemma halts_RLock l : halts (RLock l).
Proof. apply halts_acquire. Qed.
Lemma halts_Unlock l : halts (Unlock l).
Proof. apply halts_release. Qed.
Lemma halts_RUnlock l : halts (RUnlock l).
Proof. apply halts_release. Qed.
Lemma halts_flags_get fd : halts (Fcntl.flags_get fd).
Proof. apply halts_act. intros; apply halts_ret. Qed.
Lemma halts_flags_put fd v : halts (Fcntl.flags_put fd v).
Proof. apply halts_act. intros []; [apply halts_ret|apply halts_panic]. Qed.
Lemma halts_flags_delete fd : halts (Fcntl.flags_delete fd).
Proof. apply halts_act. intros; apply halts_ret. Qed.
Lemma halts_table_get s : halts (Signal.table_get s).
Proof. apply halts_act. intros; apply halts_ret. Qed.
Lemma halts_table_put s a : halts (Signal.table_put s a).
Proof. apply halts_act. intros []; [apply halts_ret|apply halts_panic]. Qed.
Lemma halts_set_get : halts Signal.set_get.
Proof. apply halts_act. intros; apply halts_ret. Qed.
Lemma halts_set_put v : halts (Signal.set_put v).
Proof. apply halts_act. intros; apply halts_ret. Qed.
Lemma halts_lookup t k : halts (Futex.lookup_await t k).
Proof. apply halts_act. intros; apply halts_ret. Qed.
Lemma halts_store t k a : halts (Futex.store_await t k a).
Proof. apply halts_act. intros []; [apply halts_ret|apply halts_panic]. Qed.
Lemma halts_delete t k : halts (Futex.delete_await t k).
Proof. apply halts_act. intros; apply halts_ret. Qed.
Lemma halts_range t : halts (Futex.range_table t).
Proof. apply halts_act. intros; apply halts_ret. Qed.
Lemma halts_wait_done t : halts (Sched.wait_done t).
Proof. apply halts_act. intros; apply halts_ret. Qed.
Lemma halts_tasks_Store p t : halts (Sched.tasks_Store p t).
Proof. apply halts_act. intros; apply halts_ret. Qed.
Lemma halts_spawn_reaper p t : halts (Sched.spawn_reaper p t).
Proof. apply halts_act. intros; apply halts_ret. Qed.

End halts.

#[export] Hint Resolve halts_ret halts_panic halts_hget halts_hdo halts_hwait halts_rtdo halts_SetErrno
  halts_fail halts_Lock halts_RLock halts_Unlock halts_RUnlock halts_flags_get halts_flags_put
  halts_flags_delete halts_table_get halts_table_put halts_set_get halts_set_put halts_lookup
  halts_store halts_delete halts_range halts_wait_done halts_tasks_Store halts_spawn_reaper : halts.

Ltac halts_step :=
  match goal with
  | |- halts (match ?x with _ => _ end) => destruct x
  | |- halts (bind _ _) => apply halts_bind; [|intros ?]
  | |- halts (with_defer _ _) => apply halts_defer
  end.
Ltac halts_solve := repeat first [ solve [eauto with halts] | halts_step | progress cbv zeta ].

Section loops.
Context {D : Debugger}.

(** ** The copy loops *)

(** A copy loop ends when every read without an error lowers a measure of the
    reader. *)
Lemma halts_copy {S T} (rd : reader S) (wr : writer T) size r s (mu : S -> nat) :
  (forall r, total (fun _ => True) (rd r size)
     (fun x _ => match x with (r', _, None) => (mu r' < mu r)%nat | _ => True end)
     (fun _ _ => True)) ->
  (forall s b, halts (wr s b)) -> halts (copy_loop rd wr size r s).
Proof.
  intros Hr Hw. unfold copy_loop.
  apply (total_iter _ _ _ _ (fun _ _ => True) (fun st _ => mu st.1.1) (fun _ _ => True));
    [done| |intros; apply halts_ret].
  intros [[r1 s1] wn] i. apply (total_pure (fun _ => True)). intros <-. unfold copy_turn.
  eapply total_bind; [apply (Hr r1)|]. intros [[r2 b] er]. cbn [fst].
  assert (forall s2 wn2, total
    (fun _ => match er with None => (mu r2 < mu r1)%nat | Some _ => True end)
    (copy_next r2 s2 wn2 er)
    (fun (x : (S * T * Z) + (Z * option error)) _ =>
       match x with inl st => True /\ (mu st.1.1 < mu r1)%nat | inr _ => True end)
    (fun _ _ => True)) as Hnext.
  { intros s2 wn2. unfold copy_next. destruct er; by apply total_ret. }
  destruct (0 <? zlen b); [|apply Hnext].
  eapply (total_bind _ _ _ (fun _ _ => match er with None => (mu r2 < mu r1)%nat | Some _ => True end)).
  - intros w H. destruct (Hw s1 b w I) as (n & Hn). exists n. by destruct (run n (wr s1 b) w).
  - intros [[s2 nw] ew]. cbv zeta. repeat case_match; first [apply Hnext | by apply total_ret].
Qed.

Lemma total_src {X} (f : Host -> Host * X) (Q : X -> Prop) :
  (forall h, Q (f h).2) -> total (fun _ => True) (hdo f) (fun x _ => Q x) (fun _ _ => True).
Proof.
  intros H. apply (total_act _ _ _ (fun x _ => Q x)); [|intros; by apply total_ret].
  intros w _. apply H.
Qed.

(** A source that reads something or reports an error. *)
Definition progressing (src : raw_reader) : Prop :=
  forall n, 0 < n -> total (fun _ => True) (src n)
    (fun x _ => match x with (b, None) => 0 < zlen b | _ => True end) (fun _ _ => True).

Context `{!HostProgress}.

Lemma file_reader_progress f : progressing (file_reader f).
Proof.
  intros n Hn. apply (total_act _ _ _ (fun x _ => match x with (b, None) => 0 < zlen b | _ => True end));
    [|intros; by apply total_ret].
  intros w _. destruct (file_Read (w_host w) f n) as [[h' [b [e|]]]|] eqn:E; [done| |done].
  by eapply file_Read_progress.
Qed.

Lemma rand_reader_progress : progressing rand_reader.
Proof.
  intros n Hn. apply (total_src _ (fun x => match x with (b, None) => 0 < zlen b | _ => True end)).
  intros h. destruct (rand_Reader_Read h n) as [h' [b [e|]]] eqn:E; [done|].
  by eapply rand_Read_progress.
Qed.

Lemma copy_buffer_positive n : 0 < copy_buffer n.
Proof. unfold copy_buffer. repeat case_match; lia. Qed.

Lemma halts_CopyN base src n : progressing src -> halts (io_CopyN_offset base src n).
Proof.
  intros Hs. unfold io_CopyN_offset. apply halts_bind; [|intros; halts_solve].
  apply (halts_copy _ _ _ _ _ Z.to_nat); [|intros; unfold offset_write; halts_solve].
  intros N. unfold limited_read. destruct (Z.leb_spec N 0); [by apply total_ret|].
  eapply total_bind.
  - apply Hs. pose proof (copy_buffer_positive n). lia.
  - intros [b [e|]]; apply total_ret; [done|]. intros w Hb. lia.
Qed.

Lemma halts_Copy w base n : halts (io_Copy_section w base n).
Proof.
  unfold io_Copy_section. destruct (is_ReaderFrom w); [apply halts_hwait|].
  apply (halts_copy _ _ _ _ _ (fun off => Z.to_nat (section_limit n - off)));
    [|intros; unfold file_write; halts_solve].
  intros off. unfold section_read. destruct (Z.leb_spec (section_limit n) off); [by apply total_ret|].
  apply (total_bind _ _ _ (fun x _ => match x with (b, None) => 0 < zlen b | _ => True end)).
  - apply (total_act _ _ _ (fun x _ => match x with (b, None) => 0 < zlen b | _ => True end));
      [|intros; by apply total_ret].
    intros w1 _. destruct (PtrReadAt _ _ _ _) as [b [e|]] eqn:E; [done|].
    eapply PtrReadAt_progress; [|exact E]. lia.
  - intros [b [e|]]; apply total_ret; [done|]. intros w1 Hb. lia.
Qed.

Lemma halts_ReadFull src len : progressing src -> halts (io_ReadFull src len).
Proof.
  intros Hs. unfold io_ReadFull.
  apply (total_iter _ _ _ _ (fun _ _ => True) (fun st _ => Z.to_nat (len - zlen st)) (fun _ _ => True));
    [done| |intros; apply halts_ret].
  intros st i. apply (total_pure (fun _ => True)). intros <-. unfold read_full_turn.
  destruct (Z.leb_spec len (zlen st)); [by apply total_ret|].
  eapply total_bind; [apply Hs; lia|]. intros [b [e|]].
  - case_match; by apply total_ret.
  - apply total_ret. intros w Hb. split; [done|]. rewrite zlen_app. lia.
Qed.

End loops.

(** ** Futexes *)

Section futexes.
Context {D : Debugger}.

Definition open_chan (w : World) (ch : Z) : Prop :=
  exists c, rt_chans (w_rt w) !! ch = Some c /\ ch_closed c = false.

(** No channel of the futex tables is closed: only [Close] closes them. *)
Definition chans_open (w : World) : Prop :=
  forall t key a, nmap_get (Futex.get_table t (w_futex w)) key = Some a -> open_chan w (aw_ch a).

(** Both only look at the channels and at the futex tables. *)
Definition chans_inv (cs : list Z) (w : World) : Prop := chans_open w /\ Forall (open_chan w) cs.

Lemma chans_inv_same cs w w' :
  rt_chans (w_rt w') = rt_chans (w_rt w) -> fx_awaits (w_futex w') = fx_awaits (w_futex w) ->
  fx_bitAwaits (w_futex w') = fx_bitAwaits (w_futex w) -> chans_inv cs w -> chans_inv cs w'.
Proof.
  unfold chans_inv, chans_open, open_chan. intros E1 E2 E3 [H1 H2]. rewrite E1. split; [|done].
  intros [] key a; cbn [Futex.get_table]; rewrite ?E2, ?E3; [apply (H1 Futex.Awaits)|apply (H1 Futex.BitAwaits)].
Qed.

Lemma total_same {A X} cs (f : World -> option (World * X)) (k : X -> prog World A) Q R :
  (forall w w' x, f w = Some (w', x) -> rt_chans (w_rt w') = rt_chans (w_rt w) /\
     fx_awaits (w_futex w') = fx_awaits (w_futex w) /\
     fx_bitAwaits (w_futex w') = fx_bitAwaits (w_futex w)) ->
  (forall x, total (chans_inv cs) (k x) Q R) -> total (chans_inv cs) (Act f k) Q R.
Proof.
  intros Hf Hk. apply (total_act _ _ _ (fun _ => chans_inv cs)); [|apply Hk].
  intros w Hw. destruct (f w) as [[w' x]|] eqn:E; [|done].
  destruct (Hf _ _ _ E) as (E1 & E2 & E3). by eapply chans_inv_same.
Qed.

(** An open channel for the key, the others still open. *)
Lemma total_store cs t key ch ref :
  total (chans_inv (ch :: cs)) (Futex.store_await t key (Await ch ref))
    (fun _ => chans_inv (ch :: cs)) (fun _ _ => True).
Proof.
  unfold Futex.store_await.
  apply (total_act _ _ _ (fun _ => chans_inv (ch :: cs)));
    [|intros []; [by apply total_ret|by apply total_panic]].
  intros w [Ho Hc]. destruct (Futex.get_table t (w_futex w)) as [m|] eqn:E; [|done].
  split; [|done]. intros t' key' a Ha. change (open_chan w (aw_ch a)).
  assert (nmap_get (Futex.get_table t' (w_futex w)) key' = Some a \/ a = Await ch ref) as [H|H].
  { destruct t, t'; cbn in *; auto; rewrite E; cbn;
      (destruct (decide (key = key')) as [->|Hk];
       [rewrite lookup_insert_eq in Ha; naive_solver|rewrite lookup_insert_ne in Ha by done; auto]). }
  - by eapply Ho.
  - subst a. by inversion Hc.
Qed.

Lemma total_add_ref cs t key :
  total (chans_inv cs) (Futex.add_ref t key) (fun ch => chans_inv (ch :: cs)) (fun _ _ => True).
Proof.
  unfold Futex.add_ref.
  apply (total_bind _ _ _ (fun a w => chans_inv cs w /\
    match a with Some a => open_chan w (aw_ch a) | None => True end)).
  { apply (total_act _ _ _ (fun a w => chans_inv cs w /\
      match a with Some a => open_chan w (aw_ch a) | None => True end)); [|intros; by apply total_ret].
    intros w Hw. split; [done|].
    destruct (nmap_get (Futex.get_table t (w_futex w)) key) as [a|] eqn:E; [|done]. by eapply Hw. }
  intros [[ch ref]|]; cbn [aw_ch aw_ref].
  - apply (total_bind _ _ _ (fun _ => chans_inv (ch :: cs))); [|intros; by apply total_ret].
    eapply total_weaken; [apply (total_store cs)| |done|done].
    intros w [[Ho Hc] H]. split; [done|]. by constructor.
  - apply (total_bind _ _ _ (fun ch => chans_inv (ch :: cs))).
    + apply (total_act _ _ _ (fun ch => chans_inv (ch :: cs))); [|intros; by apply total_ret].
      intros w [[Ho Hc] _]. cbn.
      assert (forall c, open_chan w c -> open_chan (set_rt (make_chan (w_rt w)).1 w) c) as Hmono.
      { intros c (x & Hx & Hf). unfold open_chan. cbn.
        destruct (decide (rt_next (w_rt w) = c)) as [->|Hne];
          [rewrite lookup_insert_eq|rewrite lookup_insert_ne by done]; eauto. }
      split; [intros t' key' a Ha; apply Hmono; by eapply Ho|].
      constructor; [|by eapply list.Forall_impl; [exact Hc|]].
      exists (Chan false []). cbn. by rewrite lookup_insert_eq.
    + intros ch. apply (total_bind _ _ _ (fun _ => chans_inv (ch :: cs))); [|intros; by apply total_ret].
      apply total_store.
Qed.

Lemma total_locked {A} cs cs' (m : prog World A) :
  total (chans_inv cs) m (fun a => chans_inv (cs' a)) (fun _ _ => True) ->
  total (chans_inv cs) (Lock LkFutex ;;; with_defer (Unlock LkFutex) m)
    (fun a => chans_inv (cs' a)) (fun _ _ => True).
Proof.
  intros Hm. apply (total_same cs).
  { intros w w' x E. destruct (rw_lock _); by simplify_eq. }
  intros []. cbn. eapply total_defer; [apply Hm| |].
  - intros a. apply (total_same (cs' a)).
    + intros w w' x E. destruct (rw_unlock _); by simplify_eq.
    + intros []; [by apply total_ret|by apply total_panic].
  - intros p. apply halts_Unlock.
Qed.

Lemma total_addAwait a :
  total (chans_inv []) (Futex.addAwait a) (fun ch => chans_inv [ch]) (fun _ _ => True).
Proof. apply (total_locked [] (fun ch => [ch])), total_add_ref. Qed.

Lemma total_addBitAwait a b :
  total (chans_inv []) (Futex.addBitAwait a b) (fun p => chans_inv [p.1; p.2]) (fun _ _ => True).
Proof.
  apply (total_locked [] (fun p => [p.1; p.2])).
  eapply total_bind; [apply total_add_ref|]. intros ch1.
  eapply total_bind; [apply total_add_ref|]. intros ch2. apply total_ret.
  intros w [Ho Hc]. split; [done|]. cbn. apply list.Forall_cons in Hc as [H2 Hc].
  apply list.Forall_cons in Hc as [H1 _]. by repeat constructor.
Qed.

(** *** Waiting: a [select] on open channels parks or times out *)

Lemma closed_cases_open chans w i :
  Forall (open_chan w) chans -> closed_cases i chans (w_rt w) = [].
Proof.
  intros H. revert i. induction H as [|c chans (x & Hx & Hf) _ IH]; intros i; cbn; [done|].
  rewrite Hx, IH. destruct x as [cl q]. cbn in Hf. by subst.
Qed.

Lemma total_select t tm chans :
  total (chans_inv chans) (select t tm chans) (fun wk _ => wk = WkTimeout) (fun _ _ => True).
Proof.
  apply (total_act _ _ _ (fun _ w => match select_leave t (w_rt w) with
                                     | Some (_, wk) => wk = WkTimeout | None => True end)).
  - intros w [_ Hc]. unfold select_enter, ready_cases. rewrite closed_cases_open by done.
    destruct (timer_fired tm (w_rt w)); cbn -[Nat.modulo]; unfold select_leave; cbn -[Nat.modulo];
      rewrite lookup_insert_eq; [|done]. by rewrite Nat.mod_1_r.
  - intros []. apply (total_act _ _ _ (fun wk _ => wk = WkTimeout)); [|intros; by apply total_ret].
    intros w H. by destruct (select_leave t (w_rt w)) as [[]|].
Qed.

(** A turn that goes round only when the [select] was woken with a value. *)
Lemma halts_wait_loop t tm chans (body : unit -> prog World (unit + Z)) :
  (forall u, exists k, body u = bind (select t tm chans) k /\
     k WkTimeout = let! r := fail ETIMEDOUT in Ret (inr r)) ->
  total (chans_inv chans) (Iter body tt Ret) (fun _ _ => True) (fun _ _ => True).
Proof.
  intros Hb. apply (total_iter _ _ _ _ (fun _ => chans_inv chans) (fun _ _ => 0%nat) (fun _ _ => True));
    [done| |intros; by apply total_ret].
  intros u i. destruct (Hb u) as (k & -> & Hk).
  eapply (total_bind _ _ _ (fun wk _ => wk = WkTimeout)).
  - by eapply total_weaken; [apply total_select|intros ? []|..].
  - intros wk w ->. rewrite Hk. by exists 0%nat.
Qed.

Lemma total_wait_prepare u v t (k : option Z -> prog World Z) :
  (forall tm, total (chans_inv []) (k tm) (fun _ _ => True) (fun _ _ => True)) ->
  total (chans_inv []) (Futex.wait_prepare u v t k) (fun _ _ => True) (fun _ _ => True).
Proof.
  intros Hk. unfold Futex.wait_prepare, Futex.read_u32. cbn [bind hget].
  apply total_same; [by intros; simplify_eq|]. intros [b|e]; cbn [bind];
    [|by eapply total_weaken; [apply halts_fail|..]].
  destruct (negb _); [by eapply total_weaken; [apply halts_fail|..]|].
  destruct (negb _); [|apply Hk].
  apply total_same; [by intros; simplify_eq|]. intros [ts [e|]]; cbn [bind];
    [by eapply total_weaken; [apply halts_fail|..]|].
  apply total_same; [|intros; apply Hk]. intros; by simplify_eq.
Qed.

Lemma halts_del_ref t key : halts (Futex.del_ref t key).
Proof. unfold Futex.del_ref. halts_solve. Qed.
#[local] Hint Resolve halts_del_ref : halts.
Lemma halts_delAwait a : halts (Futex.delAwait a).
Proof. unfold Futex.delAwait. halts_solve. Qed.
Lemma halts_delBitAwait a b : halts (Futex.delBitAwait a b).
Proof. unfold Futex.delBitAwait. halts_solve. Qed.
Lemma halts_getAwait a : halts (Futex.getAwait a).
Proof. unfold Futex.getAwait. halts_solve. Qed.
Lemma halts_read_u32 a : halts (Futex.read_u32 a).
Proof. unfold Futex.read_u32. halts_solve. Qed.
#[local] Hint Resolve halts_getAwait halts_read_u32 : halts.

Lemma total_futex_wait tid u v t :
  total (chans_inv []) (Futex.futex_wait tid u v t) (fun _ _ => True) (fun _ _ => True).
Proof.
  apply total_wait_prepare. intros tm. eapply total_bind; [apply total_addAwait|]. intros ch.
  eapply total_defer; [|intros; apply halts_delAwait..]. apply (halts_wait_loop tid tm [ch]).
  intros []. by eexists.
Qed.

Lemma total_futex_wait_bitset tid u v t v3 :
  total (chans_inv []) (Futex.futex_wait_bitset tid u v t v3) (fun _ _ => True) (fun _ _ => True).
Proof.
  apply total_wait_prepare. intros tm. eapply total_bind; [apply total_addBitAwait|]. intros [c1 c2].
  eapply total_defer; [|intros; apply halts_delBitAwait..]. apply (halts_wait_loop tid tm [c1; c2]).
  intros []. by eexists.
Qed.

(** *** Waking: every send takes a goroutine off the queue *)

Definition queue_length (ch : Z) (w : World) : nat :=
  match rt_chans (w_rt w) !! ch with Some c => length (ch_recvq c) | None => 0 end.

Lemma send_shortens ch v r r' :
  try_send ch v r = SendTo r' ->
  (match rt_chans r' !! ch with Some c => length (ch_recvq c) | None => 0 end <
   match rt_chans r !! ch with Some c => length (ch_recvq c) | None => 0 end)%nat.
Proof.
  unfold try_send. destruct (rt_chans r !! ch) as [c|] eqn:Ec; [|done].
  destruct (ch_closed c); [done|]. destruct (ch_recvq c) as [|t q] eqn:Eq; [done|].
  destruct (rt_parked r !! t) as [p|]; [|done]. intros [= <-]. cbn.
  rewrite lookup_fmap, Ec. cbn. rewrite Eq, filter_cons_False by auto.
  pose proof (length_filter (fun x => x <> t) q). lia.
Qed.

Lemma halts_send_loop ch v (body : Z -> prog World (Z + Z)) i0 :
  (forall i, (exists x, body i = Ret (inr x)) \/
     body i = let! sent := send_nb ch v in if sent then Ret (inl (int32 (i + 1))) else Ret (inr i)) ->
  halts (Iter body i0 Ret).
Proof.
  intros Hb. apply (total_iter _ _ _ _ (fun _ _ => True) (fun _ => queue_length ch) (fun _ _ => True));
    [done| |intros; by apply total_ret].
  intros i len. destruct (Hb i) as [[x ->]| ->]; [by apply total_ret|].
  eapply (total_bind _ _ _ (fun sent w => sent = true -> (queue_length ch w < len)%nat)).
  - apply (total_act _ _ _ (fun r w => r = Some true -> (queue_length ch w < len)%nat)).
    + intros w [_ <-]. destruct (try_send ch v (w_rt w)) eqn:E; cbn; try naive_solver.
      intros _. by eapply send_shortens.
    + intros [b|]; [|by apply total_panic]. apply total_ret. naive_solver.
  - intros []; apply total_ret; [|done]. intros w Hw. split; [done|]. by apply Hw.
Qed.

Lemma halts_futex_wake u v : halts (Futex.futex_wake u v).
Proof.
  unfold Futex.futex_wake. halts_solve. eapply halts_send_loop. intros i. unfold Futex.wake_turn.
  destruct (i =? _); [left; by eexists|by right].
Qed.

Lemma halts_wake_bits v3 count bits : forall i, halts (Futex.wake_bits bits v3 count i).
Proof.
  induction bits as [|bit bits IH]; intros i; cbn [Futex.wake_bits]; halts_solve.
  eapply halts_send_loop. intros j. unfold Futex.wake_bit_turn.
  destruct (j =? count); [left; by eexists|by right].
Qed.
#[local] Hint Resolve halts_wake_bits : halts.

Lemma halts_futex_wake_bitset v v3 : halts (Futex.futex_wake_bitset v v3).
Proof. unfold Futex.futex_wake_bitset. halts_solve. Qed.

Lemma total_futex tid u op v t u2 v3 :
  total chans_open (Futex.futex tid u op v t u2 v3) (fun _ _ => True) (fun _ _ => True).
Proof.
  eapply (total_weaken _ (chans_inv [])); [|by split|done|done].
  assert (forall m : prog World Z, halts m ->
    total (chans_inv []) m (fun _ _ => True) (fun _ _ => True)) as Hh.
  { intros m Hm. by eapply total_weaken; [apply Hm|..]. }
  unfold Futex.futex. cbv zeta.
  case (_ =? _); [apply total_futex_wait|]. case (_ =? _); [apply Hh, halts_futex_wake|].
  case (_ =? _); [apply Hh, halts_panic|]. case (_ =? _); [apply total_futex_wait_bitset|].
  case (_ =? _); [apply Hh, halts_futex_wake_bitset|apply Hh, halts_fail].
Qed.

End futexes.

(** ** The other handlers *)

Section handlers.
Context {D : Debugger} `{!HostProgress}.

#[local] Hint Resolve halts_CopyN halts_Copy halts_ReadFull file_reader_progress
  rand_reader_progress : halts.

Lemma halts_store_flags fd v : halts (Fcntl.store_flags fd v).
Proof. unfold Fcntl.store_flags. halts_solve. Qed.
#[local] Hint Resolve halts_store_flags : halts.
Lemma halts_finish_open fl r : halts (Fcntl.finish_open fl r).
Proof. unfold Fcntl.finish_open. halts_solve. Qed.
#[local] Hint Resolve halts_finish_open : halts.
Lemma halts_path f k : (forall p, halts (k p)) -> halts (Fcntl.with_path f k).
Proof. intros. unfold Fcntl.with_path. halts_solve. Qed.
Lemma halts_dir {X} as_dir (cwd : prog World X) dfd k :
  halts cwd -> (forall d, halts (k d)) -> halts (Fcntl.with_dir as_dir cwd dfd k).
Proof. intros. unfold Fcntl.with_dir. halts_solve. Qed.
Lemma halts_dup3 o n f : halts (Fcntl.dup3 o n f).
Proof. unfold Fcntl.dup3. halts_solve. Qed.
Lemma halts_fcntl fd cmd arg : halts (Fcntl.fcntl fd cmd arg).
Proof. unfold Fcntl.fcntl. halts_solve. Qed.
Lemma halts_faccessat d f m : halts (Fcntl.faccessat d f m).
Proof. apply halts_path; intros. apply halts_dir; intros; halts_solve. Qed.
Lemma halts_open f fl m : halts (Fcntl.open f fl m).
Proof. apply halts_path; intros. halts_solve. Qed.
Lemma halts_openat d f fl m : halts (Fcntl.openat d f fl m).
Proof. apply halts_path; intros. apply halts_dir; intros; halts_solve. Qed.
Lemma halts_close fd : halts (Fcntl.close fd).
Proof. unfold Fcntl.close. halts_solve. Qed.
Lemma halts_pipe2 p f : halts (Fcntl.pipe2 p f).
Proof. unfold Fcntl.pipe2. halts_solve. Qed.
Lemma halts_lseek fd o wh : halts (Fcntl.lseek fd o wh).
Proof. unfold Fcntl.lseek. halts_solve. Qed.
Lemma halts_read fd b c : halts (Fcntl.read fd b c).
Proof. unfold Fcntl.read. halts_solve. Qed.
Lemma halts_write fd b c : halts (Fcntl.write fd b c).
Proof. unfold Fcntl.write. halts_solve. Qed.
Lemma halts_writev_loop f arr : forall n, halts (Fcntl.writev_loop f arr n).
Proof. induction arr; intros; cbn [Fcntl.writev_loop]; halts_solve. Qed.
#[local] Hint Resolve halts_writev_loop : halts.
Lemma halts_writev fd i c : halts (Fcntl.writev fd i c).
Proof. unfold Fcntl.writev. halts_solve. Qed.
Lemma halts_readlinkat d f b s : halts (Fcntl.readlinkat d f b s).
Proof. apply halts_path; intros. apply halts_dir; intros; halts_solve. Qed.
Lemma halts_fstatat3264 d f b l : halts (Stat.fstatat3264 d f b l).
Proof. apply halts_path; intros. apply halts_dir; intros; halts_solve. Qed.
Lemma halts_fstatat64 d f b l : halts (Stat.fstatat64 d f b l).
Proof. apply halts_path; intros. apply halts_dir; intros; halts_solve. Qed.
Lemma halts_fstat3264 fd b : halts (Stat.fstat3264 fd b).
Proof. unfold Stat.fstat3264. halts_solve. Qed.
Lemma halts_fstat64 fd b : halts (Stat.fstat64 fd b).
Proof. unfold Stat.fstat64. halts_solve. Qed.
Lemma halts_rt_sigaction s a o n : halts (Signal.rt_sigaction s a o n).
Proof. unfold Signal.rt_sigaction. halts_solve. Qed.
Lemma halts_rt_sigprocmask h s o n : halts (Signal.rt_sigprocmask h s o n).
Proof. unfold Signal.rt_sigprocmask, Signal.sigprocmask_set. halts_solve. Qed.
Lemma halts_rt_tgsigqueueinfo g t s i : halts (Signal.rt_tgsigqueueinfo g t s i).
Proof. unfold Signal.rt_tgsigqueueinfo. halts_solve. Qed.
Lemma halts_map_fail e : halts (Mman.map_fail e).
Proof. unfold Mman.map_fail. halts_solve. Qed.
#[local] Hint Resolve halts_map_fail : halts.
Lemma halts_munmap a l : halts (Mman.munmap a l).
Proof. unfold Mman.munmap. halts_solve. Qed.
Lemma halts_map_region a l p fl f : halts (Mman.map_region a l p fl f).
Proof. unfold Mman.map_region. halts_solve. Qed.
#[local] Hint Resolve halts_map_region : halts.
Lemma halts_mmap a l p fl fd o : halts (Mman.mmap a l p fl fd o).
Proof. unfold Mman.mmap, Mman.skip_to. halts_solve. Qed.
Lemma halts_mprotect s l p : halts (Mman.mprotect s l p).
Proof. unfold Mman.mprotect. halts_solve. Qed.
Lemma halts_socket d t p : halts (Socket.socket d t p).
Proof. unfold Socket.socket. halts_solve. Qed.
Lemma halts_clone ctx f s p t c : halts (Sched.clone ctx f s p t c).
Proof.
  unfold Sched.clone, Sched.set_entry, Sched.set_tls, Sched.run_child, Sched.clone_abort. halts_solve.
Qed.
Lemma halts_clock_gettime c t : halts (Misc.clock_gettime c t).
Proof. unfold Misc.clock_gettime. halts_solve. Qed.
Lemma halts_gettimeofday a b : halts (Misc.gettimeofday a b).
Proof. unfold Misc.gettimeofday. halts_solve. Qed.
Lemma halts_getrandom b c f : halts (Misc.getrandom b c f).
Proof. unfold Misc.getrandom. halts_solve. Qed.
Lemma halts_prctl o a b c d : halts (Misc.prctl o a b c d).
Proof. unfold Misc.prctl. halts_solve. Qed.
Lemma halts_getpid : halts Misc.getpid.
Proof. unfold Misc.getpid. halts_solve. Qed.
Lemma halts_getrlimit r l : halts (Misc.getrlimit r l).
Proof. unfold Misc.getrlimit. halts_solve. Qed.
Lemma halts_ioctl fd c a : halts (Misc.ioctl fd c a).
Proof. unfold Misc.ioctl. halts_solve. Qed.
Lemma halts_sysinfo i : halts (Misc.sysinfo i).
Proof. unfold Misc.sysinfo, Misc.or_EINVAL. halts_solve. Qed.

End handlers.

#[export] Hint Resolve halts_dup3 halts_fcntl halts_faccessat halts_open halts_openat halts_close
  halts_pipe2 halts_lseek halts_read halts_write halts_writev halts_readlinkat halts_fstatat3264
  halts_fstatat64 halts_fstat3264 halts_fstat64 halts_rt_sigaction halts_rt_sigprocmask
  halts_rt_tgsigqueueinfo halts_munmap halts_mmap halts_mprotect halts_socket halts_clone
  halts_clock_gettime halts_gettimeofday halts_getrandom halts_prctl halts_getpid halts_getrlimit
  halts_ioctl halts_sysinfo : halts.
