(* ===== verification/ErrnoContract.v ===== *)
(** * The errno contract of the handlers

    A handler reports failure by setting the errno and returning -1.  [reports]
    is the half of that which every handler satisfies: when the errno is set at
    the end of a call that started with it clear, the call returned -1.  The
    proofs follow the handlers: everything but [fail] leaves the errno alone. *)

From stdpp Require Import base list gmap numbers.
From S2P Require Import Prelude GoProg GoSpec LinuxABI GoRuntime Structs Host World GoIO WorldSpec.
From S2P Require Import Fcntl Stat Signal Futex Mman Socket Sched Misc.
Local Open Scope Z_scope.
Local Open Scope go_scope.

Create HintDb errno.

(** A predicate on the errno alone. *)
Class ErrOnly `{D : Debugger} (I : World -> Prop) : Prop :=
  err_only : forall w w', w_err w' = w_err w -> I w -> I w'.

Section calm.
Context {D : Debugger} (I : World -> Prop) `{!ErrOnly I}.

#[export] Instance err_only_untouched : Untouched I.
Proof. split; intros x w Hw; by apply (err_only w). Qed.

Lemma calm_act {A X} (f : World -> option (World * X)) (k : X -> prog World A) :
  (forall w, match f w with Some (w', _) => w_err w' = w_err w | None => True end) ->
  (forall x, keeps I (k x)) -> keeps I (Act f k).
Proof.
  intros Hf Hk. apply keeps_act; [|done]. intros w w' x Hw E. specialize (Hf w).
  rewrite E in Hf. by apply (err_only w).
Qed.

Lemma calm_acquire acq l : keeps I (acquire acq l).
Proof.
  apply calm_act; [|intros; apply keeps_ret]. intros w. destruct (acq _); by destruct l.
Qed.

Lemma calm_release rel l : keeps I (release rel l).
Proof.
  apply calm_act; [|intros []; auto using keeps_ret, keeps_panic].
  intros w. destruct (rel _); by destruct l.
Qed.

Lemma calm_Lock l : keeps I (Lock l).
Proof. apply calm_acquire. Qed.
Lemma calm_RLock l : keeps I (RLock l).
Proof. apply calm_acquire. Qed.
Lemma calm_Unlock l : keeps I (Unlock l).
Proof. apply calm_release. Qed.
Lemma calm_RUnlock l : keeps I (RUnlock l).
Proof. apply calm_release. Qed.

Lemma calm_flags_get fd : keeps I (Fcntl.flags_get fd).
Proof. by apply calm_act; [|intros; apply keeps_ret]. Qed.
Lemma calm_flags_put fd v : keeps I (Fcntl.flags_put fd v).
Proof.
  apply calm_act; [|intros []; auto using keeps_ret, keeps_panic]. intros w. by destruct (fc_flags _).
Qed.
Lemma calm_flags_delete fd : keeps I (Fcntl.flags_delete fd).
Proof. apply calm_act; [|intros; apply keeps_ret]. intros w. by destruct (fc_flags _). Qed.
Lemma calm_table_get s : keeps I (Signal.table_get s).
Proof. by apply calm_act; [|intros; apply keeps_ret]. Qed.
Lemma calm_table_put s a : keeps I (Signal.table_put s a).
Proof.
  apply calm_act; [|intros []; auto using keeps_ret, keeps_panic]. intros w. by destruct (sg_table _).
Qed.
Lemma calm_set_get : keeps I Signal.set_get.
Proof. by apply calm_act; [|intros; apply keeps_ret]. Qed.
Lemma calm_set_put v : keeps I (Signal.set_put v).
Proof. by apply calm_act; [|intros; apply keeps_ret]. Qed.
Lemma calm_lookup t k : keeps I (Futex.lookup_await t k).
Proof. by apply calm_act; [|intros; apply keeps_ret]. Qed.
Lemma calm_store t k a : keeps I (Futex.store_await t k a).
Proof.
  apply calm_act; [|intros []; auto using keeps_ret, keeps_panic]. intros w. by destruct (Futex.get_table _ _).
Qed.
Lemma calm_delete t k : keeps I (Futex.delete_await t k).
Proof. apply calm_act; [|intros; apply keeps_ret]. intros w. by destruct (Futex.get_table _ _). Qed.
Lemma calm_range t : keeps I (Futex.range_table t).
Proof. by apply calm_act; [|intros; apply keeps_ret]. Qed.
Lemma calm_wait_done t : keeps I (Sched.wait_done t).
Proof. apply calm_act; [|intros; apply keeps_ret]. intros w. by destruct (task_Done _ _). Qed.
Lemma calm_tasks_Store p t : keeps I (Sched.tasks_Store p t).
Proof. by apply calm_act; [|intros; apply keeps_ret]. Qed.
Lemma calm_spawn_reaper p t : keeps I (Sched.spawn_reaper p t).
Proof. by apply calm_act; [|intros; apply keeps_ret]. Qed.

End calm.

#[export] Hint Resolve calm_Lock calm_RLock calm_Unlock calm_RUnlock calm_flags_get calm_flags_put calm_flags_delete
  calm_table_get calm_table_put calm_set_get calm_set_put calm_lookup calm_store calm_delete
  calm_range calm_wait_done calm_tasks_Store calm_spawn_reaper
  keeps_ret keeps_panic keeps_hget keeps_hdo keeps_hwait keeps_rtdo keeps_select keeps_send keeps_CopyN
  keeps_Copy keeps_ReadFull keeps_raw_file keeps_raw_rand err_only_untouched : errno.

Ltac calm_solve :=
  repeat first [ solve [auto with errno] | keeps_step | progress cbv zeta ].

Section calm2.
Context {D : Debugger} (I : World -> Prop) `{!ErrOnly I}.

Lemma calm_store_flags fd v : keeps I (Fcntl.store_flags fd v).
Proof. unfold Fcntl.store_flags. calm_solve. Qed.
Lemma calm_add_ref t k : keeps I (Futex.add_ref t k).
Proof. unfold Futex.add_ref. calm_solve. Qed.
Lemma calm_del_ref t k : keeps I (Futex.del_ref t k).
Proof. unfold Futex.del_ref. calm_solve. Qed.
#[local] Hint Resolve calm_store_flags calm_add_ref calm_del_ref : errno.
Lemma calm_getAwait a : keeps I (Futex.getAwait a).
Proof. unfold Futex.getAwait. calm_solve. Qed.
Lemma calm_addAwait a : keeps I (Futex.addAwait a).
Proof. unfold Futex.addAwait. calm_solve. Qed.
Lemma calm_delAwait a : keeps I (Futex.delAwait a).
Proof. unfold Futex.delAwait. calm_solve. Qed.
Lemma calm_addBitAwait a b : keeps I (Futex.addBitAwait a b).
Proof. unfold Futex.addBitAwait. calm_solve. Qed.
Lemma calm_delBitAwait a b : keeps I (Futex.delBitAwait a b).
Proof. unfold Futex.delBitAwait. calm_solve. Qed.
Lemma calm_read_u32 a : keeps I (Futex.read_u32 a).
Proof. unfold Futex.read_u32. calm_solve. Qed.
Lemma calm_wake_turn ch v c i : keeps I (Futex.wake_turn ch v c i).
Proof. unfold Futex.wake_turn. calm_solve. Qed.
Lemma calm_wake_bits val3 count bits : forall i, keeps I (Futex.wake_bits bits val3 count i).
Proof.
  induction bits; intros; cbn [Futex.wake_bits]; unfold Futex.wake_bit_turn; calm_solve.
Qed.
Lemma calm_skip_to f o : keeps I (Mman.skip_to f o).
Proof. unfold Mman.skip_to. calm_solve. Qed.
Lemma calm_set_entry t s : keeps I (Sched.set_entry t s).
Proof. unfold Sched.set_entry. calm_solve. Qed.
Lemma calm_set_tls t f v : keeps I (Sched.set_tls t f v).
Proof. unfold Sched.set_tls. calm_solve. Qed.

End calm2.

#[export] Hint Resolve calm_store_flags calm_getAwait calm_addAwait calm_delAwait calm_addBitAwait
  calm_delBitAwait calm_read_u32 calm_wake_turn calm_wake_bits calm_skip_to calm_set_entry
  calm_set_tls : errno.

(** ** The contract *)

Section reports.
Context {D : Debugger}.

(** [v] is the failure value: -1, or all ones for a handler that returns a
    register. *)
Definition reported (v r : Z) (w : World) : Prop := w_err w = 0 \/ r = v.

Definition reports (v : Z) (m : prog World Z) : Prop := yields errno_clear m (reported v).

(** A loop body: quiet while it goes on, reporting when it is done. *)
Definition reports_turn {S} (v : Z) (m : prog World (S + Z)) : Prop :=
  yields errno_clear m (fun r w => match r with inl _ => errno_clear w | inr x => reported v x w end).

#[export] Instance errno_clear_err_only : ErrOnly errno_clear.
Proof. intros w w' E H. unfold errno_clear in *. congruence. Qed.
#[export] Instance reported_err_only v r : ErrOnly (reported v r).
Proof. intros w w' E H. unfold reported in *. by rewrite E. Qed.

Lemma reports_ret v r : reports v (Ret r).
Proof. apply yields_ret. by left. Qed.

Lemma reports_panic v p : reports v (Panic p).
Proof. apply yields_panic. Qed.

Lemma reports_bind {A} v (m : prog World A) k :
  keeps errno_clear m -> (forall a, reports v (k a)) -> reports v (bind m k).
Proof.
  intros Hm Hk. eapply yields_bind; [|apply Hk]. by eapply spec_weaken; [apply Hm|..].
Qed.

Lemma reports_fail e : reports (-1) (fail e).
Proof.
  eapply (yields_bind _ _ _ (fun _ _ => True)); [|intros _; apply yields_ret; by right].
  intros n w _. done.
Qed.

Lemma reports_map_fail e : reports MaxUint64 (Mman.map_fail e).
Proof.
  eapply (yields_bind _ _ _ (fun _ _ => True)); [|intros _; apply yields_ret; by right].
  intros n w _. done.
Qed.

Lemma reports_iter {S} v (body : S -> prog World (S + Z)) s :
  (forall s, reports_turn v (body s)) -> reports v (Iter body s Ret).
Proof. intros H. eapply quiet_iter; [apply H|]. intros x. by apply yields_ret. Qed.

Lemma reports_defer v d m :
  reports v m -> (forall r, keeps (reported v r) d) -> reports v (with_defer d m).
Proof.
  intros Hm Hd. apply yields_defer; [done|]. intros r. by eapply spec_weaken; [apply Hd|..].
Qed.

Lemma turn_inl {S} v (s : S) : reports_turn v (Ret (inl s)).
Proof. by apply yields_ret. Qed.
Lemma turn_inr {S} v x : reports_turn v (Ret (inr x) : prog World (S + Z)).
Proof. apply yields_ret. by left. Qed.
Lemma turn_bind {A S} v (m : prog World A) (k : A -> prog World (S + Z)) :
  keeps errno_clear m -> (forall a, reports_turn v (k a)) -> reports_turn v (bind m k).
Proof.
  intros Hm Hk. eapply yields_bind; [|apply Hk]. by eapply spec_weaken; [apply Hm|..].
Qed.
Lemma turn_fail {S} e :
  reports_turn (-1) (bind (fail e) (fun r => Ret (inr r)) : prog World (S + Z)).
Proof.
  eapply yields_bind; [apply reports_fail|]. intros r. by apply yields_ret.
Qed.

End reports.

#[export] Hint Resolve reports_ret reports_panic reports_fail reports_map_fail turn_inl turn_inr
  turn_fail errno_clear_err_only reported_err_only : errno.

Ltac reports_step :=
  match goal with
  | |- reports _ (match ?x with _ => _ end) => destruct x
  | |- reports _ (if ?b then _ else _) => destruct b
  | |- reports _ (bind _ _) => apply reports_bind; [calm_solve|intros ?]
  | |- reports _ (with_defer _ _) => apply reports_defer; [|intros; calm_solve]
  | |- reports _ (Iter _ _ Ret) => apply reports_iter; intros ?
  | |- reports_turn _ (match ?x with _ => _ end) => destruct x
  | |- reports_turn _ (if ?b then _ else _) => destruct b
  | |- reports_turn _ (bind _ _) => apply turn_bind; [calm_solve|intros ?]
  end.

Ltac reports_solve :=
  repeat first [ solve [auto with errno] | reports_step | progress cbv zeta ].

Section handlers.
Context {D : Debugger}.

Lemma reports_finish_open fl r : reports (-1) (Fcntl.finish_open fl r).
Proof. unfold Fcntl.finish_open. reports_solve. Qed.
#[local] Hint Resolve reports_finish_open : errno.
Lemma reports_path f k : (forall p, reports (-1) (k p)) -> reports (-1) (Fcntl.with_path f k).
Proof. intros. unfold Fcntl.with_path. reports_solve. Qed.
Lemma reports_dir {X} as_dir (cwd : prog World X) dfd k :
  keeps errno_clear cwd -> (forall d, reports (-1) (k d)) ->
  reports (-1) (Fcntl.with_dir as_dir cwd dfd k).
Proof. intros. unfold Fcntl.with_dir. reports_solve. Qed.

Lemma reports_dup3 o n f : reports (-1) (Fcntl.dup3 o n f).
Proof. unfold Fcntl.dup3. reports_solve. Qed.
Lemma reports_fcntl fd c a : reports (-1) (Fcntl.fcntl fd c a).
Proof. unfold Fcntl.fcntl. reports_solve. Qed.
Lemma reports_faccessat d f m : reports (-1) (Fcntl.faccessat d f m).
Proof. apply reports_path; intros. apply reports_dir; intros; [calm_solve|reports_solve]. Qed.
Lemma reports_open f fl m : reports (-1) (Fcntl.open f fl m).
Proof. apply reports_path; intros. reports_solve. Qed.
Lemma reports_openat d f fl m : reports (-1) (Fcntl.openat d f fl m).
Proof. apply reports_path; intros. apply reports_dir; intros; [calm_solve|reports_solve]. Qed.
Lemma reports_close fd : reports (-1) (Fcntl.close fd).
Proof. unfold Fcntl.close. reports_solve. Qed.
Lemma reports_pipe2 p f : reports (-1) (Fcntl.pipe2 p f).
Proof. unfold Fcntl.pipe2. reports_solve. Qed.
Lemma reports_lseek fd o wh : reports (-1) (Fcntl.lseek fd o wh).
Proof. unfold Fcntl.lseek. reports_solve. Qed.
Lemma reports_read fd b c : reports (-1) (Fcntl.read fd b c).
Proof. unfold Fcntl.read. reports_solve. Qed.
Lemma reports_write fd b c : reports (-1) (Fcntl.write fd b c).
Proof. unfold Fcntl.write. reports_solve. Qed.
Lemma reports_writev_loop f arr : forall n, reports (-1) (Fcntl.writev_loop f arr n).
Proof. induction arr; intros; cbn [Fcntl.writev_loop]; reports_solve. Qed.
#[local] Hint Resolve reports_writev_loop : errno.
Lemma reports_writev fd i c : reports (-1) (Fcntl.writev fd i c).
Proof. unfold Fcntl.writev. reports_solve. Qed.
Lemma reports_readlinkat d f b s : reports (-1) (Fcntl.readlinkat d f b s).
Proof. apply reports_path; intros. apply reports_dir; intros; [calm_solve|reports_solve]. Qed.
Lemma reports_fstatat3264 d f b fl : reports (-1) (Stat.fstatat3264 d f b fl).
Proof. apply reports_path; intros. apply reports_dir; intros; [calm_solve|reports_solve]. Qed.
Lemma reports_fstatat64 d f b fl : reports (-1) (Stat.fstatat64 d f b fl).
Proof. apply reports_path; intros. apply reports_dir; intros; [calm_solve|reports_solve]. Qed.
Lemma reports_fstat3264 fd b : reports (-1) (Stat.fstat3264 fd b).
Proof. unfold Stat.fstat3264. reports_solve. Qed.
Lemma reports_fstat64 fd b : reports (-1) (Stat.fstat64 fd b).
Proof. unfold Stat.fstat64. reports_solve. Qed.

Lemma reports_wait_prepare u v t k :
  (forall tm, reports (-1) (k tm)) -> reports (-1) (Futex.wait_prepare u v t k).
Proof. intros. unfold Futex.wait_prepare. reports_solve. Qed.
Lemma reports_futex_wait tid u v t : reports (-1) (Futex.futex_wait tid u v t).
Proof. apply reports_wait_prepare. intros. unfold Futex.wait_turn, Futex.wait_case. reports_solve. Qed.
Lemma reports_futex_wait_bitset tid u v t v3 :
  reports (-1) (Futex.futex_wait_bitset tid u v t v3).
Proof. apply reports_wait_prepare. intros. unfold Futex.wait_bitset_turn, Futex.wait_bitset_case. reports_solve. Qed.
Lemma reports_futex_wake u v : reports (-1) (Futex.futex_wake u v).
Proof. unfold Futex.futex_wake, Futex.wake_turn. reports_solve. Qed.
Lemma quiet_reports v (m : prog World Z) : keeps errno_clear m -> reports v m.
Proof. intros H. eapply spec_weaken; [apply H|done| |done..]. intros; by left. Qed.
Lemma reports_futex_wake_bitset v v3 : reports (-1) (Futex.futex_wake_bitset v v3).
Proof. apply quiet_reports. unfold Futex.futex_wake_bitset. calm_solve. Qed.
#[local] Hint Resolve reports_futex_wait reports_futex_wait_bitset reports_futex_wake
  reports_futex_wake_bitset : errno.
Lemma reports_futex tid u op v t u2 v3 : reports (-1) (Futex.futex tid u op v t u2 v3).
Proof. unfold Futex.futex. reports_solve. Qed.

Lemma reports_rt_sigaction s a o n : reports (-1) (Signal.rt_sigaction s a o n).
Proof. unfold Signal.rt_sigaction. reports_solve. Qed.
Lemma reports_sigprocmask_set h s : reports (-1) (Signal.sigprocmask_set h s).
Proof. unfold Signal.sigprocmask_set. reports_solve. Qed.
#[local] Hint Resolve reports_sigprocmask_set : errno.
Lemma reports_rt_sigprocmask h s o n : reports (-1) (Signal.rt_sigprocmask h s o n).
Proof. unfold Signal.rt_sigprocmask. reports_solve. Qed.
Lemma reports_rt_tgsigqueueinfo g t s i : reports (-1) (Signal.rt_tgsigqueueinfo g t s i).
Proof. unfold Signal.rt_tgsigqueueinfo. reports_solve. Qed.

Lemma reports_munmap a l : reports (-1) (Mman.munmap a l).
Proof. unfold Mman.munmap. reports_solve. Qed.
Lemma reports_map_region a l p fl f : reports MaxUint64 (Mman.map_region a l p fl f).
Proof. unfold Mman.map_region. reports_solve. Qed.
#[local] Hint Resolve reports_map_region : errno.
Lemma reports_mmap a l p fl fd o : reports MaxUint64 (Mman.mmap a l p fl fd o).
Proof. unfold Mman.mmap. reports_solve. Qed.
Lemma reports_mprotect s l p : reports (-1) (Mman.mprotect s l p).
Proof. unfold Mman.mprotect. reports_solve. Qed.
Lemma reports_socket d t p : reports (-1) (Socket.socket d t p).
Proof. unfold Socket.socket. reports_solve. Qed.
Lemma reports_clone_abort t : reports (-1) (Sched.clone_abort t).
Proof. unfold Sched.clone_abort. reports_solve. Qed.
#[local] Hint Resolve reports_clone_abort : errno.
Lemma reports_run_child t f c : reports (-1) (Sched.run_child t f c).
Proof. unfold Sched.run_child. reports_solve. Qed.
#[local] Hint Resolve reports_run_child : errno.
Lemma reports_clone ctx f s p t c : reports (-1) (Sched.clone ctx f s p t c).
Proof. unfold Sched.clone. reports_solve. Qed.
Lemma reports_clock_gettime c t : reports (-1) (Misc.clock_gettime c t).
Proof. unfold Misc.clock_gettime. reports_solve. Qed.
Lemma reports_gettimeofday a b : reports (-1) (Misc.gettimeofday a b).
Proof. unfold Misc.gettimeofday. reports_solve. Qed.
Lemma reports_getrandom b c f : reports (-1) (Misc.getrandom b c f).
Proof. unfold Misc.getrandom. reports_solve. Qed.
Lemma reports_prctl o a b c d : reports (-1) (Misc.prctl o a b c d).
Proof. unfold Misc.prctl. reports_solve. Qed.
Lemma reports_getpid : reports (-1) Misc.getpid.
Proof. unfold Misc.getpid. reports_solve. Qed.
Lemma reports_getrlimit r l : reports (-1) (Misc.getrlimit r l).
Proof. unfold Misc.getrlimit. reports_solve. Qed.
Lemma reports_ioctl fd c a : reports (-1) (Misc.ioctl fd c a).
Proof. unfold Misc.ioctl. reports_solve. Qed.
Lemma reports_sysinfo i : reports (-1) (Misc.sysinfo i).
Proof. unfold Misc.sysinfo, Misc.or_EINVAL. reports_solve. Qed.

End handlers.

#[export] Hint Resolve reports_dup3 reports_fcntl reports_faccessat reports_open reports_openat
  reports_close reports_pipe2 reports_lseek reports_read reports_write reports_writev
  reports_readlinkat reports_fstatat3264 reports_fstatat64 reports_fstat3264 reports_fstat64
  reports_futex reports_rt_sigaction reports_rt_sigprocmask reports_rt_tgsigqueueinfo
  reports_munmap reports_mmap reports_mprotect reports_socket reports_clone reports_clock_gettime
  reports_gettimeofday reports_getrandom reports_prctl reports_getpid reports_getrlimit
  reports_ioctl reports_sysinfo : errno.
