(* ===== verification/Syscall.v ===== *)
(** * The syscall table: src/kernel/syscall.go

    [Syscall] embeds the components; [Get] maps a syscall number to a handler
    that converts the registers to the arguments of the component's method and
    its result to a register. *)

From stdpp Require Import base list gmap numbers strings.
From S2P Require Import Prelude CTypes GoProg GoSpec LinuxABI GoRuntime Structs Host World GoIO WorldSpec.
From S2P Require Import Fcntl Stat Signal Futex Mman Socket Sched Misc ErrnoContract.
Local Open Scope Z_scope.
Local Open Scope go_scope.

Module Syscall.
Section syscall.
Context {D : Debugger}.

(** [func(linux.Context, ...uint64) uint64] *)
Definition handler := Ctx -> list Z -> prog World Z.

(** The zero [Syscall] with the host it runs on: every map nil, locks free. *)
Definition new_world (h : Host) : World :=
  mkWorld h rt_init (Fcntl rw_free None) (Futex rw_free None None)
    (Signal 0 rw_free None) (Sched ∅ []) 0.

Definition ctor : prog World unit :=
  Fcntl.ctor ;;; Futex.ctor ;;; Signal.ctor.

Definition Close : prog World unit :=
  Signal.dtor ;;; Futex.dtor ;;; Fcntl.dtor.

(** [args\[i\]] *)
Definition arg (args : list Z) (i : nat) : prog World Z :=
  match args !! i with
  | Some a => Ret a
  | None => Panic PanicIndex
  end.

(** [r := m; return uint64(r)] *)
Definition as_u64 (m : prog World Z) : prog World Z :=
  let! r := m in Ret (uint64 r).

Definition Reject : handler := fun ctx args =>
  SetErrno ENOSYS ;;; Ret MaxUint64.

Definition Ignore : handler := fun ctx args => Ret 0.

Definition Emulate_dup3 : handler := fun ctx args =>
  let! a0 := arg args 0 in let! a1 := arg args 1 in let! a2 := arg args 2 in
  as_u64 (Fcntl.dup3 (uint32 a0) (uint32 a1) (int32 a2)).

Definition Emulate_fcntl : handler := fun ctx args =>
  let! a0 := arg args 0 in let! a1 := arg args 1 in let! a2 := arg args 2 in
  as_u64 (Fcntl.fcntl (uint32 a0) (uint32 a1) (ulong_t a2)).

Definition Emulate_ioctl : handler := fun ctx args =>
  let! a0 := arg args 0 in let! a1 := arg args 1 in let! a2 := arg args 2 in
  as_u64 (Misc.ioctl (uint32 a0) (uint32 a1) a2).

Definition Emulate_faccessat : handler := fun ctx args =>
  let! a0 := arg args 0 in let! a1 := arg args 1 in let! a2 := arg args 2 in
  as_u64 (Fcntl.faccessat (int32 a0) a1 (int32 a2)).

Definition Emulate_open : handler := fun ctx args =>
  let! a0 := arg args 0 in let! a1 := arg args 1 in let! a2 := arg args 2 in
  as_u64 (Fcntl.open a0 (int32 a1) (int32 a2)).

Definition Emulate_openat : handler := fun ctx args =>
  let! a0 := arg args 0 in let! a1 := arg args 1 in let! a2 := arg args 2 in
  let! a3 := arg args 3 in
  as_u64 (Fcntl.openat (int32 a0) a1 (int32 a2) (int32 a3)).

Definition Emulate_close : handler := fun ctx args =>
  let! a0 := arg args 0 in
  as_u64 (Fcntl.close (uint32 a0)).

Definition Emulate_pipe2 : handler := fun ctx args =>
  let! a0 := arg args 0 in let! a1 := arg args 1 in
  as_u64 (Fcntl.pipe2 a0 (int32 a1)).

Definition Emulate_lseek : handler := fun ctx args =>
  let! a0 := arg args 0 in let! a1 := arg args 1 in let! a2 := arg args 2 in
  as_u64 (Fcntl.lseek (uint32 a0) (off_t a1) (int32 a2)).

Definition Emulate_read : handler := fun ctx args =>
  let! a0 := arg args 0 in let! a1 := arg args 1 in let! a2 := arg args 2 in
  as_u64 (Fcntl.read (uint32 a0) a1 (size_t a2)).

Definition Emulate_write : handler := fun ctx args =>
  let! a0 := arg args 0 in let! a1 := arg args 1 in let! a2 := arg args 2 in
  as_u64 (Fcntl.write (uint32 a0) a1 (size_t a2)).

Definition Emulate_writev : handler := fun ctx args =>
  let! a0 := arg args 0 in let! a1 := arg args 1 in let! a2 := arg args 2 in
  as_u64 (Fcntl.writev (uint32 a0) a1 (int32 a2)).

Definition Emulate_readlinkat : handler := fun ctx args =>
  let! a0 := arg args 0 in let! a1 := arg args 1 in let! a2 := arg args 2 in
  let! a3 := arg args 3 in
  as_u64 (Fcntl.readlinkat (int32 a0) a1 a2 (size_t a3)).

Definition Emulate_fstatat64 : handler := fun ctx args =>
  let! a := hget dbg_Arch in
  match a with
  | ARCH_ARM | ARCH_X86 =>
      let! a0 := arg args 0 in let! a1 := arg args 1 in
      let! a2 := arg args 2 in let! a3 := arg args 3 in
      as_u64 (Stat.fstatat3264 (int32 a0) a1 a2 (int32 a3))
  | ARCH_ARM64 | ARCH_X86_64 =>
      let! a0 := arg args 0 in let! a1 := arg args 1 in
      let! a2 := arg args 2 in let! a3 := arg args 3 in
      as_u64 (Stat.fstatat64 (int32 a0) a1 a2 (int32 a3))
  | ARCH_OTHER _ => as_u64 (fail ENOSYS)
  end.

Definition Emulate_fstat64 : handler := fun ctx args =>
  let! a := hget dbg_Arch in
  match a with
  | ARCH_ARM | ARCH_X86 =>
      let! a0 := arg args 0 in let! a1 := arg args 1 in
      as_u64 (Stat.fstat3264 (uint32 a0) a1)
  | ARCH_ARM64 | ARCH_X86_64 =>
      let! a0 := arg args 0 in let! a1 := arg args 1 in
      as_u64 (Stat.fstat64 (uint32 a0) a1)
  | ARCH_OTHER _ => as_u64 (fail ENOSYS)
  end.

Definition Emulate_exit : handler := fun ctx args => Panic (PanicMsg "syscall exit").

Definition Emulate_futex : handler := fun ctx args =>
  let! a0 := arg args 0 in let! a1 := arg args 1 in let! a2 := arg args 2 in
  let! a3 := arg args 3 in let! a4 := arg args 4 in let! a5 := arg args 5 in
  as_u64 (Futex.futex (TaskID ctx) a0 (int32 a1) (uint32 a2) a3 a4 (uint32 a5)).

Definition Emulate_clock_gettime : handler := fun ctx args =>
  let! a0 := arg args 0 in let! a1 := arg args 1 in
  as_u64 (Misc.clock_gettime (clockid_t a0) a1).

Definition Emulate_rt_sigaction : handler := fun ctx args =>
  let! a0 := arg args 0 in let! a1 := arg args 1 in let! a2 := arg args 2 in
  let! a3 := arg args 3 in
  as_u64 (Signal.rt_sigaction (int32 a0) a1 a2 (size_t a3)).

Definition Emulate_rt_sigprocmask : handler := fun ctx args =>
  let! a0 := arg args 0 in let! a1 := arg args 1 in let! a2 := arg args 2 in
  let! a3 := arg args 3 in
  as_u64 (Signal.rt_sigprocmask (int32 a0) a1 a2 (size_t a3)).

Definition Emulate_getrlimit : handler := fun ctx args =>
  let! a0 := arg args 0 in let! a1 := arg args 1 in
  as_u64 (Misc.getrlimit (int32 a0) a1).

Definition Emulate_setrlimit : handler := fun ctx args =>
  let! a0 := arg args 0 in let! a1 := arg args 1 in
  as_u64 (Misc.setrlimit (int32 a0) a1).

Definition Emulate_prctl : handler := fun ctx args =>
  let! a0 := arg args 0 in let! a1 := arg args 1 in let! a2 := arg args 2 in
  let! a3 := arg args 3 in let! a4 := arg args 4 in
  as_u64 (Misc.prctl (int32 a0) (ulong_t a1) (ulong_t a2) (ulong_t a3) (ulong_t a4)).

Definition Emulate_gettimeofday : handler := fun ctx args =>
  let! a0 := arg args 0 in let! a1 := arg args 1 in
  as_u64 (Misc.gettimeofday a0 a1).

Definition Emulate_getpid : handler := fun ctx args =>
  as_u64 (Misc.getpid).

Definition Emulate_gettid : handler := fun ctx args =>
  as_u64 (Misc.gettid ctx).

Definition Emulate_sysinfo : handler := fun ctx args =>
  let! a0 := arg args 0 in
  as_u64 (Misc.sysinfo a0).

Definition Emulate_socket : handler := fun ctx args =>
  let! a0 := arg args 0 in let! a1 := arg args 1 in let! a2 := arg args 2 in
  as_u64 (Socket.socket (int32 a0) (int32 a1) (int32 a2)).

Definition Emulate_munmap : handler := fun ctx args =>
  let! a0 := arg args 0 in let! a1 := arg args 1 in
  as_u64 (Mman.munmap a0 (size_t a1)).

Definition Emulate_clone : handler := fun ctx args =>
  let! a0 := arg args 0 in let! a1 := arg args 1 in let! a2 := arg args 2 in
  let! a3 := arg args 3 in let! a4 := arg args 4 in
  as_u64 (Sched.clone ctx (int32 a0) a1 a2 a3 a4).

Definition Emulate_execve : handler := fun ctx args =>
  let! a0 := arg args 0 in let! a1 := arg args 1 in let! a2 := arg args 2 in
  as_u64 (Sched.execve a0 a1 a2).

Definition Emulate_mmap : handler := fun ctx args =>
  let! a0 := arg args 0 in let! a1 := arg args 1 in let! a2 := arg args 2 in
  let! a3 := arg args 3 in let! a4 := arg args 4 in let! a5 := arg args 5 in
  Mman.mmap a0 (size_t a1) (to_MemProt a2) (int32 a3) (int32 a4) (off_t a5).

Definition Emulate_mmap2 : handler := fun ctx args =>
  let! a0 := arg args 0 in let! a1 := arg args 1 in let! a2 := arg args 2 in
  let! a3 := arg args 3 in let! a4 := arg args 4 in let! a5 := arg args 5 in
  Mman.mmap2 a0 (size_t a1) (to_MemProt a2) (int32 a3) (int32 a4) (size_t a5).

Definition Emulate_mprotect : handler := fun ctx args =>
  let! a0 := arg args 0 in let! a1 := arg args 1 in let! a2 := arg args 2 in
  as_u64 (Mman.mprotect a0 (size_t a1) (to_MemProt a2)).

Definition Emulate_rt_tgsigqueueinfo : handler := fun ctx args =>
  let! a0 := arg args 0 in let! a1 := arg args 1 in let! a2 := arg args 2 in
  let! a3 := arg args 3 in
  as_u64 (Signal.rt_tgsigqueueinfo (int32 a0) (int32 a1) (int32 a2) a3).

Definition Emulate_getrandom : handler := fun ctx args =>
  let! a0 := arg args 0 in let! a1 := arg args 1 in let! a2 := arg args 2 in
  as_u64 (Misc.getrandom a0 (size_t a1) (uint32 a2)).

(** The cases of [Get]'s [switch]. *)
Definition syscall_cases : list (NR * handler) :=
  [(NR_reject, Reject);
   (NR_ignore, Ignore);
   (NR_dup3, Emulate_dup3);
   (NR_fcntl, Emulate_fcntl);
   (NR_ioctl, Emulate_ioctl);
   (NR_faccessat, Emulate_faccessat);
   (NR_open, Emulate_open);
   (NR_openat, Emulate_openat);
   (NR_close, Emulate_close);
   (NR_pipe2, Emulate_pipe2);
   (NR_lseek, Emulate_lseek);
   (NR_read, Emulate_read);
   (NR_write, Emulate_write);
   (NR_writev, Emulate_writev);
   (NR_readlinkat, Emulate_readlinkat);
   (NR_fstatat64, Emulate_fstatat64);
   (NR_fstat64, Emulate_fstat64);
   (NR_exit, Emulate_exit);
   (NR_exit_group, Emulate_exit);
   (NR_futex, Emulate_futex);
   (NR_clock_gettime, Emulate_clock_gettime);
   (NR_sigaltstack, Ignore);
   (NR_rt_sigaction, Emulate_rt_sigaction);
   (NR_rt_sigprocmask, Emulate_rt_sigprocmask);
   (NR_getrlimit, Emulate_getrlimit);
   (NR_setrlimit, Emulate_setrlimit);
   (NR_prctl, Emulate_prctl);
   (NR_gettimeofday, Emulate_gettimeofday);
   (NR_getpid, Emulate_getpid);
   (NR_getuid, Ignore);
   (NR_geteuid, Ignore);
   (NR_gettid, Emulate_gettid);
   (NR_sysinfo, Emulate_sysinfo);
   (NR_socket, Emulate_socket);
   (NR_munmap, Emulate_munmap);
   (NR_clone, Emulate_clone);
   (NR_execve, Emulate_execve);
   (NR_mmap, Emulate_mmap);
   (NR_mmap2, Emulate_mmap2);
   (NR_mprotect, Emulate_mprotect);
   (NR_madvise, Reject);
   (NR_rt_tgsigqueueinfo, Emulate_rt_tgsigqueueinfo);
   (NR_getrandom, Emulate_getrandom)].

Fixpoint switch (nr : Z) (cases : list (NR * handler)) : option handler :=
  match cases with
  | [] => None
  | (c, h) :: cases => if nr =? NR_val c then Some h else switch nr cases
  end.

(** [Get]: [None] is the nil function. *)
Definition Get (nr : Z) : option handler := switch nr syscall_cases.

End syscall.

Ltac unfold_handler :=
  unfold Reject, Ignore, Emulate_dup3, Emulate_fcntl, Emulate_ioctl, Emulate_faccessat,
    Emulate_open, Emulate_openat, Emulate_close, Emulate_pipe2, Emulate_lseek, Emulate_read,
    Emulate_write, Emulate_writev, Emulate_readlinkat, Emulate_fstatat64, Emulate_fstat64,
    Emulate_exit, Emulate_futex, Emulate_clock_gettime, Emulate_rt_sigaction,
    Emulate_rt_sigprocmask, Emulate_getrlimit, Emulate_setrlimit, Emulate_prctl,
    Emulate_gettimeofday, Emulate_getpid, Emulate_gettid, Emulate_sysinfo, Emulate_socket,
    Emulate_munmap, Emulate_clone, Emulate_execve, Emulate_mmap, Emulate_mmap2,
    Emulate_mprotect, Emulate_rt_tgsigqueueinfo, Emulate_getrandom,
    Misc.gettid, Misc.setrlimit, Sched.execve, Mman.mmap2 in *.

(** Prove a [Forall] over the handlers case by case. *)
Ltac each_handler tac :=
  unfold syscall_cases; cbn [fmap list_fmap snd];
  repeat (apply Forall_cons_2; [cbn beta; tac|]); apply Forall_nil_2.

Section syscall_theorems.
Context {D : Debugger}.


(** ** Construction *)

(** A kernel that has been constructed and not used yet. *)
Definition booted (h : Host) : World :=
  mkWorld h rt_init (World.Fcntl rw_free (Some ∅)) (World.Futex rw_free (Some ∅) (Some ∅))
    (World.Signal 0 rw_free (Some ∅)) (Sched ∅ []) 0.

Lemma run_ctor {A} n h (k : unit -> prog World A) :
  run n (bind ctor k) (new_world h) = run n (k tt) (booted h).
Proof. done. Qed.

Lemma booted_ready h : ready (booted h).
Proof. split; [by intros []|]. by split_and!; eexists. Qed.

(** ** The table *)

Lemma switch_elem nr cases h :
  switch nr cases = Some h -> exists c, (c, h) ∈ cases /\ nr = NR_val c.
Proof.
  induction cases as [|[c k] cases IH]; cbn; [done|].
  destruct (Z.eqb_spec nr (NR_val c)) as [->|_].
  - intros [= ->]. exists c. split; [by left|done].
  - intros H. destruct (IH H) as (d & Hd & ->). exists d. split; [by right|done].
Qed.

Lemma switch_none nr cases :
  switch nr cases = None <-> Forall (fun c => nr <> NR_val c.1) cases.
Proof.
  induction cases as [|[c k] cases IH]; cbn; [done|].
  rewrite Forall_cons. cbn. destruct (Z.eqb_spec nr (NR_val c)) as [->|H]; naive_solver.
Qed.

(** Something every case of the table has, every handler [Get] returns has. *)
Lemma Get_forall (P : handler -> Prop) nr h :
  Forall P (syscall_cases.*2) -> Get nr = Some h -> P h.
Proof.
  intros HF H. apply switch_elem in H as (c & Hc & _).
  rewrite Forall_forall in HF. apply HF. apply list_elem_of_fmap. by exists (c, h).
Qed.

(** ** ready *)

Lemma keeps_arg (args : list Z) i : keeps ready (arg args i).
Proof. unfold arg. keeps_solve. Qed.
#[local] Hint Resolve keeps_arg : kernel.

Lemma handlers_keep_ready ctx args :
  Forall (fun h : handler => keeps ready (h ctx args)) (syscall_cases.*2).
Proof. each_handler ltac:(unfold_handler; unfold as_u64; keeps_solve). Qed.

(** ** errno *)

Lemma calm_arg (args : list Z) i : keeps errno_clear (arg args i).
Proof. unfold arg. calm_solve. Qed.
#[local] Hint Resolve calm_arg : errno.

(** [uint64] turns the failure value of a component into the register's. *)
Lemma reports_as_u64 m : reports (-1) m -> reports MaxUint64 (as_u64 m).
Proof.
  intros H. unfold as_u64. eapply yields_bind; [apply H|]. intros r. apply yields_ret.
  intros w [Hw| ->]; [by left|by right].
Qed.

Lemma reports_Reject ctx args : reports MaxUint64 (Reject ctx args).
Proof. apply reports_map_fail. Qed.
#[local] Hint Resolve reports_as_u64 reports_Reject : errno.

Lemma handlers_report ctx args :
  Forall (fun h : handler => reports MaxUint64 (h ctx args)) (syscall_cases.*2).
Proof.
  each_handler ltac:(first [apply reports_Reject | unfold_handler; reports_solve]).
Qed.

End syscall_theorems.
End Syscall.
