(* ===== verification/Kernel.v ===== *)
(** * The kernel and its interrupt hooks: src/kernel/kernel.go

    A software interrupt of the guest reaches [armIntr] or [arm64Intr], which
    read the number and the arguments from the registers, look the syscall up
    through the [linux.Debugger] the context belongs to, clear the errno, run
    the handler and store its result. *)

From stdpp Require Import base list gmap numbers strings.
From S2P Require Import Prelude GoProg GoSpec LinuxABI GoRuntime Structs Host World GoIO WorldSpec.
From S2P Require Import Fcntl Stat Signal Futex Mman Socket Sched Misc Syscall.
Local Open Scope Z_scope.
Local Open Scope go_scope.

Module Kernel.
Section kernel.
Context {D : Debugger}.

Inductive HookResult := HookResult_Next | HookResult_Done.

(** The part of the [linux.Debugger] interface that is not the debugger's own
    (src/debugger.go, src/kernel.go): an embedder implements it, usually by
    embedding [Kernel]. *)
Record LinuxDebugger := {
  ld_NR : Z -> Z;
  ld_Get : Z -> option Syscall.handler;    (* Syscall().Get *)
  ld_Errno : prog World Z;
  ld_SetErrno : Z -> prog World unit
}.

(** [Kernel]'s own methods: [NR] converts, [Syscall] is the table, and the errno
    is a field. *)
Definition kernel_NR (no : Z) : Z := int64 no.
Definition Errno_get : prog World Z := Act (fun w => Some (w, w_err w)) Ret.
Definition Errno_set (e : Z) : prog World unit := Act (fun w => Some (set_err e w, tt)) Ret.

Definition kernel_debugger : LinuxDebugger :=
  {| ld_NR := kernel_NR; ld_Get := Syscall.Get; ld_Errno := Errno_get; ld_SetErrno := Errno_set |}.

(** [linux.Context] (src/context.go): the debugger's context with the errno of
    the [linux.Debugger] it belongs to. *)
Record context := Context { cx_Context : Ctx; cx_dbg : LinuxDebugger }.

Definition NewContext (ctx : Ctx) (dbg : LinuxDebugger) : context := Context ctx dbg.
Definition context_Errno (ctx : context) : prog World Z := ld_Errno (cx_dbg ctx).
Definition context_SetErrno (ctx : context) (e : Z) : prog World unit := ld_SetErrno (cx_dbg ctx) e.

(** What the handlers call [SetErrno] on is such a context of the kernel. *)
Lemma SetErrno_context ctx e :
  context_SetErrno (NewContext ctx kernel_debugger) (Errno_val e) = SetErrno e.
Proof. done. Qed.

(** The arms of [armIntr] and [arm64Intr], which differ in their registers.
    [ld] is the result of the type assertion on [ctx.Debugger()]. *)
Definition handle_intr (ld : option LinuxDebugger) (nr_reg : Reg) (arg_regs : list Reg)
    (ret_reg : Reg) (ctx : Ctx) (intno : Z) : prog World HookResult :=
  if negb (intno =? ARM_INTR_EXCP_SWI) then Ret HookResult_Next
  else
    let! nr := hget (fun h => RegRead h ctx nr_reg) in
    match nr with
    | inr _ => Ret HookResult_Next
    | inl nr =>
        let! args := hget (fun h => RegReadBatch h ctx arg_regs) in
        match args with
        | inr _ => Ret HookResult_Next
        | inl args =>
            match ld with
            | None => Panic PanicTypeAssert
            | Some dbg =>
                match ld_Get dbg (ld_NR dbg nr) with
                | None => Ret HookResult_Next
                | Some call =>
                    ld_SetErrno dbg 0 ;;;
                    let! r := call (cx_Context (NewContext ctx dbg)) args in
                    let! _ := hdo (fun h => RegWrite h ctx ret_reg r) in
                    Ret HookResult_Done
                end
            end
        end
    end.

Definition armIntr (ld : option LinuxDebugger) : Ctx -> Z -> prog World HookResult :=
  handle_intr ld ARM_REG_R7
    [ARM_REG_R0; ARM_REG_R1; ARM_REG_R2; ARM_REG_R3; ARM_REG_R4; ARM_REG_R5] ARM_REG_R0.

Definition arm64Intr (ld : option LinuxDebugger) : Ctx -> Z -> prog World HookResult :=
  handle_intr ld ARM64_REG_X8
    [ARM64_REG_X0; ARM64_REG_X1; ARM64_REG_X2; ARM64_REG_X3; ARM64_REG_X4; ARM64_REG_X5]
    ARM64_REG_X0.

(** The handler an architecture gets; [None] is [errors.ErrUnsupported]. *)
Definition intr_of (a : Arch) : option (option LinuxDebugger -> Ctx -> Z -> prog World HookResult) :=
  match a with
  | ARCH_ARM => Some armIntr
  | ARCH_ARM64 => Some arm64Intr
  | _ => None
  end.

(** [NewKernel]: the hook is installed before the tables are made. *)
Definition NewKernel : prog World (Hook + error) :=
  let! a := hget dbg_Arch in
  match intr_of a with
  | None => Ret (inr ErrUnsupported)
  | Some _ =>
      let! hook := hdo AddHook_INTR in
      match hook with
      | inr err => Ret (inr err)
      | inl hook => Syscall.ctor ;;; Ret (inl hook)
      end
  end.

Definition Close (hook : Hook) : prog World unit :=
  let! _ := hdo (fun h => hook_Close h hook) in
  Syscall.Close.

End kernel.
End Kernel.
