(* ===== verification/SimKernel.v ===== *)
(** * A kernel on the concrete debugger

    The states the examples and witnesses start from.  Their results are read
    through [value_of] and [world_of], so that evaluation never has to print a
    whole state. *)

From stdpp Require Import base list gmap numbers.
From S2P Require Import Prelude GoProg GoSpec GoRuntime Structs Host SimHost World WorldSpec.
From S2P Require Import Syscall.
Local Open Scope Z_scope.

(** The kernel on a concrete host, just constructed. *)
Definition sim_boot (h : sim) : World (D := SimDebugger) := Syscall.booted (D := SimDebugger) h.

Definition sim_world : World (D := SimDebugger) := sim_boot sim0.

Lemma sim_boot_ready h : ready (sim_boot h).
Proof. apply Syscall.booted_ready. Qed.

Lemma sim_ready : ready sim_world.
Proof. apply sim_boot_ready. Qed.
