(* ===== verification/Typing.v ===== *)
(** * The kernel's state is well typed

    The model keeps Go's integers as [Z].  [well_typed] says that what the
    kernel stores is in the range of the types the source declares: flags are
    [int32], futex addresses [emuptr] and bit masks [uint32] with [int] counts,
    the signal mask is a [sigset_t], signals are [int32], the errno is one of
    the constants or zero.  Every handler keeps it and returns a register. *)

From stdpp Require Import base list gmap numbers strings.
From S2P Require Import Prelude CTypes GoProg GoSpec LinuxABI GoRuntime Structs Host SimHost World.
From S2P Require Import GoIO WorldSpec Fcntl Stat Signal Futex Mman Socket Sched Misc.
From S2P Require Import Syscall SimKernel.
Local Open Scope Z_scope.
Local Open Scope go_scope.

(** The host hands out values of the types it declares. *)
Class HostTypes `{Debugger} : Prop := {
  sigset_type h a : is_u64 (MemExtract h a ShSigset 0).1;
  MemMap_type h a n p : is_u64 a -> match (MemMap h a n p).2 with inl r => is_u64 r | inr _ => True end;
  MapAlloc_type h n p : match (MapAlloc h n p).2 with inl r => is_u64 r | inr _ => True end
}.

Create HintDb typing.

Section typing.
Context {D : Debugger}.

Record well_typed (w : World) : Prop := {
  wt_flags fd v : nmap_get (fc_flags (w_fcntl w)) fd = Some v -> has_type Gint32 v;
  wt_awaits key a : nmap_get (fx_awaits (w_futex w)) key = Some a ->
    has_type emuptr key /\ has_type Gint64 (aw_ref a);
  wt_bitAwaits key a : nmap_get (fx_bitAwaits (w_futex w)) key = Some a ->
    has_type Guint32 key /\ has_type Gint64 (aw_ref a);
  wt_mask : has_type ulong_t (sg_set (w_signal w));
  wt_table sig a : nmap_get (sg_table (w_signal w)) sig = Some a -> has_type Gint32 sig;
  wt_errno : w_err w = 0 \/ exists e : Errno, w_err w = Errno_val e
}.

#[export] Instance well_typed_untouched : Untouched well_typed.
Proof. split; intros x w []; by split. Qed.

Lemma wt_act {A X} (f : World -> option (World * X)) (k : X -> prog World A) (T : X -> Prop) :
  (forall w w' x, well_typed w -> f w = Some (w', x) -> well_typed w' /\ T x) ->
  (forall x, T x -> keeps well_typed (k x)) -> keeps well_typed (Act f k).
Proof.
  intros Hf Hk. apply (spec_act _ _ _ (fun x w => well_typed w /\ T x)).
  - intros w Hw. destruct (f w) as [[w' x]|] eqn:E; [by eapply Hf|done].
  - intros x n w [Hw HT]. by apply Hk.
Qed.

Lemma wt_set_rw l m w : well_typed w -> well_typed (set_rw l m w).
Proof. intros []. by destruct l; split. Qed.

Lemma wt_acquire acq l : keeps well_typed (acquire acq l).
Proof.
  apply keeps_act; [|intros; apply keeps_ret]. intros w w' x Hw E.
  destruct (acq _); simplify_eq. by apply wt_set_rw.
Qed.
Lemma wt_release rel l : keeps well_typed (release rel l).
Proof.
  apply keeps_act; [|intros []; auto using keeps_ret, keeps_panic]. intros w w' x Hw E.
  destruct (rel _); simplify_eq; [by apply wt_set_rw|done].
Qed.
Lemma wt_Lock l : keeps well_typed (Lock l).
Proof. apply wt_acquire. Qed.
Lemma wt_RLock l : keeps well_typed (RLock l).
Proof. apply wt_acquire. Qed.
Lemma wt_Unlock l : keeps well_typed (Unlock l).
Proof. apply wt_release. Qed.
Lemma wt_RUnlock l : keeps well_typed (RUnlock l).
Proof. apply wt_release. Qed.

Lemma wt_SetErrno e : keeps well_typed (SetErrno e).
Proof.
  apply keeps_act; [|intros; apply keeps_ret]. intros w w' x [] E. simplify_eq.
  split; cbn; try done. right. by exists e.
Qed.
Lemma wt_fail e : keeps well_typed (fail e).
Proof. apply keeps_bind; [apply wt_SetErrno|]. intros; apply keeps_ret. Qed.

(** ** The tables *)

Lemma wt_flags_get {A} fd (k : Z -> prog World A) :
  (forall v, has_type Gint32 v -> keeps well_typed (k v)) ->
  keeps well_typed (bind (Fcntl.flags_get fd) k).
Proof.
  apply wt_act. intros w w' x Hw E. simplify_eq. split; [done|]. unfold Fcntl.flag_of.
  destruct (nmap_get _ fd) as [v|] eqn:Ev; cbn; [by apply (wt_flags _ Hw fd)|]. done.
Qed.
Lemma wt_flags_put fd v : has_type Gint32 v -> keeps well_typed (Fcntl.flags_put fd v).
Proof.
  intros Hv. apply keeps_act; [|intros []; auto using keeps_ret, keeps_panic].
  intros w w' x [Hf] E. destruct (fc_flags _) as [m|] eqn:Em; simplify_eq; split; cbn; try done;
    rewrite ?Em; try done.
  intros fd' v'. destruct (decide (fd = fd')) as [->|Hne].
  - rewrite lookup_insert_eq. by intros [= <-].
  - rewrite lookup_insert_ne by done. apply Hf.
Qed.
Lemma wt_flags_delete fd : keeps well_typed (Fcntl.flags_delete fd).
Proof.
  apply keeps_act; [|intros; apply keeps_ret].
  intros w w' x Hw E. destruct (fc_flags _) as [m|] eqn:Em; simplify_eq; [|done].
  destruct Hw as [Hf]. split; cbn; try done. intros fd' v' H.
  apply lookup_delete_Some in H as [_ H]. apply (Hf fd'). by rewrite Em.
Qed.
Lemma wt_table_get s : keeps well_typed (Signal.table_get s).
Proof. apply keeps_act; [by intros; simplify_eq|]. intros; apply keeps_ret. Qed.
Lemma wt_table_put s a : has_type Gint32 s -> keeps well_typed (Signal.table_put s a).
Proof.
  intros Hs. apply keeps_act; [|intros []; auto using keeps_ret, keeps_panic].
  intros w w' x [? ? ? ? Ht] E. destruct (sg_table _) as [m|] eqn:Em; simplify_eq; split; cbn; try done;
    rewrite ?Em; try done.
  intros s' a'. destruct (decide (s = s')) as [->|Hne]; [done|].
  rewrite lookup_insert_ne by done. apply Ht.
Qed.
Lemma wt_set_get {A} (k : Z -> prog World A) :
  (forall v, has_type ulong_t v -> keeps well_typed (k v)) -> keeps well_typed (bind Signal.set_get k).
Proof. apply wt_act. intros w w' x Hw E. simplify_eq. split; [done|apply (wt_mask _ Hw)]. Qed.
Lemma wt_set_put v : has_type ulong_t v -> keeps well_typed (Signal.set_put v).
Proof.
  intros Hv. apply keeps_act; [|intros; apply keeps_ret]. intros w w' x [] E. simplify_eq.
  by split.
Qed.

(** A key of a futex table. *)
Definition key_type (t : Futex.table) : gotype :=
  match t with Futex.Awaits => emuptr | Futex.BitAwaits => Guint32 end.

Lemma wt_lookup t key : keeps well_typed (Futex.lookup_await t key).
Proof. apply keeps_act; [by intros; simplify_eq|]. intros; apply keeps_ret. Qed.
Lemma wt_store t key ch ref :
  has_type (key_type t) key -> has_type Gint64 ref ->
  keeps well_typed (Futex.store_await t key (Await ch ref)).
Proof.
  intros Hk Hr. apply keeps_act; [|intros []; auto using keeps_ret, keeps_panic].
  intros w w' x [? Ha Hb] E. destruct (Futex.get_table _ _) as [m|] eqn:Em; simplify_eq; [|by split].
  destruct t; cbn in Em; split; cbn; try done; intros key' a';
    (destruct (decide (key = key')) as [->|Hne];
     [rewrite lookup_insert_eq; by intros [= <-]
     |rewrite lookup_insert_ne by done; rewrite Em in *; by auto]).
Qed.
Lemma wt_delete t key : keeps well_typed (Futex.delete_await t key).
Proof.
  apply keeps_act; [|intros; apply keeps_ret]. intros w w' x [? Ha Hb] E.
  destruct (Futex.get_table _ _) as [m|] eqn:Em; simplify_eq; [|by split].
  destruct t; cbn in Em; split; cbn; try done; intros key' a' H;
    apply lookup_delete_Some in H as [_ H]; rewrite Em in *; by auto.
Qed.
Lemma wt_range t : keeps well_typed (Futex.range_table t).
Proof.
  apply keeps_act; [|intros; apply keeps_ret]. intros w w' x Hw E. cbv zeta in E. simplify_eq.
  by apply untouched_host.
Qed.
Lemma wt_wait_done t : keeps well_typed (Sched.wait_done t).
Proof.
  apply keeps_act; [|intros; apply keeps_ret]. intros w w' x Hw E.
  by destruct (task_Done _ _); simplify_eq.
Qed.
Lemma wt_tasks_Store p t : keeps well_typed (Sched.tasks_Store p t).
Proof. apply keeps_act; [intros; simplify_eq; by apply untouched_sched|]. intros; apply keeps_ret. Qed.
Lemma wt_spawn_reaper p t : keeps well_typed (Sched.spawn_reaper p t).
Proof. apply keeps_act; [intros; simplify_eq; by apply untouched_sched|]. intros; apply keeps_ret. Qed.

Lemma wt_sigset `{!HostTypes} {A} a (k : Z * option error -> prog World A) :
  (forall v e, has_type ulong_t v -> keeps well_typed (k (v, e))) ->
  keeps well_typed (bind (hget (fun h => MemExtract h a ShSigset 0)) k).
Proof.
  intros Hk. apply (wt_act _ _ (fun p => has_type ulong_t p.1)).
  - intros w w' x Hw E. simplify_eq. split; [done|apply sigset_type].
  - intros [v e] Hv. by apply Hk.
Qed.

End typing.

#[export] Hint Resolve keeps_ret keeps_panic keeps_hget keeps_hdo keeps_hwait keeps_rtdo keeps_select keeps_send
  keeps_CopyN keeps_Copy keeps_ReadFull keeps_raw_file keeps_raw_rand
  wt_Lock wt_RLock wt_Unlock wt_RUnlock wt_SetErrno wt_fail wt_flags_put wt_flags_delete
  wt_table_get wt_table_put wt_set_put wt_lookup wt_store wt_delete wt_range wt_wait_done
  wt_tasks_Store wt_spawn_reaper is_u64_lor is_u64_and_not is_i32_lor
  uint64_range uint32_range int32_range int64_range : typing.

Ltac wt_step :=
  match goal with
  | |- keeps _ (match ?x with _ => _ end) => destruct x
  | |- keeps _ (bind (Fcntl.flags_get _) _) => apply wt_flags_get; intros ? ?
  | |- keeps _ (bind Signal.set_get _) => apply wt_set_get; intros ? ?
  | |- keeps _ (bind (hget (fun h => MemExtract h _ ShSigset 0)) _) => apply wt_sigset; intros ? ? ?
  | |- keeps _ (bind _ _) => apply keeps_bind; [|intros ?]
  | |- keeps _ (with_defer _ _) => apply keeps_defer
  | |- keeps _ (Iter _ _ _) => apply keeps_iter; [intros ?|intros ?]
  end.
Ltac wt_solve :=
  repeat first [ solve [eauto with typing typeclass_instances] | wt_step | progress cbv zeta ].

Section handlers.
Context {D : Debugger} `{!HostTypes}.

Lemma wt_store_flags fd v : has_type Gint32 v -> keeps well_typed (Fcntl.store_flags fd v).
Proof. intros. unfold Fcntl.store_flags. wt_solve. Qed.
Lemma wt_path f k : (forall p, keeps well_typed (k p)) -> keeps well_typed (Fcntl.with_path f k).
Proof. intros. unfold Fcntl.with_path. wt_solve. Qed.
Lemma wt_dir {X} as_dir (cwd : prog World X) dfd k :
  keeps well_typed cwd -> (forall d, keeps well_typed (k d)) ->
  keeps well_typed (Fcntl.with_dir as_dir cwd dfd k).
Proof. intros. unfold Fcntl.with_dir. wt_solve. Qed.
Lemma wt_writev_loop f arr : forall n, keeps well_typed (Fcntl.writev_loop f arr n).
Proof. induction arr; intros; cbn [Fcntl.writev_loop]; wt_solve. Qed.
Lemma one_type : has_type Gint64 1.
Proof. done. Qed.
Lemma int64_type x : has_type Gint64 (int64 x).
Proof. apply int64_range. Qed.
Lemma int32_type x : has_type Gint32 (int32 x).
Proof. apply int32_range. Qed.
Lemma cloexec_type v : has_type Gint32 v -> has_type Gint32 (Z.lor v Fcntl.O_CLOEXEC).
Proof. intros Hv. by apply is_i32_lor. Qed.
Lemma mask_or_type x y : has_type ulong_t x -> has_type ulong_t y -> has_type ulong_t (Z.lor x y).
Proof. apply is_u64_lor. Qed.
Lemma mask_minus_type x y : has_type ulong_t x -> has_type ulong_t (and_not x y).
Proof. apply is_u64_and_not. Qed.
#[local] Hint Resolve one_type int64_type int32_type cloexec_type mask_or_type mask_minus_type : typing.
Lemma wt_add_ref t key : has_type (key_type t) key -> keeps well_typed (Futex.add_ref t key).
Proof. intros. unfold Futex.add_ref. wt_solve. Qed.
Lemma wt_del_ref t key : has_type (key_type t) key -> keeps well_typed (Futex.del_ref t key).
Proof. intros. unfold Futex.del_ref. wt_solve. Qed.
Lemma wt_wake_bits v3 count bits : forall i, keeps well_typed (Futex.wake_bits bits v3 count i).
Proof.
  induction bits as [|bit bits IH]; intros i; cbn [Futex.wake_bits]; unfold Futex.wake_bit_turn; wt_solve.
Qed.
#[local] Hint Resolve wt_store_flags wt_writev_loop wt_wake_bits : typing.

Lemma wt_add_addr u : is_u64 u -> keeps well_typed (Futex.add_ref Futex.Awaits u).
Proof. apply (wt_add_ref Futex.Awaits). Qed.
Lemma wt_del_addr u : is_u64 u -> keeps well_typed (Futex.del_ref Futex.Awaits u).
Proof. apply (wt_del_ref Futex.Awaits). Qed.
Lemma wt_add_bit b : is_u32 b -> keeps well_typed (Futex.add_ref Futex.BitAwaits b).
Proof. apply (wt_add_ref Futex.BitAwaits). Qed.
Lemma wt_del_bit b : is_u32 b -> keeps well_typed (Futex.del_ref Futex.BitAwaits b).
Proof. apply (wt_del_ref Futex.BitAwaits). Qed.
#[local] Hint Resolve wt_add_addr wt_del_addr wt_add_bit wt_del_bit : typing.

Lemma wt_futex tid u op v t u2 v3 :
  is_u64 u -> is_u32 v3 -> keeps well_typed (Futex.futex tid u op v t u2 v3).
Proof.
  intros Hu Hv. unfold Futex.futex, Futex.futex_wait, Futex.futex_wake, Futex.futex_wait_bitset,
    Futex.futex_wake_bitset, Futex.wait_prepare, Futex.addAwait, Futex.delAwait,
    Futex.addBitAwait, Futex.delBitAwait, Futex.getAwait, Futex.wait_turn, Futex.wait_case, Futex.wait_bitset_turn, Futex.wait_bitset_case,
    Futex.wake_turn, Futex.read_u32.
  wt_solve.
Qed.
#[local] Hint Resolve wt_futex : typing.

(** Unfold the methods of the components down to their actions. *)
Ltac unfold_methods :=
  unfold Fcntl.dup3, Fcntl.fcntl, Fcntl.faccessat, Fcntl.open, Fcntl.openat, Fcntl.finish_open,
    Fcntl.close, Fcntl.pipe2, Fcntl.lseek, Fcntl.read, Fcntl.write, Fcntl.writev,
    Fcntl.readlinkat, Stat.fstatat3264, Stat.fstatat64, Stat.fstat3264, Stat.fstat64,
    Signal.rt_sigaction, Signal.rt_sigprocmask, Signal.sigprocmask_set, Signal.rt_tgsigqueueinfo,
    Mman.munmap, Mman.mmap, Mman.skip_to, Mman.map_region, Mman.map_fail, Mman.mprotect,
    Socket.socket, Sched.clone, Sched.set_entry, Sched.set_tls, Sched.run_child,
    Sched.clone_abort, Misc.clock_gettime, Misc.gettimeofday, Misc.getrandom, Misc.prctl,
    Misc.getpid, Misc.getrlimit, Misc.ioctl, Misc.sysinfo, Misc.or_EINVAL.

Lemma wt_arg {A} args i (k : Z -> prog World A) :
  Forall is_u64 args -> (forall a, is_u64 a -> keeps well_typed (k a)) ->
  keeps well_typed (bind (Syscall.arg args i) k).
Proof.
  intros Ha Hk. unfold Syscall.arg. destruct (args !! i) as [a|] eqn:E; [|apply keeps_panic].
  apply Hk. by eapply Forall_lookup_1.
Qed.

Lemma handlers_typed ctx args :
  Forall is_u64 args ->
  Forall (fun h : Syscall.handler => keeps well_typed (h ctx args)) (Syscall.syscall_cases.*2).
Proof.
  intros Hargs.
  Syscall.each_handler ltac:(Syscall.unfold_handler; unfold Syscall.as_u64; unfold_methods;
    repeat first [ apply wt_arg; [done|intros ? ?] | apply wt_path; intros ?
                 | apply wt_dir; [|intros ?] | solve [eauto with typing typeclass_instances]
                 | wt_step | progress cbv zeta ]).
Qed.

(** ** Results *)

Definition returns_u64 (m : prog World Z) : Prop :=
  yields (fun _ => True) m (fun r _ => is_u64 r).

Lemma ret_u64 r : is_u64 r -> returns_u64 (Ret r).
Proof. intros Hr. by apply yields_ret. Qed.
Lemma bind_u64 {A} (m : prog World A) k :
  (forall a, returns_u64 (k a)) -> returns_u64 (bind m k).
Proof.
  intros Hk. eapply (yields_bind _ _ _ (fun _ _ => True)); [|apply Hk].
  intros n w _. by destruct (run n m w).
Qed.
Lemma as_u64_u64 m : returns_u64 (Syscall.as_u64 m).
Proof. apply bind_u64. intros r. apply ret_u64, uint64_range. Qed.
Lemma arg_u64 args i k :
  Forall is_u64 args -> (forall a, is_u64 a -> returns_u64 (k a)) ->
  returns_u64 (bind (Syscall.arg args i) k).
Proof.
  intros Ha Hk. unfold Syscall.arg. destruct (args !! i) as [a|] eqn:E; [|apply yields_panic].
  apply Hk. by eapply Forall_lookup_1.
Qed.

Lemma map_fail_u64 e : returns_u64 (Mman.map_fail e).
Proof. apply bind_u64. intros _. by apply ret_u64. Qed.

Lemma map_region_u64 addr len prot flags f :
  is_u64 addr -> returns_u64 (Mman.map_region addr len prot flags f).
Proof.
  intros Ha. unfold Mman.map_region.
  eapply (yields_bind _ _ _ (fun r _ => match r with inl a => is_u64 a | inr _ => True end)).
  - destruct (has_bits flags Mman.MAP_FIXED); intros n w _; cbn; [by apply MemMap_type|apply MapAlloc_type].
  - intros [a|e]; [|eapply spec_weaken; [apply map_fail_u64|done..]].
    destruct f as [f|]; [|by apply yields_ret]. intros n w Hr.
    revert n w Hr. apply (yields_bind _ _ _ (fun _ _ => is_u64 a)).
    + intros n w Hr. by destruct (run n _ w).
    + intros [c [e|]]; [|by apply yields_ret].
      eapply spec_weaken; [apply (bind_u64 (hdo (fun h => MapFree h a len)) (fun _ => Mman.map_fail ENODEV)
        (fun _ => map_fail_u64 _))|done..].
Qed.

Lemma mmap_u64 addr len prot flags fd off :
  is_u64 addr -> returns_u64 (Mman.mmap addr len prot flags fd off).
Proof.
  intros Ha. unfold Mman.mmap. destruct (_ && _); [|by apply map_region_u64].
  apply bind_u64. intros [f|e]; [|apply map_fail_u64]. destruct (negb _); [apply map_fail_u64|].
  destruct (negb _); [|by apply map_region_u64].
  apply bind_u64. intros [e|]; [apply map_fail_u64|by apply map_region_u64].
Qed.

Lemma handlers_return_u64 ctx args :
  Forall is_u64 args ->
  Forall (fun h : Syscall.handler => returns_u64 (h ctx args)) (Syscall.syscall_cases.*2).
Proof.
  intros Hargs.
  Syscall.each_handler ltac:(Syscall.unfold_handler;
    repeat first [ apply arg_u64; [done|intros ? ?] | apply as_u64_u64 | by apply mmap_u64
                 | by apply ret_u64 | apply yields_panic | apply bind_u64; intros [] ]).
Qed.

(** Every value stays within its Go type: a handler given 64-bit registers
    returns a 64-bit register, and when it returns, panics or blocks the
    stored flags are int32, the futex tables are keyed by 64-bit addresses
    and 32-bit masks with int counts, the signal mask is a 64-bit set,
    actions are stored under int32 signals and the errno is a declared value
    or 0. *)
Theorem syscall_well_typed n nr call ctx args w :
  Syscall.Get nr = Some call -> Forall is_u64 args -> well_typed w ->
  match run n (call ctx args) w with
  | Returned r w' => is_u64 r /\ well_typed w'
  | Panicked _ w' | Blocked _ w' => well_typed w'
  | Unfinished _ _ => True
  end.
Proof.
  intros Hg Ha Hw.
  pose proof (Syscall.Get_forall (fun h => keeps well_typed (h ctx args)) nr call
    (handlers_typed ctx args Ha) Hg n w Hw) as H1.
  pose proof (Syscall.Get_forall (fun h => returns_u64 (h ctx args)) nr call
    (handlers_return_u64 ctx args Ha) Hg n w I) as H2.
  by destruct (run n (call ctx args) w).
Qed.

End handlers.

(** ** Witness *)

#[export] Instance sim_types : HostTypes (H := SimDebugger).
Proof.
  split; cbn.
  - intros h a. destruct (sim_find_cell _ _ _); cbn; [apply uint64_range|done].
  - done.
  - intros h n p. by destruct (n =? 0).
Qed.

Lemma sim_well_typed h : well_typed (sim_boot h).
Proof. split; cbn; try done. by left. Qed.

Lemma syscall_well_typed_witness :
  match run 0 (Syscall.Emulate_open (D := SimDebugger) 7 [0x1000; 0xffffffff; 0]) sim_world with
  | Returned r w' => is_u64 r /\ well_typed w'
  | Panicked _ w' | Blocked _ w' => well_typed w'
  | Unfinished _ _ => True
  end.
Proof.
  apply (syscall_well_typed (D := SimDebugger) 0 (NR_val NR_open) Syscall.Emulate_open 7
    [0x1000; 0xffffffff; 0] sim_world eq_refl); [by repeat constructor|apply sim_well_typed].
Defined.
