(* ===== verification/KernelProps.v ===== *)
(** * The kernel: theorems

    What holds of every syscall whatever its number and arguments: it leaves the
    locks free and the tables made, and it reports an errno only together with
    -1.  Then the
    interrupt hooks, which connect the guest's registers to the table, and the
    invariant of every state a kernel reaches. *)

From stdpp Require Import base list gmap numbers strings.
From S2P Require Import Prelude GoProg GoSpec LinuxABI GoRuntime Structs Host SimHost World GoIO.
From S2P Require Import WorldSpec ErrnoContract Misc Syscall Kernel SimKernel.
Local Open Scope Z_scope.
Local Open Scope go_scope.
Import Syscall Kernel.

Section kernelprops.
Context {D : Debugger}.

(** ** Every syscall *)

(** A handler that Get returns, started with the locks free and the tables
    made, leaves them so when it returns, when it panics and when it blocks:
    no syscall leaves or waits with a kernel lock held. *)
Theorem syscall_keeps_ready n nr call ctx args w :
  Get nr = Some call -> ready w ->
  match run n (call ctx args) w with
  | Returned _ w' | Panicked _ w' | Blocked _ w' => ready w'
  | Unfinished _ _ => True
  end.
Proof.
  intros Hg Hw. pose proof (Get_forall (fun h => keeps ready (h ctx args)) nr call
    (handlers_keep_ready ctx args) Hg n w Hw) as H.
  by destruct (run n (call ctx args) w).
Qed.

(** C3: A syscall that started with the errno clear and returns with it set
    returns the all-ones register. *)
Theorem syscall_errno n nr call ctx args w r w' :
  Get nr = Some call -> w_err w = 0 ->
  run n (call ctx args) w = Returned r w' -> w_err w' <> 0 -> r = MaxUint64.
Proof.
  intros Hg Hw Hr He. pose proof (Get_forall (fun h => reports MaxUint64 (h ctx args)) nr call
    (handlers_report ctx args) Hg) as H.
  by destruct (yields_elim _ _ _ n w r w' H Hw Hr) as [|].
Qed.

(** ** The hooks *)

(** The registers a hook reads and writes. *)
Record intr_regs := IntrRegs { ir_nr : Reg; ir_args : list Reg; ir_ret : Reg }.

Definition regs_of (a : Arch) : option intr_regs :=
  match a with
  | ARCH_ARM => Some (IntrRegs ARM_REG_R7
      [ARM_REG_R0; ARM_REG_R1; ARM_REG_R2; ARM_REG_R3; ARM_REG_R4; ARM_REG_R5] ARM_REG_R0)
  | ARCH_ARM64 => Some (IntrRegs ARM64_REG_X8
      [ARM64_REG_X0; ARM64_REG_X1; ARM64_REG_X2; ARM64_REG_X3; ARM64_REG_X4; ARM64_REG_X5]
      ARM64_REG_X0)
  | _ => None
  end.

Lemma intr_of_regs a hook : intr_of a = Some hook -> exists g,
  regs_of a = Some g /\
  hook = fun ld => handle_intr ld (ir_nr g) (ir_args g) (ir_ret g).
Proof. destruct a; intros [= <-]; by eexists. Qed.

(** The syscall the registers ask for. *)
Definition requested (a : Arch) (ctx : Ctx) (h : Host) : option (handler * list Z) :=
  match regs_of a with
  | None => None
  | Some g =>
      match RegRead h ctx (ir_nr g), RegReadBatch h ctx (ir_args g) with
      | inl nr, inl args => (fun call => (call, args)) <$> Get (kernel_NR nr)
      | _, _ => None
      end
  end.

(** A hook, as one equation over the run of the handler it finds. *)
Lemma run_hook n a hook ctx w :
  intr_of a = Some hook ->
  run n (hook (Some kernel_debugger) ctx ARM_INTR_EXCP_SWI) w =
  match requested a ctx (w_host w) with
  | None => Returned HookResult_Next w
  | Some (call, args) =>
      then_run n (fun r => let! _ := hdo (fun h => RegWrite h ctx
                             match regs_of a with Some g => ir_ret g | None => RegOther 0 end r) in
                           Ret HookResult_Done)
        (run n (call ctx args) (set_err 0 w))
  end.
Proof.
  intros Ha. destruct (intr_of_regs _ _ Ha) as (g & Hg & ->). unfold requested. rewrite Hg.
  unfold handle_intr. rewrite Z.eqb_refl. cbn [negb]. rewrite run_hget.
  destruct (RegRead _ _ _) as [nr|e]; [|done]. rewrite run_hget.
  destruct (RegReadBatch _ _ _) as [args|e]; [|done]. cbn [ld_Get ld_NR ld_SetErrno kernel_debugger cx_Context NewContext].
  destruct (Get (kernel_NR nr)) as [call|]; [|done]. cbn [fmap option_fmap option_map].
  unfold Errno_set. cbn [bind]. rewrite run_act, run_bind. done.
Qed.

(** C2: The interrupt hook of ARM and ARM64 for a software interrupt: with a
    number that is not in the table it passes on and changes nothing;
    otherwise the outcome is that of the handler run on the argument
    registers with the errno cleared, its result in the result register, and
    an errno is set only together with the result -1. *)
Theorem hook_delivers_result n a hook ctx w :
  intr_of a = Some hook -> ready w ->
  let o := run n (hook (Some kernel_debugger) ctx ARM_INTR_EXCP_SWI) w in
  match requested a ctx (w_host w) with
  | None => o = Returned HookResult_Next w
  | Some (call, args) =>
      match run n (call ctx args) (set_err 0 w) with
      | Returned v w1 => exists g, regs_of a = Some g /\
          let w' := set_host (RegWrite (w_host w1) ctx (ir_ret g) v).1 w1 in
          o = Returned HookResult_Done w' /\ ready w' /\ (w_err w' <> 0 -> v = MaxUint64)
      | Panicked p w1 => o = Panicked p w1 /\ ready w1
      | Blocked _ w1 => (exists m, o = Blocked m w1) /\ ready w1
      | Unfinished _ w1 => exists m, o = Unfinished m w1
      end
  end.
Proof.
  intros Ha Hw o. unfold o. rewrite (run_hook _ _ _ _ _ Ha).
  destruct (requested a ctx (w_host w)) as [[call args]|] eqn:Eq; [|done].
  unfold requested in Eq. destruct (regs_of a) as [g|] eqn:Eg; [|done].
  destruct (RegRead _ _ _) as [nr|e]; [|done]. destruct (RegReadBatch _ _ _) as [args'|e]; [|done].
  destruct (Get (kernel_NR nr)) as [call'|] eqn:Ec; [|done]. cbn in Eq. simplify_eq.
  pose proof (Get_forall (fun h => keeps ready (h ctx args)) _ call
    (handlers_keep_ready ctx args) Ec n _ (ready_set_err 0 w Hw)) as HK.
  pose proof (Get_forall (fun h => reports MaxUint64 (h ctx args)) _ call
    (handlers_report ctx args) Ec n (set_err 0 w) eq_refl) as HE.
  destruct (run n (call ctx args) (set_err 0 w)) as [v w1|p w1|m w1|m w1]; cbn [then_run];
    [|by eauto..].
  exists g. split; [done|]. split; [done|]. split; [by apply untouched_host|].
  intros Hne. by destruct HE as [|].
Qed.

(** ** Construction *)

Lemma run_NewKernel n h :
  run n NewKernel (new_world h) =
  match dbg_Arch h with
  | ARCH_ARM | ARCH_ARM64 =>
      match AddHook_INTR h with
      | (h', inl hook) => Returned (inl hook) (booted h')
      | (h', inr err) => Returned (inr err) (new_world h')
      end
  | _ => Returned (inr ErrUnsupported) (new_world h)
  end.
Proof.
  unfold NewKernel. rewrite run_hget. cbn [w_host new_world].
  destruct (dbg_Arch h); try done; cbn [intr_of]; rewrite run_hdo; cbn [w_host new_world];
    destruct (AddHook_INTR h) as [h' [hook|e]]; cbn [fst snd]; try done; apply run_ctor.
Qed.

(** NewKernel succeeds for ARM and ARM64 when the hook can be installed, with
    the tables made and the errno clear; otherwise it returns the hook's
    error, or ErrUnsupported with nothing changed. *)
Theorem NewKernel_supports_arm n h :
  match run n NewKernel (new_world h) with
  | Returned (inl hook) w =>
      (dbg_Arch h = ARCH_ARM \/ dbg_Arch h = ARCH_ARM64) /\ ready w /\ w_err w = 0 /\
      AddHook_INTR h = (w_host w, inl hook)
  | Returned (inr err) w =>
      (dbg_Arch h = ARCH_ARM \/ dbg_Arch h = ARCH_ARM64 -> (AddHook_INTR h).2 = inr err) /\
      (~ (dbg_Arch h = ARCH_ARM \/ dbg_Arch h = ARCH_ARM64) -> err = ErrUnsupported /\ w = new_world h)
  | _ => False
  end.
Proof.
  rewrite run_NewKernel. destruct (dbg_Arch h), (AddHook_INTR h) as [h' [hook|e]];
    split; try (intros [|]; done); try done;
    first [by left | by right | intros []; auto | split; [apply booted_ready|done]].
Qed.

(** ** Reachable states

    A kernel is constructed, its hook serves interrupts of any context one after
    the other, and between them the guest runs: anything outside the kernel may
    change.  A panic of a handler may be recovered by the embedder, and a handler
    that blocks leaves its task asleep while the others go on. *)
Inductive reachable : World -> Prop :=
| reach_new n h hook w :
    run n NewKernel (new_world h) = Returned (inl hook) w -> reachable w
| reach_guest w h rt :
    reachable w -> reachable (set_rt rt (set_host h w))
| reach_intr n w a hook ctx intno r w' :
    reachable w -> intr_of a = Some hook ->
    run n (hook (Some kernel_debugger) ctx intno) w = Returned r w' -> reachable w'
| reach_panic n w a hook ctx intno p w' :
    reachable w -> intr_of a = Some hook ->
    run n (hook (Some kernel_debugger) ctx intno) w = Panicked p w' -> reachable w'
| reach_block n w a hook ctx intno m w' :
    reachable w -> intr_of a = Some hook ->
    run n (hook (Some kernel_debugger) ctx intno) w = Blocked m w' -> reachable w'.

Lemma hook_keeps_ready a hook ctx intno :
  intr_of a = Some hook -> keeps ready (hook (Some kernel_debugger) ctx intno).
Proof.
  intros Ha. destruct (intr_of_regs _ _ Ha) as (g & _ & ->). unfold handle_intr.
  cbn [ld_Get ld_NR ld_SetErrno kernel_debugger cx_Context NewContext]. keeps_step; [auto with kernel|].
  keeps_step; [auto with kernel typeclass_instances|]. keeps_step; [|auto with kernel].
  keeps_step; [auto with kernel typeclass_instances|]. keeps_step; [|auto with kernel].
  destruct (Get _) as [call|] eqn:Ec; [|auto with kernel].
  keeps_step.
  - apply keeps_act; [|intros; apply keeps_ret]. intros w w' x Hw E. simplify_eq.
    by apply ready_set_err.
  - keeps_step; [|keeps_solve].
    apply (Get_forall (fun h => keeps ready (h ctx _)) _ _ (handlers_keep_ready ctx _) Ec).
Qed.

(** C1: In every state a kernel reaches (it is constructed, its hook serves
    interrupts of any context with any number and arguments, handlers panic
    and are recovered or block and leave their task asleep, and the guest
    changes anything outside the kernel in between) all three locks are free
    and all four tables are made. *)
Theorem reachable_ready w : reachable w -> ready w.
Proof.
  induction 1 as [n h hook w Hr|w h rt _ IH|n w a hook ctx intno r w' _ IH Ha Hr
                 |n w a hook ctx intno p w' _ IH Ha Hr|n w a hook ctx intno m w' _ IH Ha Hr].
  - rewrite run_NewKernel in Hr.
    destruct (dbg_Arch h), (AddHook_INTR h) as [h' [hk|e]]; simplify_eq; apply booted_ready.
  - by apply untouched_rt, untouched_host.
  - pose proof (hook_keeps_ready a hook ctx intno Ha n w IH) as H. by rewrite Hr in H.
  - pose proof (hook_keeps_ready a hook ctx intno Ha n w IH) as H. by rewrite Hr in H.
  - pose proof (hook_keeps_ready a hook ctx intno Ha n w IH) as H. by rewrite Hr in H.
Qed.

End kernelprops.

(** ** Witnesses *)

(** A guest that asks for [close(5)]: x8 is the number, x0 the descriptor. *)
Definition sim_close_regs : sim :=
  sim_set_regs [(7, ARM64_REG_X8, NR_val NR_close); (7, ARM64_REG_X0, 5)] sim0.

(** [close] of a descriptor that is not open. *)
Definition sim_close_call : handler (D := SimDebugger) := Emulate_close (D := SimDebugger).

Lemma syscall_keeps_ready_witness :
  match run 0 (sim_close_call 7 [5]) sim_world with
  | Returned _ w' | Panicked _ w' | Blocked _ w' => ready w'
  | Unfinished _ _ => True
  end.
Proof. exact (syscall_keeps_ready 0 (NR_val NR_close) sim_close_call 7 [5] sim_world eq_refl sim_ready). Defined.

Lemma syscall_errno_witness :
  value_of (run 0 (sim_close_call 7 [9]) sim_world) = Some MaxUint64 /\
  w_err (world_of (run 0 (sim_close_call 7 [9]) sim_world)) = Errno_val EBADF /\
  MaxUint64 = MaxUint64.
Proof.
  split; [vm_compute; reflexivity|]. split; [vm_compute; reflexivity|].
  apply (syscall_errno 0 (NR_val NR_close) sim_close_call 7 [9] sim_world MaxUint64
    (world_of (run 0 (sim_close_call 7 [9]) sim_world)));
    [reflexivity|reflexivity|reflexivity|vm_compute; discriminate].
Defined.

Lemma hook_delivers_result_witness :
  match requested ARCH_ARM64 7 (sim_close_regs : Host) with
  | None => False
  | Some (call, args) =>
      match run 0 (call 7 args) (set_err 0 (sim_boot sim_close_regs)) with
      | Returned v w1 => exists g, regs_of ARCH_ARM64 = Some g /\
          let w' := set_host (RegWrite (w_host w1) (7 : Ctx) (ir_ret g) v).1 w1 in
          run 0 (arm64Intr (Some kernel_debugger) 7 2) (sim_boot sim_close_regs) =
            Returned HookResult_Done w' /\ ready w' /\ (w_err w' <> 0 -> v = MaxUint64)
      | _ => False
      end
  end.
Proof.
  exact (hook_delivers_result 0 ARCH_ARM64 arm64Intr 7 (sim_boot sim_close_regs) eq_refl
    (sim_boot_ready _)).
Defined.

Lemma reachable_ready_witness :
  exists w, run 0 NewKernel (new_world (D := SimDebugger) sim0) = Returned (inl tt) w /\ ready w.
Proof.
  exists sim_world. split; [reflexivity|]. apply reachable_ready.
  exact (reach_new 0 sim0 tt sim_world eq_refl).
Defined.
