(* ===== verification/ThreadProps.v ===== *)
(** * Concurrent syscalls: theorems

    The tasks of a guest run on goroutines of their own, so handlers interleave
    at every step.  For any number of goroutines and any schedule: the tables
    are free of data races, no goroutine waits for a lock forever, and none
    panics over a lock or a nil map.  What no lock guards is the signal mask;
    the last part has the schedule on which an update of it is lost, and the one
    on which closing the kernel panics a wake. *)

From stdpp Require Import base list gmap numbers strings.
From S2P Require Import Prelude GoProg GoSpec Ghost LinuxABI GoRuntime Structs Host SimHost World GoIO.
From S2P Require Import WorldSpec Threads Fcntl Signal Futex Sched Discipline Misc Mman.
From S2P Require Import Syscall Kernel SimKernel KernelProps.
Local Open Scope Z_scope.
Local Open Scope go_scope.
Import Syscall Kernel Signal Futex.

Section threadprops.
Context {D : Debugger}.

(** ** Every goroutine of the system is disciplined *)

Lemma disc_arg (args : list Z) i : disciplined (arg args i).
Proof. unfold disciplined, arg. disc_solve. Qed.
#[local] Hint Resolve disc_arg : disc.

Lemma handlers_disciplined ctx args :
  Forall (fun h : handler => disciplined (h ctx args)) (syscall_cases.*2).
Proof.
  each_handler ltac:(unfold disciplined; unfold_handler; unfold as_u64;
    repeat first [ solve [eauto with disc] | apply disc_arg | disc_step ]).
Qed.

Lemma Get_disciplined nr call ctx args : Get nr = Some call -> disciplined (call ctx args).
Proof.
  apply (Get_forall (fun h => disciplined (h ctx args)) nr call), handlers_disciplined.
Qed.

(** What runs beside each other: interrupt hooks of any context in [P], the
    reapers [clone] starts, guest code and the host (any step outside the
    kernel), timers, and sequences of these. *)
Inductive goroutine_of (P : Ctx -> Prop) : prog World unit -> Prop :=
| go_intr a hook ld ctx intno :
    P ctx -> intr_of a = Some hook -> ld = None \/ ld = Some kernel_debugger ->
    goroutine_of P (let! _ := hook ld ctx intno in Ret tt)
| go_reap pid task : goroutine_of P (Sched.reap pid task)
| go_host (f : Host -> Host) : goroutine_of P (hdo (fun h => (f h, tt)))
| go_timer i : goroutine_of P (rtdo (fun r => (fire_timer i r, tt)))
| go_then m1 m2 : goroutine_of P m1 -> goroutine_of P m2 -> goroutine_of P (m1 ;;; m2).

Definition goroutine : prog World unit -> Prop := goroutine_of (fun _ => True).

Lemma goroutine_mono (P P' : Ctx -> Prop) m :
  (forall ctx, P ctx -> P' ctx) -> goroutine_of P m -> goroutine_of P' m.
Proof.
  intros HP. induction 1;
    [eapply go_intr; eauto|apply go_reap|apply go_host|apply go_timer|by apply go_then].
Qed.

Lemma disc_Errno_set e h hp : disc (Errno_set e) h hp (fun _ h' => h' = h).
Proof.
  apply disc_neutral; try done.
  - intros w w' x E. simplify_eq. split; by intros [].
  - intros [] w1 w2 Hw; but_inv; cbn; eauto.
Qed.

Lemma hook_disciplined a hook ld ctx intno :
  intr_of a = Some hook -> ld = None \/ ld = Some kernel_debugger ->
  disciplined (hook ld ctx intno).
Proof.
  intros Ha Hld. destruct (intr_of_regs _ _ Ha) as (g & _ & ->).
  unfold disciplined, handle_intr. destruct (negb _); [done|].
  disc_step; [eauto with disc|]. disc_step; [|done]. disc_step; [eauto with disc|].
  disc_step; [|done]. destruct Hld as [-> | ->]; [done|].
  cbn [ld_Get ld_NR ld_SetErrno kernel_debugger cx_Context NewContext].
  destruct (Get _) as [call|] eqn:Ec; [|done]. disc_step.
  - apply disc_Errno_set.
  - disc_step; [by eapply Get_disciplined|]. disc_solve.
Qed.

Lemma goroutine_disciplined m : goroutine m -> disciplined m.
Proof.
  unfold disciplined.
  induction 1 as [a hook ld ctx intno _ Ha Hld|pid task|f|i|m1 m2 _ IH1 _ IH2].
  - disc_step; [by eapply hook_disciplined|done].
  - eauto with disc.
  - apply disc_hdo.
  - apply disc_rtdo.
  - disc_step; [apply IH1|apply IH2].
Qed.

(** ** Any schedule *)

Section schedule.
Context (sch : list nat) (ts ts' : list (prog World unit)) (w w' : World).
Context (Hts : Forall goroutine ts) (Hw : ready w) (Hs : interleave sch ts w = Some (ts', w')).

(** What each goroutine holds at the end of the schedule. *)
Definition held_at_end : list held := owners sch ts (replicate (length ts) None) w.

Lemma schedule_owners :
  pool_guided (@act_ok D) (fun p => misuse p = false) (eq None) ts' held_at_end /\ lock_inv held_at_end w'.
Proof.
  assert (Forall disciplined ts) as Hd by (eapply Forall_impl; [exact Hts|]; apply goroutine_disciplined).
  destruct (pool_none ts w Hd Hw) as [HF Hl]. by apply (pool_owners sch ts ts').
Qed.

Lemma schedule_pool : pool_ok ts' w'.
Proof. exists held_at_end. apply schedule_owners. Qed.

(** C6: No data race on the locked tables: whatever goroutines run (interrupt
    hooks of any contexts, the reapers of clone, timers, the guest and the
    host outside the kernel) and however they are interleaved, if the next
    action of one of them may change the table of a lock, the next action of
    any other neither changes nor reads it. *)
Theorem no_table_race i j m1 m2 l :
  ts' !! i = Some m1 -> ts' !! j = Some m2 -> i <> j ->
  next_preserves l m1 \/ (next_preserves l m2 /\ next_ignores l m2).
Proof.
  intros Hi Hj Hij. destruct schedule_pool as (hs & HF & Hl).
  destruct (Forall2_lookup_l _ _ _ _ _ HF Hi) as (h1 & Hh1 & Hd1%homing_eq).
  destruct (Forall2_lookup_l _ _ _ _ _ HF Hj) as (h2 & Hh2 & Hd2%homing_eq).
  destruct (disc_tables m1 h1 _ _ l Hd1) as [[->|?] _]; [|by left].
  destruct (disc_tables m2 h2 _ _ l Hd2) as [H2 H3].
  assert (forall md, h2 <> Some (l, md)) as Hno.
  { intros md ->. by eapply (lock_excludes hs w' i j l md). }
  right. destruct H2 as [->|?]; [by destruct (Hno Wr)|].
  destruct H3 as [[md ->]|?]; [by destruct (Hno md)|done].
Qed.

(** C8: Under every interleaving a goroutine that waits for a lock waits for
    its holder, and holders are never blocked: following the schedule and
    noting after each step what the goroutine that took it acquired or
    released, the goroutine that waits for the lock holds none itself, some
    goroutine holds it, the states of all locks are exactly those of their
    holders, and every goroutine that holds any lock can move; so the
    kernel's locks cannot deadlock. *)
Theorem no_lock_deadlock i m l :
  ts' !! i = Some m -> step1 m w' = None -> is_Some (step1 m (set_rw l rw_free w')) ->
  let hs := owners sch ts (replicate (length ts) None) w in
  lock_inv hs w' /\ hs !! i = Some None /\ (exists j md, hs !! j = Some (Some (l, md))) /\
  forall j l' md, hs !! j = Some (Some (l', md)) -> exists m2, ts' !! j = Some m2 /\ is_Some (step1 m2 w').
Proof.
  intros Hi Hn Hf hs. destruct schedule_owners as [HF Hl]. unfold held_at_end in HF, Hl.
  fold hs in HF, Hl. clearbody hs.
  split; [done|]. split.
  { destruct (Forall2_lookup_l _ _ _ _ _ HF Hi) as (h & Hh & _).
    by rewrite (pool_holds ts' hs i m h w' HF Hl Hi Hh Hn) in Hh. }
  split.
  { destruct (lock_holder hs w' l Hl) as [E|?]; [|done]. rewrite set_rw_id, Hn in Hf by done. by destruct Hf. }
  intros j l' md Hj. destruct (Forall2_lookup_r _ _ _ _ _ HF Hj) as (m2 & Hm2 & _).
  exists m2. split; [done|]. apply not_eq_None_Some. intros E. by pose proof (pool_holds ts' hs j m2 _ w' HF Hl Hm2 Hj E).
Qed.

(** C7: Under every interleaving no goroutine panics with an unlock of a free
    lock or a write to a nil table, and a pool in which nobody can move has
    every lock free and every table made: waiting goroutines hold nothing. *)
Theorem schedule_is_safe :
  (forall i p, ts' !! i = Some (Panic p) -> p <> PanicUnlock /\ p <> PanicNilMap) /\
  ((exists i m, ts' !! i = Some m /\ is_Some (step1 m w')) \/ ready w').
Proof.
  split.
  - intros i p Hi. destruct schedule_pool as (hs & HF & _).
    destruct (Forall2_lookup_l _ _ _ _ _ HF Hi) as (h & _ & [_ Hp]%homing_eq). by destruct p.
  - destruct (decide (Exists (fun m => is_Some (step1 m w')) ts')) as [He|Hn].
    + left. by apply Exists_exists in He as (m & [i Hi]%list_elem_of_lookup & ?); eauto.
    + right. apply (pool_stuck ts'); [apply schedule_pool|].
      apply not_Exists_Forall in Hn; [|intros m; apply _].
      eapply Forall_impl; [exact Hn|]. intros m. cbn. by rewrite <- eq_None_not_Some.
Qed.

End schedule.
End threadprops.

(** ** Races the locks do not prevent *)

Section races.

(** A guest's mask argument: signal 2 at 0x2300 and signal 15 at 0x2400. *)
Definition mask_world : World (D := SimDebugger) :=
  sim_boot (sim_set_cells [(0x2300, existT ShSigset (0x2 : denote ShSigset));
                           (0x2400, existT ShSigset (0x4000 : denote ShSigset))] sim0).

(** A schedule of two calls that each block one signal, both of which return
    0 and after which only one of the two signals is blocked: the mask is
    read and written without a lock. *)
Theorem sigprocmask_race :
  match interleave [0; 0; 1; 1; 1; 0]%nat
          [rt_sigprocmask SIG_BLOCK 0x2300 0 8; rt_sigprocmask SIG_BLOCK 0x2400 0 8] mask_world with
  | Some ([Ret r0; Ret r1], w') => r0 = 0 /\ r1 = 0 /\ sg_set (w_signal w') = 0x2
  | _ => False
  end.
Proof. vm_compute. done. Qed.

(** One waiter at 0x1000. *)
Definition waited_world : World (D := SimDebugger) :=
  world_of (run 0 (futex_wait 7 0x1000 25185 0) sim_world).

(** A schedule of a FUTEX_WAKE and the closing of the kernel on which the
    wake panics: it has taken the channel out of the table before the close,
    and sends on it after. *)
Theorem wake_close_race :
  match interleave [0; 0; 0; 0; 1; 1; 1; 1; 1; 1; 1; 0; 0]%nat
          [futex_wake 0x1000 1; Futex.dtor ;;; Ret 0] waited_world with
  | Some ([Panic p; Ret r1], w') => p = PanicSendClosed
  | _ => False
  end.
Proof. vm_compute. done. Qed.

End races.

(** ** Witnesses *)

(** Context 7 asks for [close(5)], context 8 for [fcntl(5, F_GETFD)]. *)
Definition pool_world : World (D := SimDebugger) :=
  sim_boot (sim_set_regs
    [(7, ARM64_REG_X8, NR_val NR_close); (7, ARM64_REG_X0, 5);
     (8, ARM64_REG_X8, NR_val NR_fcntl); (8, ARM64_REG_X0, 5); (8, ARM64_REG_X1, 1)] sim0).

Definition pool_intr (ctx : Z) : prog (World (D := SimDebugger)) unit :=
  let! _ := arm64Intr (D := SimDebugger) (Some kernel_debugger) ctx 2 in Ret tt.

(** Context 7 asks for gettid, context 8 for [close(99)]. *)
Definition errno_world : World (D := SimDebugger) :=
  sim_boot (sim_set_regs
    [(7, ARM64_REG_X8, NR_val NR_gettid); (8, ARM64_REG_X8, NR_val NR_close); (8, ARM64_REG_X0, 99)] sim0).

(** The result register of each context and the errno at the end. *)
Definition errno_after (sch : list nat) : option (list (Z + error) * Z) :=
  match interleave sch [pool_intr 7; pool_intr 8] errno_world with
  | Some ([Ret _; Ret _], w') =>
      Some ((fun c : Z => RegRead (w_host w') (c : Ctx (Debugger := SimDebugger)) ARM64_REG_X0) <$> [7; 8], w_err w')
  | _ => None
  end.

(** The errno is one for all tasks: on one schedule a call that succeeds
    leaves the errno of another task's failure behind, on another a call that
    fails returns -1 with the errno already cleared. *)
Theorem errno_race :
  errno_after [0; 0; 0; 1; 1; 1; 1; 1; 1; 0]%nat = Some ([inl 7; inl MaxUint64], Errno_val EBADF) /\
  errno_after [1; 1; 1; 1; 1; 0; 0; 0; 0; 1]%nat = Some ([inl 7; inl MaxUint64], 0).
Proof. by vm_compute. Qed.

Definition pool : list (prog (World (D := SimDebugger)) unit) := [pool_intr 7; pool_intr 8].

Lemma pool_intr_of (P : Z -> Prop) ctx : P ctx -> goroutine_of (D := SimDebugger) P (pool_intr ctx).
Proof. intros HP. apply (go_intr (D := SimDebugger) P ARCH_ARM64 arm64Intr); auto. Qed.

Lemma pool_intr_goroutine ctx : goroutine (pool_intr ctx).
Proof. by apply pool_intr_of. Qed.

Lemma pool_goroutines : Forall goroutine pool.
Proof. repeat first [apply pool_intr_goroutine | constructor]. Qed.

(** The fcntl has checked the descriptor, then the close runs up to its lock. *)
Definition pool_schedule : list nat := [1; 1; 1; 1; 0; 0; 0; 0; 0; 0]%nat.

(** Where the schedule leads. *)
Definition pool_end : option (list (prog (World (D := SimDebugger)) unit) * World) :=
  interleave pool_schedule pool pool_world.

(** Goroutine 1 waits, and would not if the lock were free. *)
Definition waits_for_lock : bool :=
  match pool_end with
  | Some ([_; m], w) =>
      match step1 m w, step1 m (set_rw LkFcntl rw_free w) with None, Some _ => true | _, _ => false end
  | _ => false
  end.

Lemma no_table_race_witness :
  match pool_end with
  | Some ([m1; m2], _) =>
      next_preserves LkFcntl m1 \/ (next_preserves LkFcntl m2 /\ next_ignores LkFcntl m2)
  | _ => False
  end.
Proof.
  assert (waits_for_lock = true) as Hb by (vm_compute; reflexivity). unfold waits_for_lock in Hb.
  destruct pool_end as [[[|m1 [|m2 []]] w']|] eqn:E; try discriminate.
  exact (no_table_race pool_schedule pool [m1; m2] pool_world w' pool_goroutines
    (sim_boot_ready _) E 0 1 m1 m2 LkFcntl eq_refl eq_refl ltac:(lia)).
Defined.

(** Goroutine 1 waits for the lock goroutine 0 has taken for writing. *)
Example pool_owner :
  owners pool_schedule pool (replicate 2 None) pool_world = [Some (LkFcntl, Wr); None].
Proof. vm_compute. reflexivity. Qed.

Lemma no_lock_deadlock_witness :
  match pool_end with
  | Some (ts', w') =>
      let hs := owners pool_schedule pool (replicate 2 None) pool_world in
      lock_inv hs w' /\ hs !! 1%nat = Some None /\ (exists j md, hs !! j = Some (Some (LkFcntl, md))) /\
      forall j l' md, hs !! j = Some (Some (l', md)) -> exists m2, ts' !! j = Some m2 /\ is_Some (step1 m2 w')
  | _ => False
  end.
Proof.
  assert (waits_for_lock = true) as Hb by (vm_compute; reflexivity). unfold waits_for_lock in Hb.
  destruct pool_end as [[[|m1 [|m2 []]] w']|] eqn:E; try discriminate.
  destruct (step1 m2 w') eqn:E1; [discriminate|].
  destruct (step1 m2 (set_rw LkFcntl rw_free w')) eqn:E2; [|discriminate].
  exact (no_lock_deadlock pool_schedule pool [m1; m2] pool_world w' pool_goroutines
    (sim_boot_ready _) E 1 m2 LkFcntl eq_refl E1 ltac:(by rewrite E2)).
Defined.

Lemma schedule_is_safe_witness :
  match pool_end with
  | Some (ts', w') =>
      (forall i p, ts' !! i = Some (Panic p) -> p <> PanicUnlock /\ p <> PanicNilMap) /\
      ((exists i m, ts' !! i = Some m /\ is_Some (step1 m w')) \/ ready w')
  | None => False
  end.
Proof.
  assert (waits_for_lock = true) as Hb by (vm_compute; reflexivity). unfold waits_for_lock in Hb.
  destruct pool_end as [[ts' w']|] eqn:E; [|discriminate].
  exact (schedule_is_safe pool_schedule pool ts' pool_world w' pool_goroutines
    (sim_boot_ready _) E).
Defined.
