(* ===== verification/Confined.v ===== *)
(** * What a handler leaves alone

    [confined L Bl m]: every action of [m] changes the state only as [L] allows and
    waits only for what [Bl] allows.  For a relation that allows everything but the
    futex tables, or everything but the task table, all handlers are confined
    except the ones that work on that table; the reasoning about interleavings
    then has only those to look at. *)

From stdpp Require Import base list gmap numbers.
From S2P Require Import Prelude GoProg GoSpec LinuxABI GoRuntime Structs Host World GoIO.
From S2P Require Import Queues WorldSpec Fcntl Stat Signal Futex Mman Socket Sched Misc Syscall Kernel.
From S2P Require Import KernelProps ThreadProps.
Local Open Scope Z_scope.
Local Open Scope go_scope.

Section confined.
Context {W : Type} (L : W -> W -> Prop) (Bl : forall X, (W -> option (W * X)) -> W -> Prop).

Fixpoint confined {A} (m : prog W A) : Prop :=
  match m with
  | Ret _ | Panic _ => True
  | Act f k =>
      ((forall w w' x, f w = Some (w', x) -> L w w') /\ forall w, f w = None -> Bl _ f w) /\
      forall x, confined (k x)
  | Iter body s k => (forall s, confined (body s)) /\ forall x, confined (k x)
  end.

Lemma confined_ret {A} (a : A) : confined (Ret a).
Proof. done. Qed.
Lemma confined_panic {A} p : confined (Panic p : prog W A).
Proof. done. Qed.
Lemma confined_act {A X} (f : W -> option (W * X)) (k : X -> prog W A) :
  (forall w w' x, f w = Some (w', x) -> L w w') -> (forall w, f w = None -> Bl X f w) ->
  (forall x, confined (k x)) -> confined (Act f k).
Proof. done. Qed.
Lemma confined_iter {A S X} (body : S -> prog W (S + X)) s (k : X -> prog W A) :
  (forall s, confined (body s)) -> (forall x, confined (k x)) -> confined (Iter body s k).
Proof. done. Qed.

Lemma confined_bind {A B} (m : prog W A) (k : A -> prog W B) :
  confined m -> (forall a, confined (k a)) -> confined (bind m k).
Proof.
  intros Hm Hk. induction m as [A a|A p|A X f h IH|A S X body _ s h IH]; cbn in *; [done|done|..].
  - split; [apply Hm|]. intros x. by apply IH; [apply Hm|].
  - split; [apply Hm|]. intros x. by apply IH; [apply Hm|].
Qed.

Lemma confined_guard {A} (d : prog W unit) (m : prog W A) : confined d -> confined m -> confined (guard_panic d m).
Proof.
  intros Hd. induction m as [A a|A p|A X f k IH|A S X body IHb s k IH]; cbn; [done|..].
  - intros _. by apply confined_bind.
  - intros [Hf Hk]. split; [done|]. eauto.
  - intros [Hb Hk]. split; eauto.
Qed.

Lemma confined_defer {A} (d : prog W unit) (m : prog W A) : confined d -> confined m -> confined (with_defer d m).
Proof.
  intros Hd. induction m as [A a|A p|A X f k IH|A S X body IHb s k IH]; cbn.
  - intros _. by apply confined_bind.
  - intros _. by apply confined_bind.
  - intros [Hf Hk]. split; [done|]. eauto.
  - intros [Hb Hk]. split; [|eauto]. intros s'. by apply confined_guard.
Qed.

End confined.

(** ** Relations that allow what most handlers do *)

(** The action waits for the task to be done. *)
Definition awaits_task `{D : Debugger} {X} (task : Task) (f : World -> option (World * X)) : Prop :=
  forall w, is_Some (f w) <-> task_Done (w_host w) task = true.

(** The action waits for a transfer of the file that can go on. *)
Definition awaits_file `{D : Debugger} {X} (file : File) (f : World -> option (World * X)) : Prop :=
  (exists n, forall w, is_Some (f w) <-> is_Some (file_Read (w_host w) file n)) \/
  (exists b, forall w, is_Some (f w) <-> is_Some (file_Write (w_host w) file b)) \/
  (exists base off lim, forall w, is_Some (f w) <-> is_Some (file_ReadFrom (w_host w) file base off lim)).

Class Footprint `{D : Debugger} (L : World -> World -> Prop)
    (Bl : forall X, (World -> option (World * X)) -> World -> Prop) : Prop := {
  fp_lock X f l w : get_rw l w <> rw_free -> Bl X f w;
  fp_task X f task w : awaits_task task f -> f w = None -> Bl X f w;
  fp_file X f file w : awaits_file file f -> f w = None -> Bl X f w;
  fp_refl w : L w w;
  fp_host h w : L w (set_host h w);
  fp_rt r w : rt_quiet (w_rt w) r -> L w (set_rt r w);
  fp_err e w : L w (set_err e w);
  fp_fcntl f w : L w (set_fcntl f w);
  fp_signal s w : L w (set_signal s w);
  fp_read m w : rw_writer m = rw_writer (fx_rw (w_futex w)) -> L w (set_rw LkFutex m w)
}.

(** Relations that allow work on the futex tables with its channels and its
    [select], or on the task table. *)
Class FutexFoot `{D : Debugger} (L : World -> World -> Prop)
    (Bl : forall X, (World -> option (World * X)) -> World -> Prop) : Prop := {
  fp_sleep X f w : Bl X f w;
  fp_futex f w : L w (set_futex f w);
  fp_select h r w : L w (set_rt r (set_host h w))
}.
Class SchedFoot `{D : Debugger} (L : World -> World -> Prop) : Prop :=
  fp_sched s w : L w (set_sched s w).

Create HintDb confined.

Ltac foot :=
  first [ apply fp_refl | apply fp_host | apply fp_err | apply fp_fcntl | apply fp_signal
        | apply fp_rt; econstructor; eassumption | apply fp_futex | apply fp_sched ].

Section prims.
Context {D : Debugger} (L : World -> World -> Prop) (Bl : forall X, (World -> option (World * X)) -> World -> Prop) `{!Footprint L Bl}.

Ltac prim :=
  apply confined_act;
  [ intros ? ? ? E; cbv zeta in E; repeat case_match; simplify_eq; foot
  | intros ? E; cbv zeta in E; repeat case_match; discriminate
  | intros ?; repeat case_match; done ].

Lemma confined_hget {X} (f : Host -> X) : confined L Bl (hget f).
Proof. unfold hget. prim. Qed.
Lemma confined_hdo {X} (f : Host -> Host * X) : confined L Bl (hdo f).
Proof. unfold hdo. prim. Qed.
Lemma confined_hwait {X} (f : Host -> option (Host * X)) file :
  awaits_file file (fun w => match f (w_host w) with Some (h, x) => Some (set_host h w, x) | None => None end) ->
  confined L Bl (hwait f).
Proof.
  intros Hf. apply confined_act; [|intros w E; by apply (fp_file _ _ file)|done].
  intros w w' x E. repeat case_match; simplify_eq. foot.
Qed.
Lemma confined_rtdo {X} (f : runtime -> runtime * X) :
  (forall r, rt_quiet r (f r).1) -> confined L Bl (rtdo f).
Proof. intros Hf. apply confined_act; [|done|done]. intros w w' x E. simplify_eq. by apply fp_rt. Qed.
Lemma confined_After d : confined L Bl (rtdo (time_After d)).
Proof. apply confined_rtdo. constructor. Qed.
Lemma confined_fire i : confined L Bl (rtdo (fun r => (fire_timer i r, tt))).
Proof. apply confined_rtdo. constructor. Qed.
Lemma confined_SetErrno e : confined L Bl (SetErrno e).
Proof. unfold SetErrno. prim. Qed.
Lemma confined_Errno_set e : confined L Bl (Kernel.Errno_set e).
Proof. unfold Kernel.Errno_set. prim. Qed.
Lemma confined_fail e : confined L Bl (fail e).
Proof. apply confined_bind; [apply confined_SetErrno|done]. Qed.
Lemma confined_send ch v : confined L Bl (send_nb ch v).
Proof. unfold send_nb. prim. Qed.
Lemma confined_wait_done t : confined L Bl (Sched.wait_done t).
Proof.
  apply confined_act; [intros w w' x E; case_match; simplify_eq; foot| |done].
  intros w E. apply (fp_task _ _ t); [|done]. clear. intros w. by destruct (task_Done _ _); split; intros; [|by eexists| |].
Qed.
Lemma confined_set_get : confined L Bl Signal.set_get.
Proof. unfold Signal.set_get. prim. Qed.
Lemma confined_set_put v : confined L Bl (Signal.set_put v).
Proof. unfold Signal.set_put. prim. Qed.
Lemma confined_table_get s : confined L Bl (Signal.table_get s).
Proof. unfold Signal.table_get. prim. Qed.
Lemma confined_table_put s a : confined L Bl (Signal.table_put s a).
Proof. unfold Signal.table_put. prim. Qed.
Lemma confined_flags_get fd : confined L Bl (Fcntl.flags_get fd).
Proof. unfold Fcntl.flags_get. prim. Qed.
Lemma confined_flags_put fd v : confined L Bl (Fcntl.flags_put fd v).
Proof. unfold Fcntl.flags_put. prim. Qed.
Lemma confined_flags_delete fd : confined L Bl (Fcntl.flags_delete fd).
Proof. unfold Fcntl.flags_delete. prim. Qed.
Lemma confined_lookup t key : confined L Bl (Futex.lookup_await t key).
Proof. unfold Futex.lookup_await. prim. Qed.
Lemma confined_range t : confined L Bl (Futex.range_table t).
Proof. unfold Futex.range_table. prim. Qed.
Lemma confined_arg (args : list Z) i : confined L Bl (Syscall.arg args i : prog World Z).
Proof. unfold Syscall.arg. by case_match. Qed.

(** The locks: the futex lock may be read. *)
Lemma confined_acquire acq l :
  is_Some (acq rw_free) -> l <> LkFutex \/ (forall m m', acq m = Some m' -> rw_writer m' = rw_writer m) -> confined L Bl (acquire acq l).
Proof.
  intros Hf H. apply confined_act; [| |done]; intros w.
  2: { intros E. apply (fp_lock _ _ l). intros El. rewrite El in E. by destruct Hf as [m Em]; rewrite Em in E. }
  intros w' x E. destruct (acq (get_rw l w)) as [m|] eqn:Em; simplify_eq.
  destruct l; [apply fp_fcntl| |apply fp_signal]. destruct H as [|H]; [done|]. apply fp_read. by eapply H.
Qed.
Lemma confined_release rel l :
  l <> LkFutex \/ (forall m m', rel m = Some m' -> rw_writer m' = rw_writer m) -> confined L Bl (release rel l).
Proof.
  intros H. apply confined_act; [|intros w E; by destruct (rel _)|by intros []]. intros w w' x E.
  destruct (rel (get_rw l w)) as [m|] eqn:Em; simplify_eq; [|apply fp_refl].
  destruct l; [apply fp_fcntl| |apply fp_signal]. destruct H as [|H]; [done|]. apply fp_read. by eapply H.
Qed.
Lemma confined_Lock_fcntl : confined L Bl (Lock LkFcntl).
Proof. apply confined_acquire; [by eexists|by left]. Qed.
Lemma confined_Lock_signal : confined L Bl (Lock LkSignal).
Proof. apply confined_acquire; [by eexists|by left]. Qed.
Lemma confined_Unlock_fcntl : confined L Bl (Unlock LkFcntl).
Proof. apply confined_release. by left. Qed.
Lemma confined_Unlock_signal : confined L Bl (Unlock LkSignal).
Proof. apply confined_release. by left. Qed.
Lemma confined_RLock l : confined L Bl (RLock l).
Proof. apply confined_acquire; [by eexists|]. right. intros [[] n] m' E; cbn in E; by simplify_eq. Qed.
Lemma confined_RUnlock l : confined L Bl (RUnlock l).
Proof. apply confined_release. right. intros [b [|n]] m' E; cbn in E; by simplify_eq. Qed.

(** The two tables and their channels. *)
Context {FF : FutexFoot L Bl}.
Lemma fp_rt_any r w : L w (set_rt r w).
Proof. pose proof (fp_select (w_host w) r w) as H. by destruct w. Qed.
Lemma confined_make : confined L Bl (rtdo make_chan).
Proof. apply confined_act; [|done|done]. intros w w' x E. simplify_eq. apply fp_rt_any. Qed.
Lemma confined_select t tm chans : confined L Bl (select t tm chans).
Proof.
  apply confined_act; [|done|intros []; apply confined_act; [|intros; apply fp_sleep|done]]; intros w w' x E.
  - cbv zeta in E. injection E as <- _. apply fp_select.
  - repeat case_match; simplify_eq. apply fp_rt_any.
Qed.
Lemma confined_store_await t key a : confined L Bl (Futex.store_await t key a).
Proof. unfold Futex.store_await. prim. Qed.
Lemma confined_delete_await t key : confined L Bl (Futex.delete_await t key).
Proof. unfold Futex.delete_await. prim. Qed.
Lemma confined_Lock_futex : confined L Bl (Lock LkFutex).
Proof.
  apply confined_act; [|intros; apply fp_sleep|done]. intros w w' x E. destruct (rw_lock _); simplify_eq. apply fp_futex.
Qed.
Lemma confined_Unlock_futex : confined L Bl (Unlock LkFutex).
Proof.
  apply confined_act; [|intros; apply fp_sleep|by intros []]. intros w w' x E. destruct (rw_unlock _); simplify_eq; [apply fp_futex|apply fp_refl].
Qed.

Context {SF : SchedFoot L}.
Lemma confined_tasks_Store p t : confined L Bl (Sched.tasks_Store p t).
Proof. unfold Sched.tasks_Store. prim. Qed.
Lemma confined_tasks_Delete p : confined L Bl (Sched.tasks_Delete p).
Proof. unfold Sched.tasks_Delete. prim. Qed.
Lemma confined_spawn_reaper p t : confined L Bl (Sched.spawn_reaper p t).
Proof. unfold Sched.spawn_reaper. prim. Qed.

End prims.

#[export] Hint Resolve confined_ret confined_panic confined_hget confined_hdo confined_After confined_fire confined_make confined_SetErrno confined_Errno_set
  confined_fail confined_send confined_select confined_wait_done confined_set_get confined_set_put confined_table_get
  confined_table_put confined_flags_get confined_flags_put confined_flags_delete confined_lookup confined_range confined_arg
  confined_Lock_fcntl confined_Lock_signal confined_Unlock_fcntl confined_Unlock_signal confined_RLock confined_RUnlock
  confined_store_await confined_delete_await confined_Lock_futex confined_Unlock_futex
  confined_tasks_Store confined_tasks_Delete confined_spawn_reaper : confined.

Ltac confined_step :=
  match goal with
  | |- confined _ _ (match ?x with _ => _ end) => destruct x
  | |- confined _ _ (bind _ _) => apply confined_bind; [|intros ?]
  | |- confined _ _ (with_defer _ _) => apply confined_defer
  | |- confined _ _ (Iter _ _ _) => apply confined_iter; [intros ?|intros ?]
  end.
Ltac confined_solve :=
  repeat first [ solve [eauto with confined] | confined_step | progress cbv zeta ].

(** Package io, and the loops of the handlers. *)
Section loops.
Context {D : Debugger} (L : World -> World -> Prop) (Bl : forall X, (World -> option (World * X)) -> World -> Prop) `{!Footprint L Bl}.

Lemma confined_copy {S T} (rd : reader S) (wr : writer T) size r s :
  (forall s n, confined L Bl (rd s n)) -> (forall t b, confined L Bl (wr t b)) -> confined L Bl (copy_loop rd wr size r s).
Proof. intros. unfold copy_loop, copy_turn, copy_next. confined_solve. Qed.
Lemma confined_CopyN base src n : (forall n, confined L Bl (src n)) -> confined L Bl (io_CopyN_offset base src n).
Proof.
  intros. unfold io_CopyN_offset. apply confined_bind; [|intros []; confined_solve].
  apply confined_copy; intros; unfold limited_read, offset_write; confined_solve.
Qed.
(** A transfer goes on when the host lets it. *)
Lemma transfer_awaits {X} (f : Host -> option (Host * X)) (w : World) :
  is_Some (match f (w_host w) with Some (h, x) => Some (set_host h w, x) | None => None end) <->
  is_Some (f (w_host w)).
Proof. destruct (f (w_host w)) as [[]|]; split; try (by intros []); intros _; by eexists. Qed.
Lemma confined_file_reader f n : confined L Bl (file_reader f n).
Proof. apply (confined_hwait _ _ _ f). left. exists n. exact (transfer_awaits (fun h => file_Read h f n)). Qed.
Lemma confined_file_write f b : confined L Bl (hwait (fun h => file_Write h f b)).
Proof. apply (confined_hwait _ _ _ f). right; left. exists b. exact (transfer_awaits (fun h => file_Write h f b)). Qed.
Lemma confined_ReadFrom f base off lim : confined L Bl (hwait (fun h => file_ReadFrom h f base off lim)).
Proof. apply (confined_hwait _ _ _ f). right; right. exists base, off, lim.
  exact (transfer_awaits (fun h => file_ReadFrom h f base off lim)). Qed.
Lemma confined_Copy w base n : confined L Bl (io_Copy_section w base n).
Proof.
  unfold io_Copy_section. case_match; [apply confined_ReadFrom|].
  apply confined_copy; intros; unfold section_read, file_write; [confined_solve|].
  apply confined_bind; [apply confined_file_write|]. intros []. confined_solve.
Qed.
Lemma confined_ReadFull src n : (forall n, confined L Bl (src n)) -> confined L Bl (io_ReadFull src n).
Proof. intros. unfold io_ReadFull, read_full_turn. confined_solve. Qed.
Lemma confined_rand_reader n : confined L Bl (rand_reader n).
Proof. by apply confined_hdo. Qed.
Lemma confined_writev_loop f arr : forall n, confined L Bl (Fcntl.writev_loop f arr n).
Proof.
  induction arr; intros; cbn [Fcntl.writev_loop]; [done|]. apply confined_bind; [apply confined_Copy|].
  intros []. confined_solve.
Qed.
Lemma confined_wake_bits v3 count bits : forall i, confined L Bl (Futex.wake_bits bits v3 count i).
Proof.
  induction bits as [|bit bits IH]; intros i; cbn [Futex.wake_bits]; [done|].
  unfold Futex.wake_bit_turn. confined_solve.
Qed.

End loops.

#[export] Hint Resolve confined_CopyN confined_Copy confined_ReadFull confined_file_reader confined_rand_reader
  confined_writev_loop confined_wake_bits : confined.

(** ** The handlers *)

Ltac unfold_calls :=
  unfold Syscall.as_u64, Fcntl.dup3, Fcntl.fcntl, Fcntl.faccessat, Fcntl.open, Fcntl.openat, Fcntl.close,
    Fcntl.pipe2, Fcntl.lseek, Fcntl.read, Fcntl.write, Fcntl.writev, Fcntl.readlinkat,
    Fcntl.finish_open, Fcntl.store_flags, Stat.fstatat3264, Stat.fstatat64, Stat.fstat3264,
    Stat.fstat64, Signal.rt_sigaction, Signal.rt_sigprocmask, Signal.sigprocmask_set, Signal.rt_tgsigqueueinfo,
    Mman.munmap, Mman.mmap, Mman.skip_to, Mman.map_region, Mman.map_fail, Mman.mprotect, Socket.socket,
    Sched.clone, Sched.set_entry, Sched.set_tls, Sched.run_child, Sched.clone_abort, Misc.clock_gettime,
    Misc.gettimeofday, Misc.getrandom, Misc.prctl, Misc.getpid, Misc.getrlimit, Misc.ioctl, Misc.sysinfo,
    Misc.or_EINVAL, Fcntl.with_path, Fcntl.with_dir,
    Futex.futex, Futex.futex_wait, Futex.futex_wait_bitset, Futex.futex_wake, Futex.futex_wake_bitset,
    Futex.wait_prepare, Futex.wait_turn, Futex.wait_case, Futex.wait_bitset_turn, Futex.wait_bitset_case, Futex.wake_turn, Futex.addAwait, Futex.delAwait,
    Futex.addBitAwait, Futex.delBitAwait, Futex.getAwait, Futex.add_ref, Futex.del_ref, Futex.read_u32 in *.

Section handlers.
Context {D : Debugger} (L : World -> World -> Prop) (Bl : forall X, (World -> option (World * X)) -> World -> Prop) `{!Footprint L Bl}.

(** Every handler but the futex call and clone. *)
Lemma handlers_confined ctx args :
  Forall (fun h : Syscall.handler =>
    h = Syscall.Emulate_futex \/ h = Syscall.Emulate_clone \/ confined L Bl (h ctx args)) (Syscall.syscall_cases.*2).
Proof.
  Syscall.each_handler ltac:(first [ by left | by right; left
    | right; right; Syscall.unfold_handler; unfold_calls; solve [confined_solve] ]).
Qed.

Lemma confined_futex_wake u v : confined L Bl (Futex.futex_wake u v).
Proof. unfold_calls. confined_solve. Qed.
Lemma confined_futex_wake_bitset v v3 : confined L Bl (Futex.futex_wake_bitset v v3).
Proof. unfold_calls. confined_solve. Qed.

Lemma confined_futex `{!FutexFoot L Bl} ctx args : confined L Bl (Syscall.Emulate_futex ctx args).
Proof. unfold Syscall.Emulate_futex. unfold_calls. confined_solve. Qed.

Lemma confined_clone `{!SchedFoot L} ctx args : confined L Bl (Syscall.Emulate_clone ctx args).
Proof. unfold Syscall.Emulate_clone. unfold_calls. confined_solve. Qed.

(** ** Programs built of confined ones and of those two *)

Context (good : forall A, prog World A -> Prop).
Arguments good {A}.
Context (good_bind : forall A B (m : prog World A) (k : A -> prog World B),
  good m -> (forall a, good (k a)) -> good (bind m k)).
Context (good_confined : forall A (m : prog World A), confined L Bl m -> good m).
Context (P : Ctx -> Prop).
Context (good_futex : forall ctx args, P ctx -> good (Syscall.Emulate_futex ctx args)).
Context (good_clone : forall ctx args, good (Syscall.Emulate_clone ctx args)).

Lemma call_good nr call ctx args : P ctx -> Syscall.Get nr = Some call -> good (call ctx args).
Proof.
  intros Hctx. apply (Syscall.Get_forall (fun h => good (h ctx args))).
  eapply Forall_impl; [|apply handlers_confined]. intros h [->|[->|Hq]]; eauto.
Qed.

Lemma hook_good a hook ld ctx intno :
  P ctx -> Kernel.intr_of a = Some hook -> ld = None \/ ld = Some Kernel.kernel_debugger -> good (hook ld ctx intno).
Proof.
  intros Hctx Ha Hld. destruct (intr_of_regs _ _ Ha) as (g & _ & ->). unfold Kernel.handle_intr.
  assert (forall A (a : A), good (Ret a)) as Hret by (intros; by apply good_confined).
  destruct (negb _); [apply Hret|].
  apply good_bind; [apply good_confined; confined_solve|]. intros [nr|]; [|apply Hret].
  apply good_bind; [apply good_confined; confined_solve|]. intros [args|]; [|apply Hret].
  destruct Hld as [-> | ->]; [by apply good_confined|].
  cbn [Kernel.ld_Get Kernel.ld_NR Kernel.ld_SetErrno Kernel.kernel_debugger Kernel.cx_Context Kernel.NewContext].
  destruct (Syscall.Get _) as [call|] eqn:Ec; [|apply Hret].
  apply good_bind; [apply good_confined; confined_solve|]. intros _.
  apply good_bind; [by eapply call_good|]. intros r. apply good_confined. confined_solve.
Qed.

Lemma goroutine_good m :
  (forall pid task, good (Sched.reap pid task)) -> goroutine_of P m -> good m.
Proof.
  intros Hreap. induction 1 as [a hook ld ctx intno Hctx Ha Hld|pid task|f|i|m1 m2 _ IH1 _ IH2].
  - apply good_bind; [by eapply hook_good|]. intros. by apply good_confined.
  - apply Hreap.
  - apply good_confined. confined_solve.
  - apply good_confined. confined_solve.
  - by apply good_bind.
Qed.

End handlers.
