(* ===== verification/Reapers.v ===== *)
(** * Every task has its reaper

    [clone] stores the child in the task table and starts a goroutine that
    removes it when it is done.  Here the goroutines [clone] starts join the pool
    they are started from, and under every schedule a task in the table has its
    reaper: once all goroutines have finished the table is empty, and when none
    can move, no task in the table is done. *)

From stdpp Require Import base list gmap numbers.
From S2P Require Import Prelude GoProg GoSpec Ghost LinuxABI GoRuntime Structs Host World.
From S2P Require Import WorldSpec Futex Sched Syscall Kernel SimHost SimKernel KernelProps ThreadProps Confined.
Local Open Scope Z_scope.
Local Open Scope go_scope.
Import Sched.

(** ** Goroutines that start goroutines *)

Section spawning.
Context {D : Debugger}.

(** The reapers a step has started. *)
Definition started (w w' : World) : list (prog World unit) :=
  (fun pt => reap pt.1 pt.2) <$>
    take (length (sd_reapers (w_sched w')) - length (sd_reapers (w_sched w))) (sd_reapers (w_sched w')).

(** As [interleave], and what a step starts joins the pool. *)
Fixpoint interleave_go (sch : list nat) (ts : list (prog World unit)) (w : World) :
    option (list (prog World unit) * World) :=
  match sch with
  | [] => Some (ts, w)
  | i :: sch =>
      match ts !! i with
      | None => None
      | Some m =>
          match step1 m w with
          | Some (m', w') => interleave_go sch (<[i := m']> ts ++ started w w') w'
          | None => None
          end
      end
  end.

(** ** Where a goroutine is *)

(** Between storing a task and starting its reaper, or elsewhere. *)
Inductive cloning := Elsewhere | Stored (pid : Z) (task : Task).

Definition same_sched (w w' : World) : Prop :=
  sd_tasks (w_sched w') ⊆ sd_tasks (w_sched w) /\ sd_reapers (w_sched w') = sd_reapers (w_sched w).

Definition moves (g g' : cloning) (w w' : World) : Prop :=
  match g, g' with
  | Elsewhere, Elsewhere => same_sched w w'
  | Elsewhere, Stored p t =>
      sd_tasks (w_sched w') = <[p := t]> (sd_tasks (w_sched w)) /\
      sd_reapers (w_sched w') = sd_reapers (w_sched w)
  | Stored p t, Elsewhere =>
      sd_tasks (w_sched w') = sd_tasks (w_sched w) /\
      sd_reapers (w_sched w') = (p, t) :: sd_reapers (w_sched w)
  | Stored _ _, Stored _ _ => False
  end.

(** An action is allowed when it moves like that, and does not block in between. *)
Definition clone_act {X} (g : cloning) (f : World -> option (World * X)) (R : X -> cloning -> Prop) : Prop :=
  forall w, match f w with
            | Some (w', x) => exists g', R x g' /\ moves g g' w w'
            | None => g = Elsewhere
            end.

Definition clones {A} (m : prog World A) (g gp : cloning) (Q : A -> cloning -> Prop) : Prop :=
  guided (@clone_act) (fun _ => True) m g gp Q.

(** A program that starts and ends elsewhere. *)
Definition complete {A} (m : prog World A) : Prop := clones m Elsewhere Elsewhere (fun _ g' => g' = Elsewhere).

(** It may wait for anything. *)
Definition any_wait X (f : World -> option (World * X)) (w : World) : Prop := True.

#[local] Instance same_footprint : Footprint same_sched any_wait.
Proof. split; intros; done. Qed.
#[local] Instance same_futex : FutexFoot same_sched any_wait.
Proof. by split. Qed.
#[local] Hint Resolve same_footprint same_futex : confined.

Lemma confined_complete {A} (m : prog World A) : confined same_sched any_wait m -> complete m.
Proof.
  unfold complete. induction m as [A a|A p|A X f k IH|A S X body IHb s k IH]; cbn; [done|done|..]; intros [Hf Hk].
  - destruct Hf as [Hf _]. exists (fun _ g' => g' = Elsewhere). split; [|intros x g1 ->; by apply IH].
    intros w. destruct (f w) as [[w' x]|] eqn:E; [|done]. exists Elsewhere. split; [done|]. by eapply Hf.
  - split; [intros s'; by apply IHb|intros x; by apply IH].
Qed.

Lemma complete_bind {A B} (m : prog World A) (k : A -> prog World B) :
  complete m -> (forall a, complete (k a)) -> complete (bind m k).
Proof. intros Hm Hk. eapply guided_bind; [apply Hm|]. intros a g' ->. apply Hk. Qed.

Lemma complete_register pid task : complete (tasks_Store pid task ;;; spawn_reaper pid task).
Proof.
  exists (fun _ g' => g' = Stored pid task). split; [intros w; by exists (Stored pid task)|].
  intros [] g' ->. exists (fun _ g' => g' = Elsewhere). split; [intros w; by exists Elsewhere|].
  by intros [] g' ->.
Qed.

Lemma complete_run_child task flags child_tid : complete (run_child task flags child_tid).
Proof.
  unfold run_child, clone_abort. apply complete_bind; [apply confined_complete; confined_solve|].
  intros [e|]; [apply confined_complete; confined_solve|]. cbv zeta.
  apply complete_bind; [apply confined_complete; confined_solve|]. intros _.
  apply complete_bind; [|done]. destruct (has_bits _ _); [apply confined_complete; confined_solve|].
  apply complete_register.
Qed.

Lemma complete_clone ctx args : complete (Syscall.Emulate_clone ctx args).
Proof.
  unfold Syscall.Emulate_clone, Syscall.as_u64, clone, set_entry, set_tls, clone_abort.
  repeat match goal with
  | |- complete (run_child _ _ _) => apply complete_run_child
  | |- complete (match ?x with _ => _ end) => destruct x
  | |- complete _ => apply confined_complete; solve [confined_solve]
  | |- complete (bind _ _) => apply complete_bind; [|intros ?]
  end.
Qed.

Lemma confined_Delete pid : confined same_sched any_wait (tasks_Delete pid).
Proof.
  apply confined_act; [|done|done]. intros w w' x E. simplify_eq. split; [apply delete_subseteq|done].
Qed.
#[local] Hint Resolve confined_Delete : confined.

Lemma goroutine_complete m : goroutine m -> complete m.
Proof.
  apply (goroutine_good same_sched any_wait (fun A => complete)); intros.
  - by apply complete_bind.
  - by apply confined_complete.
  - apply confined_complete, confined_futex; apply _.
  - apply complete_clone.
  - apply confined_complete. unfold reap. confined_solve.
Qed.

(** ** Pools *)

(** A goroutine of the pool: one that was there, or a reaper on its way. *)
Inductive role := Runs (g : cloning) | Waits (pid : Z) (task : Task) | Removes (pid : Z) (task : Task).

Definition reap_rest (pid : Z) (task : Task) : prog World unit :=
  tasks_Delete pid ;;; let! _ := hdo (fun h => task_Close h task) in Ret tt.

Definition plays (m : prog World unit) (r : role) : Prop :=
  match r with
  | Runs g => clones m g Elsewhere (fun _ g' => g' = Elsewhere)
  | Waits pid task => m = reap pid task
  | Removes pid task => m = reap_rest pid task
  end.

Definition cares (pid : Z) (task : Task) (r : role) : Prop :=
  r = Runs (Stored pid task) \/ r = Waits pid task \/ r = Removes pid task.

(** Every task in the table is somebody's. *)
Definition covered (rs : list role) (w : World) : Prop :=
  forall pid task, sd_tasks (w_sched w) !! pid = Some task -> exists r, r ∈ rs /\ cares pid task r.

Lemma started_none w w' : sd_reapers (w_sched w') = sd_reapers (w_sched w) -> started w w' = [].
Proof. intros E. unfold started. by rewrite E, Nat.sub_diag. Qed.

Lemma started_one w w' p t :
  sd_reapers (w_sched w') = (p, t) :: sd_reapers (w_sched w) -> started w w' = [reap p t].
Proof.
  intros E. unfold started. rewrite E. cbn [length].
  by replace (S (length (sd_reapers (w_sched w))) - length (sd_reapers (w_sched w)))%nat with 1%nat by lia.
Qed.

Definition somebody (rs : list role) (pid : Z) (task : Task) : Prop := exists r, r ∈ rs /\ cares pid task r.

(** What a step does for a task that is in the table after it: the task has
    somebody, or it was there before and whoever had it hands it on. *)
Definition hands_on (r : role) (w w' : World) (rs : list role) : Prop :=
  forall pid task, sd_tasks (w_sched w') !! pid = Some task ->
    somebody rs pid task \/
    (sd_tasks (w_sched w) !! pid = Some task /\ (cares pid task r -> somebody rs pid task)).

Lemma moves_hands_on g g' w w' :
  moves g g' w w' -> exists new, Forall2 plays (started w w') new /\ hands_on (Runs g) w w' (Runs g' :: new).
Proof.
  destruct g as [|p t], g' as [|p' t']; cbn; [| | |done].
  - intros [Ht Hr]. exists []. rewrite started_none by done. split; [done|]. intros pid task E.
    right. split; [by eapply lookup_weaken|]. by intros [|[|]].
  - intros [Ht Hr]. exists []. rewrite started_none by done. split; [done|]. intros pid task E.
    rewrite Ht in E. apply lookup_insert_Some in E as [[<- <-]|[_ E]].
    + left. eexists. split; [by left|]. by left.
    + right. split; [done|]. by intros [|[|]].
  - intros [Ht Hr]. exists [Waits p t]. rewrite (started_one _ _ p t) by done.
    split; [by repeat constructor|]. intros pid task E. rewrite Ht in E.
    right. split; [done|]. intros [Ec|[|]]; [|done|done]. injection Ec as <- <-.
    exists (Waits p t). split; [by right; left|]. by right; left.
Qed.

Lemma role_step m r w m' w' :
  plays m r -> step1 m w = Some (m', w') ->
  exists r' new, plays m' r' /\ Forall2 plays (started w w') new /\ hands_on r w w' (r' :: new).
Proof.
  intros Hm E. destruct r as [g|p t|p t]; cbn [plays] in Hm.
  - destruct m as [a|q|X f k|S X body s k]; cbn in E; [done|done|..].
    + destruct Hm as (R & Hf & Hk). specialize (Hf w). destruct (f w) as [[w1 x]|]; [|done]. simplify_eq.
      destruct Hf as (g' & HR & Hmv). destruct (moves_hands_on g g' w w' Hmv) as (new & Hn & Hh).
      exists (Runs g'), new. split; [by apply Hk|]. by split.
    + simplify_eq. destruct Hm as [Hb Hk]. exists (Runs g), []. split.
      { eapply guided_bind; [apply Hb|]. intros [s'|x] g' ->; cbn; [by split|apply Hk]. }
      rewrite started_none by done. split; [done|]. intros pid task Et. right. split; [done|].
      intros Hc. exists (Runs g). split; [by left|done].
  - subst m. unfold reap, wait_done in E. cbn in E. destruct (task_Done (w_host w) t); [|done]. simplify_eq.
    exists (Removes p t), []. split; [done|]. rewrite started_none by done. split; [done|].
    intros pid task Et. right. split; [done|]. intros [|[Ec|]]; [done| |done]. injection Ec as <- <-.
    exists (Removes p t). split; [by left|]. by right; right.
  - subst m. cbn in E. simplify_eq. exists (Runs Elsewhere), []. split.
    { apply confined_complete, (confined_bind _ _ (hdo (fun h => task_Close h t)) (fun _ => Ret tt)); confined_solve. }
    rewrite started_none by done. split; [done|]. intros pid task Et. cbn in Et.
    apply lookup_delete_Some in Et as [Hne Et]. right. split; [done|]. intros [|[|Ec]]; [done|done|].
    by injection Ec as <- <-.
Qed.

(** ** Any schedule *)

Definition pool_ok (ts : list (prog World unit)) (w : World) : Prop :=
  exists rs, Forall2 plays ts rs /\ forall pid task,
    sd_tasks (w_sched w) !! pid = Some task -> somebody rs pid task.

Lemma pool_step ts w i m m' w' :
  pool_ok ts w -> ts !! i = Some m -> step1 m w = Some (m', w') ->
  pool_ok (<[i := m']> ts ++ started w w') w'.
Proof.
  intros (rs & HF & Hc) Hi E. destruct (Forall2_lookup_l _ _ _ _ _ HF Hi) as (r & Hr & Hp).
  destruct (role_step m r w m' w' Hp E) as (r' & new & Hp' & Hn & Hh).
  exists (<[i := r']> rs ++ new). split; [apply Forall2_app; [by apply Forall2_insert|done]|].
  assert (forall pid task, somebody (r' :: new) pid task -> somebody (<[i := r']> rs ++ new) pid task) as Hin.
  { intros pid task (r1 & [->|Hr1]%elem_of_cons & Hcr); exists r1 || exists r'; (split; [|done]); apply elem_of_app.
    - left. apply list_elem_of_insert. by eapply lookup_lt_Some.
    - by right. }
  intros pid task Et. destruct (Hh pid task Et) as [?|[Et0 Hon]]; [by apply Hin|].
  destruct (Hc pid task Et0) as (r1 & [j Hj]%list_elem_of_lookup & Hcr).
  destruct (decide (i = j)) as [->|Hne]; [simplify_eq; by apply Hin, Hon|].
  exists r1. split; [|done]. apply elem_of_app. left. apply list_elem_of_lookup. exists j.
  by rewrite list_lookup_insert_ne.
Qed.

Lemma pool_run sch : forall ts ts' w w',
  pool_ok ts w -> interleave_go sch ts w = Some (ts', w') -> pool_ok ts' w'.
Proof.
  induction sch as [|i sch IH]; intros ts ts' w w' Hp E; cbn in E; [by simplify_eq|].
  destruct (ts !! i) as [m|] eqn:Ei; [|done]. destruct (step1 m w) as [[m1 w1]|] eqn:Es; [|done].
  eapply IH; [|exact E]. by eapply pool_step.
Qed.

(** Whoever has a task is not finished, and waits only for the task. *)
Lemma cares_moves m r w pid task :
  plays m r -> cares pid task r -> step1 m w = None -> m = reap pid task /\ task_Done (w_host w) task = false.
Proof.
  intros Hp [->|[->| ->]] Es; cbn [plays] in Hp.
  - exfalso. destruct m as [a|q|X f k|S X body s k]; cbn in *; [done|by destruct Hp|..|done].
    destruct Hp as (R & Hf & _). specialize (Hf w). by destruct (f w) as [[]|].
  - subst m. split; [done|]. unfold reap, wait_done in Es. cbn in Es.
    by destruct (task_Done (w_host w) task).
  - subst m. done.
Qed.

(** C14: Under every interleaving, with the goroutines clone starts joining
    the pool, no finished task stays in the task table: when no goroutine can
    move, every task in the table is still running and its reaper is in the
    pool waiting for it. *)
Theorem tasks_are_reaped sch ts ts' w w' :
  Forall goroutine ts -> sd_tasks (w_sched w) = ∅ -> interleave_go sch ts w = Some (ts', w') ->
  (forall i m, ts' !! i = Some m -> step1 m w' = None) ->
  forall pid task, sd_tasks (w_sched w') !! pid = Some task ->
    task_Done (w_host w') task = false /\ exists i, ts' !! i = Some (reap pid task).
Proof.
  intros Hts Hw Hs Hstuck pid task Et.
  assert (pool_ok ts' w') as (rs & HF & Hc).
  { eapply pool_run; [|exact Hs]. exists (replicate (length ts) (Runs Elsewhere)). split.
    - apply Forall2_replicate_r; [done|]. eapply Forall_impl; [|exact Hts]. apply goroutine_complete.
    - intros p t. rewrite Hw. by rewrite lookup_empty. }
  destruct (Hc pid task Et) as (r & [i Hi]%list_elem_of_lookup & Hcr).
  destruct (Forall2_lookup_r _ _ _ _ _ HF Hi) as (m & Hm & Hp).
  destruct (cares_moves m r w' pid task Hp Hcr (Hstuck i m Hm)) as [-> Hd]. split; [done|by exists i].
Qed.

End spawning.

(** ** Witness *)

(** Contexts 7 and 8 clone: task 100 is done, task 101 is not. *)
Definition clone_world : World (D := SimDebugger) :=
  sim_boot (sim_set_regs [(7, ARM64_REG_X8, NR_val NR_clone); (8, ARM64_REG_X8, NR_val NR_clone)] sim0).

Definition clone_pool : list (prog (World (D := SimDebugger)) unit) := [pool_intr 7; pool_intr 8].

Lemma clone_pool_goroutines : Forall goroutine clone_pool.
Proof. repeat first [apply pool_intr_goroutine | constructor]. Qed.

(** Both hooks, then the reaper of the first child. *)
Definition clone_schedule : list nat := replicate 9 0%nat ++ replicate 9 1%nat ++ replicate 3 2%nat.

Definition all_stuck (ts : list (prog (World (D := SimDebugger)) unit)) (w : World) : bool :=
  forallb (fun m => match step1 m w with None => true | Some _ => false end) ts.

Lemma all_stuck_spec ts w : all_stuck ts w = true -> forall i m, ts !! i = Some m -> step1 m w = None.
Proof.
  intros H i m Hm. unfold all_stuck in H. rewrite forallb_forall in H.
  specialize (H m (proj1 (list_elem_of_In _ _) (list_elem_of_lookup_2 _ _ _ Hm))). by destruct (step1 m w).
Qed.

(** Nobody can move, and the second child is registered. *)
Definition clone_course (o : option (list (prog (World (D := SimDebugger)) unit) * World)) : bool :=
  match o with
  | Some (ts', w') => all_stuck ts' w' && match sd_tasks (w_sched w') !! 101 with Some t => t =? 101 | None => false end
  | None => false
  end.

Lemma clone_course_ok : clone_course (interleave_go clone_schedule clone_pool clone_world) = true.
Proof. vm_compute. reflexivity. Qed.

Lemma tasks_are_reaped_witness :
  exists ts' w', interleave_go clone_schedule clone_pool clone_world = Some (ts', w') /\
    task_Done (w_host w') (101 : Task) = false /\ exists i, ts' !! i = Some (reap 101 (101 : Task)).
Proof.
  pose proof clone_course_ok as Hb.
  destruct (interleave_go clone_schedule clone_pool clone_world) as [[ts' w']|] eqn:E; [|discriminate].
  unfold clone_course in Hb. apply andb_true_iff in Hb as [Hs Ht].
  destruct (sd_tasks (w_sched w') !! 101) as [t|] eqn:Et; [|discriminate]. apply Z.eqb_eq in Ht. subst t.
  exists ts', w'. split; [reflexivity|].
  exact (tasks_are_reaped clone_schedule clone_pool ts' clone_world w' clone_pool_goroutines eq_refl E
    (all_stuck_spec ts' w' Hs) 101 101 Et).
Defined.
