(* ===== verification/TermProps.v ===== *)
(** * Termination: theorems

    A software interrupt is served in finitely many steps: whatever the guest
    asks for, the hook returns, panics or leaves its task blocked, and the loops
    of the handler make only finitely many turns. *)

From stdpp Require Import base list gmap numbers strings.
From S2P Require Import Prelude GoProg GoSpec GoTotal LinuxABI GoRuntime Structs Host SimHost World.
From S2P Require Import GoIO WorldSpec Fcntl Futex Mman Misc Sched Termination.
From S2P Require Import Syscall Kernel SimKernel KernelProps.
Local Open Scope Z_scope.
Local Open Scope go_scope.
Import Syscall Kernel.

Section termprops.
Context {D : Debugger} `{!HostProgress}.

Lemma halts_arg (args : list Z) i : halts (arg args i).
Proof. unfold arg. halts_solve. Qed.
#[local] Hint Resolve halts_arg : halts.

(** Ends from a state whose futex channels are open. *)
Definition ends_open {A} (m : prog World A) : Prop :=
  total chans_open m (fun _ _ => True) (fun _ _ => True).

Lemma halts_ends_open {A} (m : prog World A) : halts m -> ends_open m.
Proof. intros Hm. by eapply total_weaken; [apply Hm|..]. Qed.

Lemma ends_open_act {A X} (f : World -> option (World * X)) (k : X -> prog World A) :
  (forall w w' x, f w = Some (w', x) -> w_rt w' = w_rt w /\ w_futex w' = w_futex w) ->
  (forall x, ends_open (k x)) -> ends_open (Act f k).
Proof.
  intros Hf Hk. apply (total_act _ _ _ (fun _ => chans_open)); [|apply Hk].
  intros w Ho. destruct (f w) as [[w' x]|] eqn:E; [|done]. destruct (Hf _ _ _ E) as [E1 E2].
  unfold chans_open, open_chan. by rewrite E1, E2.
Qed.

Lemma ends_open_arg args i (k : Z -> prog World Z) :
  (forall a, ends_open (k a)) -> ends_open (bind (arg args i) k).
Proof.
  intros Hk. unfold arg. destruct (args !! i); [apply Hk|]. by apply total_panic.
Qed.

Lemma Emulate_futex_ends ctx args : ends_open (Emulate_futex ctx args).
Proof.
  unfold Emulate_futex. do 6 (apply ends_open_arg; intros ?).
  eapply total_bind; [apply total_futex|]. intros r. by apply total_ret.
Qed.

Lemma handlers_end ctx args :
  Forall (fun h : handler => ends_open (h ctx args)) (syscall_cases.*2).
Proof.
  each_handler ltac:(first [ apply Emulate_futex_ends
    | apply halts_ends_open; unfold_handler; unfold as_u64; halts_solve ]).
Qed.

(** C4: Serving an interrupt ends: on a debugger that makes progress (each of
    its calls returns, or blocks in the case of a transfer of a file; a read
    that reports no error has read something), from a state whose channels
    are open, for every context, register contents and interrupt number there
    is a bound beyond which the hook has returned, panicked or blocked; no
    handler loops for ever. *)
Theorem hook_terminates a hook ctx intno w :
  intr_of a = Some hook -> chans_open w ->
  exists n0, forall n, (n0 <= n)%nat ->
    finished (run n (hook (Some kernel_debugger) ctx intno) w).
Proof.
  intros Ha Hw. destruct (intr_of_regs _ _ Ha) as (g & _ & ->).
  apply (total_finished chans_open _ (fun _ _ => True) (fun _ _ => True)); [|done].
  assert (forall r : HookResult, ends_open (Ret r)) as Hret.
  { intros r. apply halts_ends_open, halts_ret. }
  unfold handle_intr. destruct (negb _); [apply Hret|].
  apply ends_open_act; [by intros; simplify_eq|]. intros [nr|e]; [|apply Hret].
  apply ends_open_act; [by intros; simplify_eq|]. intros [args|e]; [|apply Hret].
  cbn [ld_Get ld_NR ld_SetErrno kernel_debugger cx_Context NewContext bind Errno_set].
  destruct (Get _) as [call|] eqn:Ec; [|apply Hret].
  apply ends_open_act; [by intros; simplify_eq|]. intros [].
  eapply total_bind; [|intros r; eapply halts_bind; [apply halts_hdo|intros; apply halts_ret]].
  apply (Get_forall (fun h => ends_open (h ctx args)) _ call (handlers_end ctx args) Ec).
Qed.

End termprops.

(** ** Witness *)

#[export] Instance sim_progress : HostProgress (H := SimDebugger).
Proof.
  split; cbn.
  - intros h f n h' b Hn. unfold sim_read_file. destruct (sim_contents h f) as [d pos].
    destruct (Z.eqb_spec (zlen (ztake n (zdrop pos d))) 0) as [|Hne]; cbn.
    + destruct (Z.ltb_spec 0 n); [by destruct (sf_pipe f)|lia].
    + intros [= <- <-]. pose proof (zlen_nonneg (ztake n (zdrop pos d))). lia.
  - intros h n h' b Hn [= <- <-]. unfold zlen. rewrite length_replicate. lia.
  - intros h base n off b Hn [= <- E].
    by destruct (Z.eqb_spec (zlen (sim_peek (sm_mem h) (base + off) (Z.to_nat n))) n) as [->|].
Qed.

(** The guest asks for [read(5, 0x1000, 4)]. *)
Definition sim_read_regs : sim :=
  sim_set_regs [(7, ARM64_REG_X8, NR_val NR_read); (7, ARM64_REG_X0, 5);
                (7, ARM64_REG_X1, 0x1000); (7, ARM64_REG_X2, 4)] sim0.

Lemma hook_terminates_witness :
  exists n0, forall n, (n0 <= n)%nat ->
    finished (run n (arm64Intr (D := SimDebugger) (Some kernel_debugger) 7 2) (sim_boot sim_read_regs)).
Proof.
  apply (hook_terminates (D := SimDebugger) ARCH_ARM64 arm64Intr 7 2 (sim_boot sim_read_regs) eq_refl).
  by intros [] key a.
Defined.
