(* ===== verification/FcntlProps.v ===== *)
(** * Descriptors and their flags: theorems

    The flags table follows the debugger's descriptor table: an entry belongs to
    an open descriptor, an open call's flags are what [F_GETFL] returns, a
    duplicate has the flags of its original and a closed descriptor has none.
    The last part has what the code does differently from Linux, and the race
    between [close] and [open]. *)

From stdpp Require Import base list gmap numbers strings.
From S2P Require Import Prelude GoProg GoSpec LinuxABI GoRuntime Structs Host SimHost World GoIO.
From S2P Require Import WorldSpec Fcntl Socket Syscall SimKernel.
Local Open Scope Z_scope.
Local Open Scope go_scope.
Import Fcntl.

(** ** The invariant of the table *)

Section fdprops.
Context {D : Debugger} {FL : FdLaws}.

(** Every descriptor with flags is open. *)
Definition flags_open (w : World) : Prop :=
  forall m fd v, fc_flags (w_fcntl w) = Some m -> m !! fd = Some v -> is_open (w_host w) fd = true.

Definition fd_inv (w : World) : Prop := ready w /\ flags_open w.

(** The calls that change descriptors. *)
Inductive fd_call :=
| CDup3 (oldfd newfd flags : Z)
| CFcntl (fd cmd arg : Z)
| COpen (filename flags mode : Z)
| COpenat (dfd filename flags mode : Z)
| CClose (fd : Z)
| CPipe2 (fildes flags : Z)
| CSocket (domain typ protocol : Z).

Definition do_call (c : fd_call) : prog World Z :=
  match c with
  | CDup3 o n f => dup3 o n f
  | CFcntl fd cmd arg => fcntl fd cmd arg
  | COpen f fl m => open f fl m
  | COpenat d f fl m => openat d f fl m
  | CClose fd => close fd
  | CPipe2 p f => pipe2 p f
  | CSocket d t p => Socket.socket d t p
  end.

(** A change of the host under which the flags still belong to open descriptors. *)
Lemma flags_open_host h w :
  flags_open w -> (forall fd, is_open (w_host w) fd = true -> is_open h fd = true) ->
  flags_open (set_host h w).
Proof. intros Hf Hh m fd v Em Efd. eapply Hh, Hf; done. Qed.

Lemma flags_open_insert w m fd v :
  flags_open w -> fc_flags (w_fcntl w) = Some m -> is_open (w_host w) fd = true ->
  flags_open (with_flags (<[fd := v]> m) w).
Proof.
  intros Hf Em Ho m' fd' v' Em' Efd. cbn in *. simplify_eq.
  destruct (decide (fd = fd')) as [<-|Hne]; [done|]. rewrite lookup_insert_ne in Efd by done.
  by eapply Hf.
Qed.

Lemma ready_flags w : ready w -> exists m,
  fc_rw (w_fcntl w) = rw_free /\ fc_flags (w_fcntl w) = Some m.
Proof. intros [H ([m Hm] & _)]. exists m. split; [apply (H LkFcntl)|done]. Qed.

(** What a postcondition has to give: the flags part; [ready] comes from the
    component's own lemma. *)
Lemma ends_fd_inv {A} (m : prog World A) :
  keeps ready m -> ends fd_inv m (fun _ => flags_open) -> ends fd_inv m (fun _ => fd_inv).
Proof.
  intros Hr Hf n w [Hw1 Hw2]. specialize (Hr n w Hw1). specialize (Hf n w (conj Hw1 Hw2)).
  destruct (run n m w); first [done | by split].
Qed.

Lemma ends_host_same {X A} (f : Host -> Host * X) (k : X -> prog World A) Q :
  (forall h, same_fds h (f h).1) -> (forall x, ends fd_inv (k x) Q) ->
  ends fd_inv (bind (hdo f) k) Q.
Proof.
  intros Hf Hk n w [Hw1 Hw2]. rewrite run_hdo. apply Hk. split; [by apply untouched_host|].
  apply flags_open_host; [done|]. intros fd. by rewrite Hf.
Qed.

Lemma ends_host_get {X A} (f : Host -> X) (k : X -> prog World A) Q :
  (forall x, ends fd_inv (k x) Q) -> ends fd_inv (bind (hget f) k) Q.
Proof. intros Hk n w Hw. rewrite run_hget. by apply Hk. Qed.

Lemma ends_fail_fd e : ends fd_inv (fail e) (fun _ => flags_open).
Proof. intros n w [_ Hw]. done. Qed.

Lemma finish_open_fd fl r : ends fd_inv (finish_open fl r) (fun _ => flags_open).
Proof.
  intros n w [Hw1 Hw2]. unfold finish_open. destruct r as [f|e]; [|by destruct (errors_Is_ErrExist e)].
  rewrite run_hdo. destruct (ready_flags _ Hw1) as (m & E1 & E2).
  rewrite (run_store _ _ _ _ _ m), run_ret by done. apply flags_open_insert; [|done|].
  - apply flags_open_host; [done|]. intros fd Hfd. by rewrite fd_create, Hfd, orb_true_r.
  - cbn. by rewrite fd_create, Z.eqb_refl.
Qed.

Lemma open_fd f fl m : ends fd_inv (open f fl m) (fun _ => flags_open).
Proof.
  apply ends_host_get. intros [p|e]; [|apply ends_fail_fd].
  apply ends_host_same; [intros; apply fd_OpenFile|]. intros; apply finish_open_fd.
Qed.

Lemma openat_fd d f fl m : ends fd_inv (openat d f fl m) (fun _ => flags_open).
Proof.
  apply ends_host_get. intros [p|e]; [|apply ends_fail_fd]. unfold with_dir.
  assert (forall dir, ends fd_inv
    (let! r := hdo (fun h => FS_OpenFile h dir p (toFileFlag fl) (uint32 m)) in finish_open fl r)
    (fun _ => flags_open)) as Hk.
  { intros dir. apply ends_host_same; [intros; apply fd_FS_OpenFile|]. intros; apply finish_open_fd. }
  destruct (d =? AT_FDCWD); apply ends_host_get; [apply Hk|].
  intros [file|e]; [|apply ends_fail_fd]. destruct (as_FS file); [apply Hk|apply ends_fail_fd].
Qed.

Lemma dup3_fd o nf fl : ends fd_inv (dup3 o nf fl) (fun _ => flags_open).
Proof.
  intros n w [Hw1 Hw2]. unfold dup3. rewrite run_hdo.
  pose proof (fd_dup2 (w_host w) o nf) as HL.
  destruct (Dup2File (w_host w) o nf) as [h' [e|]]; cbn [fst snd].
  - rewrite run_fail. apply (flags_open_host h'); [done|]. intros fd. by rewrite HL.
  - destruct (ready_flags _ Hw1) as (m & E1 & E2).
    rewrite (run_store _ _ _ _ _ m), run_ret by done. apply flags_open_insert; [|done|].
    + apply flags_open_host; [done|]. intros fd Hfd. by rewrite HL, Hfd, orb_true_r.
    + cbn. by rewrite HL, Z.eqb_refl.
Qed.

Lemma close_fd fd : ends fd_inv (close fd) (fun _ => flags_open).
Proof.
  intros n w [Hw1 Hw2]. unfold close. rewrite run_hdo.
  pose proof (fd_close (w_host w) fd) as HL.
  destruct (CloseFileDescriptor (w_host w) fd) as [h' [f|e]]; cbn [fst snd].
  - rewrite run_hdo. destruct (ready_flags _ Hw1) as (m & E1 & E2).
    rewrite (run_delete _ _ _ _ m), run_ret by done. cbn.
    intros m' fd' v Em Efd. cbn in *. simplify_eq. apply lookup_delete_Some in Efd as [Hne Efd].
    rewrite fd_file_Close, HL. apply andb_true_intro. split.
    + apply negb_true_iff, Z.eqb_neq. congruence.
    + by eapply Hw2.
  - rewrite run_fail. apply (flags_open_host h'); [done|]. intros x. by rewrite HL.
Qed.

Lemma pipe2_fd p fl : ends fd_inv (pipe2 p fl) (fun _ => flags_open).
Proof.
  apply ends_host_same; [intros; apply fd_Pipe|]. intros [[r wr]|e]; [|apply ends_fail_fd].
  intros n w [Hw1 Hw2]. rewrite !run_hdo. destruct (ready_flags _ Hw1) as (m & E1 & E2).
  rewrite (run_store2 _ _ _ _ _ _ m), run_hdo, run_ret by done.
  set (h1 := CreateFileDescriptor _ r). set (h2 := CreateFileDescriptor _ wr).
  intros m' fd v Em Efd. cbn in Em. simplify_eq. cbn. rewrite fd_MemWrite.
  unfold h2 in *. rewrite fd_create. unfold h1 in *. cbn in *. rewrite fd_create.
  apply lookup_insert_Some in Efd as [[<- _]|[_ Efd]]; [by rewrite Z.eqb_refl|].
  apply lookup_insert_Some in Efd as [[<- _]|[_ Efd]]; [by rewrite Z.eqb_refl, orb_true_r|].
  by rewrite (Hw2 _ _ _ E2 Efd), !orb_true_r.
Qed.

Lemma socket_fd d t p : ends fd_inv (Socket.socket d t p) (fun _ => flags_open).
Proof.
  unfold Socket.socket. cbv zeta. destruct (d =? _); [by apply spec_panic|].
  assert (forall s, ends fd_inv
    (let! fd := hdo (fun h => CreateFileDescriptor h s) in Ret (int32 fd)) (fun _ => flags_open)) as Hk.
  { intros s n w [Hw1 Hw2]. rewrite run_hdo, run_ret. apply flags_open_host; [done|].
    intros fd Hfd. by rewrite fd_create, Hfd, orb_true_r. }
  destruct (Socket.network_of _ _); [apply ends_fail_fd|..];
    (apply ends_host_same; [intros; apply fd_NewSocket|]; intros [s|e];
     [apply Hk|apply ends_fail_fd]).
Qed.

Lemma fcntl_fd fd cmd arg : ends fd_inv (fcntl fd cmd arg) (fun _ => flags_open).
Proof.
  intros n w [Hw1 Hw2]. destruct (ready_flags _ Hw1) as (m & E1 & E2).
  unfold fcntl. rewrite run_hget. destruct (GetFile (w_host w) fd) as [f|e] eqn:Eg; [|done].
  assert (is_open (w_host w) fd = true) as Ho by (unfold is_open; by rewrite Eg).
  destruct (cmd =? F_DUPFD).
  { rewrite run_hdo. pose proof (fd_dup (w_host w) fd) as HL.
    destruct (DupFile (w_host w) fd) as [h' [nf|e]]; cbn [fst snd].
    - destruct HL as (_ & HL). rewrite (run_update _ _ _ (fun v => v) _ _ m) by done.
      rewrite run_ret. apply flags_open_insert; [|done|].
      + apply flags_open_host; [done|]. intros x Hx. by rewrite HL, Hx, orb_true_r.
      + cbn. by rewrite HL, Z.eqb_refl.
    - rewrite run_fail. apply (flags_open_host h'); [done|]. intros x. by rewrite HL. }
  destruct (cmd =? F_GETFD); [by rewrite run_peek|].
  destruct (cmd =? F_SETFD).
  { rewrite (run_update _ _ _ (fun v => Z.lor v O_CLOEXEC) _ _ m), run_ret by done.
    by apply flags_open_insert. }
  destruct (cmd =? F_GETFL); [by rewrite run_peek|].
  destruct (cmd =? F_SETFL).
  { rewrite (run_store _ _ _ _ _ m), run_ret by done. by apply flags_open_insert. }
  destruct ((cmd =? F_GETLK) || _); [done|]. by destruct (_ || _).
Qed.

Lemma do_call_ready c : keeps ready (do_call c).
Proof. destruct c; cbn [do_call]; auto with kernel. Qed.

Lemma do_call_inv c : ends fd_inv (do_call c) (fun _ => fd_inv).
Proof.
  apply ends_fd_inv; [apply do_call_ready|].
  destruct c; cbn [do_call]; auto using dup3_fd, fcntl_fd, open_fd, openat_fd, close_fd,
    pipe2_fd, socket_fd.
Qed.

(** A sequence of calls, each made when the one before has returned. *)
Fixpoint do_calls (cs : list fd_call) : prog World (list Z) :=
  match cs with
  | [] => Ret []
  | c :: cs => let! r := do_call c in let! rs := do_calls cs in Ret (r :: rs)
  end.

(** Any sequence of dup3, fcntl, open, openat, close, pipe2 and socket calls
    ends (it neither blocks nor loops), and after it, also when it ends in a
    panic, only open descriptors have an entry in the flags table. *)
Theorem flags_belong_to_open_fds cs n w :
  ready w -> flags_open w ->
  match run n (do_calls cs) w with
  | Returned _ w' | Panicked _ w' => ready w' /\ flags_open w'
  | Blocked _ _ | Unfinished _ _ => False
  end.
Proof.
  intros Hr Hf. assert (ends fd_inv (do_calls cs) (fun _ => fd_inv)) as H.
  { clear -FL. induction cs as [|c cs IH]; cbn [do_calls]; [by apply spec_ret|].
    eapply spec_bind; [apply do_call_inv|]. intros r.
    eapply spec_bind; [apply IH|]. intros rs. by apply spec_ret. }
  specialize (H n w (conj Hr Hf)). by destruct (run n (do_calls cs) w).
Qed.

(** ** Round trips *)

(** After a successful open the descriptor returned is the file that was
    opened, F_GETFL returns the flags of the open call and F_GETFD whether
    O_CLOEXEC was among them. *)
Theorem open_flags_roundtrip n filename flags mode w path h1 file :
  ready w -> is_i32 flags ->
  MemReadString (w_host w) filename = inl path ->
  OpenFile (w_host w) path (toFileFlag flags) (uint32 mode) = (h1, inl file) ->
  let fd := (CreateFileDescriptor h1 file).2 in
  is_u32 fd -> is_i32 fd ->
  exists w', run n (open filename flags mode) w = Returned fd w' /\
    GetFile (w_host w') fd = inl file /\ w_err w' = w_err w /\
    run n (fcntl fd F_GETFL 0) w' = Returned flags w' /\
    run n (fcntl fd F_GETFD 0) w' = Returned (if has_bits flags O_CLOEXEC then 1 else 0) w'.
Proof.
  intros Hw Hfl Hp Ho fd Hu Hi. destruct (ready_flags _ Hw) as (m & E1 & E2).
  eexists. unfold open, with_path. rewrite run_hget, Hp, run_hdo, Ho. cbn [fst snd finish_open].
  rewrite run_hdo. cbn [w_host set_host]. rewrite (run_store _ _ _ _ _ m), run_ret by done.
  rewrite int32_id by done. split; [done|]. cbn [w_host with_flags set_fcntl set_host].
  pose proof (fd_create_file h1 file) as Hg. split; [done|]. split; [done|].
  unfold fcntl; rewrite !run_hget; cbn [w_host with_flags set_fcntl set_host];
    unfold fd; rewrite Hg; cbn [F_DUPFD F_GETFD F_SETFD F_GETFL Z.eqb Pos.eqb].
  rewrite !run_peek, !run_ret by done. unfold flag_of. cbn. by rewrite lookup_insert_eq.
Qed.

(** After a successful close the descriptor has no flags and every fcntl on
    it fails with EBADF; all other descriptors are open, and have their
    flags, as before. *)
Theorem close_forgets n fd w h1 file :
  fd_inv w -> CloseFileDescriptor (w_host w) fd = (h1, inl file) ->
  exists w', run n (close fd) w = Returned 0 w' /\
    flag_of w' fd = 0 /\
    (forall cmd arg, run n (fcntl fd cmd arg) w' = Returned (-1) (set_err (Errno_val EBADF) w')) /\
    (forall fd', fd' <> fd -> is_open (w_host w') fd' = is_open (w_host w) fd' /\
                              flag_of w' fd' = flag_of w fd').
Proof.
  intros [Hw _] Hc. destruct (ready_flags _ Hw) as (m & E1 & E2).
  pose proof (fd_close (w_host w) fd) as HL. rewrite Hc in HL.
  eexists. unfold close. rewrite run_hdo, Hc. cbn [fst snd]. rewrite run_hdo.
  rewrite (run_delete _ _ _ _ m), run_ret by done. split; [done|].
  set (w' := with_flags _ _). assert (forall x, is_open (w_host w') x = negb (x =? fd) && is_open (w_host w) x) as Ho.
  { intros x. cbn. by rewrite fd_file_Close, HL. }
  assert (forall x, flag_of w' x = if decide (x = fd) then 0 else flag_of w x) as Hfl.
  { intros x. unfold flag_of. cbn. rewrite E2. case_decide; subst.
    - by rewrite lookup_delete_eq.
    - by rewrite lookup_delete_ne by done. }
  split; [by rewrite Hfl, decide_True by done|]. split.
  - intros cmd arg. unfold fcntl. rewrite run_hget. specialize (Ho fd). rewrite Z.eqb_refl in Ho.
    unfold is_open in Ho at 1. by destruct (GetFile (w_host w') fd).
  - intros x Hx. rewrite Ho, Hfl, decide_False by done. by apply Z.eqb_neq in Hx as ->.
Qed.

(** F_DUPFD returns a new open descriptor with the flags of the old one and
    leaves the flags of all others alone. *)
Theorem dup_copies_flags n fd arg w f h1 newfd :
  ready w -> GetFile (w_host w) fd = inl f -> DupFile (w_host w) fd = (h1, inl newfd) ->
  is_i32 newfd ->
  exists w', run n (fcntl fd F_DUPFD arg) w = Returned newfd w' /\
    is_open (w_host w') newfd = true /\
    flag_of w' newfd = flag_of w fd /\
    (forall fd', fd' <> newfd -> flag_of w' fd' = flag_of w fd').
Proof.
  intros Hw Hg Hd Hi. destruct (ready_flags _ Hw) as (m & E1 & E2).
  pose proof (fd_dup (w_host w) fd) as HL. rewrite Hd in HL. destruct HL as [_ HL].
  eexists. unfold fcntl. rewrite run_hget, Hg. change (F_DUPFD =? F_DUPFD) with true. cbv iota.
  rewrite run_hdo, Hd. cbn [fst snd].
  rewrite (run_update _ _ _ (fun v => v) _ _ m), run_ret, int32_id by done.
  split; [done|]. split; [cbn; by rewrite HL, Z.eqb_refl|]. unfold flag_of. cbn. rewrite E2.
  split; [by rewrite lookup_insert_eq|]. intros fd' Hne. by rewrite lookup_insert_ne by congruence.
Qed.

End fdprops.

Section fcntl_more.
Context {D : Debugger}.

(** F_SETFL replaces all flags of the descriptor, O_CLOEXEC included, and
    those of no other. *)
Theorem setfl_overwrites n fd arg w f :
  ready w -> GetFile (w_host w) fd = inl f ->
  exists w', run n (fcntl fd F_SETFL arg) w = Returned 0 w' /\
    run n (fcntl fd F_GETFL 0) w' = Returned (int32 arg) w' /\
    run n (fcntl fd F_GETFD 0) w' = Returned (if has_bits (int32 arg) O_CLOEXEC then 1 else 0) w' /\
    (forall fd', fd' <> fd -> flag_of w' fd' = flag_of w fd').
Proof.
  intros Hw Hg. destruct (ready_flags _ Hw) as (m & E1 & E2). eexists.
  unfold fcntl at 1. rewrite run_hget, Hg. cbn [F_DUPFD F_GETFD F_SETFD F_GETFL F_SETFL Z.eqb Pos.eqb].
  rewrite (run_store _ _ _ _ _ m), run_ret by done. split; [done|].
  unfold fcntl. rewrite !run_hget. cbn [w_host with_flags set_fcntl]. rewrite Hg.
  cbn [F_DUPFD F_GETFD F_SETFD F_GETFL Z.eqb Pos.eqb]. rewrite !run_peek, !run_ret by done.
  unfold flag_of. cbn. rewrite lookup_insert_eq. split; [done|]. split; [done|].
  intros fd' Hne. rewrite E2. by rewrite lookup_insert_ne by congruence.
Qed.

(** F_SETFD sets O_CLOEXEC whatever its argument is, so the flag cannot be
    cleared with it. *)
Theorem setfd_ignores_argument n fd arg w f :
  ready w -> GetFile (w_host w) fd = inl f ->
  exists w', run n (fcntl fd F_SETFD arg) w = Returned 0 w' /\
    run n (fcntl fd F_GETFD 0) w' = Returned 1 w'.
Proof.
  intros Hw Hg. destruct (ready_flags _ Hw) as (m & E1 & E2). eexists.
  unfold fcntl at 1. rewrite run_hget, Hg. cbn [F_DUPFD F_GETFD F_SETFD Z.eqb Pos.eqb].
  rewrite (run_update _ _ _ (fun v => Z.lor v O_CLOEXEC) _ _ m), run_ret by done. split; [done|].
  unfold fcntl. rewrite run_hget. cbn [w_host with_flags set_fcntl]. rewrite Hg.
  cbn [F_DUPFD F_GETFD Z.eqb Pos.eqb]. rewrite run_peek, run_ret by done.
  unfold flag_of, has_bits. cbn [fc_flags w_fcntl with_flags set_fcntl nmap_get].
  rewrite lookup_insert_eq. cbn [default from_option id].
  rewrite Z.land_lor_distr_l, Z.land_diag.
  destruct (Z.eqb_spec (Z.lor (Z.land (default 0 (m !! fd)) O_CLOEXEC) O_CLOEXEC) 0) as [E|]; [|done].
  by apply Z.lor_eq_0_iff in E as [_ E].
Qed.

(** openat on AT_FDCWD behaves as open in every state. *)
Theorem openat_cwd_is_open `{!RootLaw} n filename flags mode w :
  run n (openat AT_FDCWD filename flags mode) w = run n (open filename flags mode) w.
Proof.
  unfold openat, open, with_path. rewrite !run_hget.
  destruct (MemReadString (w_host w) filename) as [p|e]; [|done].
  unfold with_dir. change (negb (AT_FDCWD =? AT_FDCWD)) with false. cbv iota.
  rewrite run_hget, !run_hdo. by rewrite root_open.
Qed.

(** C37: The file flags an open call is given are, flag by flag, the bits of
    the Linux flags; O_RDWR takes precedence over O_WRONLY. *)
Theorem toFileFlag_bits test `{!FlagLaws test} flags :
  test (toFileFlag flags) FWrOnly = has_bits flags O_WRONLY && negb (has_bits flags O_RDWR) /\
  test (toFileFlag flags) FRdWr = has_bits flags O_RDWR /\
  test (toFileFlag flags) FAppend = has_bits flags O_APPEND /\
  test (toFileFlag flags) FCreate = has_bits flags O_CREAT /\
  test (toFileFlag flags) FExcl = has_bits flags O_EXCL /\
  test (toFileFlag flags) FSync = has_bits flags O_SYNC /\
  test (toFileFlag flags) FTrunc = has_bits flags O_TRUNC.
Proof.
  unfold toFileFlag.
  change fs_O_WRONLY with (flag_const FWrOnly). change fs_O_RDWR with (flag_const FRdWr).
  change fs_O_APPEND with (flag_const FAppend). change fs_O_CREATE with (flag_const FCreate).
  change fs_O_EXCL with (flag_const FExcl). change fs_O_SYNC with (flag_const FSync).
  change fs_O_TRUNC with (flag_const FTrunc).
  destruct (has_bits flags O_WRONLY), (has_bits flags O_RDWR), (has_bits flags O_APPEND),
    (has_bits flags O_CREAT), (has_bits flags O_EXCL), (has_bits flags O_SYNC),
    (has_bits flags O_TRUNC); rewrite ?flag_union, ?flag_single, ?flag_rdonly; done.
Qed.

(** On a kernel whose tables are gone an open panics on the nil map with the
    lock still held, and every later fcntl that reads flags blocks. *)
Theorem open_after_close_wedges n filename flags mode w path h1 file :
  locks_free w -> fc_flags (w_fcntl w) = None ->
  MemReadString (w_host w) filename = inl path ->
  OpenFile (w_host w) path (toFileFlag flags) (uint32 mode) = (h1, inl file) ->
  exists w', run n (open filename flags mode) w = Panicked PanicNilMap w' /\
    get_rw LkFcntl w' = RW true 0 /\
    (forall fd f arg, GetFile (w_host w') fd = inl f ->
       exists m, run n (fcntl fd F_GETFL arg) w' = Blocked m w').
Proof.
  intros Hl Hn Hp Ho. eexists. unfold open, with_path. rewrite run_hget, Hp, run_hdo, Ho.
  cbn [fst snd finish_open]. rewrite run_hdo, run_store_closed;
    [|by apply (Hl LkFcntl)|done]. split; [done|]. split; [done|].
  intros fd f arg Hg. eexists. unfold fcntl. rewrite run_hget, Hg. reflexivity.
Qed.

(** fcntl returns for every descriptor, command and argument, except that on
    an open descriptor a command the code does not list (8 to 11 and from 15
    on) panics and changes nothing. *)
Theorem fcntl_total n fd cmd arg w :
  ready w -> is_u32 cmd ->
  match run n (fcntl fd cmd arg) w with
  | Returned _ _ => True
  | Panicked p w' => p = PanicMsg "fcntl: unsupported" /\ w' = w /\ is_open (w_host w) fd = true /\
                     (8 <= cmd <= 11 \/ 15 <= cmd)
  | _ => False
  end.
Proof.
  intros Hw Hc. destruct (ready_flags _ Hw) as (m & E1 & E2).
  unfold fcntl. rewrite run_hget. destruct (GetFile (w_host w) fd) as [f|e] eqn:Eg; [|done].
  destruct (Z.eqb_spec cmd F_DUPFD).
  { rewrite run_hdo. destruct (DupFile (w_host w) fd) as [h' [nf|err]]; cbn [fst snd]; [|done].
    by rewrite (run_update _ _ _ (fun v => v) _ _ m). }
  destruct (Z.eqb_spec cmd F_GETFD); [by rewrite run_peek|].
  destruct (Z.eqb_spec cmd F_SETFD).
  { by rewrite (run_update _ _ _ (fun v => Z.lor v O_CLOEXEC) _ _ m). }
  destruct (Z.eqb_spec cmd F_GETFL); [by rewrite run_peek|].
  destruct (Z.eqb_spec cmd F_SETFL); [by rewrite (run_store _ _ _ _ _ m)|].
  destruct ((cmd =? F_GETLK) || _) eqn:E3; [done|].
  destruct (_ || (cmd =? F_SETLKW64)) eqn:E4; [done|]. cbn [run]. split; [done|]. split; [done|].
  split; [unfold is_open; by rewrite Eg|].
  repeat match goal with H : _ || _ = false |- _ => apply orb_false_elim in H as [? H] end.
  repeat match goal with H : (_ =? _) = false |- _ => apply Z.eqb_neq in H end.
  unfold F_DUPFD, F_GETFD, F_SETFD, F_GETFL, F_SETFL, F_GETLK, F_GETLK64, F_SETLK, F_SETLKW,
    F_SETLK64, F_SETLKW64, is_u32 in *. lia.
Qed.

End fcntl_more.

(** ** Witnesses, on the concrete debugger *)

Lemma sim_fd_inv : fd_inv sim_world.
Proof. split; [apply sim_ready|]. intros m fd v E H. cbn in E. by simplify_eq. Qed.

Definition sim_fd_calls : list fd_call :=
  [COpen 0x1000 1 0; CDup3 3 9 2; CClose 3; CPipe2 0x1000 0; CSocket 2 1 0].

Lemma flags_belong_to_open_fds_witness :
  match run 0 (do_calls sim_fd_calls) sim_world with
  | Returned _ w' | Panicked _ w' => ready w' /\ flags_open w'
  | Blocked _ _ | Unfinished _ _ => False
  end.
Proof. exact (flags_belong_to_open_fds sim_fd_calls 0 sim_world sim_ready (proj2 sim_fd_inv)). Defined.

Lemma open_flags_roundtrip_witness : exists w',
  run 0 (open 0x1000 0x80001 0) sim_world = Returned 3 w' /\
  GetFile (w_host w') 3 = inl sim_regular /\ w_err w' = 0 /\
  run 0 (fcntl 3 F_GETFL 0) w' = Returned 0x80001 w' /\
  run 0 (fcntl 3 F_GETFD 0) w' = Returned 1 w'.
Proof.
  refine (open_flags_roundtrip 0 0x1000 0x80001 0 sim_world sim_path sim0 sim_regular
    sim_ready _ eq_refl eq_refl _ _); vm_compute; split; congruence.
Defined.

Lemma close_forgets_witness : exists w',
  run 0 (close 5) sim_world = Returned 0 w' /\ flag_of w' 5 = 0 /\
  (forall cmd arg, run 0 (fcntl 5 cmd arg) w' = Returned (-1) (set_err (Errno_val EBADF) w')) /\
  (forall fd', fd' <> 5 -> is_open (w_host w') fd' = is_open (w_host sim_world) fd' /\
                           flag_of w' fd' = flag_of sim_world fd').
Proof. eapply (close_forgets 0 5 sim_world); [apply sim_fd_inv|reflexivity]. Defined.

Lemma dup_copies_flags_witness : exists w',
  run 0 (fcntl 5 F_DUPFD 0) sim_world = Returned 3 w' /\
  is_open (w_host w') 3 = true /\ flag_of w' 3 = flag_of sim_world 5 /\
  (forall fd', fd' <> 3 -> flag_of w' fd' = flag_of sim_world fd').
Proof.
  eapply (dup_copies_flags 0 5 0 sim_world);
    [apply sim_ready|reflexivity|reflexivity|vm_compute; split; congruence].
Defined.

Lemma setfl_overwrites_witness : exists w',
  run 0 (fcntl 5 F_SETFL 0x400) sim_world = Returned 0 w' /\
  run 0 (fcntl 5 F_GETFL 0) w' = Returned 0x400 w' /\
  run 0 (fcntl 5 F_GETFD 0) w' = Returned 0 w' /\
  (forall fd', fd' <> 5 -> flag_of w' fd' = flag_of sim_world fd').
Proof. exact (setfl_overwrites 0 5 0x400 sim_world sim_regular sim_ready eq_refl). Defined.

Lemma setfd_ignores_argument_witness : exists w',
  run 0 (fcntl 5 F_SETFD 0) sim_world = Returned 0 w' /\
  run 0 (fcntl 5 F_GETFD 0) w' = Returned 1 w'.
Proof. exact (setfd_ignores_argument 0 5 0 sim_world sim_regular sim_ready eq_refl). Defined.

Lemma openat_cwd_is_open_witness :
  run 0 (openat AT_FDCWD 0x1000 1 0) sim_world = run 0 (open 0x1000 1 0) sim_world.
Proof. exact (openat_cwd_is_open 0 0x1000 1 0 sim_world). Defined.

Lemma toFileFlag_bits_witness :
  sim_flag_test (toFileFlag 0x241) FWrOnly = true /\ sim_flag_test (toFileFlag 0x241) FRdWr = false /\
  sim_flag_test (toFileFlag 0x241) FAppend = false /\ sim_flag_test (toFileFlag 0x241) FCreate = true /\
  sim_flag_test (toFileFlag 0x241) FExcl = false /\ sim_flag_test (toFileFlag 0x241) FSync = false /\
  sim_flag_test (toFileFlag 0x241) FTrunc = true.
Proof. exact (toFileFlag_bits sim_flag_test 0x241). Defined.

Lemma open_after_close_wedges_witness : exists w',
  run 0 (open 0x1000 1 0) (Syscall.new_world (D := SimDebugger) sim0) = Panicked PanicNilMap w' /\
  get_rw LkFcntl w' = RW true 0 /\
  (forall fd f arg, GetFile (w_host w') fd = inl f ->
     exists m, run 0 (fcntl fd F_GETFL arg) w' = Blocked m w').
Proof.
  eapply (open_after_close_wedges 0 0x1000 1 0 (Syscall.new_world (D := SimDebugger) sim0));
    [by intros []|reflexivity|reflexivity|reflexivity].
Defined.

Lemma fcntl_total_witness :
  match run 0 (fcntl 5 1030 0) sim_world with
  | Returned _ _ => True
  | Panicked p w' => p = PanicMsg "fcntl: unsupported" /\ w' = sim_world /\
                     is_open (w_host sim_world) 5 = true /\ (8 <= 1030 <= 11 \/ 15 <= 1030)
  | _ => False
  end.
Proof. apply (fcntl_total 0 5 1030 0 sim_world); [apply sim_ready|vm_compute; split; congruence]. Defined.

(** ** close and open race

    [close] gives the descriptor back to the debugger before it takes the lock
    to forget the flags. *)

(** Descriptor 3 is the file, opened read-write. *)
Definition race_world : World (D := SimDebugger) :=
  with_flags {[3 := 2]}
    (sim_boot (sim_set_fds (<[3 := sim_regular]> ∅) sim0)).

(** The closing goroutine, stopped after its first step; then the opening one;
    then the rest of the first. *)
Definition race_schedule : list nat := [0; 1; 1; 1; 1; 1; 1; 0; 0; 0; 0]%nat.

(** A schedule of a close and an open on which the open is given the
    descriptor just closed and then loses its flags: the close removes the
    table entry after the open has stored it. *)
Theorem close_open_race :
  match interleave race_schedule [close 3; open 0x1000 1 0] race_world with
  | Some ([Ret r0; Ret r1], w') =>
      r0 = 0 /\ r1 = 3 /\ is_open (w_host w') 3 = true /\
      value_of (run 0 (fcntl 3 F_GETFL 0) w') = Some 0
  | _ => False
  end.
Proof. vm_compute. done. Qed.
