(* ===== verification/FdTable.v ===== *)
(** * The descriptor table

    What the descriptor calls promise together: one table from descriptors to a
    file and its flags.  The files live in the debugger and the flags in the
    kernel; [fdtab_of] puts them together, [fd_step] says what each call may do
    to the table and answer, and the handlers refine it ([call_refines],
    [calls_refine]).  What clients need follows from the table alone. *)

From stdpp Require Import base list gmap numbers strings.
From S2P Require Import Prelude GoProg GoSpec LinuxABI GoRuntime Structs Host SimHost World GoIO.
From S2P Require Import WorldSpec Fcntl Socket Syscall SimKernel FcntlProps.
Local Open Scope Z_scope.
Local Open Scope go_scope.
Import Fcntl.

Section fdtable.
Context {D : Debugger}.

(** ** The specification *)

Definition fdtab : Type := Z -> option (File * Z).

#[export] Instance fdtab_equiv : Equiv fdtab := fun T T' => forall fd, T fd = T' fd.
#[export] Instance fdtab_equivalence : Equivalence (≡@{fdtab}).
Proof.
  split; [by intros T fd|by intros T T' H fd|]. intros T T' T'' H H' fd. by rewrite (H fd).
Qed.

Definition put (fd : Z) (e : option (File * Z)) (T : fdtab) : fdtab :=
  fun x => if x =? fd then e else T x.

Lemma put_eq fd e T : put fd e T fd = e.
Proof. unfold put. by rewrite Z.eqb_refl. Qed.
Lemma put_ne fd fd' e T : fd' <> fd -> put fd e T fd' = T fd'.
Proof. intros Hne. unfold put. by apply Z.eqb_neq in Hne as ->. Qed.

(** What the caller sees: a result, or -1 and errno. *)
Inductive answer := Done (r : Z) | Error (e : Errno).

(** The commands of fcntl that read or change the flags of one descriptor. *)
Definition fcntl_flags (cmd arg v : Z) : option (Z * Z) :=
  if cmd =? F_GETFD then Some (if has_bits v O_CLOEXEC then 1 else 0, v)
  else if cmd =? F_SETFD then Some (0, Z.lor v O_CLOEXEC)
  else if cmd =? F_GETFL then Some (v, v)
  else if cmd =? F_SETFL then Some (0, int32 arg)
  else if bool_decide (cmd ∈ [F_GETLK; F_GETLK64; F_SETLK; F_SETLKW; F_SETLK64; F_SETLKW64]) then Some (0, v)
  else None.

(** The errors of a call, which then changes nothing. *)
Inductive call_error (T : fdtab) : fd_call -> Errno -> Prop :=
| er_open filename flags mode e :
    e = ENOENT \/ e = EEXIST -> call_error T (COpen filename flags mode) e
| er_openat dfd filename flags mode e :
    e = ENOENT \/ e = EEXIST -> call_error T (COpenat dfd filename flags mode) e
| er_openat_closed dfd filename flags mode :
    dfd <> AT_FDCWD -> T dfd = None -> call_error T (COpenat dfd filename flags mode) EBADF
| er_openat_file dfd filename flags mode f v :
    dfd <> AT_FDCWD -> T dfd = Some (f, v) -> as_FS f = None ->
    call_error T (COpenat dfd filename flags mode) ENOTDIR
| er_dup3 o n flags : call_error T (CDup3 o n flags) EBADF
| er_closed fd cmd arg : T fd = None -> call_error T (CFcntl fd cmd arg) EBADF
| er_dupfd fd arg : call_error T (CFcntl fd F_DUPFD arg) EBADF
| er_close fd : call_error T (CClose fd) EBADF
| er_pipe2 p flags : call_error T (CPipe2 p flags) EMFILE
| er_socket_family d t p :
    Socket.network_of d (Socket.mask_type t) = NetNone -> call_error T (CSocket d t p) EAFNOSUPPORT
| er_socket d t p :
    Socket.network_of d (Socket.mask_type t) <> NetNone -> call_error T (CSocket d t p) EACCES.

Inductive fd_step (T : fdtab) : fd_call -> answer -> fdtab -> Prop :=
| st_open filename flags mode fd f T' :
    T fd = None -> T' ≡ put fd (Some (f, flags)) T ->
    fd_step T (COpen filename flags mode) (Done (int32 fd)) T'
| st_openat dfd filename flags mode fd f T' :
    T fd = None -> T' ≡ put fd (Some (f, flags)) T ->
    fd_step T (COpenat dfd filename flags mode) (Done (int32 fd)) T'
| st_dup3 o n flags f v T' :
    T o = Some (f, v) -> T' ≡ put n (Some (f, flags)) T ->
    fd_step T (CDup3 o n flags) (Done (int32 n)) T'
| st_dupfd fd arg n f v T' :
    T fd = Some (f, v) -> T n = None -> T' ≡ put n (Some (f, v)) T ->
    fd_step T (CFcntl fd F_DUPFD arg) (Done (int32 n)) T'
| st_fcntl fd cmd arg f v r v' T' :
    T fd = Some (f, v) -> cmd <> F_DUPFD -> fcntl_flags cmd arg v = Some (r, v') ->
    T' ≡ put fd (Some (f, v')) T ->
    fd_step T (CFcntl fd cmd arg) (Done r) T'
| st_close fd e T' :
    T fd = Some e -> T' ≡ put fd None T ->
    fd_step T (CClose fd) (Done 0) T'
| st_pipe2 p flags rfd wfd r w T' :
    T rfd = None -> T wfd = None -> rfd <> wfd ->
    T' ≡ put wfd (Some (w, flags)) (put rfd (Some (r, flags)) T) ->
    fd_step T (CPipe2 p flags) (Done 0) T'
| st_socket d t p fd s T' :
    T fd = None -> T' ≡ put fd (Some (s, 0)) T ->
    fd_step T (CSocket d t p) (Done (int32 fd)) T'
| st_error c e T' :
    call_error T c e -> T' ≡ T -> fd_step T c (Error e) T'.

(** Where the code gives up. *)
Inductive call_panics (T : fdtab) : fd_call -> Prop :=
| pn_fcntl fd cmd arg f v :
    T fd = Some (f, v) -> cmd <> F_DUPFD -> fcntl_flags cmd arg v = None -> call_panics T (CFcntl fd cmd arg)
| pn_socket t p : call_panics T (CSocket Socket.AF_UNSPEC t p).

(** ** The table of a state *)

Definition fdtab_of (w : World) : fdtab :=
  fun fd => (fun f => (f, flag_of w fd)) <$> file_at (w_host w) fd.

(** How an answer is given. *)
Definition answered (a : answer) (r : Z) (w w' : World) : Prop :=
  match a with
  | Done r' => r = r' /\ w_err w' = w_err w
  | Error e => r = -1 /\ w_err w' = Errno_val e
  end.

#[export] Instance put_proper fd e : Proper ((≡) ==> (≡@{fdtab})) (put fd e).
Proof. intros T T' H x. unfold put. by rewrite (H x). Qed.

Lemma fdtab_file w fd f : file_at (w_host w) fd = Some f -> fdtab_of w fd = Some (f, flag_of w fd).
Proof. intros E. unfold fdtab_of. by rewrite E. Qed.

Lemma fdtab_none w fd : file_at (w_host w) fd = None -> fdtab_of w fd = None.
Proof. intros E. unfold fdtab_of. by rewrite E. Qed.

Lemma fdtab_same h w : same_files (w_host w) h -> fdtab_of (set_host h w) ≡ fdtab_of w.
Proof. intros H fd. unfold fdtab_of. cbn. by rewrite (H fd). Qed.

(** A descriptor gets a file, or loses it, and gets flags. *)
Lemma fdtab_put w fd o v h m :
  fc_flags (w_fcntl w) = Some m ->
  (forall x, file_at h x = if x =? fd then o else file_at (w_host w) x) ->
  fdtab_of (with_flags (<[fd := v]> m) (set_host h w)) ≡ put fd ((fun f => (f, v)) <$> o) (fdtab_of w).
Proof.
  intros Em Hf x. unfold fdtab_of, put, flag_of. cbn. rewrite Hf, Em. cbn.
  destruct (Z.eqb_spec x fd) as [->|Hne]; [by rewrite lookup_insert_eq|by rewrite lookup_insert_ne].
Qed.

Lemma fdtab_set w fd f v m :
  fc_flags (w_fcntl w) = Some m -> file_at (w_host w) fd = Some f ->
  fdtab_of (with_flags (<[fd := v]> m) w) ≡ put fd (Some (f, v)) (fdtab_of w).
Proof.
  intros Em Ef. change (with_flags (<[fd := v]> m) w) with (with_flags (<[fd := v]> m) (set_host (w_host w) w)).
  rewrite (fdtab_put w fd (Some f) v (w_host w) m); [done|done|].
  intros x. by destruct (Z.eqb_spec x fd) as [->|].
Qed.

(** What a handler does refines the table. *)
Definition refines (c : fd_call) (w : World) (o : outcome World Z) : Prop :=
  match o with
  | Returned r w' => exists a, answered a r w w' /\ fd_step (fdtab_of w) c a (fdtab_of w')
  | Panicked _ w' => w' = w /\ call_panics (fdtab_of w) c
  | Blocked _ _ | Unfinished _ _ => False
  end.

Lemma refines_error c w h e :
  same_files (w_host w) h -> call_error (fdtab_of w) c e ->
  refines c w (Returned (-1) (set_err (Errno_val e) (set_host h w))).
Proof.
  intros Hh He. exists (Error e). split; [done|]. apply st_error; [done|]. by apply fdtab_same.
Qed.

Lemma refines_fail c w e : call_error (fdtab_of w) c e -> refines c w (Returned (-1) (set_err (Errno_val e) w)).
Proof. intros He. by apply (refines_error c w (w_host w)). Qed.

Context {FL : FileLaws}.

Lemma finish_open_table n flags r w :
  ready w ->
  match r with
  | inl f => exists fd w', run n (finish_open flags r) w = Returned (int32 fd) w' /\
      w_err w' = w_err w /\ fdtab_of w fd = None /\ fdtab_of w' ≡ put fd (Some (f, flags)) (fdtab_of w)
  | inr err => exists e, (e = ENOENT \/ e = EEXIST) /\
      run n (finish_open flags r) w = Returned (-1) (set_err (Errno_val e) w)
  end.
Proof.
  intros Hw. destruct r as [f|err]; cbn [finish_open].
  - destruct (ready_flags _ Hw) as (m & E1 & E2). rewrite run_hdo, (run_store _ _ _ _ _ m), run_ret by done.
    do 2 eexists. split; [done|]. split; [done|]. split; [apply fdtab_none, files_create_fresh|].
    apply (fdtab_put w _ (Some f)); [done|]. intros x. apply files_create.
  - destruct (errors_Is_ErrExist err); rewrite run_fail; eexists; (split; [|done]); auto.
Qed.

(** The common end of [open] and [openat]. *)
Lemma opened_refines c n fl w h r :
  ready w -> same_files (w_host w) h ->
  (forall fd f T', fdtab_of w fd = None -> T' ≡ put fd (Some (f, fl)) (fdtab_of w) ->
     fd_step (fdtab_of w) c (Done (int32 fd)) T') ->
  (forall e, e = ENOENT \/ e = EEXIST -> call_error (fdtab_of w) c e) ->
  refines c w (run n (finish_open fl r) (set_host h w)).
Proof.
  intros Hw Hs Hd He. pose proof (fdtab_same h w Hs) as Ht.
  pose proof (finish_open_table n fl r (set_host h w) (untouched_host _ _ Hw)) as Hf.
  destruct r as [file|err].
  - destruct Hf as (fd & w' & -> & Herr & Hn & Hp). exists (Done (int32 fd)). split; [done|].
    rewrite (Ht fd) in Hn. rewrite Ht in Hp. by eapply Hd.
  - destruct Hf as (e & Hin & ->). apply refines_error; auto.
Qed.

Lemma open_refines n f fl m w : ready w -> refines (COpen f fl m) w (run n (open f fl m) w).
Proof.
  intros Hw. unfold open, with_path. rewrite run_hget.
  destruct (MemReadString (w_host w) f) as [p|e]; [|apply refines_fail; constructor; auto].
  rewrite run_hdo. apply opened_refines; [done|apply files_OpenFile|by econstructor|by constructor].
Qed.

Lemma openat_refines n d f fl m w : ready w -> refines (COpenat d f fl m) w (run n (openat d f fl m) w).
Proof.
  intros Hw. unfold openat, with_path. rewrite run_hget.
  destruct (MemReadString (w_host w) f) as [p|e]; [|apply refines_fail; constructor; auto].
  assert (forall dir, refines (COpenat d f fl m) w (run n
    (let! r := hdo (fun h => FS_OpenFile h dir p (toFileFlag fl) (uint32 m)) in finish_open fl r) w)) as Hk.
  { intros dir. rewrite run_hdo.
    apply opened_refines; [done|apply files_FS_OpenFile|by econstructor|by constructor]. }
  unfold with_dir. destruct (Z.eqb_spec d AT_FDCWD) as [->|Hne]; cbn [negb]; rewrite run_hget; [apply Hk|].
  destruct (GetFile (w_host w) d) as [file|e] eqn:Eg.
  - assert (file_at (w_host w) d = Some file) as Ef by (unfold file_at; by rewrite Eg).
    destruct (as_FS file) as [dir|] eqn:Ea; [apply Hk|].
    apply refines_fail. by eapply er_openat_file; [|apply fdtab_file|].
  - apply refines_fail, er_openat_closed; [done|]. apply fdtab_none. unfold file_at. by rewrite Eg.
Qed.

Lemma dup3_refines n o nf fl w : ready w -> refines (CDup3 o nf fl) w (run n (dup3 o nf fl) w).
Proof.
  intros Hw. unfold dup3. rewrite run_hdo. pose proof (files_dup2 (w_host w) o nf) as HL.
  destruct (Dup2File (w_host w) o nf) as [h' [e|]]; cbn [fst snd].
  - apply refines_error; [done|constructor].
  - destruct HL as [[f Ef] HL]. destruct (ready_flags _ Hw) as (m & E1 & E2).
    rewrite (run_store _ _ _ _ _ m), run_ret by done. exists (Done (int32 nf)). split; [done|].
    apply (st_dup3 _ _ _ _ f (flag_of w o)); [by apply fdtab_file|].
    rewrite <- (fdtab_put w nf (Some f) fl h' m); [done|done|]. intros x. by rewrite HL, Ef.
Qed.

Lemma close_refines n fd w : ready w -> refines (CClose fd) w (run n (close fd) w).
Proof.
  intros Hw. unfold close. rewrite run_hdo. pose proof (files_close (w_host w) fd) as HL.
  destruct (CloseFileDescriptor (w_host w) fd) as [h' [f|e]]; cbn [fst snd].
  - destruct HL as [Ef HL]. rewrite run_hdo. destruct (ready_flags _ Hw) as (m & E1 & E2).
    rewrite (run_delete _ _ _ _ m), run_ret by done. exists (Done 0). split; [done|].
    eapply st_close; [by apply fdtab_file|]. intros x. unfold fdtab_of, put, flag_of. cbn.
    rewrite files_file_Close, HL, E2. cbn.
    destruct (Z.eqb_spec x fd); [done|]. by rewrite lookup_delete_ne.
  - apply refines_error; [done|constructor].
Qed.

Lemma pipe2_refines n p fl w : ready w -> refines (CPipe2 p fl) w (run n (pipe2 p fl) w).
Proof.
  intros Hw. unfold pipe2. rewrite run_hdo. pose proof (files_Pipe (w_host w)) as Hs.
  destruct (os_Pipe (w_host w)) as [h [[r wr]|e]]; cbn [fst snd] in *; [|apply refines_error; [done|constructor]].
  rewrite !run_hdo. cbn [w_host set_host]. destruct (ready_flags _ Hw) as (m & E1 & E2).
  rewrite (run_store2 _ _ _ _ _ _ m), run_hdo, run_ret by done.
  set (rfd := (CreateFileDescriptor h r).2). set (h1 := (CreateFileDescriptor h r).1).
  set (wfd := (CreateFileDescriptor h1 wr).2). set (h2 := (CreateFileDescriptor h1 wr).1).
  pose proof (files_create h r) as Hc1. pose proof (files_create h1 wr) as Hc2.
  pose proof (files_create_fresh h r) as Hn1. pose proof (files_create_fresh h1 wr) as Hn2.
  fold rfd h1 in Hc1, Hn1. fold wfd h2 in Hc2, Hn2.
  assert (rfd <> wfd) as Hne.
  { intros E. rewrite <- E, Hc1, Z.eqb_refl in Hn2. done. }
  exists (Done 0). split; [done|]. apply (st_pipe2 _ _ _ rfd wfd r wr); [| |done|].
  - apply fdtab_none. by rewrite <- Hs.
  - apply fdtab_none. rewrite Hc1 in Hn2. destruct (wfd =? rfd); [done|]. by rewrite <- Hs.
  - intros x. unfold fdtab_of, put, flag_of. cbn [w_host set_host with_flags set_fcntl w_fcntl fc_flags].
    rewrite files_MemWrite. cbn [w_host set_host with_flags set_fcntl w_fcntl fc_flags nmap_get].
    rewrite Hc2, Hc1, Hs, E2. cbn [nmap_get].
    destruct (Z.eqb_spec x wfd) as [->|]; [by rewrite lookup_insert_eq|]. rewrite lookup_insert_ne by done.
    destruct (Z.eqb_spec x rfd) as [->|]; [by rewrite lookup_insert_eq|]. by rewrite lookup_insert_ne by done.
Qed.

Lemma flags_closed w fd : ready w -> flags_open w -> file_at (w_host w) fd = None -> flag_of w fd = 0.
Proof.
  intros Hw Hf Hn. destruct (ready_flags _ Hw) as (m & _ & Em). unfold flag_of. rewrite Em. cbn.
  destruct (m !! fd) as [v|] eqn:E; [|done]. apply (Hf _ _ _ Em) in E.
  rewrite is_open_file_at, Hn in E. done.
Qed.

(** A socket has no flags yet because its descriptor was not open. *)
Lemma socket_created d t p n w h s :
  ready w -> flags_open w -> same_files (w_host w) h ->
  refines (CSocket d t p) w
    (run n (let! fd := hdo (fun h => CreateFileDescriptor h s) in Ret (int32 fd)) (set_host h w)).
Proof.
  intros Hw Hf Hs. rewrite run_hdo, run_ret. eexists (Done _). split; [done|]. cbn [w_host set_host].
  pose proof (files_create_fresh h s) as Hn. rewrite Hs in Hn.
  apply (st_socket _ _ _ _ _ s); [by apply fdtab_none|]. intros x. unfold fdtab_of, put. cbn.
  rewrite files_create, Hs. destruct (Z.eqb_spec x (CreateFileDescriptor h s).2) as [->|]; [|done].
  pose proof (flags_closed w _ Hw Hf Hn) as Hz. unfold flag_of in *. cbn. by rewrite Hz.
Qed.

Lemma socket_refines n d t p w :
  ready w -> flags_open w -> refines (CSocket d t p) w (run n (Socket.socket d t p) w).
Proof.
  intros Hw Hf. unfold Socket.socket. cbv zeta.
  destruct (Z.eqb_spec d Socket.AF_UNSPEC) as [->|]; [by split; [|constructor]|].
  destruct (Socket.network_of d (Socket.mask_type t)) as [| | | |] eqn:En; [by apply refines_fail; constructor|..];
    (rewrite run_hdo; match goal with |- context [NewSocket ?h ?nt] => pose proof (files_NewSocket h nt) as Hs;
       destruct (NewSocket h nt) as [h1 [s|e]] end; cbn [fst snd] in *;
     [by apply socket_created|apply refines_error; [done|constructor; by rewrite En]]).
Qed.

Lemma fcntl_refines n fd cmd arg w : ready w -> refines (CFcntl fd cmd arg) w (run n (fcntl fd cmd arg) w).
Proof.
  intros Hw. destruct (ready_flags _ Hw) as (m & E1 & E2).
  unfold fcntl. rewrite run_hget. destruct (GetFile (w_host w) fd) as [f|e] eqn:Eg.
  2: { apply refines_fail, er_closed, fdtab_none. unfold file_at. by rewrite Eg. }
  assert (file_at (w_host w) fd = Some f) as Ef by (unfold file_at; by rewrite Eg).
  destruct (Z.eqb_spec cmd F_DUPFD) as [->|Hd].
  { rewrite run_hdo. pose proof (files_dup (w_host w) fd) as HL.
    destruct (DupFile (w_host w) fd) as [h' [nf|e]]; cbn [fst snd]; [|apply refines_error; [done|apply er_dupfd]].
    destruct HL as (_ & Hn & HL). rewrite (run_update _ _ _ (fun v => v) _ _ m), run_ret by done.
    exists (Done (int32 nf)). split; [done|].
    apply (st_dupfd _ _ _ _ f (flag_of w fd)); [by apply fdtab_file|by apply fdtab_none|].
    rewrite Ef in HL. unfold flag_of. rewrite E2. by rewrite (fdtab_put w nf (Some f)). }
  assert (forall r v' w', fcntl_flags cmd arg (flag_of w fd) = Some (r, v') -> w_err w' = w_err w ->
    fdtab_of w' ≡ put fd (Some (f, v')) (fdtab_of w) -> refines (CFcntl fd cmd arg) w (Returned r w')) as Hk.
  { intros r v' w' Hc He Hp. exists (Done r). split; [done|]. eapply st_fcntl; [by apply fdtab_file|done..]. }
  assert (fdtab_of w ≡ put fd (Some (f, flag_of w fd)) (fdtab_of w)) as Hsame.
  { intros x. unfold put. destruct (Z.eqb_spec x fd) as [->|]; [by apply fdtab_file|done]. }
  destruct (cmd =? F_GETFD) eqn:C1; [rewrite run_peek, run_ret by done; eapply Hk; [unfold fcntl_flags|done..]; by rewrite ?C1, ?C2, ?C3|].
  destruct (cmd =? F_SETFD) eqn:C2.
  { rewrite (run_update _ _ _ (fun v => Z.lor v O_CLOEXEC) _ _ m), run_ret by done.
    eapply Hk; [unfold fcntl_flags; by rewrite ?C1, ?C2, ?C3, ?C4|done|]. unfold flag_of. rewrite E2. by apply fdtab_set. }
  destruct (cmd =? F_GETFL) eqn:C3; [rewrite run_peek, run_ret by done; eapply Hk; [unfold fcntl_flags|done..]; by rewrite ?C1, ?C2, ?C3|].
  destruct (cmd =? F_SETFL) eqn:C4.
  { rewrite (run_store _ _ _ _ _ m), run_ret by done. eapply Hk; [unfold fcntl_flags; by rewrite ?C1, ?C2, ?C3, ?C4|done|]. by apply fdtab_set. }
  assert (forall (l : list Z) b1 b2, (b1 || b2 = true <-> cmd ∈ l) ->
    (bool_decide (cmd ∈ l) = true -> refines (CFcntl fd cmd arg) w (Returned 0 w)) ->
    (bool_decide (cmd ∈ l) = false -> call_panics (fdtab_of w) (CFcntl fd cmd arg)) ->
    refines (CFcntl fd cmd arg) w
      (run n (if b1 then Ret 0 else if b2 then Ret 0 else Panic (PanicMsg "fcntl: unsupported")) w)) as Hlk.
  { intros l b1 b2 Hb Hin Hout. case_bool_decide as Hc.
    - destruct b1; [by apply Hin|]. destruct b2; [by apply Hin|]. by apply Hb in Hc.
    - destruct b1; [by destruct Hc; apply Hb|]. destruct b2; [by destruct Hc; apply Hb|]. by split; [|apply Hout]. }
  apply (Hlk [F_GETLK; F_GETLK64; F_SETLK; F_SETLKW; F_SETLK64; F_SETLKW64]).
  - rewrite !orb_true_iff, !Z.eqb_eq, !elem_of_cons, elem_of_nil. tauto.
  - intros Hc. eapply Hk; [unfold fcntl_flags|done..]. by rewrite C1, C2, C3, C4, Hc.
  - intros Hc. eapply pn_fcntl; [by apply fdtab_file|done|]. unfold fcntl_flags. by rewrite C1, C2, C3, C4, Hc.
Qed.

Lemma call_refines c n w : ready w -> flags_open w -> refines c w (run n (do_call c) w).
Proof.
  intros Hw Hf. destruct c; cbn [do_call]; auto using dup3_refines, fcntl_refines, open_refines, openat_refines,
    close_refines, pipe2_refines, socket_refines.
Qed.

(** ** Sequences of calls *)

Definition reply (a : answer) : Z := match a with Done r => r | Error _ => -1 end.

Inductive fd_steps (T : fdtab) : list fd_call -> list answer -> fdtab -> Prop :=
| steps_nil T' : T' ≡ T -> fd_steps T [] [] T'
| steps_cons c a T1 cs ans T' :
    fd_step T c a T1 -> fd_steps T1 cs ans T' -> fd_steps T (c :: cs) (a :: ans) T'.

Definition calls_ok (cs : list fd_call) (w : World) (o : outcome World (list Z)) : Prop :=
  match o with
  | Returned rs w' =>
      ready w' /\ flags_open w' /\
      exists ans, rs = reply <$> ans /\ fd_steps (fdtab_of w) cs ans (fdtab_of w')
  | Panicked _ w' =>
      ready w' /\ flags_open w' /\
      exists before c after ans, cs = before ++ c :: after /\
        fd_steps (fdtab_of w) before ans (fdtab_of w') /\ call_panics (fdtab_of w') c
  | Blocked _ _ | Unfinished _ _ => False
  end.

Lemma calls_refine cs n w : ready w -> flags_open w -> calls_ok cs w (run n (do_calls cs) w).
Proof.
  revert w. induction cs as [|c cs IH]; intros w Hw Hf; cbn [do_calls].
  { rewrite run_ret. do 2 (split; [done|]). exists []. split; [done|]. by constructor. }
  pose proof (call_refines c n w Hw Hf) as Hc. pose proof (do_call_inv c n w (conj Hw Hf)) as Hi.
  rewrite run_bind. destruct (run n (do_call c) w) as [r w1|p w1|m w1|m w1]; [|..|done|done].
  - destruct Hc as (a & Ha & Hs), Hi as [Hw1 Hf1]. specialize (IH w1 Hw1 Hf1). cbn. rewrite run_bind.
    destruct (run n (do_calls cs) w1) as [rs w2|p w2|m w2|m w2]; [|..|done|done].
    + destruct IH as (? & ? & ans & -> & Hss). do 2 (split; [done|]).
      exists (a :: ans). split; [|by econstructor]. cbn. f_equal. by destruct a, Ha.
    + destruct IH as (? & ? & before & c' & after & ans & -> & Hss & Hp). do 2 (split; [done|]).
      exists (c :: before), c', after, (a :: ans). split; [done|]. split; [by econstructor|done].
  - destruct Hc as [-> Hp]. do 2 (split; [done|]). exists [], c, cs, []. split; [done|].
    split; [by constructor|done].
Qed.

(** C12: The descriptor calls implement one table from descriptors to a file
    and its flags: any sequence of dup3, fcntl, open, openat, close, pipe2
    and socket calls, however it mixes them, ends, and is a run of the table
    with the results the table gives: fresh descriptors for what is opened;
    for a duplicate the file of the original, with the original's flags by
    F_DUPFD and those of its argument by dup3; no flags for a socket; nothing
    but the errno for an error, where dup3, F_DUPFD and close may be refused
    with EBADF also on an open descriptor. Where the code panics the table is
    as the calls before it left it. *)
Theorem descriptor_calls_refine cs n w :
  ready w -> flags_open w -> calls_ok cs w (run n (do_calls cs) w).
Proof. apply calls_refine. Qed.

(** ** What a client may rely on *)

(** The calls that change what a descriptor leads to, or its flags. *)
Definition touches (fd : Z) (c : fd_call) : Prop :=
  match c with
  | CDup3 _ n _ => n = fd
  | CFcntl fd' cmd _ => fd' = fd /\ (cmd = F_SETFD \/ cmd = F_SETFL)
  | CClose fd' => fd' = fd
  | _ => False
  end.

Lemma fcntl_flags_reads cmd arg v r v' :
  fcntl_flags cmd arg v = Some (r, v') -> cmd <> F_SETFD -> cmd <> F_SETFL -> v' = v.
Proof.
  unfold fcntl_flags. intros E H1 H2. apply Z.eqb_neq in H1, H2. rewrite H1, H2 in E.
  repeat case_match; by simplify_eq.
Qed.

Lemma step_frame T c a T' fd e : fd_step T c a T' -> T fd = Some e -> ~ touches fd c -> T' fd = Some e.
Proof.
  intros Hs He Hn. assert (forall x y, T x = None -> put x y T fd = Some e) as Hfresh.
  { intros x y Hx. rewrite put_ne; [done|]. congruence. }
  destruct Hs; cbn in Hn;
    match goal with H : _ ≡ _ |- _ => rewrite (H fd) end; try (by apply Hfresh).
  - by rewrite put_ne by congruence.
  - destruct (decide (fd = fd0)) as [->|]; [|by rewrite put_ne].
    rewrite put_eq. assert (v' = v) by (eapply fcntl_flags_reads; naive_solver). congruence.
  - by rewrite put_ne by congruence.
  - by rewrite put_ne, Hfresh by congruence.
  - done.
Qed.

Lemma steps_frame T cs ans T' fd e :
  fd_steps T cs ans T' -> T fd = Some e -> Forall (fun c => ~ touches fd c) cs -> T' fd = Some e.
Proof.
  induction 1 as [T T' E|T c a T1 cs ans T' Hs _ IH]; intros He HF; [by rewrite (E fd)|].
  apply Forall_cons in HF as [? ?]. apply IH; [|done]. by eapply step_frame.
Qed.

Lemma fdtab_some w fd f v : fdtab_of w fd = Some (f, v) -> GetFile (w_host w) fd = inl f /\ flag_of w fd = v.
Proof. unfold fdtab_of, file_at. destruct (GetFile (w_host w) fd); intros E; by simplify_eq/=. Qed.

(** C28: The flags given to open are what F_GETFL returns, and O_CLOEXEC what
    F_GETFD returns, after any further descriptor calls that do not replace,
    close or set the flags of that descriptor; it leads to the same file as
    well. *)
Theorem open_flags_persist n filename flags mode w fd w1 cs rs w2 :
  ready w -> flags_open w -> (forall x, is_open (w_host w1) x = true -> is_i32 x) ->
  run n (open filename flags mode) w = Returned fd w1 -> fd <> -1 ->
  run n (do_calls cs) w1 = Returned rs w2 -> Forall (fun c => ~ touches fd c) cs ->
  GetFile (w_host w2) fd = GetFile (w_host w1) fd /\
  run n (fcntl fd F_GETFL 0) w2 = Returned flags w2 /\
  run n (fcntl fd F_GETFD 0) w2 = Returned (if has_bits flags O_CLOEXEC then 1 else 0) w2.
Proof.
  intros Hw Hf Hr Ho Hne Hcs HF. pose proof (open_refines n filename flags mode w Hw) as Hopen.
  pose proof (do_call_inv (COpen filename flags mode) n w (conj Hw Hf)) as Hi. cbn [do_call] in Hi.
  rewrite Ho in Hopen, Hi. destruct Hopen as (a & Ha & Hs), Hi as [Hw1 Hf1].
  assert (exists f, fdtab_of w1 fd = Some (f, flags)) as [f Ht].
  { inversion Hs; subst; destruct Ha as [-> _]; [|done].
    match goal with H : _ ≡ put ?x (Some (?f, _)) _ |- _ => exists f; pose proof (H x) as Hx end.
    rewrite put_eq in Hx. rewrite int32_id; [done|]. apply Hr. unfold is_open.
    by apply fdtab_some in Hx as [-> _]. }
  pose proof (calls_refine cs n w1 Hw1 Hf1) as Hall. rewrite Hcs in Hall.
  destruct Hall as (Hw2 & _ & ans & _ & Hss). pose proof (steps_frame _ _ _ _ _ _ Hss Ht HF) as Ht2.
  destruct (fdtab_some _ _ _ _ Ht) as [G1 _], (fdtab_some _ _ _ _ Ht2) as [G2 Hv].
  split; [congruence|]. destruct (ready_flags _ Hw2) as (m & E1 & E2).
  unfold fcntl. rewrite !run_hget, G2. cbn [F_DUPFD F_GETFD F_SETFD F_GETFL Z.eqb Pos.eqb].
  by rewrite !run_peek, !run_ret, Hv.
Qed.

End fdtable.

(** ** Witnesses *)

Lemma descriptor_calls_refine_witness :
  calls_ok sim_fd_calls sim_world (run 0 (do_calls sim_fd_calls) sim_world).
Proof. exact (descriptor_calls_refine sim_fd_calls 0 sim_world sim_ready (proj2 sim_fd_inv)). Defined.

(** Calls on other descriptors: a second open, a duplicate, a close, a socket. *)
Definition other_calls : list fd_call :=
  [COpen 0x1000 2 0; CDup3 3 9 0; CClose 9; CSocket 2 1 0; CFcntl 4 F_SETFL 0; CFcntl 3 F_DUPFD 0].

Definition opened : outcome (World (D := SimDebugger)) Z := run 0 (open 0x1000 0x80001 0) sim_world.
Definition after_others (w1 : World (D := SimDebugger)) : outcome (World (D := SimDebugger)) (list Z) :=
  run 0 (do_calls other_calls) w1.

Definition i32_fds (w : World (D := SimDebugger)) : bool :=
  forallb (fun kv : Z * _ => (- 2 ^ 31 <=? kv.1) && (kv.1 <? 2 ^ 31)) (map_to_list (sm_fds (w_host w : sim))).

Lemma i32_fds_open w : i32_fds w = true -> forall x, is_open (w_host w) x = true -> is_i32 x.
Proof.
  intros H x Hx. unfold i32_fds in H. rewrite forallb_forall in H.
  rewrite is_open_file_at, sim_file_at in Hx. apply bool_decide_eq_true in Hx as [f Ef].
  apply elem_of_map_to_list, list_elem_of_In in Ef. apply H in Ef. cbn in Ef. unfold is_i32. lia.
Qed.

Definition persist_course : bool :=
  match opened with
  | Returned fd w1 =>
      (fd =? 3) && i32_fds w1 && match after_others w1 with Returned _ _ => true | _ => false end
  | _ => false
  end.

Lemma open_flags_persist_witness :
  match opened with
  | Returned fd w1 =>
      match after_others w1 with
      | Returned _ w2 =>
          GetFile (w_host w2) fd = GetFile (w_host w1) fd /\
          run 0 (fcntl fd F_GETFL 0) w2 = Returned 0x80001 w2 /\
          run 0 (fcntl fd F_GETFD 0) w2 = Returned 1 w2
      | _ => False
      end
  | _ => False
  end.
Proof.
  assert (persist_course = true) as Hb by (vm_compute; reflexivity). unfold persist_course in Hb.
  destruct opened as [fd w1|p w1|m w1|m w1] eqn:Eo; try discriminate.
  apply andb_true_iff in Hb as [[->%Z.eqb_eq Hr]%andb_true_iff Ha].
  destruct (after_others w1) as [rs w2|p w2|m w2|m w2] eqn:Ea; try discriminate.
  apply (open_flags_persist 0 0x1000 0x80001 0 sim_world 3 w1 other_calls rs w2);
    [apply sim_ready|apply sim_fd_inv|by apply i32_fds_open|exact Eo|discriminate|exact Ea|].
  repeat constructor; cbn; unfold F_SETFD, F_SETFL, F_DUPFD; lia.
Defined.
