(* ===== verification/IoProps.v ===== *)
(** * Transfers: theorems about read, write and writev

    The handlers hand the copying to package io, whose loops move a buffer at a
    time between a file and guest memory.  Against what a reader, a writer and
    guest memory promise, the loops end and move exactly the bytes asked for;
    a read that meets the end of the file moves what there is and then fails. *)

From stdpp Require Import base list gmap numbers.
From Stdlib Require Import Strings.Byte.
From S2P Require Import Prelude GoProg GoSpec LinuxABI GoRuntime Structs Host SimHost World GoIO.
From S2P Require Import WorldSpec Fcntl Syscall SimKernel.
Local Open Scope Z_scope.
Local Open Scope go_scope.

(** ** What is observed of memory and files *)

Class Storage `{D : Debugger} := {
  mem : Host -> Z -> option byte;        (* the byte mapped at an address *)
  unread : Host -> File -> bytes;        (* what is left to read of a file *)
  contents : Host -> File -> bytes;      (* all of a file *)
  offset : Host -> File -> nat           (* where its next write goes *)
}.

(** A file with a block written over it at its offset. *)
Definition written (o : nat) (b d : bytes) : bytes := splice "000"%byte o b d.

Section storage.
Context {D : Debugger} {ST : Storage}.

Definition mapped (h : Host) (a n : Z) : Prop :=
  forall i, 0 <= i < n -> is_Some (mem h (a + i)).

(** [bs] lies at [a]. *)
Definition block (h : Host) (a : Z) (bs : list byte) : Prop :=
  forall i b, bs !! i = Some b -> mem h (a + Z.of_nat i) = Some b.

(** Memory outside [\[a, a + n)] is the same. *)
Definition same_outside (h h' : Host) (a n : Z) : Prop :=
  forall x, x < a \/ a + n <= x -> mem h' x = mem h x.

(** [emulator.Pointer] as an [io.WriterAt] and an [io.ReaderAt]: a range that is
    mapped is written, and read, completely. *)
Class MemoryLaws : Prop := {
  ptr_write h base b off :
    mapped h (base + off) (zlen b) ->
    exists h', PtrWriteAt h base b off = (h', (zlen b, None)) /\
      block h' (base + off) b /\ same_outside h h' (base + off) (zlen b) /\
      forall f, unread h' f = unread h f;
  ptr_read h base bs off :
    block h (base + off) bs -> PtrReadAt h base (zlen bs) off = (bs, None)
}.

(** A file as an [io.Reader] that does not block: it returns some of what is
    left, at least a byte unless it is at the end, and reports nothing but the
    end. *)
Class ReadsWell (f : File) : Prop :=
  file_reads : forall h n, 0 < n ->
    exists h' b e, file_Read h f n = Some (h', (b, e)) /\ zlen b <= n /\
      unread h f = b ++ unread h' f /\ (forall a, mem h' a = mem h a) /\
      match e with
      | None => b <> []
      | Some e => e = ErrEOF /\ unread h' f = []
      end.

(** The file has taken [b] at its offset, which has moved past it. *)
Definition takes (h h' : Host) (f : File) (b : bytes) : Prop :=
  contents h' f = written (offset h f) b (contents h f) /\
  offset h' f = (offset h f + length b)%nat /\ (forall a, mem h' a = mem h a).

(** A file as an [io.Writer], and as an [io.ReaderFrom] when it is one, that
    takes everything at its offset without blocking: the end of the file for a
    pipe or with O_APPEND, else where the last transfer or seek left it. *)
Class WritesWell (f : File) : Prop := {
  file_writes h b :
    exists h', file_Write h f b = Some (h', (zlen b, None)) /\ takes h h' f b;
  file_reads_from h base bs :
    is_ReaderFrom f = true -> block h base bs ->
    exists h', file_ReadFrom h f base 0 (zlen bs) = Some (h', (zlen bs, None)) /\ takes h h' f bs
}.

Lemma takes_nil h f : takes h h f [].
Proof. split; [done|]. split; [cbn; lia|done]. Qed.

Lemma takes_app h1 h2 h3 f b c : takes h1 h2 f b -> takes h2 h3 f c -> takes h1 h3 f (b ++ c).
Proof.
  intros (C1 & O1 & M1) (C2 & O2 & M2). split_and!.
  - unfold written in *. by rewrite C2, O1, C1, splice_app.
  - rewrite O2, O1, length_app. lia.
  - intros a. by rewrite M2, M1.
Qed.

Lemma block_app h a xs ys : block h a (xs ++ ys) <-> block h a xs /\ block h (a + zlen xs) ys.
Proof.
  unfold block, zlen. split.
  - intros H. split; intros i b Hi.
    + apply H. by apply lookup_app_l_Some.
    + rewrite <- Z.add_assoc, <- Nat2Z.inj_add. apply H.
      rewrite lookup_app_r by lia. by replace (length xs + i - length xs)%nat with i by lia.
  - intros [H1 H2] i b Hi. apply lookup_app_Some in Hi as [Hi|[Hl Hi]]; [by apply H1|].
    apply H2 in Hi. rewrite <- Hi. f_equal. lia.
Qed.

Lemma block_same h h' a bs : (forall i, 0 <= i < zlen bs -> mem h' (a + i) = mem h (a + i)) ->
  block h a bs -> block h' a bs.
Proof.
  intros Hs H i b Hi. apply lookup_lt_Some in Hi as Hlt. rewrite Hs by (unfold zlen; lia). by apply H.
Qed.

Lemma mapped_sub h a n b m : mapped h a n -> a <= b -> b + m <= a + n -> mapped h b m.
Proof.
  intros H H1 H2 i Hi. replace (b + i) with (a + (b - a + i)) by lia. apply H. lia.
Qed.

(** Writing a block in a mapped range leaves it mapped. *)
Lemma mapped_write h h' a n b bs :
  mapped h a n -> block h' b bs -> same_outside h h' b (zlen bs) -> mapped h' a n.
Proof.
  intros Hm Hb Hs i Hi. destruct (decide (b <= a + i < b + zlen bs)) as [Hin|Hout].
  - destruct (lookup_lt_is_Some_2 bs (Z.to_nat (a + i - b))) as [x Hx]; [unfold zlen in *; lia|].
    apply Hb in Hx. exists x. rewrite <- Hx. f_equal. lia.
  - rewrite Hs by lia. by apply Hm.
Qed.

End storage.
Arguments MemoryLaws {D} ST.
Arguments ReadsWell {D} ST f.
Arguments WritesWell {D} ST f.

(** ** The loop of read *)

Section reading.
Context {D : Debugger} {ST : Storage} {ML : MemoryLaws ST} (f : File) `{!ReadsWell ST f}.

(** The body of [io.CopyN]'s loop. *)
Definition read_body (base size : Z) :=
  copy_turn (limited_read (file_reader f)) (offset_write base) size.

(** The bytes that have moved from the file to [a]. *)
Definition moved (h h' : Host) (a : Z) (b : list byte) : Prop :=
  unread h f = b ++ unread h' f /\ block h' a b /\ same_outside h h' a (zlen b).

Lemma moved_trans h1 h2 h3 a b c :
  moved h1 h2 a b -> moved h2 h3 (a + zlen b) c -> moved h1 h3 a (b ++ c).
Proof.
  intros (U1 & B1 & S1) (U2 & B2 & S2). split_and!.
  - by rewrite U1, U2, app_assoc.
  - apply block_app. split; [|done]. eapply block_same; [|done]. intros i Hi. apply S2. lia.
  - intros x Hx. rewrite zlen_app in Hx. pose proof (zlen_nonneg b). pose proof (zlen_nonneg c).
    rewrite S2, S1 by lia. done.
Qed.

(** One turn: a part of what is left arrives, and the loop stops at the end of
    the file only. *)
Lemma read_turn k base size N off wr h w :
  0 < size -> 0 < N -> mapped h (base + off) N ->
  exists h' b, moved h h' (base + off) b /\ zlen b <= N /\ mapped h' (base + off) N /\
    ((0 < zlen b /\ run k (read_body base size (N, off, wr)) (set_host h w) =
        Returned (inl (N - zlen b, off + zlen b, wr + zlen b)) (set_host h' w)) \/
     (unread h' f = [] /\ run k (read_body base size (N, off, wr)) (set_host h w) =
        Returned (inr (wr + zlen b, None)) (set_host h' w))).
Proof.
  intros Hs HN Hm. unfold moved, read_body, copy_turn, limited_read, file_reader.
  assert ((N <=? 0) = false) as -> by lia.
  destruct (file_reads (f := f) h (Z.min size N)) as (h1 & b & e & Er & Hb & Hu & Hmem & He); [lia|].
  rewrite !bind_assoc, (run_hwait _ _ _ (set_host h w) _ _ Er). cbn [bind].
  assert (mapped h1 (base + off) N) as Hm1 by (intros i Hi; rewrite Hmem; by apply Hm).
  destruct (Z.ltb_spec 0 (zlen b)) as [Hlt|Hz].
  - destruct (ptr_write h1 base b off) as (h2 & Ew & Hblk & Hout & Hun).
    { eapply mapped_sub; [done|lia..]. }
    exists h2, b. split_and!; [by rewrite Hun|done|intros x Hx; rewrite Hout by done; apply Hmem
      |lia|by eapply mapped_write|].
    unfold offset_write. rewrite !bind_assoc, run_hdo. cbn [w_host set_host]. rewrite Ew. cbn [fst snd bind].
    rewrite Z.ltb_irrefl, (proj2 (Z.ltb_ge _ _)) by lia. cbn [orb]. rewrite Z.eqb_refl.
    destruct e as [e|]; cbn [copy_next]; [right|by left]. destruct He as [-> He].
    rewrite Hun. by rewrite decide_True by done.
  - destruct b as [|x b]; [|unfold zlen in Hz; cbn in Hz; lia]. exists h1, [].
    split_and!; [done|intros i b Hi; done|intros x Hx; apply Hmem|lia|done|].
    destruct e as [e|]; [right|done]. destruct He as [-> He]. cbn [copy_next].
    rewrite decide_True by done. by rewrite Z.add_0_r.
Qed.

(** The whole loop: it stops with the [N] bytes asked for or with what the file
    had, and [N] turns and one more are enough. *)
Lemma read_loop k base size w : 0 < size -> forall j N off wr h,
  0 <= N -> N < Z.of_nat j + 1 -> mapped h (base + off) N ->
  exists h' b, moved h h' (base + off) b /\ zlen b = Z.min N (zlen (unread h f)) /\
    run_loop k j (read_body base size) Ret (N, off, wr) (set_host h w) =
      Returned (wr + zlen b, None) (set_host h' w).
Proof.
  intros Hs. induction j as [|j IH]; intros N off wr h HN Hj Hm.
  all: destruct (decide (N = 0)) as [->|Hne];
    [exists h, []; split; [split; [done|split; [by intros ?|by intros ?]]|];
     split; [pose proof (zlen_nonneg (unread h f)); unfold zlen at 1; cbn; lia|];
     rewrite run_loop_eq; cbn; by rewrite Z.add_0_r|].
  { lia. }
  destruct (read_turn k base size N off wr h w) as (h1 & b & Hmv & Hb & Hm1 & Hrun); [lia..|done|].
  rewrite run_loop_eq. destruct Hmv as (U & B & S).
  destruct Hrun as [[Hlt ->]|[He ->]].
  - destruct (IH (N - zlen b) (off + zlen b) (wr + zlen b) h1) as (h2 & c & Hmv2 & Hc & ->); [lia..| |].
    { eapply mapped_sub; [done|lia..]. }
    exists h2, (b ++ c). rewrite Z.add_assoc in Hmv2.
    split; [eapply moved_trans; [by split_and!|done]|]. split; [|by rewrite zlen_app, Z.add_assoc].
    rewrite U, !zlen_app, Hc. lia.
  - exists h1, b. split; [by split_and!|]. split; [|done].
    rewrite U, He, app_nil_r. lia.
Qed.

Lemma copy_buffer_pos n : 0 < copy_buffer n.
Proof. unfold copy_buffer. destruct (Z.ltb_spec n 32768); [destruct (Z.ltb_spec n 1)|]; lia. Qed.

(** [io.CopyN] into guest memory. *)
Lemma run_CopyN k base n h w :
  0 <= n < Z.of_nat k + 1 -> mapped h base n ->
  exists h' b, moved h h' base b /\ zlen b = Z.min n (zlen (unread h f)) /\
    run k (io_CopyN_offset base (file_reader f) n) (set_host h w) =
      Returned (zlen b, if n <=? zlen (unread h f) then None else Some ErrEOF) (set_host h' w).
Proof.
  intros Hn Hm. unfold io_CopyN_offset. rewrite run_bind. unfold copy_loop. rewrite run_iter.
  change (copy_turn (limited_read (file_reader f)) (offset_write base) (copy_buffer n))
    with (read_body base (copy_buffer n)).
  destruct (read_loop k base (copy_buffer n) w (copy_buffer_pos n) k n 0 0 h) as (h' & b & Hmv & Hb & ->);
    [lia|lia|by rewrite Z.add_0_r|].
  rewrite Z.add_0_r in Hmv. exists h', b. split; [done|]. split; [done|]. cbn [then_run].
  pose proof (zlen_nonneg (unread h f)). rewrite Z.add_0_l.
  destruct (Z.leb_spec n (zlen (unread h f))).
  - by rewrite (proj2 (Z.eqb_eq _ _)), Hb, Z.min_l by lia.
  - rewrite (proj2 (Z.eqb_neq _ _)) by lia. by rewrite (proj2 (Z.ltb_lt _ _)) by lia.
Qed.

(** C15: read of count bytes from a file that has them and whose reads do not
    block returns count within count+1 turns of the copy loop; exactly the
    next count bytes of the file lie at buf, and the file has moved past
    them; no other memory and nothing else of the kernel changes. *)
Theorem read_transfers k fd buf count w :
  GetFile (w_host w) fd = inl f -> is_Reader f = true ->
  0 <= count < 9223372036854775808 -> count <= Z.of_nat k -> mapped (w_host w) buf count ->
  count <= zlen (unread (w_host w) f) ->
  exists h' b, run k (Fcntl.read fd buf count) w = Returned count (set_host h' w) /\
    zlen b = count /\ unread (w_host w) f = b ++ unread h' f /\ block h' buf b /\
    same_outside (w_host w) h' buf count.
Proof.
  intros Hg Hr Hc Hk Hm Hu. unfold Fcntl.read. rewrite run_hget, Hg, Hr, run_bind.
  rewrite int64_id by wrap_lia.
  destruct (run_CopyN k buf count (w_host w) w) as (h' & b & (U & B & S) & Hb & E); [lia|done|].
  rewrite Z.min_l in Hb by done. rewrite (proj2 (Z.leb_le _ _)) in E by done.
  replace (set_host (w_host w) w) with w in E by (by destruct w). rewrite E, Hb in *.
  exists h', b. by split_and!.
Qed.

(** C40: read of more bytes than the file has left fails with EIO although
    all of them have been copied to the buffer, and the file has been read to
    its end. *)
Theorem read_past_end_loses_data k fd buf count w :
  GetFile (w_host w) fd = inl f -> is_Reader f = true ->
  0 <= count < 9223372036854775808 -> count <= Z.of_nat k -> mapped (w_host w) buf count ->
  zlen (unread (w_host w) f) < count ->
  exists h', run k (Fcntl.read fd buf count) w =
      Returned (-1) (set_err (Errno_val EIO) (set_host h' w)) /\
    unread h' f = [] /\ block h' buf (unread (w_host w) f).
Proof.
  intros Hg Hr Hc Hk Hm Hu. unfold Fcntl.read. rewrite run_hget, Hg, Hr, run_bind.
  rewrite int64_id by wrap_lia.
  destruct (run_CopyN k buf count (w_host w) w) as (h' & b & (U & B & S) & Hb & E); [lia|done|].
  rewrite (proj2 (Z.leb_gt _ _)) in E by done.
  replace (set_host (w_host w) w) with w in E by (by destruct w). rewrite E. exists h'.
  assert (unread h' f = []) as E0.
  { apply length_zero_iff_nil. pose proof (f_equal zlen U) as Hz. rewrite zlen_app in Hz.
    unfold zlen in *. lia. }
  split; [done|]. split; [done|]. by rewrite U, E0, app_nil_r.
Qed.

End reading.

(** ** The loop of write *)

Section writing.
Context {D : Debugger} {ST : Storage} {ML : MemoryLaws ST} (f : File) `{!WritesWell ST f}.

Definition write_body (base limit size : Z) :=
  copy_turn (section_read base limit) (file_write f) size.

(** One turn takes the next [size] bytes of the section, or the rest of it. *)
Lemma write_turn k base limit size off wr bs h w :
  0 < size -> bs <> [] -> zlen bs = limit - off -> block h (base + off) bs ->
  exists h', run k (write_body base limit size (off, tt, wr)) (set_host h w) =
      Returned (inl (off + Z.min size (zlen bs), tt, wr + Z.min size (zlen bs))) (set_host h' w) /\
    takes h h' f (ztake size bs).
Proof.
  intros Hs Hne Hl Hb. unfold write_body, copy_turn, section_read.
  assert (0 < zlen bs) as Hpos by (unfold zlen; destruct bs; [done|cbn; lia]).
  assert ((limit <=? off) = false) as -> by lia.
  assert (zlen (ztake size bs) = Z.min size (limit - off)) as Hz.
  { unfold zlen, ztake in *. rewrite length_take. lia. }
  rewrite !bind_assoc, run_hget. cbn [w_host set_host]. rewrite <- Hz, ptr_read.
  2: { eapply block_app. rewrite ztake_zdrop. done. }
  cbn [bind]. rewrite (proj2 (Z.ltb_lt _ _)) by lia. unfold file_write.
  destruct (file_writes (f := f) h (ztake size bs)) as (h' & Ew & Ht).
  rewrite !bind_assoc, (run_hwait _ _ _ (set_host h w) _ _ Ew). cbn [bind].
  rewrite Z.ltb_irrefl, (proj2 (Z.ltb_ge _ _)) by lia. cbn [orb]. rewrite Z.eqb_refl.
  cbn [copy_next]. exists h'. rewrite Hz, Hl. by split_and!.
Qed.

Lemma write_loop k base limit size w : 0 < size -> forall j off wr bs h,
  zlen bs = limit - off -> zlen bs < Z.of_nat j + 1 -> block h (base + off) bs ->
  exists h', run_loop k j (write_body base limit size) Ret (off, tt, wr) (set_host h w) =
      Returned (wr + zlen bs, None) (set_host h' w) /\ takes h h' f bs.
Proof.
  intros Hs. induction j as [|j IH]; intros off wr bs h Hl Hj Hb; pose proof (zlen_nonneg bs) as Hnn.
  all: destruct (decide (bs = [])) as [->|Hne];
    [exists h; rewrite run_loop_eq; unfold write_body at 1, copy_turn, section_read;
     rewrite (proj2 (Z.leb_le _ _)) by (unfold zlen in Hl; cbn in Hl; lia); cbn;
     rewrite Z.add_0_r; split; [done|apply takes_nil]|].
  { destruct bs; [done|]. unfold zlen in *. cbn in *. lia. }
  destruct (write_turn k base limit size off wr bs h w) as (h1 & E & Ht1); [done..|].
  rewrite run_loop_eq, E.
  assert (zlen bs = Z.min size (zlen bs) + zlen (zdrop size bs)) as Hz.
  { unfold zlen, zdrop. rewrite length_drop. lia. }
  assert (0 < zlen bs) as Hpos by (unfold zlen; destruct bs; [done|cbn; lia]).
  assert (zlen (ztake size bs) = Z.min size (zlen bs)) as Ht.
  { unfold zlen, ztake. rewrite length_take. lia. }
  destruct (IH (off + Z.min size (zlen bs)) (wr + Z.min size (zlen bs)) (zdrop size bs) h1)
    as (h2 & -> & Ht2); [lia|lia| |].
  { rewrite <- (ztake_zdrop size bs) in Hb. apply block_app in Hb as [_ Hb].
    rewrite Ht in Hb. rewrite Z.add_assoc. eapply block_same; [|done]. intros i _. apply Ht1. }
  exists h2. split; [do 2 f_equal; lia|]. rewrite <- (ztake_zdrop size bs). by eapply takes_app.
Qed.

(** [io.Copy] from a section of guest memory: by the copy loop, or by the file
    itself when it is an [io.ReaderFrom]. *)
Lemma run_Copy k base bs h w :
  zlen bs < 9223372036854775808 -> zlen bs < Z.of_nat k + 1 -> block h base bs ->
  exists h', run k (io_Copy_section f base (zlen bs)) (set_host h w) =
      Returned (zlen bs, None) (set_host h' w) /\ takes h h' f bs.
Proof.
  intros Hl Hk Hb. unfold io_Copy_section. pose proof (zlen_nonneg bs).
  assert (section_limit (zlen bs) = zlen bs) as ->.
  { unfold section_limit. rewrite (proj2 (Z.leb_le _ _)) by wrap_lia. done. }
  destruct (is_ReaderFrom f) eqn:Hr.
  { destruct (file_reads_from h base bs Hr Hb) as (h' & E & Ht). exists h'. split; [|done].
    rewrite <- (bind_ret_r (hwait _)). by rewrite (run_hwait _ _ _ (set_host h w) _ _ E). }
  unfold copy_loop. rewrite run_iter.
  destruct (write_loop k base (zlen bs) 32768 w ltac:(lia) k 0 0 bs h) as (h' & E & ?);
    [lia|lia|by rewrite Z.add_0_r|].
  unfold write_body in E. rewrite E. by exists h'.
Qed.

(** C16: write of a block of guest memory to a file that takes what it is
    given returns its length: the block lies in the file at the offset where
    its next write goes (the end of a pipe or with O_APPEND, the position of
    another file), the offset has moved past it, the rest of the file and
    memory are unchanged; by the copy loop, however many buffers it needs,
    and by the file itself when it is an io.ReaderFrom. *)
Theorem write_transfers k fd buf bs w :
  GetFile (w_host w) fd = inl f -> is_Writer f = true ->
  zlen bs < 9223372036854775808 -> zlen bs <= Z.of_nat k -> block (w_host w) buf bs ->
  exists h', run k (Fcntl.write fd buf (zlen bs)) w = Returned (zlen bs) (set_host h' w) /\
    contents h' f = written (offset (w_host w) f) bs (contents (w_host w) f) /\
    offset h' f = (offset (w_host w) f + length bs)%nat /\ (forall a, mem h' a = mem (w_host w) a).
Proof.
  intros Hg Hw Hl Hk Hb. unfold Fcntl.write. rewrite run_hget, Hg, Hw, run_bind.
  pose proof (zlen_nonneg bs). rewrite int64_id by wrap_lia.
  destruct (run_Copy k buf bs (w_host w) w) as (h' & E & ?); [done|lia|done|].
  replace (set_host (w_host w) w) with w in E by (by destruct w). rewrite E. by exists h'.
Qed.

(** The vectors describe the blocks. *)
Definition vectors (h : Host) : list iovec -> list (list byte) -> Prop :=
  Forall2 (fun v bs => iov_len v = zlen bs /\ block h (iov_base v) bs).

Lemma vectors_same h h' vs bss : (forall a, mem h' a = mem h a) -> vectors h vs bss -> vectors h' vs bss.
Proof.
  intros Hm. apply Forall2_impl. intros v bs [? Hb]. split; [done|].
  eapply block_same; [|done]. intros; apply Hm.
Qed.

Lemma run_writev_loop k w : forall vs bss n h,
  vectors h vs bss -> 0 <= n ->
  n + zlen (concat bss) < 9223372036854775808 -> zlen (concat bss) <= Z.of_nat k ->
  exists h', run k (Fcntl.writev_loop f vs n) (set_host h w) =
      Returned (n + zlen (concat bss)) (set_host h' w) /\ takes h h' f (concat bss).
Proof.
  induction vs as [|v vs IH]; intros bss n h Hv Hn Hb Hk.
  - inversion Hv; subst. exists h. cbn. rewrite Z.add_0_r. split; [done|apply takes_nil].
  - apply Forall2_cons_inv_l in Hv as (bs & bss' & [Hl Hblk] & Hvs & ->). cbn [concat] in *.
    rewrite zlen_app in *. pose proof (zlen_nonneg bs). pose proof (zlen_nonneg (concat bss')).
    cbn [Fcntl.writev_loop]. rewrite Hl, run_bind, (int64_id (zlen bs)) by wrap_lia.
    destruct (run_Copy k (iov_base v) bs h w) as (h1 & -> & Ht1); [lia|lia|done|].
    cbn [then_run]. rewrite int64_id by wrap_lia.
    destruct (IH bss' (n + zlen bs) h1) as (h2 & -> & Ht2); [eapply vectors_same; [apply Ht1|done]|lia..|].
    exists h2. split; [f_equal; lia|]. by eapply takes_app.
Qed.

(** C29: writev of vectors that describe blocks of guest memory to a file
    that takes what it is given returns the sum of their lengths: the
    concatenation of the blocks lies in the file at its offset, which has
    moved past it, and the rest of the file and memory are unchanged; by the
    copy loop, and by the file itself when it is an io.ReaderFrom. *)
Theorem writev_transfers k fd iov iovcnt vs bss w e :
  GetFile (w_host w) fd = inl f -> is_Writer f = true -> 0 <= iovcnt ->
  MemExtract (w_host w) iov ShIovecs (replicate (Z.to_nat iovcnt) zero_iovec) = (vs, e) ->
  vectors (w_host w) vs bss ->
  zlen (concat bss) < 9223372036854775808 -> zlen (concat bss) <= Z.of_nat k ->
  exists h', run k (Fcntl.writev fd iov iovcnt) w = Returned (zlen (concat bss)) (set_host h' w) /\
    contents h' f = written (offset (w_host w) f) (concat bss) (contents (w_host w) f) /\
    offset h' f = (offset (w_host w) f + length (concat bss))%nat /\
    (forall a, mem h' a = mem (w_host w) a).
Proof.
  intros Hg Hw Hn He Hv Hl Hk. unfold Fcntl.writev. rewrite run_hget, Hg, Hw.
  rewrite (proj2 (Z.ltb_ge _ _)), run_hget, He by done.
  destruct (run_writev_loop k w vs bss 0 (w_host w)) as (h' & E & ?); [done..|].
  replace (set_host (w_host w) w) with w in E by (by destruct w). exists h'. by rewrite E.
Qed.

End writing.

(** ** Witnesses *)

#[export] Instance SimStorage : Storage := {|
  mem h a := sm_mem h !! a;
  unread h f := zdrop (sim_contents h f).2 (sim_contents h f).1;
  contents h f := (sim_contents h f).1;
  offset := sim_offset
|}.

Lemma sim_peek_mapped (h : sim) n : forall a,
  (forall i, 0 <= i < Z.of_nat n -> is_Some (sm_mem h !! (a + i))) ->
  length (sim_peek (sm_mem h) a n) = n.
Proof.
  induction n as [|n IH]; intros a H; [done|]. cbn.
  destruct (H 0) as [b Hb]; [lia|]. rewrite Z.add_0_r in Hb. rewrite Hb. cbn. f_equal. apply IH.
  intros i Hi. replace (a + 1 + i) with (a + (1 + i)) by lia. apply H. lia.
Qed.

Lemma sim_peek_block (h : sim) bs : forall a,
  block (h : Host) a bs -> sim_peek (sm_mem h) a (length bs) = bs.
Proof.
  induction bs as [|b bs IH]; intros a H; [done|]. cbn.
  pose proof (H 0%nat b eq_refl) as Hb. rewrite Z.add_0_r in Hb. cbn in Hb. rewrite Hb. f_equal.
  apply IH. change (b :: bs) with ([b] ++ bs) in H. by apply block_app in H as [_ H].
Qed.

Lemma sim_poke_lookup bs : forall m a x,
  sim_poke m a bs !! x =
  if decide (a <= x < a + zlen bs) then bs !! Z.to_nat (x - a) else m !! x.
Proof.
  induction bs as [|b bs IH]; intros m a x; unfold zlen; cbn [sim_poke length].
  - by rewrite decide_False by (cbn; lia).
  - rewrite IH. unfold zlen. destruct (decide (x = a)) as [->|Hne].
    + rewrite decide_False, decide_True by lia. rewrite lookup_insert_eq.
      by replace (Z.to_nat (a - a)) with 0%nat by lia.
    + rewrite lookup_insert_ne by done. repeat case_decide; try lia; [|done].
      by replace (Z.to_nat (x - a)) with (S (Z.to_nat (x - (a + 1)))) by lia.
Qed.

#[export] Instance sim_memory_laws : MemoryLaws SimStorage.
Proof.
  split.
  - intros h base b off Hm. cbn. unfold sim_mapped. rewrite (proj2 (Z.eqb_eq _ _)).
    2: { unfold zlen at 1 3. rewrite sim_peek_mapped; [unfold zlen; lia|].
         intros i Hi. apply Hm. unfold zlen in *. lia. }
    eexists. split; [done|]. split_and!; [| |done].
    + intros i x Hi. cbn. rewrite sim_poke_lookup. apply lookup_lt_Some in Hi as Hlt.
      rewrite decide_True by (unfold zlen; lia). rewrite <- Hi. f_equal. lia.
    + intros x Hx. cbn. by rewrite sim_poke_lookup, decide_False by lia.
  - intros h base bs off Hb. cbn. unfold zlen. rewrite Nat2Z.id.
    apply sim_peek_block in Hb. cbn in Hb. by rewrite Hb, Z.eqb_refl.
Qed.

Lemma sim_contents_set (h : sim) f v : sim_contents (sim_set_data (<[sf_id f := v]> (sm_data h)) h) f = v.
Proof. unfold sim_contents. cbn. by rewrite lookup_insert_eq. Qed.

Lemma sim_reads_well f : sf_pipe f = false -> ReadsWell SimStorage f.
Proof.
  intros Hf h n Hn. cbn. unfold sim_read_file. destruct (sim_contents h f) as [d pos] eqn:Ec. cbn [fst snd].
  destruct (Z.eqb_spec (zlen (ztake n (zdrop pos d))) 0) as [E0|Hne]; cbn [andb].
  - rewrite (proj2 (Z.ltb_lt _ _)), Hf by done. do 3 eexists. split; [done|]. rewrite Ec. cbn [fst snd].
    split_and!; [unfold zlen; cbn; lia|done|done|done|].
    apply length_zero_iff_nil. unfold zlen, ztake in E0. rewrite length_take in E0. lia.
  - do 3 eexists. split; [done|]. rewrite sim_contents_set. cbn [fst snd].
    split_and!; [unfold zlen, ztake; rewrite length_take; lia| |done|by intros E; rewrite E in Hne].
    unfold zdrop, ztake, zlen. rewrite Z2Nat.inj_add by lia.
    replace (Z.to_nat (Z.max 0 pos)) with (Z.to_nat pos) by lia. rewrite <- drop_drop, Nat2Z.id.
    rewrite length_take. destruct (decide (Z.to_nat n <= length (drop (Z.to_nat pos) d))%nat).
    + rewrite Nat.min_l by done. by rewrite take_drop.
    + rewrite Nat.min_r by lia. rewrite take_ge by lia. by rewrite drop_all, app_nil_r.
Qed.

#[export] Instance sim_regular_reads : ReadsWell SimStorage sim_regular.
Proof. by apply sim_reads_well. Qed.

Lemma length_splice {A} (x : A) o b d : (o <= length d)%nat -> (length d <= o + length b)%nat ->
  length (splice x o b d) = (o + length b)%nat.
Proof.
  intros H1 H2. destruct (decide (b = [])) as [->|]; [cbn in *; lia|]. rewrite splice_cons by done.
  rewrite !length_app, length_resize, length_drop. lia.
Qed.

Lemma sim_takes (h : sim) f b : takes (h : Host) (sim_write_file h f b).1 f b.
Proof.
  unfold takes, sim_write_file. cbn -[sim_contents]. unfold sim_offset.
  destruct (sim_contents h f) as [d pos] eqn:Ec. cbn -[sim_contents].
  rewrite sim_contents_set. split; [done|]. split; [|done].
  destruct (sf_pipe f); [apply length_splice; lia|unfold zlen; lia].
Qed.

#[export] Instance sim_writes_well f : WritesWell SimStorage f.
Proof.
  assert (forall (h : sim) b, (sim_write_file h f b).2 = (zlen b, None)) as Hw.
  { intros h b. unfold sim_write_file. by destruct (sim_contents h f). }
  split.
  - intros h b. pose proof (sim_takes h f b) as Ht. specialize (Hw h b).
    destruct (sim_write_file h f b) as [h' r] eqn:E. cbn in Hw, Ht. subst r. exists h'. split; [|done].
    cbn. by rewrite E.
  - intros h base bs _ Hb. pose proof (sim_takes h f bs) as Ht. specialize (Hw h bs).
    destruct (sim_write_file h f bs) as [h' r] eqn:E. cbn in Hw, Ht. subst r. exists h'. split; [|done].
    cbn. rewrite Z.sub_0_r, Z.add_0_r. pose proof (sim_peek_block h bs base Hb) as Hp.
    replace (Z.to_nat (zlen bs)) with (length bs) by (unfold zlen; lia). by rewrite Hp, E, Z.eqb_refl.
Qed.

Lemma sim_buffer_mapped n : n <= 64 -> mapped (sim0 : Host) 0x1000 n.
Proof.
  intros Hn i Hi. unfold mem, SimStorage, sim0. cbn [sm_mem]. rewrite sim_poke_lookup, decide_True.
  - apply lookup_lt_is_Some_2. change (Z.to_nat (0x1000 + i - 0x1000) < 64)%nat. lia.
  - change (0x1000 <= 0x1000 + i < 0x1000 + 64). lia.
Qed.

Lemma sim_buffer_block : block (sim0 : Host) 0x1000 sim_path.
Proof. by intros [|[|i]] b Hi; vm_compute in Hi; simplify_eq. Qed.

Lemma read_transfers_witness :
  exists h' b, run 4 (Fcntl.read 5 0x1000 4) sim_world = Returned 4 (set_host h' sim_world) /\
    zlen b = 4 /\ unread (sim0 : Host) sim_regular = b ++ unread h' sim_regular /\
    block h' 0x1000 b /\ same_outside (w_host sim_world) h' 0x1000 4.
Proof.
  apply (read_transfers (D := SimDebugger) sim_regular 4 5 0x1000 4 sim_world);
    [reflexivity|reflexivity|lia|lia|apply sim_buffer_mapped; lia|by vm_compute].
Defined.

Lemma read_past_end_loses_data_witness :
  exists h', run 20 (Fcntl.read 5 0x1000 20) sim_world =
      Returned (-1) (set_err (Errno_val EIO) (set_host h' sim_world)) /\
    unread h' sim_regular = [] /\ block h' 0x1000 (unread (sim0 : Host) sim_regular).
Proof.
  apply (read_past_end_loses_data (D := SimDebugger) sim_regular 20 5 0x1000 20 sim_world);
    [reflexivity|reflexivity|lia|lia|apply sim_buffer_mapped; lia|by vm_compute].
Defined.

(** The first two of the ten bytes are written over. *)
Lemma write_transfers_witness :
  exists h', run 2 (Fcntl.write 5 0x1000 2) sim_world = Returned 2 (set_host h' sim_world) /\
    contents h' sim_regular = sim_path ++ drop 2 sim_ten /\ offset h' sim_regular = 2%nat /\
    (forall a, mem h' a = mem (sim0 : Host) a).
Proof.
  refine (write_transfers (D := SimDebugger) sim_regular 2 5 0x1000 sim_path sim_world _ _ _ _ _);
    [reflexivity|reflexivity|by vm_compute|by vm_compute|apply sim_buffer_block].
Defined.

(** Two vectors at 0x2000, both of them the path, for the writing end of a pipe
    at descriptor 7, which is an [io.ReaderFrom]. *)
Definition sim_vectors : list iovec := [Iovec 0x1000 2; Iovec 0x1000 2].
Definition sim_pipe_end : sim_file := SimFile 50 false false false true false true true.
Definition sim_iov_world := sim_boot (sim_set_fds (<[7 := sim_pipe_end]> (sm_fds sim0))
  (sim_set_cells [(0x2000, existT ShIovecs sim_vectors)] sim0)).

Lemma writev_transfers_witness :
  exists h', run 4 (Fcntl.writev 7 0x2000 2) sim_iov_world = Returned 4 (set_host h' sim_iov_world) /\
    contents h' sim_pipe_end = sim_path ++ sim_path /\ offset h' sim_pipe_end = 4%nat /\
    (forall a, mem h' a = mem (sim0 : Host) a).
Proof.
  refine (writev_transfers (D := SimDebugger) sim_pipe_end 4 7 0x2000 2 sim_vectors
    [sim_path; sim_path] sim_iov_world None _ _ _ _ _ _ _);
    [reflexivity|reflexivity|lia|reflexivity| |by vm_compute|by vm_compute].
  repeat constructor; apply sim_buffer_block.
Defined.
