(* ===== verification/PathProps.v ===== *)
(** * Paths: theorems about faccessat and readlinkat

    Both calls start like every [at] call: the path is read from guest memory and
    the directory looked up ([resolve] says what they get, and with which errno
    they stop).  What follows is stated against guest memory: how much of it
    readlinkat writes, and that faccessat changes none of the kernel's state. *)

From stdpp Require Import base list gmap numbers.
From S2P Require Import Prelude GoProg GoSpec LinuxABI GoRuntime Structs Host SimHost World.
From S2P Require Import WorldSpec Fcntl Syscall SimKernel IoProps.
Local Open Scope Z_scope.
Local Open Scope go_scope.
Import Fcntl.

(** [emulator.Pointer.MemWritePtr]: nothing outside the range is touched, and a
    range that is mapped is written. *)
Class PtrWrites `{D : Debugger} (ST : Storage) : Prop := {
  write_outside h a b : same_outside h (MemWritePtr h a b).1 a (zlen b);
  write_block h a b : mapped h a (zlen b) -> block (MemWritePtr h a b).1 a b
}.

Section paths.
Context {D : Debugger}.

(** ** Resolving a path *)

Inductive resolved (X : Type) :=
| Found (path : bytes) (dir : X)
| Stops (e : Errno)              (* the call fails with this errno *)
| NoAssert.                      (* the root is not of the interface asserted *)
Arguments Found {X}. Arguments Stops {X}. Arguments NoAssert {X}.

Definition resolve {X} (as_dir : File -> option X) (cwd : option X) (dfd filename : Z) (h : Host) : resolved X :=
  match MemReadString h filename with
  | inr _ => Stops ENOENT
  | inl path =>
      if dfd =? AT_FDCWD then match cwd with Some dir => Found path dir | None => NoAssert end
      else match GetFile h dfd with
           | inr _ => Stops EBADF
           | inl file => match as_dir file with Some dir => Found path dir | None => Stops ENOTDIR end
           end
  end.

(** The start of an [at] call does what [resolve] says. *)
Lemma run_resolve {X} n (as_dir : File -> option X) (cwd : Host -> option X) (mcwd : prog World X) dfd filename k w :
  (forall (k' : X -> prog World Z), run n (bind mcwd k') w =
     match cwd (w_host w) with Some dir => run n (k' dir) w | None => Panicked PanicTypeAssert w end) ->
  run n (with_path filename (fun path => with_dir as_dir mcwd dfd (k path))) w =
  match resolve as_dir (cwd (w_host w)) dfd filename (w_host w) with
  | Found path dir => run n (k path dir) w
  | Stops e => Returned (-1) (set_err (Errno_val e) w)
  | NoAssert => Panicked PanicTypeAssert w
  end.
Proof.
  intros Hcwd. unfold with_path, with_dir, resolve. rewrite run_hget.
  destruct (MemReadString _ _) as [path|]; [|done]. destruct (dfd =? AT_FDCWD); cbn [negb].
  - rewrite Hcwd. by destruct (cwd (w_host w)).
  - rewrite run_hget. destruct (GetFile _ _) as [file|]; [|done]. by destruct (as_dir file).
Qed.

(** ** readlinkat *)

Context {ST : Storage} {PW : PtrWrites ST}.

(** C30: readlinkat on every branch: it stops with ENOENT, EBADF, ENOTDIR or
    EINVAL and changes nothing but the errno, panics when the root has no
    links, or returns the smaller of the length of the link and of the
    buffer, has touched no memory outside that many bytes from buf on, and
    they hold the start of the link when they are mapped. *)
Theorem readlinkat_effect n dfd filename buf bufsiz w :
  0 <= bufsiz ->
  match resolve as_ReadlinkFS (FS_as_ReadlinkFS (GetFS (w_host w))) dfd filename (w_host w) with
  | Stops e => run n (readlinkat dfd filename buf bufsiz) w = Returned (-1) (set_err (Errno_val e) w)
  | NoAssert => run n (readlinkat dfd filename buf bufsiz) w = Panicked PanicTypeAssert w
  | Found path dir =>
      match FS_Readlink (w_host w) dir path with
      | inr _ => run n (readlinkat dfd filename buf bufsiz) w = Returned (-1) (set_err (Errno_val EINVAL) w)
      | inl link =>
          let size := Z.min (zlen link) bufsiz in
          exists h', run n (readlinkat dfd filename buf bufsiz) w = Returned size (set_host h' w) /\
            same_outside (w_host w) h' buf size /\
            (mapped (w_host w) buf size -> block h' buf (ztake size link))
      end
  end.
Proof.
  intros Hb. unfold readlinkat.
  pose proof (run_resolve n as_ReadlinkFS (fun h => FS_as_ReadlinkFS (GetFS h))
    (let! fs := hget GetFS in match FS_as_ReadlinkFS fs with Some dir => Ret dir | None => Panic PanicTypeAssert end)
    dfd filename
    (fun path dir => let! link := hget (fun h => FS_Readlink h dir path) in
       match link with
       | inr _ => fail EINVAL
       | inl link =>
           let! _ := hdo (fun h => MemWritePtr h buf (ztake (Z.min (zlen link) bufsiz) link)) in
           Ret (Z.min (zlen link) bufsiz)
       end) w) as E.
  cbv beta zeta in E |- *. rewrite E by (intros k; rewrite bind_assoc, run_hget; by destruct (FS_as_ReadlinkFS _)). clear E.
  destruct (resolve _ _ _ _ _) as [path dir|e|]; [|done|done].
  rewrite run_hget. destruct (FS_Readlink _ _ _) as [link|]; [|done].
  set (size := Z.min (zlen link) bufsiz). rewrite run_hdo. eexists. split; [done|].
  assert (zlen (ztake size link) = size) as El by (apply zlen_ztake; pose proof (zlen_nonneg link); lia).
  split; [rewrite <- El at 2; apply write_outside|]. intros Hm. apply write_block. by rewrite El.
Qed.

(** ** faccessat *)

(** faccessat returns 0 when the file can be opened for reading, whatever access
    the mode asks about, and fails with ENOENT when it cannot; the flags of the
    descriptors and all other state of the kernel stay as they are. *)
Theorem faccessat_effect n dfd filename mode w :
  match resolve as_FS (Some (GetFS (w_host w))) dfd filename (w_host w) with
  | Stops e => run n (faccessat dfd filename mode) w = Returned (-1) (set_err (Errno_val e) w)
  | NoAssert => False
  | Found path dir =>
      match FS_OpenFile (w_host w) dir path fs_O_RDONLY (uint32 mode) with
      | (h1, inr _) => run n (faccessat dfd filename mode) w = Returned (-1) (set_err (Errno_val ENOENT) (set_host h1 w))
      | (h1, inl file) => run n (faccessat dfd filename mode) w = Returned 0 (set_host (file_Close h1 file).1 w)
      end
  end.
Proof.
  unfold faccessat.
  pose proof (run_resolve n as_FS (fun h => Some (GetFS h)) (hget GetFS) dfd filename
    (fun path dir => let! r := hdo (fun h => FS_OpenFile h dir path fs_O_RDONLY (uint32 mode)) in
       match r with
       | inr _ => fail ENOENT
       | inl file => let! _ := hdo (fun h => file_Close h file) in Ret 0
       end) w) as E.
  cbv beta in E. rewrite E by (intros k; by rewrite run_hget). clear E.
  destruct (resolve _ _ _ _ _) as [path dir|e|] eqn:Er; [|done|].
  - rewrite run_hdo. destruct (FS_OpenFile _ _ _ _ _) as [h1 [file|e]]; [|done]. cbn [fst snd]. by rewrite run_hdo.
  - unfold resolve in Er. destruct (MemReadString _ _); [|done]. destruct (dfd =? AT_FDCWD); [done|].
    destruct (GetFile _ _) as [file|]; [|done]. by destruct (as_FS file).
Qed.

End paths.

(** ** Witness *)

#[export] Instance sim_ptr_writes : PtrWrites SimStorage.
Proof.
  split; intros h a b; cbn; unfold sim_mapped.
  - intros x Hx. destruct (_ =? _); [|done]. cbn. by rewrite sim_poke_lookup, decide_False by lia.
  - intros Hm. rewrite (proj2 (Z.eqb_eq _ _)).
    2: { unfold zlen at 1 3. rewrite sim_peek_mapped; [unfold zlen; lia|].
         intros i Hi. apply Hm. unfold zlen in *. lia. }
    intros i x Hi. cbn. rewrite sim_poke_lookup. apply lookup_lt_Some in Hi as Hlt.
    rewrite decide_True by (unfold zlen; lia). rewrite <- Hi. f_equal. lia.
Qed.

(** A buffer of one byte for a link of two: one byte is written, the next is not. *)
Lemma readlinkat_effect_witness :
  exists h', run 0 (readlinkat AT_FDCWD 0x1000 0x1010 1) sim_world = Returned 1 (set_host h' sim_world) /\
    mem h' 0x1010 = sim_path !! 0%nat /\ mem h' 0x1011 = mem (w_host sim_world) 0x1011.
Proof.
  destruct (readlinkat_effect 0 AT_FDCWD 0x1000 0x1010 1 sim_world ltac:(lia)) as (h' & E & Ho & Hb).
  assert (mapped (w_host sim_world) 0x1010 1) as Hm.
  { intros i Hi. replace i with 0 by lia. by eexists. }
  exists h'. split; [exact E|]. split.
  - exact (Hb Hm 0%nat _ eq_refl).
  - apply Ho. right. vm_compute. discriminate.
Defined.
