(* ===== verification/StatProps.v ===== *)
(** * File status: theorems

    The mode, the times and the agreement of the four stat handlers, against
    what [os] reports for each kind of file and what Linux expects. *)

From stdpp Require Import base list gmap numbers.
From S2P Require Import Prelude GoProg GoSpec LinuxABI GoRuntime Structs Host SimHost World.
From S2P Require Import WorldSpec Fcntl Stat Syscall SimKernel.
Local Open Scope Z_scope.
Local Open Scope go_scope.
Import Stat.

(** ** Kinds of files *)

Inductive file_kind := KReg | KDir | KBlk | KChr | KFifo | KLnk | KSock.

(** The type bits Go's [os] sets for a kind: a character device has both device
    bits. *)
Definition go_type (k : file_kind) : Z :=
  match k with
  | KReg => 0
  | KDir => ModeDir
  | KBlk => ModeDevice
  | KChr => ModeDevice + ModeCharDevice
  | KFifo => ModeNamedPipe
  | KLnk => ModeSymlink
  | KSock => ModeSocket
  end.

(** The type bits of Linux's [st_mode]. *)
Definition linux_type (k : file_kind) : Z :=
  match k with
  | KReg => 0x8000 | KDir => 0x4000 | KBlk => 0x6000 | KChr => 0x2000
  | KFifo => 0x1000 | KLnk => 0xA000 | KSock => 0xC000
  end.

(** A mode with type [t], permissions [perm] and, besides, any of the bits
    (append, exclusive, temporary, setuid, setgid, sticky) in [extra]. *)
Lemma mode_parts t perm extra :
  Z.land t ModeType = t -> 0 <= perm < 512 -> Z.land extra (Z.lor ModeType ModePerm) = 0 ->
  mode_Type (Z.lor t (Z.lor perm extra)) = t /\ mode_Perm (Z.lor t (Z.lor perm extra)) = perm.
Proof.
  intros Ht Hp He. unfold mode_Type, mode_Perm.
  assert (Z.land perm ModePerm = perm) as Hpp.
  { change ModePerm with (Z.ones 9). rewrite Z.land_ones by lia. apply Z.mod_small. lia. }
  assert (Z.land perm ModeType = 0) as Hpt.
  { rewrite <- Hpp, <- Z.land_assoc. change (Z.land ModePerm ModeType) with 0. apply Z.land_0_r. }
  assert (Z.land t ModePerm = 0) as Htp.
  { rewrite <- Ht, <- Z.land_assoc. change (Z.land ModeType ModePerm) with 0. apply Z.land_0_r. }
  rewrite Z.land_lor_distr_r in He. apply Z.lor_eq_0_iff in He as [He1 He2].
  rewrite !Z.land_lor_distr_l. rewrite Ht, Hpt, He1, Htp, Hpp, He2. cbn.
  by rewrite !Z.lor_0_r.
Qed.

(** C36: For every kind of file, every permission and whatever other mode
    bits Go sets, st_mode is the permissions with the type bits of Linux,
    except that a character device is given the type of a regular file. *)
Theorem stat_mode_matches_linux k perm extra :
  0 <= perm < 512 -> Z.land extra (Z.lor ModeType ModePerm) = 0 ->
  st_mode_of (Z.lor (go_type k) (Z.lor perm extra)) =
  Z.lor perm (linux_type match k with KChr => KReg | _ => k end).
Proof.
  intros Hp He. unfold st_mode_of.
  destruct (mode_parts (go_type k) perm extra) as [-> ->]; [by destruct k|done|done|].
  rewrite uint32_id by wrap_lia. by destruct k.
Qed.

(** All three times of both structs are the modification time exactly; the
    nanoseconds are in range from the epoch on, and zero or negative before
    it. *)
Theorem stat_times info :
  let ts := s64_mtim (stat64_of info) in
  s64_atim (stat64_of info) = ts /\ s64_ctim (stat64_of info) = ts /\
  s32_mtim (stat3264_of info) = ts /\
  tv_sec ts * 1000000000 + tv_nsec ts = fi_UnixNano info /\
  (0 <= fi_UnixNano info -> 0 <= tv_nsec ts < 1000000000) /\
  (fi_UnixNano info < 0 -> -1000000000 < tv_nsec ts <= 0).
Proof.
  cbn. pose proof (Z.quot_rem (fi_UnixNano info) 1000000000 ltac:(lia)).
  split_and!; [done..|lia| |].
  - intros. by apply Z.rem_bound_pos.
  - intros. pose proof (Z.rem_nonpos (fi_UnixNano info) 1000000000 ltac:(lia) ltac:(lia)).
    pose proof (Z.rem_bound_abs (fi_UnixNano info) 1000000000 ltac:(lia)). lia.
Qed.

Section statprops.
Context {D : Debugger}.

(** fstatat on the working directory and fstat on a descriptor of the same
    file write the same struct. *)
Theorem fstatat_agrees_with_fstat n filename path fd file statbuf flag w :
  MemReadString (w_host w) filename = inl path -> GetFile (w_host w) fd = inl file ->
  FS_Stat (w_host w) (FS_IoFS (GetFS (w_host w))) path = file_Stat (w_host w) file ->
  run n (fstatat64 Fcntl.AT_FDCWD filename statbuf flag) w = run n (fstat64 fd statbuf) w /\
  run n (fstatat3264 Fcntl.AT_FDCWD filename statbuf flag) w = run n (fstat3264 fd statbuf) w.
Proof.
  intros Hp Hg Hs.
  split; unfold fstatat64, fstat64, fstatat3264, fstat3264, Fcntl.with_path, Fcntl.with_dir;
    rewrite run_hget, Hp; change (negb (Fcntl.AT_FDCWD =? Fcntl.AT_FDCWD)) with false; cbv iota;
    rewrite !run_hget, Hs, Hg, run_hget; done.
Qed.

End statprops.

(** ** Witnesses *)

Lemma stat_mode_matches_linux_witness :
  st_mode_of (Z.lor ModeDir (Z.lor 493 (2 ^ 20))) = 0x41ED.
Proof. exact (stat_mode_matches_linux KDir 493 (2 ^ 20) ltac:(lia) eq_refl). Defined.

Lemma fstatat_agrees_with_fstat_witness :
  run 0 (fstatat64 Fcntl.AT_FDCWD 0x1000 0x3000 0) sim_world = run 0 (fstat64 5 0x3000) sim_world /\
  run 0 (fstatat3264 Fcntl.AT_FDCWD 0x1000 0x3000 0) sim_world = run 0 (fstat3264 5 0x3000) sim_world.
Proof.
  exact (fstatat_agrees_with_fstat 0 0x1000 sim_path 5 sim_regular 0x3000 0 sim_world
    eq_refl eq_refl eq_refl).
Defined.
