(* ===== verification/SignalProps.v ===== *)
(** * Signals: theorems

    Signal sets as sets of signal numbers, the mask operations of
    [rt_sigprocmask] on them, and the table of [rt_sigaction]. *)

From stdpp Require Import base list gmap numbers.
From S2P Require Import Prelude GoProg GoSpec LinuxABI GoRuntime Structs Host SimHost World.
From S2P Require Import WorldSpec Signal Syscall SimKernel.
Local Open Scope Z_scope.
Local Open Scope go_scope.
Import Signal.

(** Signal [s], counted from 1, is in the set. *)
Definition member (set s : Z) : bool := Z.testbit set (s - 1).

Lemma sig_bit_test sig t : is_i32 sig -> 1 <= t ->
  member (sig_bit sig) t = (1 <=? sig) && (sig <=? 64) && (t =? sig).
Proof.
  intros Hs Ht. unfold member, sig_bit, sig_shift. destruct (Z.leb_spec 1 sig) as [H1|H1]; cbn [andb].
  - rewrite int32_id, uint64_id by wrap_lia. destruct (Z.leb_spec sig 64) as [H2|H2]; cbn [andb].
    + rewrite (proj2 (Z.ltb_lt _ _)) by lia. rewrite Z.shiftl_spec by lia.
      destruct (Z.eqb_spec t sig) as [->|Hne]; [by rewrite Z.sub_diag|].
      destruct (decide (t - 1 < sig - 1)); [by rewrite Z.testbit_neg_r by lia|].
      replace (t - 1 - (sig - 1)) with (Z.succ (t - 1 - (sig - 1) - 1)) by lia.
      change 1 with (2 * 0 + 1) at 1. rewrite Z.testbit_odd_succ by lia. apply Z.bits_0.
    + rewrite (proj2 (Z.ltb_ge _ _)) by lia. apply Z.bits_0.
  - rewrite (proj2 (Z.ltb_ge _ _)); [apply Z.bits_0|].
    destruct (decide (sig = -2147483648)) as [->|Hne]; [by vm_compute|]. wrap_lia.
Qed.

(** The set operations as operations on sets of the signals 1 to 64: add and
    delete change the membership of their own signal only, and nothing for a
    number outside that range. *)
Theorem sigset_operations set sig t :
  is_i32 sig -> 1 <= t <= 64 ->
  let valid := (1 <=? sig) && (sig <=? 64) in
  member (sigaddset set sig) t = member set t || (valid && (t =? sig)) /\
  member (sigdelset set sig) t = member set t && negb (valid && (t =? sig)) /\
  member sigemptyset t = false /\ member sigfillset t = true.
Proof.
  intros Hs Ht valid. unfold valid. split_and!.
  - unfold sigaddset, member at 1. rewrite Z.lor_spec. by rewrite <- (sig_bit_test sig t) by (done || lia).
  - unfold sigdelset, and_not, member at 1. rewrite Z.ldiff_spec. by rewrite <- (sig_bit_test sig t) by (done || lia).
  - apply Z.bits_0.
  - unfold member, sigfillset. change MaxUint64 with (Z.ones 64). apply Z.ones_spec_low. lia.
Qed.

(** A write of a set leaves a set that does not overlap it as it is. *)
Class SigsetMemory `{Debugger} : Prop :=
  sigset_apart : forall h a b v, 8 <= Z.abs (a - b) ->
    MemExtract (MemWrite h a ShSigset v).1 b ShSigset 0 = MemExtract h b ShSigset 0.

Section signalprops.
Context {D : Debugger}.

Definition set_mask (v : Z) (w : World) : World :=
  set_signal (World.Signal v (sg_rw (w_signal w)) (sg_table (w_signal w))) w.

(** The meaning [rt_sigprocmask] gives to [how]. *)
Definition mask_update (how s value : Z) : option Z :=
  if how =? 1 then Some (Z.lor s value)
  else if how =? 2 then Some (Z.ldiff s value)
  else if how =? 3 then Some value
  else None.

Lemma run_sigprocmask_set n how set w :
  run n (sigprocmask_set how set) w =
  match MemExtract (w_host w) set ShSigset 0 with
  | (_, Some _) => Returned (-1) (set_err (Errno_val EFAULT) w)
  | (v, None) =>
      match mask_update how (sg_set (w_signal w)) v with
      | Some s => Returned 0 (set_mask s w)
      | None => Returned (-1) (set_err (Errno_val EINVAL) w)
      end
  end.
Proof.
  unfold sigprocmask_set. rewrite run_hget. destruct (MemExtract _ _ _ _) as [v [e|]]; [done|].
  unfold mask_update, SIG_BLOCK, SIG_UNBLOCK, SIG_SETMASK, and_not.
  by destruct (how =? 1), (how =? 2), (how =? 3).
Qed.

(** The old mask goes out first. *)
Lemma run_mask_saved n how set oldset size w h1 :
  (if oldset =? 0 then h1 = w_host w else MemWrite (w_host w) oldset ShSigset (sg_set (w_signal w)) = (h1, None)) ->
  run n (rt_sigprocmask how set oldset size) w = run n (sigprocmask_set how set) (set_host h1 w).
Proof.
  intros Hold. unfold rt_sigprocmask. destruct (Z.eqb_spec oldset 0); cbn [negb].
  - subst h1. by destruct w.
  - unfold set_get. cbn [bind]. rewrite run_act, run_hdo. by rewrite Hold.
Qed.

(** C33: rt_sigprocmask with readable pointers changes the mask signal by
    signal: the numbers 1, 2 and 3 add, remove and replace, return 0 and
    leave the errno; any other number returns -1 with EINVAL and leaves the
    mask as it is. *)
Theorem sigprocmask_effect n how set oldset size w v h1 :
  let s := sg_set (w_signal w) in
  (if oldset =? 0 then h1 = w_host w else MemWrite (w_host w) oldset ShSigset s = (h1, None)) ->
  MemExtract h1 set ShSigset 0 = (v, None) ->
  let o := run n (rt_sigprocmask how set oldset size) w in
  let ok := (1 <=? how) && (how <=? 3) in
  w_host (world_of o) = h1 /\ value_of o = Some (if ok then 0 else -1) /\
  w_err (world_of o) = (if ok then w_err w else Errno_val EINVAL) /\
  forall t, member (sg_set (w_signal (world_of o))) t =
    if how =? 1 then member s t || member v t
    else if how =? 2 then member s t && negb (member v t)
    else if how =? 3 then member v t
    else member s t.
Proof.
  intros s Hold He o ok. unfold o, ok. rewrite (run_mask_saved _ _ _ _ _ _ h1) by done.
  rewrite run_sigprocmask_set. cbn [w_host set_host]. rewrite He. cbn [w_signal set_host]. fold s.
  assert ((1 <=? how) && (how <=? 3) = (how =? 1) || (how =? 2) || (how =? 3)) as -> by lia.
  unfold mask_update, member.
  destruct (how =? 1); [|destruct (how =? 2); [|destruct (how =? 3)]]; cbn;
    (do 3 (split; [done|]); intros t); rewrite ?Z.lor_spec, ?Z.ldiff_spec; done.
Qed.

(** With the numbers Linux uses for how, SIG_BLOCK (0) fails with EINVAL,
    SIG_UNBLOCK (1) blocks and SIG_SETMASK (2) unblocks. *)
Theorem sigprocmask_linux_how n set w v :
  MemExtract (w_host w) set ShSigset 0 = (v, None) ->
  let s := sg_set (w_signal w) in
  (* SIG_BLOCK *)
  run n (rt_sigprocmask 0 set 0 8) w = Returned (-1) (set_err (Errno_val EINVAL) w) /\
  (* SIG_UNBLOCK *)
  run n (rt_sigprocmask 1 set 0 8) w = Returned 0 (set_mask (Z.lor s v) w) /\
  (* SIG_SETMASK *)
  run n (rt_sigprocmask 2 set 0 8) w = Returned 0 (set_mask (Z.ldiff s v) w).
Proof.
  intros He s. unfold rt_sigprocmask. change (negb (0 =? 0)) with false. cbv iota.
  rewrite !run_sigprocmask_set, He. done.
Qed.

(** With a null set, which only asks for the mask, the mask is written to
    oldset and the call fails with EFAULT. *)
Theorem sigprocmask_query_fails n how oldset size w h1 v e :
  oldset <> 0 -> MemWrite (w_host w) oldset ShSigset (sg_set (w_signal w)) = (h1, None) ->
  MemExtract h1 0 ShSigset 0 = (v, Some e) ->
  run n (rt_sigprocmask how 0 oldset size) w =
    Returned (-1) (set_err (Errno_val EFAULT) (set_host h1 w)).
Proof.
  intros Ho Hw He. unfold rt_sigprocmask. rewrite (proj2 (Z.eqb_neq _ _)) by done. cbn [negb].
  unfold set_get. cbn [bind]. rewrite run_act, run_hdo, Hw. cbn [fst snd].
  rewrite run_sigprocmask_set. cbn [w_host set_host]. by rewrite He.
Qed.

(** ** Saving and restoring the mask *)

Definition mask_of (w : World) : Z := sg_set (w_signal w).

(** Sets in guest memory that do not overlap. *)
Definition apart (a b : Z) : Prop := 8 <= Z.abs (a - b).

Context {SM : SigsetMemory}.

(** The set saved at [old], the actions and the state of the locks and tables
    are as before. *)
Definition saved (old : Z) (w w' : World) : Prop :=
  MemExtract (w_host w') old ShSigset 0 = MemExtract (w_host w) old ShSigset 0 /\
  sg_table (w_signal w') = sg_table (w_signal w) /\ (ready w -> ready w').

Lemma saved_refl old w : saved old w w.
Proof. by split_and!. Qed.

Lemma saved_trans old w1 w2 w3 : saved old w1 w2 -> saved old w2 w3 -> saved old w1 w3.
Proof. intros (A1 & B1 & C1) (A2 & B2 & C2). split_and!; [by rewrite A2|by rewrite B2|auto]. Qed.

Lemma saved_same old w w' :
  w_host w' = w_host w -> sg_table (w_signal w') = sg_table (w_signal w) -> (ready w -> ready w') -> saved old w w'.
Proof. intros E1 E2 H. split_and!; [by rewrite E1|done|done]. Qed.

Lemma ready_mask s w : ready w -> ready (set_mask s w).
Proof. intros [Hl Ht]. split; [|done]. intros l. specialize (Hl l). by destruct l. Qed.

Lemma run_mask_set n how set old w :
  exists r w', run n (sigprocmask_set how set) w = Returned r w' /\ saved old w w'.
Proof.
  rewrite run_sigprocmask_set.
  destruct (MemExtract _ _ _ _) as [v [e|]]; [|destruct (mask_update _ _ _) as [s|]];
    do 2 eexists; (split; [done|]); apply saved_same; try done; auto using ready_set_err, ready_mask.
Qed.

(** Any call that does not save the mask of its own over the saved one. *)
Lemma run_mask_call n how set oldset size old w :
  oldset = 0 \/ apart oldset old ->
  exists r w', run n (rt_sigprocmask how set oldset size) w = Returned r w' /\ saved old w w'.
Proof.
  intros Ho. unfold rt_sigprocmask. destruct (Z.eqb_spec oldset 0) as [->|Hne]; cbn [negb]; [apply run_mask_set|].
  destruct Ho as [?|Ho]; [done|]. unfold set_get. cbn [bind]. rewrite run_act, run_hdo.
  pose proof (sigset_apart (w_host w) oldset old (sg_set (w_signal w)) Ho) as Ha.
  destruct (MemWrite _ _ _ _) as [h1 [e|]]; cbn [fst snd] in *.
  - do 2 eexists. split; [done|]. split_and!; [done|done|]. intros Hw. apply ready_set_err. by apply untouched_host.
  - destruct (run_mask_set n how set old (set_host h1 w)) as (r & w' & -> & Hs). exists r, w'. split; [done|].
    eapply saved_trans; [|exact Hs]. split_and!; [done|done|]. intros Hw. by apply untouched_host.
Qed.

(** A call: how, set, oldset and the size. *)
Fixpoint mask_calls (cs : list (Z * Z * Z * Z)) : prog World unit :=
  match cs with
  | [] => Ret tt
  | (how, set, oldset, size) :: cs => let! _ := rt_sigprocmask how set oldset size in mask_calls cs
  end.

Lemma run_mask_calls n old cs : Forall (fun c => c.1.2 = 0 \/ apart c.1.2 old) cs -> forall w,
  exists w', run n (mask_calls cs) w = Returned tt w' /\ saved old w w'.
Proof.
  induction 1 as [|[[[how set] o] size] cs Ho _ IH]; intros w; cbn [mask_calls].
  { exists w. split; [done|apply saved_refl]. }
  rewrite run_bind. destruct (run_mask_call n how set o size old w Ho) as (r & w1 & -> & H1). cbn [then_run].
  destruct (IH w1) as (w2 & -> & H2). exists w2. split; [done|]. by eapply saved_trans.
Qed.

(** C32: A signal mask that rt_sigprocmask wrote to oldset is the mask again
    after the replacing call (number 3) with that pointer, whatever
    rt_sigprocmask calls are made in between (any how, set and size, failing
    or not) that do not save a mask over it: their oldset is null or at least
    eight bytes away. The saved mask is still in memory, the actions are
    untouched, and locks and tables stay as they are. *)
Theorem mask_save_restore n how set old size cs w h1 :
  old <> 0 -> MemWrite (w_host w) old ShSigset (mask_of w) = (h1, None) ->
  MemExtract h1 old ShSigset 0 = (mask_of w, None) ->
  Forall (fun c => c.1.2 = 0 \/ apart c.1.2 old) cs ->
  exists w', run n (let! _ := rt_sigprocmask how set old size in
                    let! _ := mask_calls cs in
                    rt_sigprocmask SIG_SETMASK old 0 size) w = Returned 0 w' /\
    mask_of w' = mask_of w /\ MemExtract (w_host w') old ShSigset 0 = (mask_of w, None) /\
    sg_table (w_signal w') = sg_table (w_signal w) /\ (ready w -> ready w').
Proof.
  intros Ho Hwr Hrd Hcs. rewrite run_bind, (run_mask_saved _ _ _ _ _ _ h1) by (by rewrite (proj2 (Z.eqb_neq _ _))).
  destruct (run_mask_set n how set old (set_host h1 w)) as (r & w1 & -> & H1). cbn [then_run].
  rewrite run_bind. destruct (run_mask_calls n old cs Hcs w1) as (w2 & -> & H2). cbn [then_run].
  destruct (saved_trans _ _ _ _ H1 H2) as (Hm & Ht & Hr). cbn [w_host set_host] in Hm.
  unfold rt_sigprocmask. cbn [Z.eqb negb]. rewrite run_sigprocmask_set, Hm, Hrd.
  unfold mask_update, SIG_SETMASK. cbn [Z.eqb Pos.eqb]. eexists. split; [reflexivity|].
  split; [done|]. split; [by cbn; rewrite Hm|]. split; [done|].
  intros Hw. apply ready_mask, Hr. by apply untouched_host.
Qed.

(** ** The table of actions *)

Definition with_table (m : gmap Z sigaction) (w : World) : World :=
  set_signal (World.Signal (sg_set (w_signal w)) rw_free (Some m)) w.

Lemma run_sigaction n sig act oldact size w m a :
  sg_rw (w_signal w) = rw_free -> sg_table (w_signal w) = Some m ->
  MemExtract (w_host w) act ShSigaction zero_sigaction = (a, None) ->
  run n (rt_sigaction sig act oldact size) w =
  let w1 := with_table (<[sig := a]> m) w in
  match m !! sig with
  | Some old => if oldact =? 0 then Returned 0 w1
                else Returned 0 (set_host (MemWrite (w_host w) oldact ShSigaction old).1 w1)
  | None => Returned 0 w1
  end.
Proof.
  destruct w as [h r fc fx [s rw t] sd e]. cbn -[lookup insert]. intros -> -> ->. cbn -[lookup insert].
  destruct (m !! sig); [|done]. by destruct (oldact =? 0).
Qed.

Lemma ready_table w : ready w -> exists m,
  sg_rw (w_signal w) = rw_free /\ sg_table (w_signal w) = Some m.
Proof. intros [H (_ & _ & _ & [m Hm])]. exists m. split; [apply (H LkSignal)|done]. Qed.

(** C34: A second rt_sigaction on a signal writes the action of the first to
    oldact, stores its own, and leaves the actions of all other signals and
    the errno alone. *)
Theorem sigaction_roundtrip n sig act1 act2 oldact size w a b :
  ready w -> oldact <> 0 ->
  MemExtract (w_host w) act1 ShSigaction zero_sigaction = (a, None) ->
  MemExtract (w_host w) act2 ShSigaction zero_sigaction = (b, None) ->
  exists w', run n (let! _ := rt_sigaction sig act1 0 size in rt_sigaction sig act2 oldact size) w =
      Returned 0 w' /\
    w_host w' = (MemWrite (w_host w) oldact ShSigaction a).1 /\
    nmap_get (sg_table (w_signal w')) sig = Some b /\
    (forall s, s <> sig -> nmap_get (sg_table (w_signal w')) s = nmap_get (sg_table (w_signal w)) s) /\
    ready w' /\ w_err w' = w_err w.
Proof.
  intros Hr Ho Ha Hb. destruct (ready_table w Hr) as (m & E1 & E2).
  assert (run n (rt_sigaction sig act1 0 size) w = Returned 0 (with_table (<[sig := a]> m) w)) as R1.
  { rewrite (run_sigaction _ _ _ _ _ _ m a) by done. cbv zeta. by destruct (m !! sig). }
  pose proof (keeps_rt_sigaction sig act1 0 size n w Hr) as Hr1. rewrite R1 in Hr1.
  rewrite run_bind, R1. cbn [then_run].
  pose proof (keeps_rt_sigaction sig act2 oldact size n _ Hr1) as Hr2.
  rewrite (run_sigaction _ _ _ _ _ _ (<[sig := a]> m) b) in Hr2 |- * by done. cbv zeta in *.
  rewrite lookup_insert_eq in *. rewrite (proj2 (Z.eqb_neq _ _)) in * by done.
  eexists. split; [done|]. split; [done|]. cbn -[lookup insert]. rewrite E2. cbn -[lookup insert].
  split; [by rewrite lookup_insert_eq|]. split; [|done].
  intros s Hs. by rewrite !lookup_insert_ne by done.
Qed.

(** The first action for a signal: nothing is written to oldact. *)
Theorem sigaction_first_skips_oldact n sig act oldact size w a :
  ready w -> nmap_get (sg_table (w_signal w)) sig = None ->
  MemExtract (w_host w) act ShSigaction zero_sigaction = (a, None) ->
  exists w', run n (rt_sigaction sig act oldact size) w = Returned 0 w' /\ w_host w' = w_host w /\
    nmap_get (sg_table (w_signal w')) sig = Some a.
Proof.
  intros Hr Hn Ha. destruct (ready_table w Hr) as (m & E1 & E2). rewrite E2 in Hn. change (m !! sig = None) in Hn.
  rewrite (run_sigaction _ _ _ _ _ _ m a) by done. cbv zeta. destruct (m !! sig); [done|].
  eexists. split; [done|]. split; [done|]. cbn -[lookup insert]. by rewrite lookup_insert_eq.
Qed.

End signalprops.

(** ** Witnesses *)

(** Two actions at 0x2000 and 0x2100, a set (signals 2 and 15) at 0x2200. *)
Definition sim_act1 := Sigaction 0x4000 0 0 0.
Definition sim_act2 := Sigaction 0x4100 4 0 0.
Definition sim_signals : sim :=
  sim_set_cells [(0x2000, existT ShSigaction sim_act1); (0x2100, existT ShSigaction sim_act2);
                 (0x2200, existT ShSigset (0x4002 : denote ShSigset))] sim0.
Definition sim_signal_world := sim_boot sim_signals.

Lemma sigset_operations_witness :
  member (sigaddset 2 15) 15 = true /\ member (sigdelset 2 15) 15 = false /\
  member sigemptyset 15 = false /\ member sigfillset 15 = true.
Proof. refine (sigset_operations 2 15 15 _ _); [by vm_compute|lia]. Defined.

Lemma sigprocmask_effect_witness :
  (let o := run 0 (rt_sigprocmask 1 0x2200 0 8) sim_signal_world in
   w_host (world_of o) = (sim_signals : Host) /\ value_of o = Some 0 /\ w_err (world_of o) = 0 /\
   forall t, member (sg_set (w_signal (world_of o))) t = member 0 t || member 0x4002 t) /\
  (let o := run 0 (rt_sigprocmask 0 0x2200 0 8) sim_signal_world in
   w_host (world_of o) = (sim_signals : Host) /\ value_of o = Some (-1) /\
   w_err (world_of o) = Errno_val EINVAL /\
   forall t, member (sg_set (w_signal (world_of o))) t = member 0 t).
Proof.
  split.
  - exact (sigprocmask_effect 0 1 0x2200 0 8 sim_signal_world 0x4002 (sim_signals : Host) eq_refl eq_refl).
  - exact (sigprocmask_effect 0 0 0x2200 0 8 sim_signal_world 0x4002 (sim_signals : Host) eq_refl eq_refl).
Defined.

Lemma sigprocmask_linux_how_witness :
  run 0 (rt_sigprocmask 0 0x2200 0 8) sim_signal_world =
    Returned (-1) (set_err (Errno_val EINVAL) sim_signal_world) /\
  run 0 (rt_sigprocmask 1 0x2200 0 8) sim_signal_world =
    Returned 0 (set_mask (Z.lor 0 0x4002) sim_signal_world) /\
  run 0 (rt_sigprocmask 2 0x2200 0 8) sim_signal_world =
    Returned 0 (set_mask (Z.ldiff 0 0x4002) sim_signal_world).
Proof. exact (sigprocmask_linux_how 0 0x2200 sim_signal_world 0x4002 eq_refl). Defined.

Lemma sigprocmask_query_fails_witness : exists h1,
  run 0 (rt_sigprocmask 1 0 0x2300 8) sim_signal_world =
    Returned (-1) (set_err (Errno_val EFAULT) (set_host h1 sim_signal_world)).
Proof.
  eexists. eapply (sigprocmask_query_fails 0 1 0x2300 8 sim_signal_world);
    [discriminate|reflexivity|reflexivity].
Defined.

Lemma sigaction_roundtrip_witness :
  exists w', run 0 (let! _ := rt_sigaction 2 0x2000 0 8 in rt_sigaction 2 0x2100 0x2300 8)
      sim_signal_world = Returned 0 w' /\
    w_host w' = (MemWrite (w_host sim_signal_world) 0x2300 ShSigaction sim_act1).1 /\
    nmap_get (sg_table (w_signal w')) 2 = Some sim_act2 /\
    (forall s, s <> 2 -> nmap_get (sg_table (w_signal w')) s =
                         nmap_get (sg_table (w_signal sim_signal_world)) s) /\
    ready w' /\ w_err w' = 0.
Proof.
  apply (sigaction_roundtrip 0 2 0x2000 0x2100 0x2300 8 sim_signal_world sim_act1 sim_act2);
    [apply sim_boot_ready|discriminate|reflexivity|reflexivity].
Defined.

Lemma sigaction_first_skips_oldact_witness :
  exists w', run 0 (rt_sigaction 2 0x2000 0x2300 8) sim_signal_world = Returned 0 w' /\
    w_host w' = w_host sim_signal_world /\ nmap_get (sg_table (w_signal w')) 2 = Some sim_act1.
Proof.
  apply (sigaction_first_skips_oldact 0 2 0x2000 0x2300 8 sim_signal_world sim_act1);
    [apply sim_boot_ready|reflexivity|reflexivity].
Defined.

#[export] Instance sim_sigset_memory : SigsetMemory (H := SimDebugger).
Proof.
  intros h a b v Hab. cbn. destruct (a =? 0); [done|]. cbn. unfold apart in Hab.
  rewrite (proj2 (Z.eqb_neq _ _)) by lia. done.
Qed.

(** The mask is saved at 0x2300, changed twice and saved elsewhere in between,
    and restored. *)
Lemma mask_save_restore_witness :
  exists w', run 0 (let! _ := rt_sigprocmask 1 0x2200 0x2300 8 in
                    let! _ := mask_calls [(2, 0x2200, 0x2400, 8); (3, 0x2200, 0, 8)] in
                    rt_sigprocmask SIG_SETMASK 0x2300 0 8) sim_signal_world = Returned 0 w' /\
    mask_of w' = mask_of sim_signal_world.
Proof.
  destruct (mask_save_restore 0 1 0x2200 0x2300 8 [(2, 0x2200, 0x2400, 8); (3, 0x2200, 0, 8)] sim_signal_world _
    ltac:(discriminate) eq_refl eq_refl) as (w' & E & Hm & _).
  - constructor; [right; unfold apart; cbn; lia|]. constructor; [by left|constructor].
  - exists w'. split; [exact E|exact Hm].
Defined.
