(* ===== verification/FutexProps.v ===== *)
(** * Futexes: theorems

    The tables as counters of registered waiters, with one open channel per
    entry; waking as a queue operation; the protocol of a wait; the end of a
    kernel with waiters; and the schedule on which a wakeup is lost. *)

From stdpp Require Import base list gmap numbers.
From S2P Require Import Prelude GoProg GoSpec LinuxABI GoRuntime Queues Structs Host SimHost World.
From S2P Require Import WorldSpec Futex Syscall SimKernel.
Local Open Scope Z_scope.
Local Open Scope go_scope.
Import Futex.

#[export] Instance table_eq_dec : EqDecision table.
Proof. solve_decision. Defined.

Section futexprops.
Context {D : Debugger}.

(** ** Registration as pure updates *)

Definition tbl (t : table) (w : World) : gmap Z await := default ∅ (get_table t (w_futex w)).

Definition set_tbl (t : table) (m : gmap Z await) (w : World) : World :=
  set_futex (set_table t (Some m) (w_futex w)) w.

Definition reg_add (t : table) (key : Z) (w : World) : World * Z :=
  match tbl t w !! key with
  | Some a => (set_tbl t (<[key := Await (aw_ch a) (int64 (aw_ref a + 1))]> (tbl t w)) w, aw_ch a)
  | None =>
      let '(r, ch) := make_chan (w_rt w) in
      (set_tbl t (<[key := Await ch 1]> (tbl t w)) (set_rt r w), ch)
  end.

Definition reg_del (t : table) (key : Z) (w : World) : World :=
  match tbl t w !! key with
  | Some a =>
      let ref := int64 (aw_ref a - 1) in
      let m := <[key := Await (aw_ch a) ref]> (tbl t w) in
      if ref <=? 0 then set_tbl t (delete key m) w else set_tbl t m w
  | None => w
  end.

Definition made (w : World) : Prop :=
  is_Some (fx_awaits (w_futex w)) /\ is_Some (fx_bitAwaits (w_futex w)).

Lemma run_add_ref {A} n t key (k : Z -> prog World A) w :
  made w -> run n (bind (add_ref t key) k) w = run n (k (reg_add t key w).2) (reg_add t key w).1.
Proof.
  destruct w as [h r fc [rw aw bw] sg sd e]. intros [[m1 E1] [m2 E2]]. cbn in E1, E2. subst.
  unfold reg_add, tbl, add_ref, set_tbl. cbn -[lookup insert].
  destruct t; cbn -[lookup insert]; [destruct (m1 !! key)|destruct (m2 !! key)]; done.
Qed.

Lemma run_del_ref {A} n t key (k : unit -> prog World A) w :
  made w -> run n (bind (del_ref t key) k) w = run n (k tt) (reg_del t key w).
Proof.
  destruct w as [h r fc [rw aw bw] sg sd e]. intros [[m1 E1] [m2 E2]]. cbn in E1, E2. subst.
  unfold reg_del, tbl, del_ref, set_tbl. cbn -[lookup insert delete int64].
  destruct t; cbn -[lookup insert delete int64]; [destruct (m1 !! key)|destruct (m2 !! key)];
    cbn -[lookup insert delete int64]; try done; destruct (_ <=? 0); done.
Qed.

Lemma reg_add_made t key w : made w -> made (reg_add t key w).1.
Proof.
  intros [[m1 E1] [m2 E2]]. unfold reg_add, made. destruct (tbl t w !! key); destruct t; cbn; rewrite ?E1, ?E2; eauto.
Qed.

Lemma reg_del_made t key w : made w -> made (reg_del t key w).
Proof.
  intros [[m1 E1] [m2 E2]]. unfold reg_del, made.
  destruct (tbl t w !! key); [|eauto]. cbv zeta. destruct (_ <=? 0); destruct t; cbn; rewrite ?E1, ?E2; eauto.
Qed.

(** ** Locked sections *)

Lemma ready_made w : ready w -> made w.
Proof. intros [_ (_ & ? & ? & _)]. done. Qed.

Lemma run_Lock {A} n l (k : unit -> prog World A) w :
  get_rw l w = rw_free -> run n (bind (Lock l) k) w = run n (k tt) (set_rw l (RW true 0) w).
Proof. intros Hl. unfold Lock, acquire. cbn [bind]. by rewrite run_act, Hl. Qed.

(** [Lock; defer Unlock; p] *)
Lemma run_locked {A} n l (p : prog World A) w a w1 :
  get_rw l w = rw_free -> run n p (set_rw l (RW true 0) w) = Returned a w1 ->
  get_rw l w1 = RW true 0 ->
  run n (Lock l ;;; with_defer (Unlock l) p) w = Returned a (set_rw l rw_free w1).
Proof.
  intros Hl Hp Hl1. rewrite run_Lock, run_defer, Hp by done. cbn [deferred]. unfold Unlock, release. cbn [bind].
  rewrite run_act, Hl1. done.
Qed.

Lemma reg_add_rw t key m w :
  reg_add t key (set_rw LkFutex m w) =
  (set_rw LkFutex m (reg_add t key w).1, (reg_add t key w).2).
Proof. unfold reg_add, tbl. destruct t; cbn -[lookup insert]; case_match; done. Qed.

Lemma reg_del_rw t key m w :
  reg_del t key (set_rw LkFutex m w) = set_rw LkFutex m (reg_del t key w).
Proof.
  unfold reg_del, tbl. destruct t; cbn -[lookup insert delete int64]; case_match; try done;
    destruct (_ <=? 0); done.
Qed.

Lemma reg_add_get t key w l : get_rw l (reg_add t key w).1 = get_rw l w.
Proof. unfold reg_add. case_match; by destruct l, t. Qed.

Lemma reg_del_get t key w l : get_rw l (reg_del t key w) = get_rw l w.
Proof. unfold reg_del. case_match; [|done]. cbv zeta. destruct (_ <=? 0); by destruct l, t. Qed.

Lemma set_rw_back l m w : get_rw l w = rw_free -> set_rw l rw_free (set_rw l m w) = w.
Proof.
  destruct w as [h r [] [] [] sd e], l; cbn; by intros ->.
Qed.

Lemma made_rw m w : made w -> made (set_rw LkFutex m w).
Proof. done. Qed.

Lemma run_addAwait n addr w : ready w ->
  run n (addAwait addr) w = Returned (reg_add Awaits addr w).2 (reg_add Awaits addr w).1.
Proof.
  intros Hw. pose proof (ready_made w Hw) as Hm. pose proof (proj1 Hw LkFutex) as Hl.
  unfold addAwait. erewrite run_locked; [|done| |].
  - rewrite set_rw_back; [done|]. by rewrite reg_add_get.
  - rewrite <- (bind_ret_r (add_ref _ _)), run_add_ref, reg_add_rw by done. done.
  - by rewrite get_set_rw, decide_True by done.
Qed.

Lemma run_delAwait n addr w : ready w -> run n (delAwait addr) w = Returned tt (reg_del Awaits addr w).
Proof.
  intros Hw. pose proof (ready_made w Hw) as Hm. pose proof (proj1 Hw LkFutex) as Hl.
  unfold delAwait. erewrite run_locked; [|done| |].
  - rewrite set_rw_back; [done|]. by rewrite reg_del_get.
  - rewrite <- (bind_ret_r (del_ref _ _)), run_del_ref, reg_del_rw by done. done.
  - by rewrite get_set_rw, decide_True by done.
Qed.

Lemma run_addBitAwait n addr bit w : ready w ->
  let '(w1, ch1) := reg_add Awaits addr w in
  let '(w2, ch2) := reg_add BitAwaits bit w1 in
  run n (addBitAwait addr bit) w = Returned (ch1, ch2) w2.
Proof.
  intros Hw. pose proof (ready_made w Hw) as Hm. pose proof (proj1 Hw LkFutex) as Hl.
  pose proof (reg_add_made Awaits addr w Hm) as Hm1. pose proof (reg_add_get Awaits addr w LkFutex) as Hg1.
  destruct (reg_add Awaits addr w) as [w1 ch1] eqn:E1. cbn [fst] in *.
  pose proof (reg_add_get BitAwaits bit w1 LkFutex) as Hg2.
  destruct (reg_add BitAwaits bit w1) as [w2 ch2] eqn:E2. cbn [fst] in *.
  unfold addBitAwait. erewrite run_locked; [|done| |].
  - rewrite set_rw_back; [done|]. by rewrite Hg2, Hg1.
  - rewrite run_add_ref, reg_add_rw, E1 by done. cbn [fst snd].
    rewrite run_add_ref, reg_add_rw, E2 by done. done.
  - by rewrite get_set_rw, decide_True by done.
Qed.

Lemma run_delBitAwait n addr bit w : ready w ->
  run n (delBitAwait addr bit) w = Returned tt (reg_del BitAwaits bit (reg_del Awaits addr w)).
Proof.
  intros Hw. pose proof (ready_made w Hw) as Hm. pose proof (proj1 Hw LkFutex) as Hl.
  unfold delBitAwait. erewrite run_locked; [|done| |].
  - rewrite set_rw_back; [done|]. by rewrite !reg_del_get.
  - rewrite run_del_ref, reg_del_rw, <- (bind_ret_r (del_ref _ _)), run_del_ref, reg_del_rw; [done|..];
      by try apply made_rw, reg_del_made.
  - by rewrite get_set_rw, decide_True by done.
Qed.

(** ** The tables count the waiters

    The abstract state is how many waiters are registered under each key of each
    table; the concrete one represents it when the counts agree, an entry exists
    just when its count is positive, and every entry has an open channel of its
    own. *)

Definition counts := table -> Z -> Z.

Definition bump (t : table) (key d : Z) (c : counts) : counts :=
  fun t' key' => if decide (t' = t /\ key' = key) then c t' key' + d else c t' key'.

Record represents (c : counts) (w : World) : Prop := {
  rep_count t key :
    match tbl t w !! key with Some a => aw_ref a = c t key /\ 0 < c t key | None => c t key = 0 end;
  rep_chan t key a :
    tbl t w !! key = Some a -> exists q, rt_chans (w_rt w) !! aw_ch a = Some (Chan false q);
  rep_own t key a t' key' a' :
    tbl t w !! key = Some a -> tbl t' w !! key' = Some a' -> aw_ch a = aw_ch a' ->
    t = t' /\ key = key';
  rep_fresh i : is_Some (rt_chans (w_rt w) !! i) -> i < rt_next (w_rt w)
}.

Lemma tbl_set_host t h w : tbl t (set_host h w) = tbl t w.
Proof. by destruct t. Qed.
Lemma tbl_set_rt t r w : tbl t (set_rt r w) = tbl t w.
Proof. by destruct t. Qed.
Lemma tbl_set t t' m w : tbl t' (set_tbl t m w) = if decide (t' = t) then m else tbl t' w.
Proof. by destruct t, t'. Qed.

(** Changing an entry and keeping its channel. *)
Lemma represents_update c w t key a ref :
  represents c w -> tbl t w !! key = Some a -> 0 < ref ->
  represents (bump t key (ref - c t key) c) (set_tbl t (<[key := Await (aw_ch a) ref]> (tbl t w)) w).
Proof.
  intros [H1 H2 H3 H4] Ha Hr.
  assert (forall t' key', exists f, tbl t' (set_tbl t (<[key := Await (aw_ch a) ref]> (tbl t w)) w) !! key' =
    f <$> tbl t' w !! key' /\ forall a', tbl t' w !! key' = Some a' -> aw_ch (f a') = aw_ch a') as Hch.
  { intros t' key'. rewrite tbl_set. destruct (decide (t' = t)) as [->|]; [|by exists id; destruct (tbl t' w !! key')].
    destruct (decide (key' = key)) as [->|]; [|by rewrite lookup_insert_ne by done; exists id; destruct (tbl t w !! key')].
    exists (fun _ => Await (aw_ch a) ref). rewrite lookup_insert_eq, Ha. split; [done|]. by intros ? [= <-]. }
  split.
  - intros t' key'. unfold bump. rewrite tbl_set.
    destruct (decide (t' = t /\ key' = key)) as [[-> ->]|Hne].
    + rewrite decide_True, lookup_insert_eq by done. cbn. lia.
    + destruct (decide (t' = t)) as [->|]; [|apply H1].
      rewrite lookup_insert_ne by naive_solver. apply H1.
  - intros t' key' a'. destruct (Hch t' key') as (f & -> & Hf). intros (a0 & E0 & ->)%fmap_Some.
    rewrite (Hf a0) by done. by eapply H2.
  - intros t1 k1 a1 t2 k2 a2. destruct (Hch t1 k1) as (f1 & -> & Hf1), (Hch t2 k2) as (f2 & -> & Hf2).
    intros (b1 & E1 & ->)%fmap_Some (b2 & E2 & ->)%fmap_Some. rewrite (Hf1 b1), (Hf2 b2) by done.
    by eapply H3.
  - apply H4.
Qed.

(** A new entry with a new channel. *)
Lemma represents_new c w t key :
  represents c w -> tbl t w !! key = None ->
  represents (bump t key 1 c)
    (set_tbl t (<[key := Await (rt_next (w_rt w)) 1]> (tbl t w)) (set_rt (make_chan (w_rt w)).1 w)).
Proof.
  intros [H1 H2 H3 H4] Hn. set (i := rt_next (w_rt w)). set (w' := set_tbl _ _ _).
  assert (forall t' key', tbl t' w' !! key' =
    if decide (t' = t /\ key' = key) then Some (Await i 1) else tbl t' w !! key') as Ht.
  { intros t' key'. unfold w'. rewrite tbl_set. destruct (decide (t' = t /\ key' = key)) as [[-> ->]|Hne].
    - by rewrite decide_True, lookup_insert_eq.
    - destruct (decide (t' = t)) as [->|]; [rewrite lookup_insert_ne by naive_solver|]; done. }
  assert (rt_chans (w_rt w') = <[i := Chan false []]> (rt_chans (w_rt w))) as Ec by done.
  assert (forall t' key' a, tbl t' w !! key' = Some a -> aw_ch a < i) as Hlt.
  { intros t' key' a Ha. destruct (H2 _ _ _ Ha) as [q Hq]. by apply H4. }
  split.
  - intros t' key'. rewrite Ht. unfold bump. case_decide as Hd; [|apply H1].
    destruct Hd as [-> ->]. specialize (H1 t key). rewrite Hn in H1. cbn. lia.
  - intros t' key' a. rewrite Ht, Ec. case_decide.
    + intros [= <-]. cbn. rewrite lookup_insert_eq. by eexists.
    + intros Ha. rewrite lookup_insert_ne; [by eapply H2|]. apply Hlt in Ha. lia.
  - intros t1 k1 a1 t2 k2 a2. rewrite !Ht.
    case_decide as Hd1; case_decide as Hd2; intros E1 E2 Ech; simplify_eq.
    + naive_solver.
    + apply Hlt in E2. cbn in Ech. lia.
    + apply Hlt in E1. cbn in Ech. lia.
    + by eapply H3.
  - intros j. rewrite Ec. cbn. intros Hj. destruct (decide (j = i)) as [->|]; [lia|].
    rewrite lookup_insert_ne in Hj by done. apply H4 in Hj. lia.
Qed.

(** The last waiter leaves. *)
Lemma represents_delete c w t key :
  represents c w -> represents (bump t key (- c t key) c) (set_tbl t (delete key (tbl t w)) w).
Proof.
  intros [H1 H2 H3 H4]. set (w' := set_tbl _ _ _).
  assert (forall t' key', tbl t' w' !! key' =
    if decide (t' = t /\ key' = key) then None else tbl t' w !! key') as Ht.
  { intros t' key'. unfold w'. rewrite tbl_set. destruct (decide (t' = t /\ key' = key)) as [[-> ->]|Hne].
    - by rewrite decide_True, lookup_delete_eq.
    - destruct (decide (t' = t)) as [->|]; [rewrite lookup_delete_ne by naive_solver|]; done. }
  split.
  - intros t' key'. rewrite Ht. unfold bump. case_decide as Hd; [destruct Hd as [-> ->]; lia|apply H1].
  - intros t' key' a. rewrite Ht. case_decide; [done|]. apply H2.
  - intros t1 k1 a1 t2 k2 a2. rewrite !Ht. case_decide; [done|]. case_decide; [done|]. apply H3.
  - apply H4.
Qed.

Lemma reg_add_represents c w t key :
  represents c w -> c t key < MaxInt64 -> represents (bump t key 1 c) (reg_add t key w).1.
Proof.
  intros H Hm. unfold reg_add. destruct (tbl t w !! key) as [a|] eqn:Ea; [|by apply represents_new].
  pose proof (rep_count c w H t key) as Hc. rewrite Ea in Hc. destruct Hc as [Hr Hp].
  rewrite Hr, int64_id by wrap_lia.
  assert (represents (bump t key (c t key + 1 - c t key) c)
    (set_tbl t (<[key := Await (aw_ch a) (c t key + 1)]> (tbl t w)) w)) as Hu
    by (apply represents_update; [done|done|lia]).
  by replace (c t key + 1 - c t key) with 1 in Hu by lia.
Qed.

Lemma reg_del_represents c w t key :
  represents c w -> 0 < c t key <= MaxInt64 -> represents (bump t key (-1) c) (reg_del t key w).
Proof.
  intros H Hm. unfold reg_del. pose proof (rep_count c w H t key) as Hc.
  destruct (tbl t w !! key) as [a|] eqn:Ea; [|lia]. destruct Hc as [Hr Hp]. cbv zeta.
  rewrite Hr, int64_id by wrap_lia. destruct (Z.leb_spec (c t key - 1) 0).
  - replace (-1) with (- c t key) by lia. rewrite delete_insert_eq. by apply represents_delete.
  - assert (represents (bump t key (c t key - 1 - c t key) c)
      (set_tbl t (<[key := Await (aw_ch a) (c t key - 1)]> (tbl t w)) w)) as Hu
      by (apply represents_update; [done|done|lia]).
    by replace (c t key - 1 - c t key) with (-1) in Hu by lia.
Qed.

(** The calls, and what they do to the counts. *)
Inductive reg_op := RAdd (addr : Z) | RDel (addr : Z) | RAddBit (addr bit : Z) | RDelBit (addr bit : Z).

Definition do_reg (o : reg_op) : prog World unit :=
  match o with
  | RAdd a => let! _ := addAwait a in Ret tt
  | RDel a => delAwait a
  | RAddBit a b => let! _ := addBitAwait a b in Ret tt
  | RDelBit a b => delBitAwait a b
  end.

Fixpoint do_regs (os : list reg_op) : prog World unit :=
  match os with [] => Ret tt | o :: os => do_reg o ;;; do_regs os end.

Definition count_op (o : reg_op) (c : counts) : counts :=
  match o with
  | RAdd a => bump Awaits a 1 c
  | RDel a => bump Awaits a (-1) c
  | RAddBit a b => bump BitAwaits b 1 (bump Awaits a 1 c)
  | RDelBit a b => bump BitAwaits b (-1) (bump Awaits a (-1) c)
  end.

(** Only a registered waiter leaves, and the counts fit an [int]. *)
Definition op_ok (c : counts) (o : reg_op) : Prop :=
  match o with
  | RAdd a => c Awaits a < MaxInt64
  | RDel a => 0 < c Awaits a <= MaxInt64
  | RAddBit a b => c Awaits a < MaxInt64 /\ c BitAwaits b < MaxInt64
  | RDelBit a b => 0 < c Awaits a <= MaxInt64 /\ 0 < c BitAwaits b <= MaxInt64
  end.

Fixpoint ops_ok (c : counts) (os : list reg_op) : Prop :=
  match os with [] => True | o :: os => op_ok c o /\ ops_ok (count_op o c) os end.

Lemma bump_other t key d c t' : t' <> t -> forall k, bump t key d c t' k = c t' k.
Proof. intros Hne k. unfold bump. by rewrite decide_False by naive_solver. Qed.

Lemma do_reg_keeps o : keeps ready (do_reg o).
Proof.
  destruct o; cbn [do_reg]; repeat keeps_step;
    auto using keeps_addAwait, keeps_delAwait, keeps_addBitAwait, keeps_delBitAwait, keeps_ret.
Qed.

Lemma run_do_reg n o c w :
  ready w -> represents c w -> op_ok c o ->
  exists w', run n (do_reg o) w = Returned tt w' /\ represents (count_op o c) w'.
Proof.
  intros Hw Hr Ho. destruct o as [a|a|a b|a b]; cbn [do_reg op_ok count_op] in *.
  - rewrite run_bind, run_addAwait by done. eexists. split; [done|]. by apply reg_add_represents.
  - rewrite run_delAwait by done. eexists. split; [done|]. by apply reg_del_represents.
  - destruct Ho as [Ho1 Ho2]. rewrite run_bind. pose proof (run_addBitAwait n a b w Hw) as H.
    pose proof (reg_add_represents c w Awaits a Hr Ho1) as H1.
    destruct (reg_add Awaits a w) as [w1 ch1]. cbn [fst] in H1.
    pose proof (reg_add_represents _ w1 BitAwaits b H1) as H2. rewrite bump_other in H2 by done.
    destruct (reg_add BitAwaits b w1) as [w2 ch2]. rewrite H. eexists. split; [done|]. by apply H2.
  - destruct Ho as [Ho1 Ho2]. rewrite run_delBitAwait by done. eexists. split; [done|].
    apply reg_del_represents; [by apply reg_del_represents|]. by rewrite bump_other.
Qed.

(** C5: The futex tables implement counters of registered waiters: after any
    sequence of registrations and deregistrations in which only registered
    waiters leave, each entry's count is the number of waiters registered, an
    entry exists just when that is positive, and every entry has an open
    channel that no other entry has. *)
Theorem futex_tables_count_waiters n os c w :
  ready w -> represents c w -> ops_ok c os ->
  exists w', run n (do_regs os) w = Returned tt w' /\ ready w' /\
    represents (fold_left (fun c o => count_op o c) os c) w'.
Proof.
  revert c w. induction os as [|o os IH]; intros c w Hw Hr Ho; [by exists w|].
  cbn [do_regs fold_left ops_ok] in *. destruct Ho as [Ho Hos].
  destruct (run_do_reg n o c w Hw Hr Ho) as (w1 & E & H1).
  pose proof (do_reg_keeps o n w Hw) as Hw1. rewrite run_bind, E in *. by apply IH.
Qed.

(** ** Waking *)

(** [q] waits on the open channel [ch], in that order. *)
Definition queued (r : runtime) (ch : Z) (q : list Z) : Prop :=
  rt_chans r !! ch = Some (Chan false q) /\ NoDup q /\ Forall (fun t => is_Some (rt_parked r !! t)) q.

(** The goroutines [ts] have been handed [v] over [ch]; the others are as before. *)
Definition woken (r r' : runtime) (ch v : Z) (ts : list Z) : Prop :=
  forall t, rt_parked r' !! t =
    if decide (t ∈ ts) then
      (fun p => Parked (pk_timer p) (pk_chans p) (Some (WkRecv (index_of ch (pk_chans p)) v true)))
        <$> rt_parked r !! t
    else rt_parked r !! t.

(** What is queued elsewhere, apart from the goroutines [ts], stays queued. *)
Definition queues_kept (r r' : runtime) (ts : list Z) : Prop :=
  forall ch q, queued r ch q -> (forall t, t ∈ ts -> t ∉ q) -> queued r' ch q.

Lemma wake_queues_kept r t p wk : queues_kept r (wake t p wk r) [t].
Proof.
  intros ch q (Hc & Hnd & Hp) Ht. split_and!; [|done|].
  - cbn [rt_chans wake]. rewrite lookup_fmap, Hc. cbn [fmap option_fmap option_map]. unfold unqueue.
    cbn [ch_closed ch_recvq]. rewrite filter_other; [done|]. apply Ht. by left.
  - eapply list.Forall_impl; [done|]. intros x Hx. cbn. destruct (decide (x = t)) as [->|].
    + by rewrite lookup_insert_eq.
    + by rewrite lookup_insert_ne.
Qed.

Lemma queues_kept_trans r r1 r2 t ts :
  queues_kept r r1 [t] -> queues_kept r1 r2 ts -> queues_kept r r2 (t :: ts).
Proof.
  intros H1 H2 ch q Hq Ht. apply H2; [apply H1; [done|]|].
  - intros x ->%list_elem_of_singleton. apply Ht. by left.
  - intros x Hx. apply Ht. by right.
Qed.

Lemma try_send_first r ch v t q :
  queued r ch (t :: q) ->
  exists r', try_send ch v r = SendTo r' /\ queued r' ch q /\ woken r r' ch v [t] /\ queues_kept r r' [t].
Proof.
  intros (Hc & Hnd & Hp). apply list.NoDup_cons in Hnd as [Hnin Hnd]. apply list.Forall_cons in Hp as [[p Hp] Hps].
  unfold try_send. rewrite Hc. cbn [ch_closed ch_recvq]. rewrite Hp. eexists. split; [done|].
  split; [split_and!; [|done|]|split; [|apply wake_queues_kept]].
  - cbn [rt_chans wake]. rewrite lookup_fmap, Hc. cbn [fmap option_fmap option_map]. unfold unqueue.
    cbn [ch_closed ch_recvq]. rewrite filter_cons_False by naive_solver. by rewrite filter_other.
  - eapply list.Forall_impl; [done|]. intros x Hx. cbn. destruct (decide (x = t)) as [->|].
    + by rewrite lookup_insert_eq.
    + by rewrite lookup_insert_ne.
  - intros x. cbn. case_decide as Hx.
    + apply list_elem_of_singleton in Hx as ->. by rewrite lookup_insert_eq, Hp.
    + rewrite lookup_insert_ne; [done|]. set_solver.
Qed.

Lemma woken_trans r r1 r2 ch v t ts :
  t ∉ ts -> woken r r1 ch v [t] -> woken r1 r2 ch v ts -> woken r r2 ch v (t :: ts).
Proof.
  intros Ht H1 H2 x. rewrite H2, H1. destruct (decide (x ∈ ts)) as [Hin|Hnin].
  - rewrite decide_False by set_solver. by rewrite decide_True by set_solver.
  - destruct (decide (x = t)) as [->|].
    + by rewrite !decide_True by set_solver.
    + by rewrite !decide_False by set_solver.
Qed.

(** How many of [len] waiters a wake for [count] more reaches: a negative count
    reaches all of them. *)
Definition wake_many (count len : Z) : Z := if 0 <=? count then Z.min count len else len.

(** The loop of both wakes. *)
Lemma wake_loop n f ch v count w :
  (forall i, f i = wake_turn ch v count i) -> is_i32 count -> forall q j i r,
  queued r ch q -> 0 <= i -> i + zlen q < 2147483648 -> (0 <= count -> i <= count) ->
  (length q <= j)%nat ->
  let k := if 0 <=? count then Z.min (count - i) (zlen q) else zlen q in
  exists r', run_loop n j f Ret i (set_rt r w) = Returned (i + k) (set_rt r' w) /\
    queued r' ch (zdrop k q) /\ woken r r' ch v (ztake k q) /\ queues_kept r r' (ztake k q).
Proof.
  intros Hf Hcnt. induction q as [|t q IH]; intros j i r Hq Hi Hl Hci Hj k.
  - assert (k = 0) as -> by (unfold k, zlen; cbn; destruct (Z.leb_spec 0 count); lia).
    exists r. split; [|split; [done|split; [by intros x|by intros ? ? ? _]]].
    rewrite Z.add_0_r, run_loop_eq, Hf.
    unfold wake_turn at 1. destruct (Z.eqb_spec i count) as [->|]; [done|].
    unfold send_nb. cbn [bind]. rewrite run_act. cbn [w_rt set_rt]. unfold try_send.
    destruct Hq as (-> & _). done.
  - rewrite run_loop_eq, Hf. unfold wake_turn at 1. destruct (Z.eqb_spec i count) as [->|Hne].
    { assert (k = 0) as -> by (unfold k, zlen; cbn; destruct (Z.leb_spec 0 count); lia).
      exists r. rewrite Z.add_0_r. split; [done|]. split; [done|].
      split; [by intros x|by intros ? ? ? _]. }
    unfold send_nb. cbn [bind]. rewrite run_act. cbn [w_rt set_rt].
    destruct (try_send_first r ch v t q Hq) as (r1 & -> & Hq1 & Hw1 & Hk1).
    cbn [bind]. rewrite run_ret. destruct j as [|j]; [cbn in Hj; lia|].
    assert (zlen (t :: q) = 1 + zlen q) as Hz by (unfold zlen; cbn; lia).
    pose proof (zlen_nonneg q). rewrite int32_id by wrap_lia.
    destruct (IH j (i + 1) r1 Hq1) as (r' & E & Hq' & Hw' & Hk2); [lia|lia|lia|cbn in Hj; lia|].
    set (k' := if 0 <=? count then Z.min (count - (i + 1)) (zlen q) else zlen q) in *.
    assert (k = 1 + k' /\ 0 <= k') as [-> Hk']
      by (unfold k, k'; destruct (Z.leb_spec 0 count) as [Hc|]; [specialize (Hci Hc)|]; lia).
    exists r'. split; [rewrite <- Z.add_assoc in E; apply E|].
    unfold zdrop, ztake in *. rewrite Z2Nat.inj_add by lia. split; [done|].
    split; [|by eapply queues_kept_trans].
    eapply woken_trans; [|done|done]. destruct Hq as (_ & Hnd & _). apply list.NoDup_cons in Hnd as [Hnin _].
    intros Hin. apply Hnin. rewrite <- (take_drop (Z.to_nat k') q). apply elem_of_app. by left.
Qed.

Lemma run_getAwait {A} n addr (k : option Z -> prog World A) w : ready w ->
  run n (bind (getAwait addr) k) w = run n (k (aw_ch <$> tbl Awaits w !! addr)) w.
Proof.
  intros Hw. pose proof (ready_made w Hw) as [[m1 E1] [m2 E2]]. pose proof (proj1 Hw LkFutex) as Hl.
  destruct w as [h r fc [rw aw bw] sg sd e]. cbn in *. subst. done.
Qed.

Lemma run_futex_wake n uaddr val a q bs w :
  ready w -> tbl Awaits w !! uaddr = Some a -> queued (w_rt w) (aw_ch a) q -> zlen q < 2147483648 ->
  (length q <= n)%nat -> MemReadPtr (w_host w) uaddr 4 = inl bs ->
  let k := wake_many (int32 val) (zlen q) in
  exists r', run n (futex_wake uaddr val) w = Returned k (set_rt r' w) /\
    queued r' (aw_ch a) (zdrop k q) /\ woken (w_rt w) r' (aw_ch a) (le_decode bs) (ztake k q).
Proof.
  intros Hw Ea Hq Hl Hn Hr. unfold futex_wake. rewrite run_getAwait, Ea by done.
  cbn [fmap option_fmap option_map]. unfold read_u32. rewrite bind_assoc, run_hget, Hr. cbn [bind]. rewrite run_iter.
  destruct (wake_loop n _ (aw_ch a) (le_decode bs) (int32 val) w (fun _ => eq_refl) (int32_range _)
    q n 0 (w_rt w) Hq) as (r' & E & Hq' & Hw' & _); [lia|lia|done|done|].
  replace (set_rt (w_rt w) w) with w in E by (by destruct w).
  rewrite Z.sub_0_r in *. fold (wake_many (int32 val) (zlen q)) in *. exists r'. by rewrite E.
Qed.

(** C38: FUTEX_WAKE of val waiters wakes the first of the queue of the
    address, in the order they arrived, each with the value of the word, and
    returns how many: the smaller of val and the length of the queue, or all
    of them when val is negative as an int32; with nobody registered it
    returns 0. *)
Theorem futex_wake_is_fifo n uaddr val w :
  ready w -> is_u32 val ->
  match tbl Awaits w !! uaddr with
  | None => run n (futex_wake uaddr val) w = Returned 0 w
  | Some a => forall q bs, queued (w_rt w) (aw_ch a) q -> zlen q < 2147483648 -> (length q <= n)%nat ->
      MemReadPtr (w_host w) uaddr 4 = inl bs ->
      let k := wake_many (int32 val) (zlen q) in
      exists r', run n (futex_wake uaddr val) w = Returned k (set_rt r' w) /\
        queued r' (aw_ch a) (zdrop k q) /\ woken (w_rt w) r' (aw_ch a) (le_decode bs) (ztake k q)
  end.
Proof.
  intros Hw Hv. destruct (tbl Awaits w !! uaddr) as [a|] eqn:Ea.
  - intros q bs. by apply run_futex_wake.
  - unfold futex_wake. by rewrite run_getAwait, Ea.
Qed.

(** ** Waiting *)

(** A wait on an unreadable word fails with EFAULT, one on a word with
    another value with EAGAIN; nothing is registered. *)
Theorem futex_wait_refused n tid uaddr val utime val3 w :
  match MemReadPtr (w_host w) uaddr 4 with
  | inr _ => run n (futex_wait tid uaddr val utime) w = Returned (-1) (set_err (Errno_val EFAULT) w) /\
             run n (futex_wait_bitset tid uaddr val utime val3) w =
               Returned (-1) (set_err (Errno_val EFAULT) w)
  | inl bs => le_decode bs <> val ->
      run n (futex_wait tid uaddr val utime) w = Returned (-1) (set_err (Errno_val EAGAIN) w) /\
      run n (futex_wait_bitset tid uaddr val utime val3) w =
        Returned (-1) (set_err (Errno_val EAGAIN) w)
  end.
Proof.
  unfold futex_wait, futex_wait_bitset, wait_prepare, read_u32. rewrite !bind_assoc, !run_hget.
  destruct (MemReadPtr (w_host w) uaddr 4) as [bs|e]; cbn [bind]; [|done].
  intros Hne. by rewrite (proj2 (Z.eqb_neq _ _)) by done.
Qed.

(** A waiter parked in the [select] of its loop: the rest of [futex_wait]. *)
Definition suspended (tid uaddr val : Z) (tm : option Z) (ch : Z) : prog World Z :=
  with_defer (delAwait uaddr)
    (bind (bind (select_wait tid) (wait_case val)) (unroll (wait_turn tid val tm ch) Ret)).

Lemma reg_add_entry t key w : exists a,
  tbl t (reg_add t key w).1 !! key = Some a /\ aw_ch a = (reg_add t key w).2.
Proof.
  unfold reg_add. destruct (tbl t w !! key) as [a|]; cbn [make_chan fst snd];
    rewrite tbl_set, decide_True, lookup_insert_eq by done; by eexists.
Qed.

Lemma park_one tid tm ch r q :
  rt_chans r !! ch = Some (Chan false q) ->
  rt_chans (park tid tm [ch] r) !! ch = Some (Chan false (q ++ [tid])) /\
  rt_parked (park tid tm [ch] r) !! tid = Some (Parked tm [ch] None).
Proof.
  intros Hc. unfold park, enqueue. cbn [rt_chans rt_parked foldl].
  rewrite lookup_alter_eq, lookup_insert_eq, Hc. done.
Qed.

(** The wait loop on an open channel parks the goroutine. *)
Lemma run_wait_loop n tid uaddr val tm ch q w :
  timer_fired tm (w_rt w) = false -> rt_chans (w_rt w) !! ch = Some (Chan false q) ->
  run n (with_defer (delAwait uaddr) (Iter (wait_turn tid val tm ch) tt Ret)) w =
    Blocked (suspended tid uaddr val tm ch)
      (set_rt (park tid tm [ch] (w_rt w)) (set_host (select_pick (w_host w)).1 w)).
Proof.
  intros Ht Hc. rewrite run_defer, run_iter, run_loop_eq.
  unfold wait_turn at 1, select. cbn [bind]. rewrite run_act. unfold select_enter, ready_cases.
  rewrite Ht. cbn [app closed_cases]. rewrite Hc. cbn [app]. unfold select_wait at 1. cbn [bind]. rewrite run_act.
  cbn [w_rt set_rt]. unfold select_leave at 1. unfold park at 1. cbn [rt_parked].
  rewrite lookup_insert_eq. done.
Qed.

(** The timer of a wait: none without a timeout, else a fresh one that has not
    fired. *)
Definition wait_timer (utime : Z) (w : World) : option Z * World :=
  if utime =? 0 then (None, w)
  else
    let ts := (MemExtract (w_host w) utime ShTimespec zero_timespec).1 in
    (Some (rt_next (w_rt w)), set_rt (time_After (duration_of ts) (w_rt w)).1 w).

Definition timeout_readable (utime : Z) (w : World) : Prop :=
  utime <> 0 -> (MemExtract (w_host w) utime ShTimespec zero_timespec).2 = None.

(** What the wait holds: [tm] is the timer for [utime]. *)
Definition timer_for (utime : Z) (w : World) (tm : option Z) (timers : gmap Z timer) : Prop :=
  match tm with
  | None => utime = 0
  | Some i => utime <> 0 /\
      let ts := (MemExtract (w_host w) utime ShTimespec zero_timespec).1 in
      timers !! i = Some (Timer (duration_of ts) false)
  end.

Lemma wait_timer_ok utime w : timer_for utime w (wait_timer utime w).1 (rt_timers (w_rt (wait_timer utime w).2)).
Proof.
  unfold wait_timer, timer_for. destruct (Z.eqb_spec utime 0); [done|]. split; [done|]. cbn. by rewrite lookup_insert_eq.
Qed.

Lemma timer_for_unfired utime w tm r : timer_for utime w tm (rt_timers r) -> timer_fired tm r = false.
Proof. destruct tm as [i|]; [|done]. intros [_ E]. cbn. by rewrite E. Qed.

Lemma wait_timer_ready utime w : ready w -> ready (wait_timer utime w).2.
Proof. intros Hw. unfold wait_timer. destruct (utime =? 0); [done|]. by apply untouched_rt. Qed.

Lemma wait_timer_represents c utime w : represents c w -> represents c (wait_timer utime w).2.
Proof.
  unfold wait_timer. destruct (utime =? 0); [done|]. intros [H1 H2 H3 H4]. split; [done|done|done|].
  intros i Hi. cbn. apply H4 in Hi. lia.
Qed.

Lemma wait_timer_err utime w : w_err (wait_timer utime w).2 = w_err w.
Proof. unfold wait_timer. by destruct (utime =? 0). Qed.

Lemma reg_add_timers t key w : rt_timers (w_rt (reg_add t key w).1) = rt_timers (w_rt w).
Proof. unfold reg_add. by destruct (tbl t w !! key). Qed.

Lemma reg_add_err t key w : w_err (reg_add t key w).1 = w_err w.
Proof. unfold reg_add. by destruct (tbl t w !! key). Qed.

(** The timeout of a wait. *)
Lemma run_wait_timeout n utime (k : option Z -> prog World Z) w : timeout_readable utime w ->
  run n (if negb (utime =? 0) then
      let! '(ts, err) := hget (fun h => MemExtract h utime ShTimespec zero_timespec) in
      match err with
      | Some _ => fail EFAULT
      | None => let! tm := rtdo (time_After (duration_of ts)) in k (Some tm)
      end
    else k None) w = run n (k (wait_timer utime w).1) (wait_timer utime w).2.
Proof.
  intros Ht. unfold wait_timer. destruct (Z.eqb_spec utime 0) as [->|Hne]; [done|]. cbn [negb].
  specialize (Ht Hne). rewrite run_hget.
  destruct (MemExtract (w_host w) utime ShTimespec zero_timespec) as [ts e]. cbn in Ht. subst e. done.
Qed.

(** The common start of the waits, when the word has the expected value. *)
Lemma run_wait_prepare n uaddr val utime k w bs :
  MemReadPtr (w_host w) uaddr 4 = inl bs -> le_decode bs = val -> timeout_readable utime w ->
  run n (wait_prepare uaddr val utime k) w = run n (k (wait_timer utime w).1) (wait_timer utime w).2.
Proof.
  intros Hr Hv Ht. unfold wait_prepare, read_u32. rewrite bind_assoc, run_hget, Hr. cbn [bind].
  rewrite Hv, Z.eqb_refl. cbn [negb]. by apply run_wait_timeout.
Qed.

(** The part of [futex_wait] after it: register, then the loop. *)
Definition wait_register (tid uaddr val : Z) (tm : option Z) : prog World Z :=
  let! ch := addAwait uaddr in
  with_defer (delAwait uaddr) (Iter (wait_turn tid val tm ch) tt Ret).

Lemma run_wait_register n tid uaddr val tm w c :
  ready w -> represents c w -> c Awaits uaddr < MaxInt64 -> timer_fired tm (w_rt w) = false ->
  exists w' a q, run n (wait_register tid uaddr val tm) w = Blocked (suspended tid uaddr val tm (aw_ch a)) w' /\
    w_host w' = (select_pick (w_host w)).1 /\ w_err w' = w_err w /\ rt_timers (w_rt w') = rt_timers (w_rt w) /\
    tbl Awaits w' !! uaddr = Some a /\ aw_ref a = c Awaits uaddr + 1 /\
    rt_chans (w_rt w') !! aw_ch a = Some (Chan false (q ++ [tid])) /\
    rt_parked (w_rt w') !! tid = Some (Parked tm [aw_ch a] None).
Proof.
  intros Hw Hc Hm Htm. unfold wait_register. rewrite run_bind, run_addAwait by done. cbn [then_run].
  destruct (reg_add_entry Awaits uaddr w) as (a & Ea & Ech).
  pose proof (reg_add_represents c w Awaits uaddr Hc Hm) as Hc'.
  pose proof (rep_count _ _ Hc' Awaits uaddr) as Hn. rewrite Ea in Hn. destruct Hn as [Hn _].
  destruct (rep_chan _ _ Hc' _ _ _ Ea) as [q Hq]. rewrite <- Ech.
  pose proof (reg_add_timers Awaits uaddr w) as Htt.
  assert (w_host (reg_add Awaits uaddr w).1 = w_host w) as Hh
    by (unfold reg_add; by destruct (tbl Awaits w !! uaddr)).
  rewrite (run_wait_loop n tid uaddr val tm (aw_ch a) q);
    [|destruct tm; cbn in *; [by rewrite Htt|done]|done].
  destruct (park_one tid tm _ _ _ Hq) as [Hp1 Hp2].
  eexists _, a, q. split; [done|]. split_and!; [by cbn; rewrite Hh|by cbn; rewrite reg_add_err|done|done| |done|done].
  rewrite Hn. unfold bump. by rewrite decide_True by done.
Qed.

(** FUTEX_WAIT on a word that has the expected value registers the waiter
    (the count of the address goes up by one), starts a timer of the duration
    given when there is a timeout, and parks the goroutine at the end of the
    queue of the address's channel, holding that timer, with every kernel
    lock free. *)
Theorem futex_wait_parks n tid uaddr val utime w c bs :
  ready w -> represents c w -> c Awaits uaddr < MaxInt64 ->
  MemReadPtr (w_host w) uaddr 4 = inl bs -> le_decode bs = val -> timeout_readable utime w ->
  exists w' a q tm, run n (futex_wait tid uaddr val utime) w =
      Blocked (suspended tid uaddr val tm (aw_ch a)) w' /\
    ready w' /\ w_err w' = w_err w /\ timer_for utime w tm (rt_timers (w_rt w')) /\
    tbl Awaits w' !! uaddr = Some a /\ aw_ref a = c Awaits uaddr + 1 /\
    rt_chans (w_rt w') !! aw_ch a = Some (Chan false (q ++ [tid])) /\
    rt_parked (w_rt w') !! tid = Some (Parked tm [aw_ch a] None).
Proof.
  intros Hw Hc Hm Hr Hv Hto.
  pose proof (keeps_futex_wait tid uaddr val utime n w Hw) as HK.
  unfold futex_wait in HK |- *. rewrite (run_wait_prepare _ _ _ _ _ _ _ Hr Hv Hto) in HK |- *.
  pose proof (wait_timer_ok utime w) as Htm. pose proof (wait_timer_err utime w) as He1.
  destruct (run_wait_register n tid uaddr val (wait_timer utime w).1 (wait_timer utime w).2 c)
    as (w' & a & q & E & _ & He & Ht & Ea & Hn & Hq & Hp);
    [by apply wait_timer_ready|by apply wait_timer_represents|done|by eapply timer_for_unfired|].
  unfold wait_register in E. rewrite E in HK |- *. exists w', a, q, (wait_timer utime w).1.
  rewrite Ht, He, He1. by split_and!.
Qed.

(** The goroutine has left its [select]. *)
Definition unpark (tid : Z) (w : World) : World :=
  set_rt (Runtime (rt_next (w_rt w)) (rt_chans (w_rt w)) (rt_timers (w_rt w))
            (delete tid (rt_parked (w_rt w)))) w.

Lemma run_leave {A} n tid p wk (k : wakeup -> prog World A) w :
  rt_parked (w_rt w) !! tid = Some p -> pk_wake p = Some wk ->
  run n (bind (select_wait tid) k) w = run n (k wk) (unpark tid w).
Proof. unfold select_wait. cbn [bind]. intros Hp Hk. destruct p as [pt pc pw]. cbn in Hk. subst pw. rewrite run_act. unfold select_leave. by rewrite Hp. Qed.

(** Woken with another value than the expected one, a waiter is done. *)
Lemma run_resume_changed n tid uaddr val tm ch p i v w :
  ready w -> rt_parked (w_rt w) !! tid = Some p -> pk_wake p = Some (WkRecv i v true) -> v <> val ->
  run n (suspended tid uaddr val tm ch) w = Returned 0 (reg_del Awaits uaddr (unpark tid w)).
Proof.
  intros Hw Hp Hk Hne. pose proof (fun k : wakeup -> prog World Z => run_leave n tid p _ k w Hp Hk) as HL.
  assert (ready (unpark tid w)) as Hu by (by apply untouched_rt).
  unfold suspended. rewrite run_defer, bind_assoc. remember (delAwait uaddr) as d eqn:Ed. rewrite HL.
  cbn [wait_case negb]. rewrite (proj2 (Z.eqb_neq _ _)) by done. cbn. subst d. by rewrite run_bind, run_delAwait.
Qed.

(** Its timer fired, or its channel was closed: it fails. *)
Lemma run_resume_fails n tid uaddr val tm ch p wk e w :
  ready w -> rt_parked (w_rt w) !! tid = Some p -> pk_wake p = Some wk ->
  match wk with WkTimeout => e = ETIMEDOUT | WkRecv _ _ ok => ok = false /\ e = EPERM end ->
  run n (suspended tid uaddr val tm ch) w =
    Returned (-1) (reg_del Awaits uaddr (set_err (Errno_val e) (unpark tid w))).
Proof.
  intros Hw Hp Hk He. assert (ready (unpark tid w)) as Hu by (by apply untouched_rt).
  unfold suspended. rewrite run_defer, bind_assoc. remember (delAwait uaddr) as d eqn:Ed.
  rewrite (run_leave n tid p wk _ w Hp Hk).
  destruct wk as [|i v ok]; [subst e|destruct He as [-> ->]];
    cbn; subst d; by rewrite run_bind, run_delAwait by (by apply ready_set_err).
Qed.

(** A waiter woken while the word still has the value it waits for goes back
    to sleep: it stays registered, parks again at the end of the queue and
    does not return, although the wake has counted it. *)
Theorem futex_wake_unchanged n tid uaddr val tm ch q p i w :
  rt_parked (w_rt w) !! tid = Some p -> pk_wake p = Some (WkRecv i val true) ->
  timer_fired tm (w_rt w) = false -> rt_chans (w_rt w) !! ch = Some (Chan false q) ->
  exists w', run n (suspended tid uaddr val tm ch) w = Blocked (suspended tid uaddr val tm ch) w' /\
    w_futex w' = w_futex w /\ w_err w' = w_err w /\
    rt_chans (w_rt w') !! ch = Some (Chan false (q ++ [tid])) /\
    rt_parked (w_rt w') !! tid = Some (Parked tm [ch] None).
Proof.
  intros Hp Hk Ht Hc.
  assert (run n (suspended tid uaddr val tm ch) w =
    run n (with_defer (delAwait uaddr) (Iter (wait_turn tid val tm ch) tt Ret)) (unpark tid w)) as ->.
  { unfold suspended. rewrite !run_defer, bind_assoc. rewrite (run_leave _ _ _ _ _ _ Hp Hk).
    cbn [wait_case negb]. rewrite Z.eqb_refl. cbn [negb bind unroll]. done. }
  rewrite (run_wait_loop n tid uaddr val tm ch q) by done.
  destruct (park_one tid tm ch (w_rt (unpark tid w)) q Hc) as [H1 H2].
  eexists. split; [done|]. by split_and!.
Qed.

(** C23: FUTEX_WAIT from the call to its return: on a word with the expected
    value it registers, starts its timer and parks at the end of the queue of
    its address; what is left of it, once the goroutine is woken in any later
    state, deregisters and returns 0 when it was handed a value other than
    the expected one, -1 with ETIMEDOUT when its timer fired and -1 with
    EPERM when its channel was closed, and parks again at the end of the
    queue, still registered, when it was handed the expected value, the timer
    has not fired and the channel is open. *)
Theorem futex_wait_resumes n tid uaddr val utime w c bs :
  ready w -> represents c w -> c Awaits uaddr < MaxInt64 ->
  MemReadPtr (w_host w) uaddr 4 = inl bs -> le_decode bs = val -> timeout_readable utime w ->
  exists rest w1 a q tm, run n (futex_wait tid uaddr val utime) w = Blocked rest w1 /\
    timer_for utime w tm (rt_timers (w_rt w1)) /\
    tbl Awaits w1 !! uaddr = Some a /\ aw_ref a = c Awaits uaddr + 1 /\
    rt_chans (w_rt w1) !! aw_ch a = Some (Chan false (q ++ [tid])) /\
    rt_parked (w_rt w1) !! tid = Some (Parked tm [aw_ch a] None) /\
    forall n2 w2 p wk, ready w2 -> rt_parked (w_rt w2) !! tid = Some p -> pk_wake p = Some wk ->
      match wk with
      | WkTimeout => run n2 rest w2 =
          Returned (-1) (reg_del Awaits uaddr (set_err (Errno_val ETIMEDOUT) (unpark tid w2)))
      | WkRecv _ _ false => run n2 rest w2 =
          Returned (-1) (reg_del Awaits uaddr (set_err (Errno_val EPERM) (unpark tid w2)))
      | WkRecv _ v true =>
          (v <> val -> run n2 rest w2 = Returned 0 (reg_del Awaits uaddr (unpark tid w2))) /\
          (v = val -> forall q2, timer_fired tm (w_rt w2) = false ->
             rt_chans (w_rt w2) !! aw_ch a = Some (Chan false q2) ->
             exists w3, run n2 rest w2 = Blocked rest w3 /\ w_futex w3 = w_futex w2 /\
               rt_chans (w_rt w3) !! aw_ch a = Some (Chan false (q2 ++ [tid])) /\
               rt_parked (w_rt w3) !! tid = Some (Parked tm [aw_ch a] None))
      end.
Proof.
  intros Hw Hc Hm Hr Hv Hto.
  destruct (futex_wait_parks n tid uaddr val utime w c bs) as (w1 & a & q & tm & E & _ & _ & Ht & Ea & Hn & Hq & Hp);
    [done..|].
  eexists _, w1, a, q, tm. split; [exact E|]. do 5 (split; [done|]). intros n2 w2 p wk Hw2 Hp2 Hk.
  destruct wk as [|i v [|]]; [by eapply run_resume_fails| |by eapply run_resume_fails].
  split; [intros Hne; by eapply run_resume_changed|]. intros -> q2 Htf Hq2.
  destruct (futex_wake_unchanged n2 tid uaddr val tm (aw_ch a) q2 p i w2) as (w3 & E3 & H1 & _ & H2 & H3); [done..|].
  by exists w3.
Qed.

(** ** Closing the kernel under waiters *)

(** Goroutine [g] has been told that its channel is closed. *)
Definition told (r : runtime) (g : Z) : Prop :=
  exists p i v, rt_parked r !! g = Some p /\ pk_wake p = Some (WkRecv i v false).

(** [g] has been told, or still waits on [ch]. *)
Definition due (r : runtime) (ch g : Z) : Prop :=
  told r g \/
  is_Some (rt_parked r !! g) /\ exists c, rt_chans r !! ch = Some c /\ g ∈ ch_recvq c.

Lemma told_wake_closed r x s g : told r g -> told (wake_closed x s r) g.
Proof.
  intros (p & i & v & Hp & Hw). unfold wake_closed. destruct (rt_parked r !! s) as [p'|] eqn:Es; [|by exists p, i, v].
  destruct (decide (g = s)) as [->|].
  - do 3 eexists. cbn. by rewrite lookup_insert_eq.
  - exists p, i, v. cbn. by rewrite lookup_insert_ne.
Qed.

Lemma parked_wake_closed r x s g :
  is_Some (rt_parked r !! g) -> is_Some (rt_parked (wake_closed x s r) !! g).
Proof.
  intros Hp. unfold wake_closed. destruct (rt_parked r !! s); [|done]. cbn.
  destruct (decide (g = s)) as [->|]; [by rewrite lookup_insert_eq|by rewrite lookup_insert_ne].
Qed.

Lemma wake_closed_tells r x g : is_Some (rt_parked r !! g) -> told (wake_closed x g r) g.
Proof.
  intros [p Hp]. unfold wake_closed. rewrite Hp. do 3 eexists. cbn. by rewrite lookup_insert_eq.
Qed.

Lemma due_wake_closed r x s ch g : due r ch g -> due (wake_closed x s r) ch g.
Proof.
  intros [Ht|[Hp (c & Hc & Hin)]]; [left; by apply told_wake_closed|].
  destruct (decide (g = s)) as [->|Hne]; [left; by apply wake_closed_tells|].
  right. split; [by apply parked_wake_closed|].
  unfold wake_closed. destruct (rt_parked r !! s); [|by eexists]. cbn.
  rewrite lookup_fmap, Hc. eexists. split; [done|]. cbn. by apply list_elem_of_filter.
Qed.

Lemma open_wake_closed r x s ch : open_chan r ch -> open_chan (wake_closed x s r) ch.
Proof.
  intros [q Hq]. unfold wake_closed, open_chan. destruct (rt_parked r !! s); [|by exists q].
  cbn. rewrite lookup_fmap, Hq. by eexists.
Qed.

Lemma fold_keeps (P : runtime -> Prop) ch q : (forall r s, P r -> P (wake_closed ch s r)) ->
  forall r, P r -> P (foldl (fun r t => wake_closed ch t r) r q).
Proof. intros H. induction q; intros r Hr; cbn; auto. Qed.

Lemma fold_tells ch q g : forall r, is_Some (rt_parked r !! g) -> g ∈ q ->
  told (foldl (fun r t => wake_closed ch t r) r q) g.
Proof.
  induction q as [|s q IH]; intros r Hp Hg; [by apply not_elem_of_nil in Hg|]. cbn.
  apply elem_of_cons in Hg as [->|Hg].
  - apply fold_keeps; [|by apply wake_closed_tells]. intros; by apply told_wake_closed.
  - apply IH; [by apply parked_wake_closed|done].
Qed.

(** Closing an open channel: everyone due on it is told, other channels stay. *)
Lemma close_chan_spec ch r : open_chan r ch -> exists r', close_chan ch r = Some r' /\
  (forall x, x <> ch -> open_chan r x -> open_chan r' x) /\
  (forall x g, due r x g -> x <> ch -> due r' x g) /\
  (forall g, due r ch g -> told r' g) /\ (forall g, told r g -> told r' g).
Proof.
  intros [q Hq]. unfold close_chan. rewrite Hq. cbn [ch_closed ch_recvq]. eexists. split; [done|].
  set (r1 := foldl _ r q). split_and!.
  - intros x Hx Ho. assert (open_chan r1 x) as [q' Hq'].
    { apply fold_keeps; [|done]. intros; by apply open_wake_closed. }
    exists q'. cbn. by rewrite lookup_insert_ne.
  - intros x g Hd Hx. assert (due r1 x g) as [Ht|[Hp (c & Hc & Hin)]].
    { apply (fold_keeps (fun r => due r x g)); [|done]. intros; by apply due_wake_closed. }
    + by left.
    + right. split; [done|]. exists c. cbn. by rewrite lookup_insert_ne.
  - intros g [Ht|[Hp (c & Hc & Hin)]].
    + apply (fold_keeps (fun r => told r g)); [|done]. intros; by apply told_wake_closed.
    + rewrite Hq in Hc. simplify_eq. by apply (fold_tells ch q g).
  - intros g Ht. apply (fold_keeps (fun r => told r g)); [|done]. intros; by apply told_wake_closed.
Qed.

(** The channels of some keys of a table. *)
Definition chan_of (t : table) (w : World) (k ch : Z) : Prop :=
  exists a, tbl t w !! k = Some a /\ aw_ch a = ch.

Lemma run_close_keys {A} n t keys (K : unit -> prog World A) : NoDup keys -> forall w,
  made w ->
  (forall k, k ∈ keys -> exists ch, chan_of t w k ch /\ open_chan (w_rt w) ch) ->
  (forall k k' ch, chan_of t w k ch -> chan_of t w k' ch -> k = k') ->
  exists r', run n (bind (close_keys t keys) K) w = run n (K tt) (set_rt r' w) /\
    (forall x, open_chan (w_rt w) x -> (forall k, k ∈ keys -> ~ chan_of t w k x) -> open_chan r' x) /\
    (forall x g, due (w_rt w) x g -> (forall k, k ∈ keys -> ~ chan_of t w k x) -> due r' x g) /\
    (forall k ch g, k ∈ keys -> chan_of t w k ch -> due (w_rt w) ch g -> told r' g) /\
    (forall g, told (w_rt w) g -> told r' g).
Proof.
  induction keys as [|k keys IH]; intros Hnd w Hm Ho Hinj.
  { exists (w_rt w). replace (set_rt (w_rt w) w) with w by (by destruct w).
    split_and!; [done|auto|auto| |auto]. intros k ch g Hk. by apply not_elem_of_nil in Hk. }
  apply list.NoDup_cons in Hnd as [Hnin Hnd].
  destruct (Ho k) as (ch & (a & Ea & Ech) & Hop); [by left|].
  destruct (close_chan_spec ch (w_rt w) Hop) as (r1 & Ecl & C1 & C2 & C3 & C4).
  set (w1 := set_rt r1 w).
  assert (forall k' x, chan_of t w1 k' x <-> chan_of t w k' x) as Hsame by done.
  assert (forall k', k' ∈ keys -> ~ chan_of t w k' ch) as Hdiff.
  { intros k' Hk' Hc. apply Hnin. by replace k with k' by (eapply Hinj; [done|by exists a]). }
  destruct (IH Hnd w1) as (r' & Er & P1 & P2 & P3 & P4); [done| |done|].
  { intros k' Hk'. destruct (Ho k') as (ch' & Hc' & Hop'); [by right|]. exists ch'. split; [done|].
    apply C1; [|done]. intros ->. by apply (Hdiff k'). }
  exists r'. split_and!.
  - cbn [close_keys]. unfold lookup_await. cbn [bind]. rewrite run_act.
    assert (nmap_get (get_table t (w_futex w)) k = Some a) as ->.
    { rewrite <- Ea. unfold tbl. destruct Hm as [[m1 E1] [m2 E2]]. destruct t; cbn; by rewrite ?E1, ?E2. }
    unfold chan_close. cbn [bind]. rewrite run_act, Ech, Ecl. cbn [bind]. fold w1. rewrite Er. by destruct w.
  - intros x Hx Hno. apply P1; [apply C1; [|done]|]; [intros ->; apply (Hno k); [by left|by exists a]|].
    intros k' Hk'. apply Hno. by right.
  - intros x g Hd Hno. apply P2; [apply C2; [done|]|]; [intros ->; apply (Hno k); [by left|by exists a]|].
    intros k' Hk'. apply Hno. by right.
  - intros k' ch' g Hk' Hc' Hd. apply elem_of_cons in Hk' as [->|Hk'].
    + assert (ch' = ch) as -> by (destruct Hc' as (a' & Ea' & <-); congruence). auto.
    + apply (P3 k' ch'); [done|done|]. apply C2; [done|]. intros ->. by apply (Hdiff k').
  - auto.
Qed.

(** [range] over a made table, under the lock. *)
Lemma run_close_table {A} `{!RangeLaw} n t (K : unit -> prog World A) w :
  made w ->
  (forall k ch, chan_of t w k ch -> open_chan (w_rt w) ch) ->
  (forall k k' ch, chan_of t w k ch -> chan_of t w k' ch -> k = k') ->
  exists h r', run n (bind (close_table t) K) w = run n (K tt) (set_rt r' (set_host h w)) /\
    (forall x, open_chan (w_rt w) x -> (forall k, ~ chan_of t w k x) -> open_chan r' x) /\
    (forall x g, due (w_rt w) x g -> (forall k, ~ chan_of t w k x) -> due r' x g) /\
    (forall k ch g, chan_of t w k ch -> due (w_rt w) ch g -> told r' g) /\
    (forall g, told (w_rt w) g -> told r' g).
Proof.
  intros Hm Ho Hinj. unfold close_table, range_table. cbn [bind]. rewrite run_act. cbv zeta.
  set (o := range_order _ _).
  assert (o.2 ≡ₚ (map_to_list (tbl t w)).*1) as Hperm.
  { unfold o, table_keys. etrans; [apply range_order_perm|]. unfold tbl.
    destruct Hm as [[m1 E1] [m2 E2]]. destruct t; cbn; by rewrite ?E1, ?E2. }
  assert (forall k, k ∈ o.2 <-> is_Some (tbl t w !! k)) as Hkeys.
  { intros k. rewrite Hperm, list_elem_of_fmap. split.
    - intros ([k' a] & -> & Hin). apply elem_of_map_to_list in Hin. by exists a.
    - intros [a Ha]. exists (k, a). split; [done|]. by apply elem_of_map_to_list. }
  destruct (run_close_keys n t o.2 K) with (w := set_host o.1 w) as (r' & Er & P1 & P2 & P3 & P4);
    [rewrite Hperm; apply NoDup_fst_map_to_list|done| |done|].
  { intros k [a Ha]%Hkeys. exists (aw_ch a). split; [by exists a|]. apply (Ho k). by exists a. }
  exists o.1, r'. split_and!; [done| | | |done].
  - intros x Hx Hno. apply P1; [done|]. intros k _. apply Hno.
  - intros x g Hd Hno. apply P2; [done|]. intros k _. apply Hno.
  - intros k ch g Hc. apply P3 with k; [|done]. apply Hkeys. by destruct Hc as (a & -> & _).
Qed.

(** The end of the futexes: every channel of both tables is closed exactly
    once whatever order the range takes, every goroutine parked on one of
    them is woken with a closed receive, the tables are nil, the locks are
    free and the other components are as before. *)
Theorem futex_dtor_tells_waiters `{!RangeLaw} n c w :
  locks_free w -> made w -> represents c w ->
  exists w', run n dtor w = Returned tt w' /\ locks_free w' /\
    w_fcntl w' = w_fcntl w /\ w_signal w' = w_signal w /\
    fx_awaits (w_futex w') = None /\ fx_bitAwaits (w_futex w') = None /\
    (forall t key a q g, tbl t w !! key = Some a -> rt_chans (w_rt w) !! aw_ch a = Some (Chan false q) ->
       g ∈ q -> is_Some (rt_parked (w_rt w) !! g) -> told (w_rt w') g).
Proof.
  intros Hf Hm Hc. pose proof (Hf LkFutex) as Hl.
  assert (forall t t' k k' ch, chan_of t w k ch -> chan_of t' w k' ch -> t = t' /\ k = k') as Hown.
  { intros t t' k k' ch (a & Ea & <-) (a' & Ea' & E). by eapply (rep_own _ _ Hc). }
  assert (forall t k ch, chan_of t w k ch -> open_chan (w_rt w) ch) as Hopen.
  { intros t k ch (a & Ea & <-). by eapply (rep_chan _ _ Hc). }
  unfold dtor. rewrite run_Lock by done.
  set (w1 := set_rw LkFutex (RW true 0) w).
  destruct (run_close_table n Awaits (fun _ => close_table BitAwaits ;;;
    Act (fun w => Some (set_futex (World.Futex (fx_rw (w_futex w)) None None) w, tt)) Ret ;;;
    Unlock LkFutex) w1) as (h2 & r2 & -> & A1 & A2 & A3 & A4);
    [done|intros k; apply (Hopen Awaits)|intros k k' ch H1 H2; by eapply (Hown Awaits Awaits)|].
  set (w2 := set_rt r2 (set_host h2 w1)).
  assert (forall k x, chan_of BitAwaits w k x -> forall k', ~ chan_of Awaits w1 k' x) as Hdis.
  { intros k x Hx k' Hx'. by destruct (Hown BitAwaits Awaits k k' x Hx Hx'). }
  destruct (run_close_table n BitAwaits (fun _ =>
    Act (fun w => Some (set_futex (World.Futex (fx_rw (w_futex w)) None None) w, tt)) Ret ;;;
    Unlock LkFutex) w2) as (h3 & r3 & -> & B1 & B2 & B3 & B4);
    [done|intros k ch Hx; apply A1; [by apply (Hopen BitAwaits k)|by eapply Hdis]
    |intros k k' ch H1 H2; by eapply (Hown BitAwaits BitAwaits)|].
  eexists. split; [reflexivity|]. split; [intros []; [apply (Hf LkFcntl)|done|apply (Hf LkSignal)]|].
  do 4 (split; [done|]). intros t key a q g Ha Hq Hg Hp. cbn.
  assert (due (w_rt w) (aw_ch a) g) as Hd by (right; split; [done|by eexists]).
  destruct t.
  - apply B4, (A3 key (aw_ch a)); [by exists a|done].
  - apply (B3 key (aw_ch a)); [by exists a|]. apply A2; [done|]. eapply Hdis. by exists a.
Qed.

(** ** A lost wakeup

    [FUTEX_WAIT] compares the word before it registers.  A guest thread that
    changes the word and wakes in between finds nobody. *)

(** The other guest thread: a store to memory, then [FUTEX_WAKE]. *)
Definition store_and_wake (store : Host -> Host) (uaddr count : Z) : prog World Z :=
  let! _ := hdo (fun h => (store h, tt)) in
  futex_wake uaddr count.

(** C39: A wakeup can be lost, on every debugger and in every state where
    nobody waits at the address: when FUTEX_WAIT has compared the word and
    not registered yet, and another thread stores a different value and calls
    FUTEX_WAKE, which finds nobody and returns 0, the waiter then registers,
    parks and cannot move although the word no longer has the value it waits
    for. *)
Theorem futex_lost_wakeup tid uaddr val utime count store w c bs bs' :
  ready w -> represents c w -> c Awaits uaddr = 0 ->
  MemReadPtr (w_host w) uaddr 4 = inl bs -> le_decode bs = val ->
  let h' := store (w_host w) in
  MemReadPtr h' uaddr 4 = inl bs' -> le_decode bs' <> val -> timeout_readable utime (set_host h' w) ->
  exists sch rest w' a tm,
    interleave sch [futex_wait tid uaddr val utime; store_and_wake store uaddr count] w =
      Some ([rest; Ret 0], w') /\
    w_host w' = (select_pick h').1 /\ tbl Awaits w' !! uaddr = Some a /\
    timer_for utime (set_host h' w) tm (rt_timers (w_rt w')) /\
    rt_parked (w_rt w') !! tid = Some (Parked tm [aw_ch a] None) /\ step1 rest w' = None.
Proof.
  intros Hw Hc H0 Hr Hv h' Hr' Hv' Hto.
  assert (ready (set_host h' w)) as Hw' by (by apply untouched_host).
  assert (represents c (set_host h' w)) as Hc' by (by destruct Hc).
  set (m1 := if negb (utime =? 0) then
      let! '(ts, err) := hget (fun h => MemExtract h utime ShTimespec zero_timespec) in
      match err with
      | Some _ => fail EFAULT
      | None => let! tm := rtdo (time_After (duration_of ts)) in wait_register tid uaddr val (Some tm)
      end
    else wait_register tid uaddr val None).
  assert (step1 (futex_wait tid uaddr val utime) w = Some (m1, w)) as E1.
  { cbn. rewrite Hr. by rewrite Hv, Z.eqb_refl. }
  assert (run 0 (store_and_wake store uaddr count) w = Returned 0 (set_host h' w)) as E2.
  { pose proof (rep_count _ _ Hc' Awaits uaddr) as Hn. unfold store_and_wake. rewrite run_hdo. cbn [fst snd].
    fold h'. unfold futex_wake. rewrite run_getAwait by done.
    destruct (tbl Awaits (set_host h' w) !! uaddr); [lia|done]. }
  destruct (run_wait_register 0 tid uaddr val (wait_timer utime (set_host h' w)).1 (wait_timer utime (set_host h' w)).2 c)
    as (w' & a & q & E3 & Hh & _ & Ht & Ea & _ & _ & Hp);
    [by apply wait_timer_ready|by apply wait_timer_represents|wrap_lia|eapply timer_for_unfired, wait_timer_ok|].
  rewrite <- (run_wait_timeout 0 utime (wait_register tid uaddr val) (set_host h' w) Hto) in E3.
  pose proof (run_steps 0 (store_and_wake store uaddr count) w) as S2. rewrite E2 in S2. cbn [residual] in S2.
  pose proof (run_steps 0 m1 (set_host h' w)) as S3. unfold m1 in S3 at 2. rewrite E3 in S3. cbn [residual] in S3.
  apply (steps_interleave 1) in S2 as [k2 S2]. apply (steps_interleave 0) in S3 as [k3 S3].
  eexists ([0%nat] ++ replicate k2 1%nat ++ replicate k3 0%nat), _, w', a, _.
  split.
  { rewrite !interleave_app. cbn [interleave lookup list_lookup]. rewrite E1.
    rewrite interleave_app, S2 by done. by rewrite S3. }
  split; [rewrite Hh; unfold wait_timer; by destruct (utime =? 0)|]. split; [done|].
  split; [rewrite Ht; apply wait_timer_ok|]. split; [done|].
  cbn. unfold select_leave. by rewrite Hp.
Qed.

End futexprops.

(** ** Witnesses *)

Lemma booted_represents `{D : Debugger} h : represents (fun _ _ => 0) (Syscall.booted h).
Proof.
  split; [by intros []|..].
  - by intros [] key a.
  - by intros [] key a.
  - intros i [x Hx]. done.
Qed.

(** Goroutine 7 waits at 0x1000. *)
Definition sim_waiting : World (D := SimDebugger) :=
  mkWorld (sim0 : Host) (Runtime 2 {[1 := Chan false [7]]} ∅ {[7 := Parked None [1] None]})
    (World.Fcntl rw_free (Some ∅)) (World.Futex rw_free (Some {[0x1000 := Await 1 1]}) (Some ∅))
    (World.Signal 0 rw_free (Some ∅)) (Sched ∅ []) 0.

Lemma sim_waiting_ready : ready sim_waiting.
Proof. split; [by intros []|]. by split_and!; eexists. Qed.

Lemma sim_waiting_represents : represents (bump Awaits 0x1000 1 (fun _ _ => 0)) sim_waiting.
Proof.
  assert (forall t key a, tbl t sim_waiting !! key = Some a -> t = Awaits /\ key = 0x1000 /\ a = Await 1 1) as H.
  { intros [] key a Ha; cbn -[lookup] in Ha; [|done]. by apply lookup_singleton_Some in Ha as [<- <-]. }
  split.
  - intros t key. unfold bump. destruct (tbl t sim_waiting !! key) as [a|] eqn:Ea.
    + apply H in Ea as (-> & -> & ->). by rewrite decide_True.
    + case_decide as Hd; [|done]. destruct Hd as [-> ->]. by cbn in Ea.
  - intros t key a (-> & -> & ->)%H. by exists [7].
  - intros t key a t' key' a' (-> & -> & ->)%H (-> & -> & ->)%H. done.
  - intros i [x Hx]. cbn -[lookup] in Hx. apply lookup_singleton_Some in Hx as [<- _]. done.
Qed.

(** The same with a timeout of one second and a half at 0x2000. *)
Definition sim_timed : World (D := SimDebugger) :=
  set_host (sim_set_cells [(0x2000, existT ShTimespec (Timespec 1 500000000))] sim0 : Host) sim_waiting.

Lemma represents_host `{D : Debugger} c h w : represents c w -> represents c (set_host h w).
Proof. intros [H1 H2 H3 H4]. by split. Qed.

Lemma sim_waiting_queued : queued (w_rt sim_waiting) 1 [7].
Proof. split; [done|]. split; [apply NoDup_singleton|]. by repeat constructor. Qed.

Lemma futex_tables_count_waiters_witness :
  exists w', run 0 (do_regs [RAdd 1; RAddBit 1 8; RAdd 2; RDel 1; RDelBit 1 8]) sim_world = Returned tt w' /\
    ready w' /\ represents (fold_left (fun c o => count_op o c)
      [RAdd 1; RAddBit 1 8; RAdd 2; RDel 1; RDelBit 1 8] (fun _ _ => 0)) w'.
Proof.
  apply (futex_tables_count_waiters 0 _ (fun _ _ => 0) sim_world);
    [apply sim_ready|apply booted_represents|by vm_compute].
Defined.

Lemma futex_wake_is_fifo_witness :
  exists r', run 1 (futex_wake 0x1000 5) sim_waiting = Returned 1 (set_rt r' sim_waiting) /\
    queued r' 1 [] /\ woken (w_rt sim_waiting) r' 1 25185 [7].
Proof.
  exact (futex_wake_is_fifo 1 0x1000 5 sim_waiting sim_waiting_ready ltac:(by vm_compute)
    [7] (le_encode 4 25185) sim_waiting_queued eq_refl ltac:(done) eq_refl).
Defined.

Lemma futex_wait_parks_witness :
  exists w' a q tm, run 0 (futex_wait 9 0x1000 25185 0x2000) sim_timed =
      Blocked (suspended 9 0x1000 25185 tm (aw_ch a)) w' /\
    ready w' /\ w_err w' = 0 /\ timer_for 0x2000 sim_timed tm (rt_timers (w_rt w')) /\
    tbl Awaits w' !! 0x1000 = Some a /\ aw_ref a = 1 + 1 /\
    rt_chans (w_rt w') !! aw_ch a = Some (Chan false (q ++ [9])) /\
    rt_parked (w_rt w') !! 9 = Some (Parked tm [aw_ch a] None).
Proof.
  refine (futex_wait_parks 0 9 0x1000 25185 0x2000 sim_timed _ (le_encode 4 25185) _
    (represents_host _ _ _ sim_waiting_represents) ltac:(by vm_compute) eq_refl eq_refl _);
    [apply untouched_host, sim_waiting_ready|by intros _].
Defined.

(** Goroutine 7 has been handed the value 1. *)
Definition sim_handed : World (D := SimDebugger) :=
  set_rt (Runtime 2 {[1 := Chan false []]} ∅ {[7 := Parked None [1] (Some (WkRecv 0 1 true))]}) sim_waiting.

(** Goroutine 7 has been handed the value it waited for. *)
Lemma futex_wake_unchanged_witness :
  exists w', run 0 (suspended 7 0x1000 1 None 1) sim_handed = Blocked (suspended 7 0x1000 1 None 1) w' /\
    w_futex w' = w_futex sim_handed /\ w_err w' = 0 /\
    rt_chans (w_rt w') !! 1 = Some (Chan false [7]) /\
    rt_parked (w_rt w') !! 7 = Some (Parked None [1] None).
Proof.
  exact (futex_wake_unchanged 0 7 0x1000 1 None 1 [] _ 0 sim_handed eq_refl eq_refl eq_refl eq_refl).
Defined.

(** Goroutine 7 waits at 0x1000 for a change from 25185 and is handed 1: what is
    left of its wait returns 0. *)
Lemma futex_wait_resumes_witness :
  exists rest w1, run 0 (futex_wait 7 0x1000 25185 0) sim_world = Blocked rest w1 /\
    run 0 rest sim_handed = Returned 0 (reg_del Awaits 0x1000 (unpark 7 sim_handed)).
Proof.
  destruct (futex_wait_resumes 0 7 0x1000 25185 0 sim_world (fun _ _ => 0) (le_encode 4 25185))
    as (rest & w1 & a & q & tm & E & _ & _ & _ & _ & _ & H);
    [apply sim_ready|apply booted_represents|by vm_compute|reflexivity|reflexivity|by intros []|].
  exists rest, w1. split; [exact E|].
  refine (proj1 (H 0%nat sim_handed _ (WkRecv 0 1 true) _ eq_refl eq_refl) _);
    [apply untouched_rt, sim_waiting_ready|done].
Defined.

(** The word at 0x1000 goes from 25185 to 1 while goroutine 9 is about to wait. *)
Lemma futex_lost_wakeup_witness :
  exists sch rest w', interleave sch [futex_wait 9 0x1000 25185 0;
      store_and_wake (fun h : Host => (MemWritePtr h 0x1000 (le_encode 4 1)).1) 0x1000 1] sim_world =
      Some ([rest; Ret 0], w') /\
    is_Some (rt_parked (w_rt w') !! 9) /\ step1 rest w' = None.
Proof.
  destruct (futex_lost_wakeup 9 0x1000 25185 0 1
    (fun h : Host => (MemWritePtr h 0x1000 (le_encode 4 1)).1) sim_world (fun _ _ => 0)
    (le_encode 4 25185) (le_encode 4 1))
    as (sch & rest & w' & a & tm & E & _ & _ & _ & Hp & Hs);
    [apply sim_ready|apply booted_represents|reflexivity|reflexivity|reflexivity|by vm_compute|by vm_compute
    |by intros []|].
  exists sch, rest, w'. split; [exact E|]. split; [by rewrite Hp|exact Hs].
Defined.

Lemma futex_dtor_tells_waiters_witness :
  exists w', run 0 dtor sim_waiting = Returned tt w' /\ locks_free w' /\
    w_fcntl w' = w_fcntl sim_waiting /\ w_signal w' = w_signal sim_waiting /\
    fx_awaits (w_futex w') = None /\ fx_bitAwaits (w_futex w') = None /\
    (forall t key a q g, tbl t sim_waiting !! key = Some a ->
       rt_chans (w_rt sim_waiting) !! aw_ch a = Some (Chan false q) ->
       g ∈ q -> is_Some (rt_parked (w_rt sim_waiting) !! g) -> told (w_rt w') g).
Proof.
  exact (futex_dtor_tells_waiters 0 _ sim_waiting (proj1 sim_waiting_ready)
    (ready_made _ sim_waiting_ready) sim_waiting_represents).
Defined.
