(* ===== verification/FutexQueue.v ===== *)
(** * Waiters and their waker

    The two halves of a futex together.  Any number of threads wait for a word to
    change and park one after the other; another one stores and wakes some of
    them; the ones that arrived first return, the rest sleep on in their order,
    and what the table says is who still waits. *)

From stdpp Require Import base list gmap numbers.
From S2P Require Import Prelude GoProg GoSpec LinuxABI GoRuntime Structs Host SimHost World.
From S2P Require Import WorldSpec Futex SimKernel FutexProps.
Local Open Scope Z_scope.
Local Open Scope go_scope.
Import Futex.

(** The choice [select] makes among ready cases does not touch guest memory. *)
Class PickLaw `{Debugger} : Prop :=
  pick_memory h a n : MemReadPtr (select_pick h).1 a n = MemReadPtr h a n.

Section futexqueue.
Context {D : Debugger}.

Lemma tbl_unpark t tid w : tbl t (unpark tid w) = tbl t w.
Proof. by destruct t. Qed.

Lemma reg_del_ready uaddr w : ready w -> ready (reg_del Awaits uaddr w).
Proof. intros Hw. pose proof (keeps_delAwait uaddr 0%nat w Hw) as H. by rewrite run_delAwait in H. Qed.

(** ** The table with [c] waiters at an address *)

Section address.
Context (uaddr val : Z) (base bits : gmap Z await) (ch : Z).

Definition with_waiters (c : Z) : gmap Z await :=
  if c =? 0 then base else <[uaddr := Await ch c]> base.

Record tables (c : Z) (w : World) : Prop := {
  tb_ready : ready w;
  tb_awaits : tbl Awaits w = with_waiters c;
  tb_bits : tbl BitAwaits w = bits
}.

Lemma with_waiters_some c : 0 < c -> with_waiters c = <[uaddr := Await ch c]> base.
Proof. intros Hc. unfold with_waiters. by rewrite (proj2 (Z.eqb_neq _ _)) by lia. Qed.

Lemma tables_host c h w : tables c w -> tables c (set_host h w).
Proof. intros [H1 H2 H3]. split; [by apply untouched_host|by rewrite tbl_set_host..]. Qed.
Lemma tables_rt c r w : tables c w -> tables c (set_rt r w).
Proof. intros [H1 H2 H3]. split; [by apply untouched_rt|by rewrite tbl_set_rt..]. Qed.

(** One waiter more. *)
Lemma reg_add_waiters c w :
  tables c w -> 0 < c < MaxInt64 -> exists w', reg_add Awaits uaddr w = (w', ch) /\
    tbl Awaits w' = with_waiters (c + 1) /\ tbl BitAwaits w' = bits /\
    w_rt w' = w_rt w /\ w_host w' = w_host w /\ w_err w' = w_err w.
Proof.
  intros [_ Ha Hb] Hc. rewrite with_waiters_some in Ha by lia. unfold reg_add.
  rewrite Ha, lookup_insert_eq. cbn [aw_ch aw_ref]. rewrite (with_waiters_some (c + 1)) by lia.
  rewrite int64_id by wrap_lia. eexists. split; [done|]. rewrite !tbl_set.
  rewrite decide_True, decide_False by done. by rewrite insert_insert_eq.
Qed.

(** One waiter less; with the last one the entry goes. *)
Lemma reg_del_waiters c w :
  base !! uaddr = None -> tables c w -> 0 < c <= MaxInt64 ->
  tables (c - 1) (reg_del Awaits uaddr w) /\ w_rt (reg_del Awaits uaddr w) = w_rt w /\
  w_host (reg_del Awaits uaddr w) = w_host w /\ w_err (reg_del Awaits uaddr w) = w_err w.
Proof.
  intros Hn [Hr Ha Hb] Hc. rewrite with_waiters_some in Ha by lia.
  pose proof (reg_del_ready uaddr w Hr) as Hr'. unfold reg_del in *. rewrite Ha, lookup_insert_eq in *.
  cbn [aw_ch aw_ref] in *. rewrite int64_id in * by wrap_lia. rewrite insert_insert_eq in *. cbv zeta in *.
  destruct (Z.leb_spec (c - 1) 0); (split; [|done]); (split; [done|rewrite tbl_set|by rewrite tbl_set]);
    rewrite decide_True by done.
  - unfold with_waiters. rewrite (proj2 (Z.eqb_eq _ _)) by lia. by rewrite delete_insert_eq, delete_id.
  - by rewrite with_waiters_some by lia.
Qed.

(** ** Parking *)

Lemma park_queued tid ch' r q :
  queued r ch' q -> tid ∉ q -> queued (park tid None [ch'] r) ch' (q ++ [tid]).
Proof.
  intros (Hc & Hnd & Hp) Hn. destruct (park_one tid None _ _ _ Hc) as [Hp1 Hp2]. split; [done|].
  split; [apply list.NoDup_app; split; [done|]; split; [set_solver|apply list.NoDup_singleton]|].
  apply list.Forall_app. split; [|constructor; [by eexists|constructor]].
  eapply list.Forall_impl; [exact Hp|]. intros t Ht. unfold park. cbn. destruct (decide (t = tid)) as [->|].
  - rewrite lookup_insert_eq. by eexists.
  - by rewrite lookup_insert_ne.
Qed.

(** The threads [q] wait, in this order. *)
Definition asleep (q : list Z) (w : World) : Prop := tables (zlen q) w /\ queued (w_rt w) ch q.

Lemma run_wait_next n tid q w bs :
  asleep q w -> q <> [] -> tid ∉ q -> zlen q < MaxInt64 ->
  MemReadPtr (w_host w) uaddr 4 = inl bs -> le_decode bs = val ->
  exists w', run n (futex_wait tid uaddr val 0) w = Blocked (suspended tid uaddr val None ch) w' /\
    asleep (q ++ [tid]) w' /\ w_err w' = w_err w /\ w_host w' = (select_pick (w_host w)).1.
Proof.
  intros [Ht Hq] Hne Hin Hl Hr Hv. pose proof (tb_ready _ _ Ht) as Hw.
  pose proof (keeps_futex_wait tid uaddr val 0 n w Hw) as HK.
  unfold futex_wait in HK |- *. rewrite (run_wait_prepare _ _ _ _ _ _ _ Hr Hv) in HK |- * by (by intros []).
  cbn [wait_timer Z.eqb fst snd] in HK |- *. rewrite run_bind, run_addAwait in HK |- * by done.
  assert (0 < zlen q) as Hpos by (destruct q; [done|unfold zlen; cbn; lia]).
  destruct (reg_add_waiters (zlen q) w Ht) as (w1 & E & Ea & Eb & Er & Eh & Ee); [lia|].
  rewrite E in HK |- *. cbn [then_run fst snd] in HK |- *. rewrite <- Er in Hq.
  rewrite (run_wait_loop n tid uaddr val None ch q) in HK |- * by (done || apply Hq).
  eexists. split; [done|]. split; [split|by rewrite <- Eh].
  - split; [done|rewrite tbl_set_rt, tbl_set_host, Ea|by rewrite tbl_set_rt, tbl_set_host].
    by rewrite zlen_app.
  - by apply park_queued.
Qed.

End address.

(** The first waiter at an address. *)
Lemma run_wait_first n tid uaddr val w bs :
  ready w -> tbl Awaits w !! uaddr = None -> MemReadPtr (w_host w) uaddr 4 = inl bs -> le_decode bs = val ->
  let ch := rt_next (w_rt w) in
  exists w', run n (futex_wait tid uaddr val 0) w = Blocked (suspended tid uaddr val None ch) w' /\
    asleep uaddr (tbl Awaits w) (tbl BitAwaits w) ch [tid] w' /\ w_err w' = w_err w /\
    w_host w' = (select_pick (w_host w)).1.
Proof.
  intros Hw Hn Hr Hv ch. pose proof (keeps_futex_wait tid uaddr val 0 n w Hw) as HK.
  unfold futex_wait in HK |- *. rewrite (run_wait_prepare _ _ _ _ _ _ _ Hr Hv) in HK |- * by (by intros []).
  cbn [wait_timer Z.eqb fst snd] in HK |- *. rewrite run_bind, run_addAwait in HK |- * by done.
  unfold reg_add in HK |- *. rewrite Hn in HK |- *. cbn [make_chan fst snd then_run] in HK |- *. fold ch in HK |- *.
  set (w1 := set_tbl _ _ _) in *.
  assert (rt_chans (w_rt w1) !! ch = Some (Chan false [])) as Hq by apply lookup_insert_eq.
  rewrite (run_wait_loop n tid uaddr val None ch []) in HK |- * by done.
  eexists. split; [done|]. split; [split|done].
  - by split.
  - apply (park_queued tid ch _ []); [|set_solver]. split; [done|]. split; constructor.
Qed.

(** ** All of them *)

(** Each thread waits in turn; [None] if one does not park. *)
Fixpoint park_all (n : nat) (uaddr val : Z) (tids : list Z) (w : World) : option (list (prog World Z) * World) :=
  match tids with
  | [] => Some ([], w)
  | tid :: tids =>
      match run n (futex_wait tid uaddr val 0) w with
      | Blocked m w1 =>
          match park_all n uaddr val tids w1 with
          | Some (ms, w2) => Some (m :: ms, w2)
          | None => None
          end
      | _ => None
      end
  end.

(** Each sleeping thread goes on; [None] unless all return 0. *)
Fixpoint resume_all (n : nat) (ms : list (prog World Z)) (w : World) : option World :=
  match ms with
  | [] => Some w
  | m :: ms =>
      match run n m w with
      | Returned 0 w1 => resume_all n ms w1
      | _ => None
      end
  end.

Context {PL : PickLaw}.

Lemma park_rest n uaddr val base bits ch bs tids : forall q w,
  asleep uaddr base bits ch q w -> q <> [] -> NoDup (q ++ tids) -> zlen q + zlen tids <= MaxInt64 ->
  MemReadPtr (w_host w) uaddr 4 = inl bs -> le_decode bs = val ->
  exists w', park_all n uaddr val tids w = Some ((fun tid => suspended tid uaddr val None ch) <$> tids, w') /\
    asleep uaddr base bits ch (q ++ tids) w' /\ w_err w' = w_err w.
Proof.
  induction tids as [|tid tids IH]; intros q w Hs Hq Hnd Hl Hr Hv; cbn [park_all].
  { exists w. by rewrite app_nil_r. }
  assert (tid ∉ q) as Hin by (apply list.NoDup_app in Hnd as (_ & Hd & _); set_solver).
  rewrite zlen_cons in Hl. pose proof (zlen_nonneg tids).
  destruct (run_wait_next uaddr val base bits ch n tid q w bs) as (w1 & -> & Hs1 & He1 & Hh1);
    [done|done|done|lia|done|done|].
  destruct (IH (q ++ [tid]) w1) as (w2 & -> & Hs2 & He2);
    [done|by destruct q|by rewrite <- app_assoc|rewrite zlen_app; unfold zlen at 2; cbn; lia|
     by rewrite Hh1, pick_memory|done|].
  exists w2. rewrite <- app_assoc in Hs2. split; [done|]. split; [done|congruence].
Qed.

(** The threads [u] have been handed [v] and [q] still wait. *)
Lemma resume_woken n uaddr val base bits ch v q :
  base !! uaddr = None -> v <> val -> zlen q < MaxInt64 -> forall u w,
  tables uaddr base bits ch (zlen u + zlen q) w -> queued (w_rt w) ch q -> NoDup (u ++ q) ->
  zlen u + zlen q <= MaxInt64 ->
  Forall (fun t => exists p i, rt_parked (w_rt w) !! t = Some p /\ pk_wake p = Some (WkRecv i v true)) u ->
  exists w', resume_all n ((fun tid => suspended tid uaddr val None ch) <$> u) w = Some w' /\
    asleep uaddr base bits ch q w' /\ w_err w' = w_err w /\ w_host w' = w_host w /\
    forall t, rt_parked (w_rt w') !! t = if decide (t ∈ u) then None else rt_parked (w_rt w) !! t.
Proof.
  intros Hb Hv Hlq. induction u as [|t u IH]; intros w Ht Hq Hnd Hl Hf; cbn [fmap list_fmap resume_all].
  { exists w. split; [done|]. split; [done|]. split; [done|]. split; [done|]. done. }
  apply list.Forall_cons in Hf as [(p & i & Hp & Hk) Hf].
  cbn [app] in Hnd. apply list.NoDup_cons in Hnd as [Hnin Hnd]. rewrite zlen_cons in *.
  rewrite (run_resume_changed n t uaddr val None ch p i v) by (done || by eapply tb_ready).
  destruct (reg_del_waiters uaddr base bits ch (1 + zlen u + zlen q) (unpark t w)) as (Ht1 & Er & Eh & Ee);
    [done|by apply tables_rt|pose proof (zlen_nonneg u); pose proof (zlen_nonneg q); lia|].
  set (w1 := reg_del Awaits uaddr (unpark t w)) in *.
  assert (forall x, rt_parked (w_rt w1) !! x = if decide (x = t) then None else rt_parked (w_rt w) !! x) as Hp1.
  { intros x. rewrite Er. cbn. case_decide; [subst; apply lookup_delete_eq|by apply lookup_delete_ne]. }
  destruct (IH w1) as (w2 & -> & Hs & He & Hh & Hpk); [| |done|lia| |].
  - by replace (zlen u + zlen q) with (1 + zlen u + zlen q - 1) by lia.
  - destruct Hq as (Hc & Hndq & Hpq). split; [by rewrite Er|]. split; [done|].
    apply list.Forall_forall. intros x Hx. rewrite Hp1, decide_False by (intros ->; set_solver).
    exact (proj1 (list.Forall_forall _ _) Hpq x Hx).
  - apply list.Forall_forall. intros x Hx. rewrite Hp1, decide_False by (intros ->; set_solver).
    exact (proj1 (list.Forall_forall _ _) Hf x Hx).
  - exists w2. split; [done|]. split; [done|]. split; [by rewrite He, Ee|]. split; [by rewrite Hh, Eh|].
    intros x. rewrite Hpk, Hp1. destruct (decide (x ∈ u)); [by rewrite decide_True by set_solver|].
    destruct (decide (x = t)); [by rewrite decide_True by set_solver|]. by rewrite decide_False by set_solver.
Qed.

(** C18: Waiters and their waker: any number of threads that call FUTEX_WAIT
    one after the other on a word with the expected value park; once another
    value has been stored, FUTEX_WAKE returns how many it reaches, the
    threads that arrived first, and each of them then returns 0; the others
    sleep on in their order, the entry of the table counts just them and is
    gone when nobody is left, and nothing else of the tables and no errno has
    changed. *)
Theorem futex_queue n uaddr val tid tids w bs :
  let all := tid :: tids in
  ready w -> tbl Awaits w !! uaddr = None -> NoDup all -> zlen all < 2147483648 -> (length all <= n)%nat ->
  MemReadPtr (w_host w) uaddr 4 = inl bs -> le_decode bs = val ->
  exists ms w1, park_all n uaddr val all w = Some (ms, w1) /\
    forall h bs' count, MemReadPtr h uaddr 4 = inl bs' -> le_decode bs' <> val ->
      let k := wake_many (int32 count) (zlen all) in
      exists w2 w3, run n (futex_wake uaddr count) (set_host h w1) = Returned k w2 /\
        resume_all n (ztake k ms) w2 = Some w3 /\
        asleep uaddr (tbl Awaits w) (tbl BitAwaits w) (rt_next (w_rt w)) (zdrop k all) w3 /\
        w_err w3 = w_err w /\ w_host w3 = h /\ (forall t, t ∈ ztake k all -> rt_parked (w_rt w3) !! t = None).
Proof.
  intros all Hw Hn Hnd Hl Hfuel Hr Hv. set (ch := rt_next (w_rt w)). subst all.
  destruct (run_wait_first n tid uaddr val w bs Hw Hn Hr Hv) as (w0 & E0 & Hs0 & He0 & Hh0). fold ch in E0, Hs0.
  rewrite zlen_cons in Hl. pose proof (zlen_nonneg tids).
  destruct (park_rest n uaddr val (tbl Awaits w) (tbl BitAwaits w) ch bs tids [tid] w0)
    as (w1 & E1 & [Ht1 Hq1] & He1);
    [done|done|done|unfold zlen at 1; cbn; unfold MaxInt64; lia|by rewrite Hh0, pick_memory|done|].
  exists ((fun tid => suspended tid uaddr val None ch) <$> tid :: tids), w1. cbn [park_all]. rewrite E0, E1.
  split; [done|]. intros h bs' count Hr' Hne. set (all := tid :: tids) in *. set (k := wake_many _ _).
  assert (tbl Awaits w1 !! uaddr = Some (Await ch (zlen all))) as Ha.
  { rewrite (tb_awaits _ _ _ _ _ _ Ht1), with_waiters_some, lookup_insert_eq; [done|].
    unfold all. cbn [app]. rewrite zlen_cons. lia. }
  destruct (run_futex_wake n uaddr count (Await ch (zlen all)) all bs' (set_host h w1)) as (r' & Ewake & Hq2 & Hwk);
    [apply untouched_host; by eapply tb_ready|by rewrite tbl_set_host|done|unfold all; rewrite zlen_cons; lia|done|done|].
  fold k in Ewake, Hq2, Hwk. cbn [aw_ch] in Hq2, Hwk.
  assert (0 <= k <= zlen all) as Hk.
  { unfold k, wake_many. pose proof (zlen_nonneg all). destruct (Z.leb_spec 0 (int32 count)); lia. }
  assert (zlen (ztake k all) + zlen (zdrop k all) = zlen all) as Hsum by (rewrite <- zlen_app; by rewrite ztake_zdrop).
  exists (set_rt r' (set_host h w1)).
  destruct (resume_woken n uaddr val (tbl Awaits w) (tbl BitAwaits w) ch (le_decode bs') (zdrop k all) Hn Hne)
    with (u := ztake k all) (w := set_rt r' (set_host h w1)) as (w3 & E3 & Hs3 & He3 & Hh3 & Hp3).
  - pose proof (zlen_nonneg (ztake k all)). unfold all in Hsum at 3. rewrite zlen_cons in Hsum. wrap_lia.
  - rewrite Hsum. by apply tables_rt, tables_host.
  - done.
  - rewrite ztake_zdrop. apply Hq1.
  - rewrite Hsum. unfold all. rewrite zlen_cons. wrap_lia.
  - apply list.Forall_forall. intros t Ht. cbn [w_rt set_rt]. rewrite Hwk, decide_True by done.
    assert (is_Some (rt_parked (w_rt w1) !! t)) as [p Hp].
    { destruct Hq1 as (_ & _ & Hall). apply (proj1 (list.Forall_forall _ _) Hall). by eapply elem_of_ztake. }
    cbn. rewrite Hp. by do 2 eexists.
  - exists w3. split; [done|]. split; [by rewrite ztake_fmap|]. split; [done|].
    split; [by rewrite He3, <- He0, <- He1|]. split; [done|].
    intros t Ht. by rewrite Hp3, decide_True.
Qed.

End futexqueue.

(** ** Witness *)

#[export] Instance sim_pick_law : PickLaw (H := SimDebugger).
Proof. by intros h a n. Qed.

(** The guest stores 1 to the word. *)
Definition sim_stored : Host (Debugger := SimDebugger) :=
  (MemWritePtr (w_host sim_world) 0x1000 (le_encode 4 1)).1.

(** Three threads wait at 0x1000, two are woken: thread 9 sleeps on. *)
Lemma futex_queue_witness :
  exists ms w1 w2 w3, park_all 3 0x1000 25185 [7; 8; 9] sim_world = Some (ms, w1) /\
    run 3 (futex_wake 0x1000 2) (set_host sim_stored w1) = Returned 2 w2 /\
    resume_all 3 (ztake 2 ms) w2 = Some w3 /\
    queued (w_rt w3) 1 [9] /\ tbl Awaits w3 = {[0x1000 := Await 1 1]} /\
    rt_parked (w_rt w3) !! 7 = None /\ rt_parked (w_rt w3) !! 8 = None.
Proof.
  destruct (futex_queue 3 0x1000 25185 7 [8; 9] sim_world (le_encode 4 25185)) as (ms & w1 & E & H);
    [apply sim_ready|reflexivity|repeat constructor; set_solver|by vm_compute|cbn; lia|reflexivity|reflexivity|].
  destruct (H sim_stored (le_encode 4 1) 2) as (w2 & w3 & E2 & E3 & [Ht Hq] & _ & _ & Hp);
    [vm_compute; reflexivity|vm_compute; discriminate|].
  exists ms, w1, w2, w3. split; [exact E|]. split; [exact E2|]. split; [exact E3|]. split; [exact Hq|].
  split; [exact (tb_awaits _ _ _ _ _ _ Ht)|].
  split; apply Hp; [left|right; left].
Defined.
