(* ===== verification/FutexBits.v ===== *)
(** * Futexes: the bitset operations

    [FUTEX_WAIT_BITSET] waits on the queue of its address and on the queue of
    its mask at once; [FUTEX_WAKE_BITSET] goes over the masks in whatever order
    [range] takes and wakes the queues of those that meet its own. *)

From stdpp Require Import base list gmap numbers.
From S2P Require Import Prelude GoProg GoSpec LinuxABI GoRuntime Structs Host SimHost World.
From S2P Require Import WorldSpec Futex Syscall SimKernel FutexProps.
Local Open Scope Z_scope.
Local Open Scope go_scope.
Import Futex.

Section futexbits.
Context {D : Debugger}.

(** ** Waking *)

(** Mask [bit] meets [val3]. *)
Definition meets (val3 bit : Z) : Prop := Z.land bit val3 <> 0.
#[export] Instance meets_dec val3 bit : Decision (meets val3 bit).
Proof. unfold meets. apply _. Defined.

(** The goroutines [ts] have been handed a token over a channel in [on]; the
    others are as before. *)
Definition handed (r r' : runtime) (on : Z -> Prop) (ts : list Z) : Prop :=
  forall t,
    (t ∈ ts -> exists p ch, on ch /\ rt_parked r !! t = Some p /\
       rt_parked r' !! t =
         Some (Parked (pk_timer p) (pk_chans p) (Some (WkRecv (index_of ch (pk_chans p)) 0 true)))) /\
    (t ∉ ts -> rt_parked r' !! t = rt_parked r !! t).

Lemma woken_handed r r' (on : Z -> Prop) ch q k :
  on ch -> queued r ch q -> woken r r' ch 0 (ztake k q) -> handed r r' on (ztake k q).
Proof.
  intros Hon (_ & _ & Hp) Hw t. rewrite (Hw t). split; intros Ht.
  - rewrite decide_True by done.
    assert (is_Some (rt_parked r !! t)) as [p Ep].
    { rewrite list.Forall_forall in Hp. eapply Hp, elem_of_ztake, Ht. }
    exists p, ch. by rewrite Ep.
  - by rewrite decide_False.
Qed.

Lemma handed_app r r1 r2 on ts ts' :
  (forall t, t ∈ ts -> t ∉ ts') -> handed r r1 on ts -> handed r1 r2 on ts' -> handed r r2 on (ts ++ ts').
Proof.
  intros Hdis H1 H2 t. destruct (H1 t) as [A1 A2], (H2 t) as [B1 B2]. rewrite elem_of_app. split.
  - intros [Ht|Ht].
    + rewrite B2 by (by apply Hdis). by apply A1.
    + rewrite <- A2; [by apply B1|]. intros Hin. by apply (Hdis t).
  - intros Hn. rewrite B2, A2; tauto.
Qed.

(** One mask. *)
Lemma run_wake_bit n ch count q i r w :
  is_i32 count -> queued r ch q -> 0 <= i -> i + zlen q < 2147483648 -> (0 <= count -> i <= count) ->
  (length q <= n)%nat ->
  let k := if 0 <=? count then Z.min (count - i) (zlen q) else zlen q in
  exists r', run n (Iter (wake_bit_turn ch count) i Ret) (set_rt r w) = Returned (i + k) (set_rt r' w) /\
    woken r r' ch 0 (ztake k q) /\ queues_kept r r' (ztake k q).
Proof.
  intros Hc Hq Hi Hl Hci Hn k. rewrite run_iter.
  destruct (wake_loop n (wake_bit_turn ch count) ch 0 count w) with (q := q) (j := n) (i := i) (r := r)
    as (r' & E & _ & Hw & Hk); [|done..|].
  { intros j. unfold wake_bit_turn, wake_turn. by destruct (Z.eqb_spec j count) as [->|]. }
  by exists r'.
Qed.

Lemma ztake_all {A} (q q' : list A) k : 0 <= k -> ztake (zlen q + k) (q ++ q') = q ++ ztake k q'.
Proof.
  intros. unfold ztake, zlen. rewrite Z2Nat.inj_add, Nat2Z.id by lia. by rewrite take_app_add.
Qed.

Lemma ztake_first {A} (q q' : list A) k : k <= zlen q -> ztake k (q ++ q') = ztake k q.
Proof. intros. unfold ztake, zlen in *. apply take_app_le. lia. Qed.

Lemma elem_of_queues val3 (bq : Z -> list Z) bits t :
  t ∈ mjoin (bq <$> filter (meets val3) bits) -> exists b, b ∈ bits /\ t ∈ bq b.
Proof.
  intros (l & Htl & (b & -> & Hb)%list_elem_of_fmap)%list_elem_of_join.
  apply list_elem_of_filter in Hb as [_ Hb]. eauto.
Qed.

Lemma run_lookup_await n t key w :
  run n (lookup_await t key) w = Returned (nmap_get (get_table t (w_futex w)) key) w.
Proof. done. Qed.

(** All masks, in the order of [range].  [bq] is the queue of each. *)
Lemma run_wake_bits n val3 count (bq : Z -> list Z) (on : Z -> Prop) w :
  is_i32 count ->
  (forall b b', b <> b' -> forall t, t ∈ bq b -> t ∉ bq b') ->
  forall bits i r,
  NoDup bits ->
  (forall b, b ∈ bits -> exists a, nmap_get (fx_bitAwaits (w_futex w)) b = Some a /\
     queued r (aw_ch a) (bq b) /\ (meets val3 b -> on (aw_ch a))) ->
  let q := mjoin (bq <$> filter (meets val3) bits) in
  0 <= i -> i + zlen q < 2147483648 -> (0 <= count -> i <= count) -> (length q <= n)%nat ->
  let k := if 0 <=? count then Z.min (count - i) (zlen q) else zlen q in
  exists r', run n (wake_bits bits val3 count i) (set_rt r w) = Returned (i + k) (set_rt r' w) /\
    handed r r' on (ztake k q).
Proof.
  intros Hcnt Hdis. induction bits as [|b bits IH]; intros i r Hnd Hbits q Hi Hl Hci Hn k.
  { assert (k = 0) as -> by (unfold k, q, zlen; cbn; destruct (Z.leb_spec 0 count); lia).
    exists r. rewrite Z.add_0_r. split; [done|]. intros t. split; [|done]. intros Ht. by apply not_elem_of_nil in Ht. }
  apply list.NoDup_cons in Hnd as [Hnin Hnd]. cbn [wake_bits].
  assert (forall b', b' ∈ bits -> _) as Hrest by (intros b' Hb'; apply (Hbits b'); by right).
  destruct (Z.eqb_spec (Z.land b val3) 0) as [Hm|Hm].
  { subst q k. rewrite filter_cons_False in * by (unfold meets; lia). by apply IH. }
  destruct (Hbits b) as (a & Ea & Hq & Hon); [by left|].
  rewrite run_bind, run_lookup_await. cbn [then_run get_table w_futex set_rt]. rewrite Ea, run_bind.
  subst q k. rewrite filter_cons_True in * by done. cbn [fmap list_fmap mjoin list_join] in *.
  set (q' := mjoin (bq <$> filter (meets val3) bits)) in *.
  rewrite zlen_app, length_app in *. pose proof (zlen_nonneg (bq b)). pose proof (zlen_nonneg q').
  destruct (run_wake_bit n (aw_ch a) count (bq b) i r w) as (r1 & -> & Hw & Hk); [done|done|lia|lia|done|lia|].
  cbn [then_run].
  set (k1 := if 0 <=? count then Z.min (count - i) (zlen (bq b)) else zlen (bq b)) in *.
  assert (0 <= k1) by (unfold k1; destruct (Z.leb_spec 0 count) as [Hc|]; [specialize (Hci Hc)|]; lia).
  destruct (Z.eqb_spec (i + k1) count) as [Hend|Hgo].
  - rewrite run_ret. exists r1. rewrite (proj2 (Z.leb_le 0 count)) by lia.
    assert (k1 <= zlen (bq b)) by (unfold k1; destruct (0 <=? count); lia).
    replace (Z.min (count - i) (zlen (bq b) + zlen q')) with k1 by lia. split; [done|].
    rewrite ztake_first by done. by eapply woken_handed; [apply Hon| |].
  - assert (k1 = zlen (bq b)) as Hk1.
    { unfold k1 in *. destruct (Z.leb_spec 0 count) as [Hc|]; [specialize (Hci Hc)|]; lia. }
    destruct (IH (i + k1) r1) as (r2 & E & Hh); [done| |lia|fold q'; lia| |fold q'; lia|].
    + intros b' Hb'. destruct (Hrest b' Hb') as (a' & Ea' & Hq' & Hon'). exists a'. split; [done|].
      split; [|done]. apply Hk; [done|]. intros t Ht%elem_of_ztake. by apply (Hdis b b'); [naive_solver|].
    + intros Hc. specialize (Hci Hc). unfold k1 in *. rewrite (proj2 (Z.leb_le 0 count)) in * by done. lia.
    + fold q' in E, Hh.
      set (k2 := if 0 <=? count then Z.min (count - (i + k1)) (zlen q') else zlen q') in *.
      set (k := if 0 <=? count then _ else _).
      assert (k = zlen (bq b) + k2 /\ 0 <= k2) as [-> Hk2].
      { unfold k, k2, k1 in *. destruct (Z.leb_spec 0 count) as [Hc|]; [specialize (Hci Hc)|]; lia. }
      exists r2. split; [rewrite E; f_equal; lia|]. rewrite ztake_all by done.
      assert (ztake k1 (bq b) = bq b) as Hall.
      { rewrite Hk1. unfold ztake, zlen. rewrite Nat2Z.id. by apply take_ge. }
      rewrite Hall in *. apply handed_app with r1; [|rewrite <- Hall; eapply woken_handed; [by apply Hon|done|by rewrite Hall]|done].
      intros t Ht Hin%elem_of_ztake%elem_of_queues. destruct Hin as (b' & Hb' & Htb').
      apply (Hdis b b') with t; [naive_solver|done|done].
Qed.

(** A read-locked section, closed by a defer. *)
Lemma run_rlocked {A} n l (p : prog World A) w a w1 :
  get_rw l w = rw_free -> run n p (set_rw l (RW false 1) w) = Returned a w1 ->
  get_rw l w1 = RW false 1 ->
  run n (RLock l ;;; with_defer (RUnlock l) p) w = Returned a (set_rw l rw_free w1).
Proof.
  intros Hl Hp Hl1. unfold RLock, acquire. cbn [bind]. rewrite run_act, Hl. cbn [rw_rlock rw_writer rw_free].
  change (run n (with_defer (RUnlock l) p) (set_rw l (RW false 1) w) = Returned a (set_rw l rw_free w1)).
  rewrite run_defer, Hp. cbn [deferred]. unfold RUnlock, release. cbn [bind].
  rewrite run_act, Hl1. done.
Qed.

(** C24: FUTEX_WAKE_BITSET returns how many waiters it woke and leaves every
    lock as it was: it goes over the masks in whatever order range takes, and
    of those that meet val3, whatever address they wait on, it wakes the
    queues one after the other and each in the order of arrival, up to val
    waiters or all of them when val is negative as an int32; nobody else is
    touched. *)
Theorem futex_wake_bitset_wakes `{!RangeLaw} n val val3 w c (bq : Z -> list Z) :
  ready w -> represents c w ->
  (forall b a, tbl BitAwaits w !! b = Some a -> queued (w_rt w) (aw_ch a) (bq b)) ->
  (forall b b', b <> b' -> forall t, t ∈ bq b -> t ∉ bq b') ->
  exists order, order ≡ₚ (map_to_list (tbl BitAwaits w)).*1 /\
  let q := mjoin (bq <$> filter (meets val3) order) in
  zlen q < 2147483648 -> (length q <= n)%nat ->
  let k := wake_many (int32 val) (zlen q) in
  exists h r', run n (futex_wake_bitset val val3) w = Returned k (set_rt r' (set_host h w)) /\
    handed (w_rt w) r' (fun ch => exists b, meets val3 b /\ chan_of BitAwaits w b ch) (ztake k q).
Proof.
  intros Hw Hc Hq Hdis. pose proof (ready_made w Hw) as [_ [m Em]]. pose proof (proj1 Hw LkFutex) as Hl.
  assert (tbl BitAwaits w = m) as Et by (unfold tbl; cbn; by rewrite Em).
  set (o := range_order (w_host w) (table_keys (fx_bitAwaits (w_futex w)))).
  assert (o.2 ≡ₚ (map_to_list (tbl BitAwaits w)).*1) as Hperm.
  { unfold o. rewrite Em, Et. apply range_order_perm. }
  exists o.2. split; [done|]. intros q Hlen Hn k.
  set (w1 := set_host o.1 (set_rw LkFutex (RW false 1) w)).
  destruct (run_wake_bits n val3 (int32 val) bq
    (fun ch => exists b, meets val3 b /\ chan_of BitAwaits w b ch) w1 (int32_range _) Hdis o.2 0 (w_rt w))
    as (r' & E & Hh); [rewrite Hperm; apply NoDup_fst_map_to_list| |lia|fold q; lia|done|done|].
  { intros b Hb. rewrite Hperm in Hb. apply list_elem_of_fmap in Hb as ([b' a] & -> & Hin).
    apply elem_of_map_to_list in Hin. exists a. cbn. rewrite Em. cbn. rewrite <- Et. split; [done|].
    split; [by apply Hq|]. intros Hm. exists b'. split; [done|]. by exists a. }
  fold q in E, Hh. rewrite Z.sub_0_r in *. fold (wake_many (int32 val) (zlen q)) in *. fold k in E, Hh.
  exists o.1, r'. split; [|done]. unfold futex_wake_bitset.
  erewrite (run_rlocked n LkFutex _ w k (set_rt r' w1)); [|done| |by unfold w1; destruct w as [? ? ? []]].
  - f_equal. unfold w1. destruct w as [? ? ? [rw aw bw] ? ? ?]. cbn in *. by rewrite Hl.
  - unfold range_table. cbn [bind]. rewrite run_act. cbv zeta.
    change (range_order _ _) with o. fold w1.
    replace w1 with (set_rt (w_rt w) w1) at 1 by (by destruct w). done.
Qed.

(** ** Waiting *)

(** A bitset waiter parked in the [select] of its loop: the rest of
    [futex_wait_bitset]. *)
Definition bit_suspended (tid uaddr val val3 : Z) (tm : option Z) (ch1 ch2 : Z) : prog World Z :=
  with_defer (delBitAwait uaddr val3)
    (bind (bind (select_wait tid) (wait_bitset_case uaddr val))
       (unroll (wait_bitset_turn tid uaddr val tm ch1 ch2) Ret)).

Lemma park_two tid tm ch1 ch2 r q1 q2 :
  ch1 <> ch2 -> rt_chans r !! ch1 = Some (Chan false q1) -> rt_chans r !! ch2 = Some (Chan false q2) ->
  rt_chans (park tid tm [ch1; ch2] r) !! ch1 = Some (Chan false (q1 ++ [tid])) /\
  rt_chans (park tid tm [ch1; ch2] r) !! ch2 = Some (Chan false (q2 ++ [tid])) /\
  rt_parked (park tid tm [ch1; ch2] r) !! tid = Some (Parked tm [ch1; ch2] None).
Proof.
  intros Hne H1 H2. unfold park, enqueue. cbn [rt_chans rt_parked foldl].
  split_and!.
  - by rewrite lookup_alter_ne, lookup_alter_eq, H1 by done.
  - by rewrite lookup_alter_eq, lookup_alter_ne, H2 by done.
  - by rewrite lookup_insert_eq.
Qed.

Lemma run_wait_bit_loop n tid uaddr val val3 tm ch1 ch2 q1 q2 w :
  timer_fired tm (w_rt w) = false -> rt_chans (w_rt w) !! ch1 = Some (Chan false q1) -> rt_chans (w_rt w) !! ch2 = Some (Chan false q2) ->
  exists h, run n (with_defer (delBitAwait uaddr val3)
      (Iter (wait_bitset_turn tid uaddr val tm ch1 ch2) tt Ret)) w =
    Blocked (bit_suspended tid uaddr val val3 tm ch1 ch2)
      (set_rt (park tid tm [ch1; ch2] (w_rt w)) (set_host h w)).
Proof.
  intros Ht H1 H2. exists (select_pick (w_host w)).1. rewrite run_defer, run_iter, run_loop_eq.
  unfold wait_bitset_turn at 1, select. cbn [bind]. rewrite run_act. unfold select_enter, ready_cases.
  rewrite Ht. cbn [app closed_cases]. rewrite H1, H2. cbn [app]. unfold select_wait at 1. cbn [bind]. rewrite run_act.
  cbn [w_rt set_rt]. unfold select_leave at 1. unfold park at 1. cbn [rt_parked].
  rewrite lookup_insert_eq. done.
Qed.

(** Registration under the address and the mask, as a bitset waiter sees it. *)
Lemma addBitAwait_registers n uaddr val3 w c :
  ready w -> represents c w -> c Awaits uaddr < MaxInt64 -> c BitAwaits val3 < MaxInt64 ->
  exists w2 a b q1 q2, run n (addBitAwait uaddr val3) w = Returned (aw_ch a, aw_ch b) w2 /\
    w_err w2 = w_err w /\ rt_timers (w_rt w2) = rt_timers (w_rt w) /\
    tbl Awaits w2 !! uaddr = Some a /\ aw_ref a = c Awaits uaddr + 1 /\
    tbl BitAwaits w2 !! val3 = Some b /\ aw_ref b = c BitAwaits val3 + 1 /\ aw_ch a <> aw_ch b /\
    rt_chans (w_rt w2) !! aw_ch a = Some (Chan false q1) /\ rt_chans (w_rt w2) !! aw_ch b = Some (Chan false q2).
Proof.
  intros Hw Hc Hm1 Hm2. pose proof (run_addBitAwait n uaddr val3 w Hw) as Hrun.
  destruct (reg_add_entry Awaits uaddr w) as (a & Ea & Ech1).
  pose proof (reg_add_represents c w Awaits uaddr Hc Hm1) as Hc1.
  pose proof (reg_add_err Awaits uaddr w) as He1. pose proof (reg_add_timers Awaits uaddr w) as Ht1.
  destruct (reg_add Awaits uaddr w) as [w1 ch1] eqn:E1. cbn [fst snd] in *. subst ch1.
  destruct (reg_add_entry BitAwaits val3 w1) as (b & Eb & Ech2).
  pose proof (reg_add_represents _ w1 BitAwaits val3 Hc1 ltac:(by rewrite bump_other)) as Hc2.
  pose proof (reg_add_err BitAwaits val3 w1) as He2. pose proof (reg_add_timers BitAwaits val3 w1) as Ht2.
  assert (tbl Awaits (reg_add BitAwaits val3 w1).1 = tbl Awaits w1) as Hs
    by (unfold reg_add; by destruct (tbl BitAwaits w1 !! val3)).
  destruct (reg_add BitAwaits val3 w1) as [w2 ch2] eqn:E2. cbn [fst snd] in *. subst ch2.
  rewrite <- Hs in Ea.
  pose proof (rep_count _ _ Hc2 Awaits uaddr) as Hn1. rewrite Ea in Hn1.
  pose proof (rep_count _ _ Hc2 BitAwaits val3) as Hn2. rewrite Eb in Hn2.
  destruct (rep_chan _ _ Hc2 _ _ _ Ea) as [q1 Hq1]. destruct (rep_chan _ _ Hc2 _ _ _ Eb) as [q2 Hq2].
  exists w2, a, b, q1, q2. split_and!; [done|congruence|congruence|done| |done| | |done|done].
  - destruct Hn1 as [-> _]. rewrite bump_other by done. unfold bump. by rewrite decide_True.
  - destruct Hn2 as [-> _]. unfold bump. rewrite decide_True by done. rewrite decide_False; [done|]. by intros [? _].
  - intros E. by destruct (rep_own _ _ Hc2 _ _ _ _ _ _ Ea Eb E).
Qed.

(** FUTEX_WAIT_BITSET on a word that has the expected value registers the
    waiter under its address and under its mask, each count going up by one,
    starts a timer when there is a timeout, and parks the goroutine at the
    end of both queues, holding that timer, with every kernel lock free. *)
Theorem futex_wait_bitset_parks n tid uaddr val utime val3 w c bs :
  ready w -> represents c w -> c Awaits uaddr < MaxInt64 -> c BitAwaits val3 < MaxInt64 ->
  MemReadPtr (w_host w) uaddr 4 = inl bs -> le_decode bs = val -> timeout_readable utime w ->
  exists w' a b q1 q2 tm, run n (futex_wait_bitset tid uaddr val utime val3) w =
      Blocked (bit_suspended tid uaddr val val3 tm (aw_ch a) (aw_ch b)) w' /\
    aw_ch a <> aw_ch b /\ ready w' /\ w_err w' = w_err w /\ timer_for utime w tm (rt_timers (w_rt w')) /\
    tbl Awaits w' !! uaddr = Some a /\ aw_ref a = c Awaits uaddr + 1 /\
    tbl BitAwaits w' !! val3 = Some b /\ aw_ref b = c BitAwaits val3 + 1 /\
    rt_chans (w_rt w') !! aw_ch a = Some (Chan false (q1 ++ [tid])) /\
    rt_chans (w_rt w') !! aw_ch b = Some (Chan false (q2 ++ [tid])) /\
    rt_parked (w_rt w') !! tid = Some (Parked tm [aw_ch a; aw_ch b] None).
Proof.
  intros Hw Hc Hm1 Hm2 Hr Hv Hto.
  pose proof (keeps_futex_wait_bitset tid uaddr val utime val3 n w Hw) as HK.
  unfold futex_wait_bitset in HK |- *. rewrite (run_wait_prepare _ _ _ _ _ _ _ Hr Hv Hto) in HK |- *.
  pose proof (wait_timer_ready utime w Hw) as Hw0. pose proof (wait_timer_ok utime w) as Htm.
  pose proof (wait_timer_represents c utime w Hc) as Hc0. pose proof (wait_timer_err utime w) as He0.
  destruct (wait_timer utime w) as [tm w0]. cbn [fst snd] in *.
  destruct (addBitAwait_registers n uaddr val3 w0 c) as (w2 & a & b & q1 & q2 & Hrun & He & Ht & Ea & Ha & Eb & Hb & Hne & Hq1 & Hq2);
    [done..|].
  rewrite run_bind, Hrun in HK |- *. cbn [then_run] in HK |- *. rewrite <- Ht in Htm.
  destruct (run_wait_bit_loop n tid uaddr val val3 tm _ _ q1 q2 w2 (timer_for_unfired _ _ _ _ Htm) Hq1 Hq2) as [h E].
  rewrite E in HK |- *. destruct (park_two tid tm _ _ _ _ _ Hne Hq1 Hq2) as (Hp1 & Hp2 & Hp3).
  eexists _, a, b, q1, q2, tm. do 3 (split; [done|]). split; [by cbn; rewrite He|]. by split_and!.
Qed.

(** What is left of a bitset wait after a wakeup: one of its cases, then out of
    both tables, or round again. *)
Section resume.
Context (n : nat) (tid uaddr val val3 : Z) (tm : option Z) (ch1 ch2 : Z) (p : parked) (wk : wakeup) (w : World).
Context (Hp : rt_parked (w_rt w) !! tid = Some p) (Hk : pk_wake p = Some wk).

Let rest : prog World Z := bit_suspended tid uaddr val val3 tm ch1 ch2.
Let leave (w : World) : World := reg_del BitAwaits val3 (reg_del Awaits uaddr w).

Lemma run_bit_case_done x w1 : ready w1 ->
  run n (wait_bitset_case uaddr val wk) (unpark tid w) = Returned (inr x) w1 ->
  run n rest w = Returned x (leave w1).
Proof.
  intros Hw1 E. unfold rest, bit_suspended. rewrite run_defer, bind_assoc, (run_leave _ _ _ _ _ _ Hp Hk).
  rewrite run_bind, E. cbn [then_run unroll]. rewrite run_ret. cbn [deferred].
  by rewrite run_bind, run_delBitAwait.
Qed.

Lemma run_bit_case_again q1 q2 : ch1 <> ch2 ->
  run n (wait_bitset_case uaddr val wk) (unpark tid w) = Returned (inl tt) (unpark tid w) ->
  timer_fired tm (w_rt w) = false ->
  rt_chans (w_rt w) !! ch1 = Some (Chan false q1) -> rt_chans (w_rt w) !! ch2 = Some (Chan false q2) ->
  exists w3, run n rest w = Blocked rest w3 /\ w_futex w3 = w_futex w /\
    rt_chans (w_rt w3) !! ch1 = Some (Chan false (q1 ++ [tid])) /\
    rt_chans (w_rt w3) !! ch2 = Some (Chan false (q2 ++ [tid])) /\
    rt_parked (w_rt w3) !! tid = Some (Parked tm [ch1; ch2] None).
Proof.
  intros Hne E Ht H1 H2.
  assert (run n rest w = run n (with_defer (delBitAwait uaddr val3)
    (Iter (wait_bitset_turn tid uaddr val tm ch1 ch2) tt Ret)) (unpark tid w)) as ->.
  { unfold rest, bit_suspended. rewrite !run_defer, bind_assoc, (run_leave _ _ _ _ _ _ Hp Hk).
    rewrite run_bind, E. done. }
  destruct (run_wait_bit_loop n tid uaddr val val3 tm ch1 ch2 q1 q2 (unpark tid w)) as [h ->]; [done..|].
  destruct (park_two tid tm ch1 ch2 (w_rt (unpark tid w)) q1 q2) as (P1 & P2 & P3); [done..|].
  eexists. split; [done|]. by split_and!.
Qed.

End resume.

(** C25: FUTEX_WAIT_BITSET from the call to its return: on a word with the
    expected value it registers under its address and its mask, starts its
    timer and parks at the end of both queues; what is left of it, once the
    goroutine is woken in any later state, leaves both tables and returns 0
    when it was handed another value over its address, or woken over its mask
    with the word changed; -1 with EFAULT when the word cannot be read then,
    with ETIMEDOUT when its timer fired and with EPERM when the address's
    channel was closed; and when the word has not changed, the timer not
    fired and the channels are open it parks again at the end of both queues,
    still registered. *)
Theorem futex_wait_bitset_resumes n tid uaddr val utime val3 w c bs :
  ready w -> represents c w -> c Awaits uaddr < MaxInt64 -> c BitAwaits val3 < MaxInt64 ->
  MemReadPtr (w_host w) uaddr 4 = inl bs -> le_decode bs = val -> timeout_readable utime w ->
  exists rest w1 a b q1 q2 tm, run n (futex_wait_bitset tid uaddr val utime val3) w = Blocked rest w1 /\
    timer_for utime w tm (rt_timers (w_rt w1)) /\
    tbl Awaits w1 !! uaddr = Some a /\ aw_ref a = c Awaits uaddr + 1 /\
    tbl BitAwaits w1 !! val3 = Some b /\ aw_ref b = c BitAwaits val3 + 1 /\
    rt_chans (w_rt w1) !! aw_ch a = Some (Chan false (q1 ++ [tid])) /\
    rt_chans (w_rt w1) !! aw_ch b = Some (Chan false (q2 ++ [tid])) /\
    rt_parked (w_rt w1) !! tid = Some (Parked tm [aw_ch a; aw_ch b] None) /\
    forall n2 w2 p wk, ready w2 -> rt_parked (w_rt w2) !! tid = Some p -> pk_wake p = Some wk ->
      let leave w' := reg_del BitAwaits val3 (reg_del Awaits uaddr w') in
      let fails e : Prop :=
        run n2 rest w2 = Returned (-1) (leave (set_err (Errno_val e) (unpark tid w2))) in
      let returns : Prop := run n2 rest w2 = Returned 0 (leave (unpark tid w2)) in
      let sleeps_on : Prop := forall q1 q2, timer_fired tm (w_rt w2) = false ->
        rt_chans (w_rt w2) !! aw_ch a = Some (Chan false q1) ->
        rt_chans (w_rt w2) !! aw_ch b = Some (Chan false q2) ->
        exists w3, run n2 rest w2 = Blocked rest w3 /\ w_futex w3 = w_futex w2 /\
          rt_chans (w_rt w3) !! aw_ch a = Some (Chan false (q1 ++ [tid])) /\
          rt_chans (w_rt w3) !! aw_ch b = Some (Chan false (q2 ++ [tid])) /\
          rt_parked (w_rt w3) !! tid = Some (Parked tm [aw_ch a; aw_ch b] None) in
      match wk with
      | WkTimeout => fails ETIMEDOUT
      | WkRecv O _ false => fails EPERM
      | WkRecv O v true => if v =? val then sleeps_on else returns
      | WkRecv (S _) _ _ =>
          match MemReadPtr (w_host w2) uaddr 4 with
          | inr _ => fails EFAULT
          | inl bs => if le_decode bs =? val then sleeps_on else returns
          end
      end.
Proof.
  intros Hw Hc Hm1 Hm2 Hr Hv Hto.
  destruct (futex_wait_bitset_parks n tid uaddr val utime val3 w c bs)
    as (w1 & a & b & q1 & q2 & tm & E & Hne & _ & _ & Ht & Ea & Hn1 & Eb & Hn2 & Hq1 & Hq2 & Hp); [done..|].
  eexists _, w1, a, b, q1, q2, tm. split; [exact E|]. do 8 (split; [done|]).
  intros n2 w2 p wk Hw2 Hp2 Hk leave fails returns sleeps_on.
  assert (ready (unpark tid w2)) as Hu by (by apply untouched_rt).
  pose proof (run_bit_case_done n2 tid uaddr val val3 tm (aw_ch a) (aw_ch b) p wk w2 Hp2 Hk) as HD.
  pose proof (fun q1 q2 => run_bit_case_again n2 tid uaddr val val3 tm (aw_ch a) (aw_ch b) p wk w2 Hp2 Hk q1 q2 Hne) as HA.
  destruct wk as [|[|i] v [|]]; cbn [wait_bitset_case negb] in HD, HA; unfold fails, returns, sleeps_on.
  4, 5: unfold read_u32 in HD, HA; rewrite bind_assoc, run_hget in HD, HA;
    change (w_host (unpark tid w2)) with (w_host w2) in HD, HA;
    destruct (MemReadPtr (w_host w2) uaddr 4) as [bs2|e]; cbn [bind] in HD, HA;
    [destruct (le_decode bs2 =? val)|].
  2: destruct (v =? val).
  all: first [by apply HD; [try apply ready_set_err|]|by intros; apply HA].
Qed.

End futexbits.

(** ** Witnesses *)

(** Goroutines 7 and 8 wait at 0x1000, with the masks 1 and 4. *)
Definition sim_bits : World (D := SimDebugger) :=
  mkWorld (sim0 : Host)
    (Runtime 4 (<[1 := Chan false [7; 8]]> (<[2 := Chan false [7]]> {[3 := Chan false [8]]})) ∅
       (<[7 := Parked None [1; 2] None]> {[8 := Parked None [1; 3] None]}))
    (World.Fcntl rw_free (Some ∅))
    (World.Futex rw_free (Some {[0x1000 := Await 1 2]}) (Some (<[1 := Await 2 1]> {[4 := Await 3 1]})))
    (World.Signal 0 rw_free (Some ∅)) (Sched ∅ []) 0.

Definition sim_bits_counts : counts :=
  bump Awaits 0x1000 2 (bump BitAwaits 1 1 (bump BitAwaits 4 1 (fun _ _ => 0))).

Lemma sim_bits_ready : ready sim_bits.
Proof. split; [by intros []|]. by split_and!; eexists. Qed.

Lemma sim_bits_entries t key a : tbl t sim_bits !! key = Some a ->
  (t = Awaits /\ key = 0x1000 /\ a = Await 1 2) \/ (t = BitAwaits /\ key = 1 /\ a = Await 2 1) \/
  (t = BitAwaits /\ key = 4 /\ a = Await 3 1).
Proof.
  destruct t; cbn -[lookup insert singletonM]; intros Ha.
  - apply lookup_singleton_Some in Ha as [<- <-]. auto.
  - apply lookup_insert_Some in Ha as [[<- <-]|[_ Ha]]; [auto|].
    apply lookup_singleton_Some in Ha as [<- <-]. auto.
Qed.

Lemma sim_bits_represents : represents sim_bits_counts sim_bits.
Proof.
  split.
  - intros t key. destruct (tbl t sim_bits !! key) as [a|] eqn:Ea.
    + by apply sim_bits_entries in Ea as [(-> & -> & ->)|[(-> & -> & ->)|(-> & -> & ->)]].
    + unfold sim_bits_counts, bump. repeat case_decide; try done;
        by repeat match goal with H : _ /\ _ |- _ => destruct H as [-> ->] end.
  - intros t key a [(-> & -> & ->)|[(-> & -> & ->)|(-> & -> & ->)]]%sim_bits_entries; by eexists.
  - intros t key a t' key' a' [(-> & -> & ->)|[(-> & -> & ->)|(-> & -> & ->)]]%sim_bits_entries
      [(-> & -> & ->)|[(-> & -> & ->)|(-> & -> & ->)]]%sim_bits_entries; done.
  - intros i [x Hx]. cbn -[lookup insert singletonM] in Hx.
    apply lookup_insert_Some in Hx as [[<- _]|[_ Hx]]; [done|].
    apply lookup_insert_Some in Hx as [[<- _]|[_ Hx]]; [done|].
    by apply lookup_singleton_Some in Hx as [<- _].
Qed.

Definition sim_bit_queue (b : Z) : list Z := if b =? 1 then [7] else if b =? 4 then [8] else [].

Lemma futex_wake_bitset_wakes_witness :
  exists order, order ≡ₚ (map_to_list (tbl BitAwaits sim_bits)).*1 /\
  let q := mjoin (sim_bit_queue <$> filter (meets 6) order) in
  zlen q < 2147483648 -> (length q <= 2)%nat ->
  let k := wake_many 5 (zlen q) in
  exists h r', run 2 (futex_wake_bitset 5 6) sim_bits = Returned k (set_rt r' (set_host h sim_bits)) /\
    handed (w_rt sim_bits) r' (fun ch => exists b, meets 6 b /\ chan_of BitAwaits sim_bits b ch) (ztake k q).
Proof.
  refine (futex_wake_bitset_wakes 2 5 6 sim_bits sim_bits_counts sim_bit_queue sim_bits_ready
    sim_bits_represents _ _).
  - intros b a [(? & -> & ->)|[(_ & -> & ->)|(_ & -> & ->)]]%sim_bits_entries; [done|..];
      (split; [done|split; [apply NoDup_singleton|by repeat constructor]]).
  - intros b b' Hne t. unfold sim_bit_queue.
    destruct (Z.eqb_spec b 1), (Z.eqb_spec b' 1), (Z.eqb_spec b 4), (Z.eqb_spec b' 4); set_solver.
Defined.

Lemma futex_wait_bitset_parks_witness :
  exists w' a b q1 q2 tm, run 0 (futex_wait_bitset 9 0x1000 25185 0 4) sim_bits =
      Blocked (bit_suspended 9 0x1000 25185 4 tm (aw_ch a) (aw_ch b)) w' /\
    aw_ch a <> aw_ch b /\ ready w' /\ w_err w' = 0 /\ timer_for 0 sim_bits tm (rt_timers (w_rt w')) /\
    tbl Awaits w' !! 0x1000 = Some a /\ aw_ref a = 2 + 1 /\
    tbl BitAwaits w' !! 4 = Some b /\ aw_ref b = 1 + 1 /\
    rt_chans (w_rt w') !! aw_ch a = Some (Chan false (q1 ++ [9])) /\
    rt_chans (w_rt w') !! aw_ch b = Some (Chan false (q2 ++ [9])) /\
    rt_parked (w_rt w') !! 9 = Some (Parked tm [aw_ch a; aw_ch b] None).
Proof.
  exact (futex_wait_bitset_parks 0 9 0x1000 25185 0 4 sim_bits sim_bits_counts (le_encode 4 25185) sim_bits_ready
    sim_bits_represents ltac:(by vm_compute) ltac:(by vm_compute) eq_refl eq_refl ltac:(by intros ?)).
Defined.

(** Goroutine 9 has been handed a token over the channel of its mask, and the
    word is now 1. *)
Definition sim_bit_handed : World (D := SimDebugger) :=
  set_rt (Runtime 4 (<[1 := Chan false [7; 8; 9]]> (<[2 := Chan false [7]]> {[3 := Chan false [8]]})) ∅
    {[9 := Parked None [1; 3] (Some (WkRecv 1 0 true))]})
  (set_host ((MemWritePtr (sim0 : Host) 0x1000 (le_encode 4 1)).1) sim_bits).

Lemma futex_wait_bitset_resumes_witness :
  exists rest w1, run 0 (futex_wait_bitset 9 0x1000 25185 0 4) sim_bits = Blocked rest w1 /\
    run 0 rest sim_bit_handed =
      Returned 0 (reg_del BitAwaits 4 (reg_del Awaits 0x1000 (unpark 9 sim_bit_handed))).
Proof.
  destruct (futex_wait_bitset_resumes 0 9 0x1000 25185 0 4 sim_bits sim_bits_counts (le_encode 4 25185)
    sim_bits_ready sim_bits_represents ltac:(by vm_compute) ltac:(by vm_compute) eq_refl eq_refl ltac:(by intros ?))
    as (rest & w1 & a & b & q1 & q2 & tm & E & _ & _ & _ & _ & _ & _ & _ & _ & H).
  exists rest, w1. split; [exact E|].
  exact (H 0%nat sim_bit_handed _ (WkRecv 1 0 true) (untouched_rt _ _ (untouched_host _ _ sim_bits_ready)) eq_refl eq_refl).
Defined.
