(* ===== verification/Registry.v ===== *)
(** * Futex registrations under any schedule

    Every goroutine carries as ghost state its futex registrations with their
    channels, the tables as it knows them while it holds the futex lock for
    writing, and which task it is and what it sleeps on.  The invariant of a
    pool: an entry of a table counts the goroutines that are registered under
    its key; and, when the goroutines are different tasks ([strict]), the tables
    and the runtime agree: every entry has an open channel of its own, and a
    goroutine sleeps on channels it is registered for. *)

From stdpp Require Import base list gmap numbers.
From S2P Require Import Prelude GoProg GoSpec Ghost LinuxABI GoRuntime Queues Structs Host World GoIO.
From S2P Require Import WorldSpec Futex Sched Confined FutexProps.
Local Open Scope Z_scope.
Local Open Scope go_scope.
Import Futex.

#[export] Instance table_countable : Countable table.
Proof.
  apply (inj_countable' (fun t => match t with Awaits => true | BitAwaits => false end)
    (fun b : bool => if b then Awaits else BitAwaits)). by intros [].
Defined.

(** What an entry counts, and tables without an entry nobody waits on. *)
Definition refof (m : gmap Z await) (key : Z) : Z :=
  match m !! key with Some a => aw_ref a | None => 0 end.
Definition positive (m : gmap Z await) : Prop := forall key a, m !! key = Some a -> 0 < aw_ref a.

(** Who a goroutine is. *)
Record self := Self {
  me_tid : option Z;           (* its task, if it is one *)
  me_new : option Z;           (* a channel it has made and not stored yet *)
  me_on : option (list Z)      (* the channels of the select it is in *)
}.

Record ghost := Gh {
  gh_tab : option (table -> gmap Z await);   (* the tables, while it may write them *)
  gh_regs : gmap (table * Z) Z;              (* its registrations and their channels *)
  gh_me : self
}.

(** A goroutine outside every futex call. *)
Definition awake (tid : option Z) : self := Self tid None None.
Definition idle (tid : option Z) : ghost := Gh None ∅ (awake tid).

Definition is_reg (t : table) (key : Z) (R : gmap (table * Z) Z) : Z :=
  if decide (is_Some (R !! (t, key))) then 1 else 0.

Definition registered (t : table) (key : Z) (gs : list ghost) : nat :=
  length (filter (fun g => is_Some (gh_regs g !! (t, key))) gs).

Definition writers (gs : list ghost) : list ghost := filter (fun g => is_Some (gh_tab g)) gs.

Definition tids (gs : list ghost) : list Z := omap (fun g => me_tid (gh_me g)) gs.

Section registry.
Context {D : Debugger} (strict : Prop).

Definition writing (w : World) : bool := rw_writer (fx_rw (w_futex w)).

Definition knows (g : ghost) (w : World) : Prop :=
  match gh_tab g with
  | Some T => writing w = true /\ forall t, tbl t w = T t
  | None => True
  end.

(** ** Tables and channels *)

(** Only the entry under [key] has the channel. *)
Definition sole (t : table) (key ch : Z) (w : World) : Prop :=
  forall t' k a, tbl t' w !! k = Some a -> aw_ch a = ch -> t' = t /\ k = key.

(** Every entry has an open channel of its own. *)
Record wired (w : World) : Prop := {
  wi_queues : queues_ok (w_rt w);
  wi_open t key a : tbl t w !! key = Some a -> open_chan (w_rt w) (aw_ch a);
  wi_sole t key a : tbl t w !! key = Some a -> sole t key (aw_ch a) w
}.

(** What it sleeps on is what it is registered for, its address included. *)
Definition anchored (g : ghost) : Prop :=
  forall chs, me_on (gh_me g) = Some chs ->
    (exists addr ch, gh_regs g !! (Awaits, addr) = Some ch /\ ch ∈ chs) /\
    forall ch, ch ∈ chs -> exists k, gh_regs g !! k = Some ch.

(** The goroutine's own part of the tables and of the runtime. *)
Record tied (g : ghost) (w : World) : Prop := {
  ti_regs t key ch : gh_regs g !! (t, key) = Some ch -> exists ref, tbl t w !! key = Some (Await ch ref);
  ti_new ch : me_new (gh_me g) = Some ch -> open_chan (w_rt w) ch;
  ti_on tid : me_tid (gh_me g) = Some tid -> selecting (w_rt w) tid = me_on (gh_me g);
  ti_anchor : anchored g
}.

(** What others can rely on. *)
Record harmless (g g' : ghost) (w w' : World) : Prop := {
  ha_tid : me_tid (gh_me g') = me_tid (gh_me g);
  ha_chan t key a a' : tbl t w !! key = Some a -> tbl t w' !! key = Some a' -> aw_ch a' = aw_ch a;
  ha_open ch : open_chan (w_rt w) ch -> open_chan (w_rt w') ch;
  ha_on tid : me_tid (gh_me g) <> Some tid -> selecting (w_rt w') tid = selecting (w_rt w) tid
}.

(** ** One goroutine *)

(** What a goroutine may rely on. *)
Record view (g : ghost) (w : World) : Prop := {
  vw_made : made w;
  vw_knows : knows g w;
  vw_positive : writing w = false -> forall t, positive (tbl t w);
  vw_bound t key : is_reg t key (gh_regs g) <= refof (tbl t w) key < MaxInt64 + is_reg t key (gh_regs g);
  vw_tied : strict -> wired w /\ tied g w
}.

(** What an action may do. *)
Record moves (g g' : ghost) (w w' : World) : Prop := {
  mv_made : made w';
  mv_count t key :
    refof (tbl t w') key - refof (tbl t w) key = is_reg t key (gh_regs g') - is_reg t key (gh_regs g);
  mv_tab :
    match gh_tab g, gh_tab g' with
    | None, None => writing w' = writing w /\ forall t, tbl t w' = tbl t w
    | None, Some T => writing w = false /\ writing w' = true /\ forall t, tbl t w' = T t
    | Some _, Some T => writing w' = true /\ forall t, tbl t w' = T t
    | Some _, None => writing w' = false /\ forall t, positive (tbl t w')
    end;
  mv_tied : strict -> wired w' /\ tied g' w' /\ harmless g g' w w'
}.

(** The task sleeps, and the action waits for it to be woken. *)
Definition sleeps (tid : Z) (w : World) : Prop :=
  exists p, rt_parked (w_rt w) !! tid = Some p /\ pk_wake p = None.
Definition awaits_wake {X} (tid : Z) (f : World -> option (World * X)) : Prop :=
  forall w, is_Some (f w) <-> is_Some (select_leave tid (w_rt w)).

(** What an action that cannot go on waits for: a lock, the end of a task, a
    transfer of a file, or to be woken. *)
Definition stalled X (f : World -> option (World * X)) (w : World) : Prop :=
  (exists l, get_rw l w <> rw_free) \/
  (exists task, awaits_task task f /\ f w = None) \/
  (exists file, awaits_file file f /\ f w = None) \/
  (exists tid, awaits_wake tid f /\ sleeps tid w).

Definition reg_act {X} (g : ghost) (f : World -> option (World * X)) (R : X -> ghost -> Prop) : Prop :=
  forall w, view g w ->
    match f w with
    | Some (w', x) => exists g', R x g' /\ moves g g' w w'
    | None => strict -> stalled X f w
    end.

(** ** All of them *)

(** The goroutines are different tasks, and nobody else sleeps. *)
Record sleepers (gs : list ghost) (w : World) : Prop := {
  sl_wired : wired w;
  sl_tids : NoDup (tids gs);
  sl_tied : Forall (fun g => tied g w) gs;
  sl_known tid : is_Some (selecting (w_rt w) tid) -> tid ∈ tids gs
}.

Record reg_inv (gs : list ghost) (w : World) : Prop := {
  ri_made : made w;
  ri_size : Z.of_nat (length gs) <= MaxInt64;
  ri_count t key : refof (tbl t w) key = Z.of_nat (registered t key gs);
  ri_positive : writing w = false -> forall t, positive (tbl t w);
  ri_writers : (writers gs = [] /\ writing w = false) \/
               (exists g, writers gs = [g] /\ knows g w);
  ri_sleepers : strict -> sleepers gs w
}.

Lemma registered_cons t key g gs :
  Z.of_nat (registered t key (g :: gs)) = is_reg t key (gh_regs g) + Z.of_nat (registered t key gs).
Proof.
  unfold registered, is_reg. rewrite filter_cons. case_decide; cbn [length]; lia.
Qed.

Lemma registered_le t key gs : (registered t key gs <= length gs)%nat.
Proof. apply length_filter. Qed.

Lemma registered_in t key g gs : g ∈ gs -> is_Some (gh_regs g !! (t, key)) -> (0 < registered t key gs)%nat.
Proof.
  intros Hin Hs. unfold registered.
  assert (g ∈ filter (fun g => is_Some (gh_regs g !! (t, key))) gs) as H by (by apply list_elem_of_filter).
  destruct (filter _ gs); [by apply not_elem_of_nil in H|cbn; lia].
Qed.

Lemma inv_view g others w : reg_inv (g :: others) w -> view g w.
Proof.
  intros [Hm Hs Hc Hp Hw Hsl]. split; [done| |done| |].
  - unfold knows. destruct (gh_tab g) as [T|] eqn:Et; [|done].
    unfold writers in Hw. rewrite filter_cons_True in Hw by (by rewrite Et).
    destruct Hw as [[? _]|(g1 & Hg1 & Hk)]; [done|]. injection Hg1 as <- _.
    unfold knows in Hk. by rewrite Et in Hk.
  - intros t key. rewrite Hc, registered_cons. pose proof (registered_le t key others).
    cbn [length] in Hs. lia.
  - intros Hst. destruct (Hsl Hst) as [H1 _ H3 _]. by apply list.Forall_cons in H3 as [? _].
Qed.

Lemma writers_moves g g' others w w' :
  (writers (g :: others) = [] /\ writing w = false) \/ (exists g1, writers (g :: others) = [g1] /\ knows g1 w) ->
  moves g g' w w' ->
  (writers (g' :: others) = [] /\ writing w' = false) \/ (exists g1, writers (g' :: others) = [g1] /\ knows g1 w').
Proof.
  intros Hw [_ _ Ht _]. unfold writers in *. rewrite filter_cons in Hw. rewrite filter_cons.
  destruct (gh_tab g) as [T|] eqn:Eg; destruct (gh_tab g') as [T'|] eqn:Eg';
    rewrite ?(decide_True (P := is_Some (Some _))), ?(decide_False (P := is_Some None)) in * by
      (eauto || by intros []).
  - right. exists g'. destruct Hw as [[? _]|(g1 & E & _)]; [done|]. injection E as -> ->.
    split; [done|]. unfold knows. by rewrite Eg'.
  - left. destruct Hw as [[? _]|(g1 & E & _)]; [done|]. injection E as -> ->. by split; [|apply Ht].
  - right. exists g'. destruct Ht as (Hf & Ht). destruct Hw as [[-> _]|(g1 & E & Hk)].
    + split; [done|]. unfold knows. by rewrite Eg'.
    + exfalso. assert (is_Some (gh_tab g1)) as [T1 E1].
      { assert (g1 ∈ filter (fun g => is_Some (gh_tab g)) others) as Hin by (rewrite E; by left).
        by apply list_elem_of_filter in Hin as [? _]. }
      unfold knows in Hk. rewrite E1 in Hk. destruct Hk. congruence.
  - destruct Ht as [Ew Et]. destruct Hw as [[-> ?]|(g1 & E & Hk)]; [left; split; congruence|].
    right. exists g1. split; [done|]. unfold knows in *. destruct (gh_tab g1); [|done].
    destruct Hk as [H1 H2]. split; [congruence|]. intros t. by rewrite Et.
Qed.

(** Another goroutine's part stays as it was. *)
Lemma tied_other g g' g2 others w w' :
  reg_inv (g :: others) w -> moves g g' w w' -> strict -> g2 ∈ others -> tied g2 w -> tied g2 w'.
Proof.
  intros [_ _ Hc _ _ Hsl] [_ Hd _ Hmv] Hst Hin [T1 T2 T3 T4]. destruct (Hmv Hst) as (_ & _ & [_ Hch Ho Hon]).
  split; [| |intros tid E|done].
  - intros t key ch Hr. destruct (T1 t key ch Hr) as [ref Ha].
    assert (0 < refof (tbl t w') key) as Hpos.
    { specialize (Hd t key). specialize (Hc t key). rewrite registered_cons in Hc.
      pose proof (registered_in t key g2 others Hin (mk_is_Some _ _ Hr)).
      unfold is_reg in *. repeat case_decide; lia. }
    unfold refof in Hpos. destruct (tbl t w' !! key) as [[ch' ref']|] eqn:E; [|lia].
    pose proof (Hch t key _ _ Ha E) as Ech. cbn in Ech. subst ch'. by exists ref'.
  - intros ch E. by apply Ho, T2.
  - rewrite Hon; [by apply T3|]. intros E1. destruct (Hsl Hst) as [_ Hnd _ _]. unfold tids in Hnd. cbn in Hnd.
    rewrite E1 in Hnd. apply list.NoDup_cons in Hnd as [Hn _]. apply Hn.
    apply list_elem_of_omap. by exists g2.
Qed.

Lemma sleepers_moves g g' others w w' :
  reg_inv (g :: others) w -> moves g g' w w' -> strict -> sleepers (g' :: others) w'.
Proof.
  intros Hi Hmv Hst. pose proof (ri_sleepers _ _ Hi Hst) as [S1 S2 S3 S4].
  destruct (mv_tied _ _ _ _ Hmv Hst) as (M1 & M2 & [Htid _ _ Hon]).
  assert (tids (g' :: others) = tids (g :: others)) as E by (unfold tids; cbn; by rewrite Htid).
  apply list.Forall_cons in S3 as [_ S3]. split; [done|by rewrite E| |].
  - apply list.Forall_cons. split; [done|]. apply list.Forall_forall. intros g2 Hin.
    eapply tied_other; [done|done|done|done|]. exact (proj1 (list.Forall_forall _ _) S3 g2 Hin).
  - intros tid Hs. rewrite E. destruct (decide (me_tid (gh_me g) = Some tid)) as [Et|Hne].
    + unfold tids. cbn. rewrite Et. by left.
    + apply S4. by rewrite <- Hon.
Qed.

Lemma inv_moves g g' others w w' : reg_inv (g :: others) w -> moves g g' w w' -> reg_inv (g' :: others) w'.
Proof.
  intros Hi Hmv. pose proof Hi as [Hm Hs Hc Hp Hw _]. pose proof Hmv as [Hm' Hd Ht _].
  split; [done|done| | |by eapply writers_moves|by eapply sleepers_moves].
  - intros t key. specialize (Hd t key). specialize (Hc t key). rewrite registered_cons in *. lia.
  - intros Hwr t. destruct (gh_tab g), (gh_tab g'); destruct Ht as [E Ht]; try congruence.
    + by apply Ht.
    + by destruct Ht as [? _]; congruence.
    + rewrite Ht. apply Hp. congruence.
Qed.

#[export] Instance reg_sound : Sound (@reg_act) reg_inv.
Proof.
  split.
  - assert (forall gs gs' w, gs ≡ₚ gs' -> reg_inv gs w -> reg_inv gs' w) as Himp.
    { intros gs gs' w HP [Hm Hs Hc Hp Hw Hsl]. split; [done|by rewrite <- HP| |done| |].
      - intros t key. rewrite Hc. unfold registered. by rewrite HP.
      - assert (writers gs ≡ₚ writers gs') as HW by (unfold writers; by rewrite HP).
        destruct Hw as [[E ?]|(g & E & ?)]; rewrite E in HW.
        + left. by apply Permutation_nil_l in HW as ->.
        + right. exists g. by apply Permutation_singleton_l in HW as ->.
      - intros Hst. destruct (Hsl Hst) as [S1 S2 S3 S4].
        assert (tids gs ≡ₚ tids gs') as HT by (unfold tids; by rewrite HP).
        split; [done|by rewrite <- HT|by rewrite <- HP|]. intros tid Hs'. rewrite <- HT. by apply S4. }
    intros gs gs' HP w _ <-. split; by apply Himp.
  - intros X g f R others w w' x Hf Hw E. specialize (Hf w (inv_view _ _ _ Hw)). rewrite E in Hf.
    destruct Hf as (g' & HR & Hmv). exists g'. split; [done|]. by eapply inv_moves.
Qed.

(** ** Rules *)

Definition reg {A} (m : prog World A) (g gp : ghost) (Q : A -> ghost -> Prop) : Prop :=
  guided (@reg_act) (fun _ => True) m g gp Q.

(** A program that leaves the registrations alone and does not sleep. *)
Definition inert {A} (m : prog World A) : Prop := forall g, reg m g g (fun _ g' => g' = g).

Definition leaves_tables (w w' : World) : Prop :=
  (writing w' = writing w /\ fx_awaits (w_futex w') = fx_awaits (w_futex w) /\
   fx_bitAwaits (w_futex w') = fx_bitAwaits (w_futex w)) /\ rt_calm (w_rt w) (w_rt w').

Lemma leaves_tbl w w' : leaves_tables w w' -> forall t, tbl t w' = tbl t w.
Proof. intros ((_ & E1 & E2) & _) []; unfold tbl, get_table; by rewrite ?E1, ?E2. Qed.

Lemma calm_wired w w' :
  (forall t key a, tbl t w' !! key = Some a -> tbl t w !! key = Some a) -> rt_calm (w_rt w) (w_rt w') ->
  wired w -> wired w'.
Proof.
  intros Ht (Hq & Ho & _) [W1 W2 W3]. split; [by apply Hq|eauto|].
  intros t key a Ha t' k a' Ha' E. eapply W3; eauto.
Qed.

Lemma calm_tied g g' w w' :
  (forall t, tbl t w' = tbl t w) -> rt_calm (w_rt w) (w_rt w') -> gh_regs g' = gh_regs g -> gh_me g' = gh_me g ->
  wired w /\ tied g w -> wired w' /\ tied g' w' /\ harmless g g' w w'.
Proof.
  intros Ht Hc ER EM [Hw [T1 T2 T3 T4]]. pose proof Hc as (Hq & Ho & Hs). split; [|split].
  - eapply calm_wired; [|done|done]. intros t key a. by rewrite Ht.
  - split; [|rewrite EM..|unfold anchored; by rewrite ER, EM]; eauto.
    + intros t key ch. rewrite ER, Ht. apply T1.
    + intros tid E. rewrite Hs. by apply T3.
  - split; [by rewrite EM| |done|intros; apply Hs]. intros t key a a'. rewrite Ht. congruence.
Qed.

Lemma moves_refl g w w' : leaves_tables w w' -> view g w -> moves g g w w'.
Proof.
  intros Hl [Hm Hk _ _ Hti]. pose proof (leaves_tbl _ _ Hl) as Ht. split.
  - destruct Hl as ((_ & E1 & E2) & _). unfold made. by rewrite E1, E2.
  - intros t key. rewrite Ht. lia.
  - unfold knows in Hk. destruct (gh_tab g) as [T|]; [|by split; [apply Hl|]].
    destruct Hk as [Hw HT], Hl as [[E _] _]. split; [congruence|]. intros t. by rewrite Ht.
  - intros Hst. apply calm_tied; [done|apply Hl|done|done|by apply Hti].
Qed.

Lemma reg_neutral {A X} (f : World -> option (World * X)) (k : X -> prog World A) g gp Q :
  (forall w w' x, f w = Some (w', x) -> leaves_tables w w') -> (forall w, f w = None -> stalled X f w) ->
  (forall x, reg (k x) g gp Q) -> reg (Act f k) g gp Q.
Proof.
  intros Hf Hb Hk. exists (fun _ g' => g' = g). split; [|by intros x g1 ->].
  intros w Hv. destruct (f w) as [[w' x]|] eqn:E; [|by intros _; apply Hb]. exists g. split; [done|].
  apply moves_refl; [by eapply Hf|done].
Qed.

Lemma reg_bind {A B} (m : prog World A) (k : A -> prog World B) g gp Q Q' :
  reg m g gp Q -> (forall a g', Q a g' -> reg (k a) g' gp Q') -> reg (bind m k) g gp Q'.
Proof. apply guided_bind. Qed.

Lemma reg_mono {A} (m : prog World A) g gp (Q Q' : A -> ghost -> Prop) :
  (forall a g', Q a g' -> Q' a g') -> reg m g gp Q -> reg m g gp Q'.
Proof. apply guided_mono. Qed.

Lemma reg_defer {A} (d : prog World unit) (m : prog World A) g g1 gp Q Q' :
  reg m g g1 Q -> reg d g1 gp (fun _ g' => g' = gp) ->
  (forall a g', Q a g' -> reg d g' gp (fun _ => Q' a)) -> reg (with_defer d m) g gp Q'.
Proof. apply guided_defer. Qed.

(** ** The lock *)

Lemma tbl_rw l m t (w : World) : tbl t (set_rw l m w) = tbl t w.
Proof. by destruct l, t. Qed.

Lemma made_set_rw l m (w : World) : made w -> made (set_rw l m w).
Proof. by destruct l. Qed.

Lemma rw_tied l m g g' w :
  gh_regs g' = gh_regs g -> gh_me g' = gh_me g -> wired w /\ tied g w ->
  wired (set_rw l m w) /\ tied g' (set_rw l m w) /\ harmless g g' w (set_rw l m w).
Proof. apply calm_tied; [intros t; apply tbl_rw|]. destruct l; apply calm_refl. Qed.

Lemma reg_Lock_futex {A} R0 me gp Q (k : unit -> prog World A) :
  (forall T, (forall t, positive (T t)) -> reg (k tt) (Gh (Some T) R0 me) gp Q) ->
  reg (bind (Lock LkFutex) k) (Gh None R0 me) gp Q.
Proof.
  intros Hk. exists (fun _ g' => exists T, (forall t, positive (T t)) /\ g' = Gh (Some T) R0 me).
  split; [|by intros [] g' (T & HT & ->); apply Hk].
  intros w Hv. destruct (rw_lock (get_rw LkFutex w)) as [m|] eqn:E.
  2: { intros _. left. exists LkFutex. intros El. by rewrite El in E. }
  assert (writing w = false /\ m = RW true 0) as [Hw ->].
  { unfold writing. cbn in E. destruct (fx_rw (w_futex w)) as [[] []]; cbn in E; try done. by injection E as <-. }
  exists (Gh (Some (fun t => tbl t w)) R0 me).
  split; [exists (fun t => tbl t w); split; [by apply (vw_positive _ _ Hv)|done]|].
  split; [by apply made_set_rw, Hv| |done|].
  - intros t key. rewrite tbl_rw. cbn. lia.
  - intros Hst. by apply rw_tied; [..|apply Hv].
Qed.

Lemma reg_Unlock_futex T R0 me gp (Q : unit -> ghost -> Prop) :
  (forall t, positive (T t)) -> Q tt (Gh None R0 me) -> reg (Unlock LkFutex) (Gh (Some T) R0 me) gp Q.
Proof.
  intros HT HQ. exists (fun ok g' => ok = true /\ g' = Gh None R0 me). split; [|by intros ok g' [-> ->]].
  intros w Hv. destruct (vw_knows _ _ Hv) as [Hw Ht]. cbn in Ht.
  assert (exists n, rw_unlock (get_rw LkFutex w) = Some (RW false n)) as [n ->].
  { unfold writing in Hw. cbn. destruct (fx_rw (w_futex w)) as [b n]. cbn in Hw. subst b. by exists n. }
  exists (Gh None R0 me). split; [done|]. split; [by apply made_set_rw, Hv| | |].
  - intros t key. rewrite tbl_rw. cbn. lia.
  - split; [done|]. intros t. rewrite tbl_rw, Ht. apply HT.
  - intros Hst. by apply rw_tied; [..|apply Hv].
Qed.

(** A critical section: from the tables as they are to tables with no idle
    entry; its body does not panic. *)
Lemma reg_section {A} (m : prog World A) (R0 Rp : gmap (table * Z) Z) (R1 : A -> gmap (table * Z) Z) me :
  (forall T gp, (forall t, positive (T t)) ->
     reg m (Gh (Some T) R0 me) gp
       (fun a g' => exists T', (forall t, positive (T' t)) /\ g' = Gh (Some T') (R1 a) me)) ->
  reg (Lock LkFutex ;;; with_defer (Unlock LkFutex) m) (Gh None R0 me) (Gh None Rp me)
    (fun a g' => g' = Gh None (R1 a) me).
Proof.
  intros Hm. apply reg_Lock_futex. intros T HT.
  eapply (reg_defer _ _ _ (Gh (Some (fun _ => ∅)) Rp me)); [by apply Hm|by apply reg_Unlock_futex|].
  intros a g' (T' & HT' & ->). by apply reg_Unlock_futex.
Qed.

(** ** Table entries *)

Definition upd_tab (t : table) (m : gmap Z await) (T : table -> gmap Z await) : table -> gmap Z await :=
  fun t' => if decide (t' = t) then m else T t'.

Lemma refof_insert m key a k : refof (<[key := a]> m) k = if decide (k = key) then aw_ref a else refof m k.
Proof.
  unfold refof. case_decide as E; [subst; by rewrite lookup_insert_eq|]. by rewrite lookup_insert_ne.
Qed.

Lemma refof_delete m key k : refof (delete key m) k = if decide (k = key) then 0 else refof m k.
Proof.
  unfold refof. case_decide as E; [subst; by rewrite lookup_delete_eq|]. by rewrite lookup_delete_ne.
Qed.

Lemma nmap_get_tbl t key (w : World) : nmap_get (get_table t (w_futex w)) key = tbl t w !! key.
Proof. unfold tbl. destruct (get_table t (w_futex w)); [done|]. symmetry. apply lookup_empty. Qed.

(** [P] is what the goroutine's view says of the tables. *)
Lemma reg_lookup t key T R0 me gp (P : Prop) (Q : option await -> ghost -> Prop) :
  (forall w, view (Gh (Some T) R0 me) w -> P) -> (P -> Q (T t !! key) (Gh (Some T) R0 me)) ->
  reg (lookup_await t key) (Gh (Some T) R0 me) gp Q.
Proof.
  intros HP HQ. exists (fun x g' => P /\ x = T t !! key /\ g' = Gh (Some T) R0 me).
  split; [|intros x g' (? & -> & ->); by apply HQ].
  intros w Hv. eexists. split; [|apply moves_refl; [split; [done|apply calm_refl]|done]].
  split; [by eapply HP|]. split; [|done]. destruct (vw_knows _ _ Hv) as [_ HT]. by rewrite nmap_get_tbl, HT.
Qed.

(** Replacing a table, by the goroutine that may. *)
Lemma made_table t m (w : World) : made w -> made (set_tbl t m w).
Proof. intros [H1 H2]. by destruct t; split. Qed.

Lemma moves_table t m R0 R1 me0 me1 T w :
  view (Gh (Some T) R0 me0) w ->
  (forall t' key, refof (upd_tab t m T t') key - refof (T t') key = is_reg t' key R1 - is_reg t' key R0) ->
  let g' := Gh (Some (upd_tab t m T)) R1 me1 in let w' := set_tbl t m w in
  (strict -> wired w' /\ tied g' w' /\ harmless (Gh (Some T) R0 me0) g' w w') ->
  moves (Gh (Some T) R0 me0) g' w w'.
Proof.
  intros Hv Hd g' w' Hl. destruct (vw_knows _ _ Hv) as [Hw HT]. cbn in HT.
  assert (forall t', tbl t' w' = upd_tab t m T t') as E.
  { intros t'. unfold w'. rewrite tbl_set. unfold upd_tab. case_decide; [done|apply HT]. }
  split; [by apply made_table, Hv| | |done].
  - intros t' key. rewrite E, HT. apply Hd.
  - split; [by destruct t|done].
Qed.

Lemma view_table t T R0 me (w : World) :
  view (Gh (Some T) R0 me) w -> exists m, get_table t (w_futex w) = Some m /\ T t = m.
Proof.
  intros [[[m1 E1] [m2 E2]] [_ HT] _ _ _]. cbn in HT. specialize (HT t). unfold tbl in HT.
  destruct t; cbn in *; rewrite ?E1, ?E2 in *; by eexists.
Qed.

(** An entry that is stored keeps its channel, or gets one that is open and new
    to the tables. *)
Definition fits (t : table) (key ch : Z) (w : World) : Prop :=
  open_chan (w_rt w) ch /\ sole t key ch w /\ forall a, tbl t w !! key = Some a -> aw_ch a = ch.

Lemma tbl_insert t key a (w : World) t' k :
  tbl t' (set_tbl t (<[key := a]> (tbl t w)) w) !! k =
    if decide (t' = t /\ k = key) then Some a else tbl t' w !! k.
Proof.
  rewrite tbl_set. destruct (decide (t' = t)) as [->|]; [|by rewrite decide_False by naive_solver].
  destruct (decide (k = key)) as [->|]; [by rewrite lookup_insert_eq, decide_True|].
  rewrite lookup_insert_ne by done. by rewrite decide_False by naive_solver.
Qed.

Lemma insert_wired t key ch ref w :
  wired w -> fits t key ch w -> wired (set_tbl t (<[key := Await ch ref]> (tbl t w)) w).
Proof.
  intros [W1 W2 W3] (Ho & Hs & _). split; [done| |].
  - intros t' k a. rewrite tbl_insert. case_decide; [by intros [= <-]|apply W2].
  - intros t' k a Ha t2 k2 a2. rewrite !tbl_insert in *. do 2 case_decide.
    + naive_solver.
    + intros H2 E. injection Ha as <-. destruct (Hs t2 k2 a2 H2 E). naive_solver.
    + intros [= <-] E. cbn in E. destruct (Hs t' k a Ha (eq_sym E)). naive_solver.
    + by apply W3.
Qed.

Lemma insert_tied t key ch ref tid new R0 R1 T T' w :
  fits t key ch w -> (forall k c, R1 !! k = Some c -> (k = (t, key) /\ c = ch) \/ R0 !! k = Some c) ->
  let g := Gh (Some T) R0 (Self tid new None) in let g' := Gh (Some T') R1 (awake tid) in
  let w' := set_tbl t (<[key := Await ch ref]> (tbl t w)) w in
  tied g w -> tied g' w' /\ harmless g g' w w'.
Proof.
  intros (_ & _ & Hk) HR g g' w' [T1 T2 T3 T4]. split; split; try done.
  - intros t' k c Hc. unfold w'. rewrite tbl_insert. case_decide as Ek.
    + destruct Ek as [-> ->]. exists ref. destruct (HR _ _ Hc) as [[_ ->]|H0]; [done|].
      destruct (T1 _ _ _ H0) as [r Hr]. by rewrite <- (Hk _ Hr).
    + destruct (HR _ _ Hc) as [[[= -> ->] _]|H0]; [naive_solver|by apply T1].
  - intros t' k a a'. unfold w'. rewrite tbl_insert. case_decide as Ek; [|congruence].
    destruct Ek as [-> ->]. intros Ha [= <-]. cbn. by rewrite (Hk _ Ha).
Qed.

Lemma reg_store t key ch ref T R0 R1 tid new gp (P : Prop) (Q : unit -> ghost -> Prop) :
  (forall w, view (Gh (Some T) R0 (Self tid new None)) w -> P /\ (strict -> fits t key ch w) /\
     forall t' k, refof (upd_tab t (<[key := Await ch ref]> (T t)) T t') k - refof (T t') k =
       is_reg t' k R1 - is_reg t' k R0) ->
  (forall k c, R1 !! k = Some c -> (k = (t, key) /\ c = ch) \/ R0 !! k = Some c) ->
  (P -> Q tt (Gh (Some (upd_tab t (<[key := Await ch ref]> (T t)) T)) R1 (awake tid))) ->
  reg (store_await t key (Await ch ref)) (Gh (Some T) R0 (Self tid new None)) gp Q.
Proof.
  intros Hd HR HQ.
  exists (fun ok g' => ok = true /\ P /\ g' = Gh (Some (upd_tab t (<[key := Await ch ref]> (T t)) T)) R1 (awake tid)).
  split; [|intros ok g' (-> & HP & ->); by apply HQ]. intros w Hv. destruct (Hd w Hv) as (HP & Hf & Hd').
  destruct (view_table t _ _ _ w Hv) as (m & E & <-). rewrite E. eexists. split; [done|].
  apply moves_table; [done|done|]. intros Hst. destruct (vw_tied _ _ Hv Hst) as [Hw Hti].
  assert (T t = tbl t w) as -> by (unfold tbl; by rewrite E).
  split; [apply insert_wired; auto|]. apply insert_tied with (R0 := R0) (new := new); auto.
Qed.

Lemma reg_delete t key T R0 tid gp (Q : unit -> ghost -> Prop) :
  refof (T t) key = 0 -> Q tt (Gh (Some (upd_tab t (delete key (T t)) T)) R0 (awake tid)) ->
  reg (delete_await t key) (Gh (Some T) R0 (awake tid)) gp Q.
Proof.
  intros Hz HQ. exists (fun _ g' => g' = Gh (Some (upd_tab t (delete key (T t)) T)) R0 (awake tid)).
  split; [|by intros [] g' ->]. intros w Hv.
  destruct (view_table t _ _ _ w Hv) as (m & E & <-). rewrite E. eexists. split; [done|]. apply moves_table; [done| |].
  - intros t' k. unfold upd_tab. case_decide as Et; [subst t'|lia]. rewrite refof_delete. case_decide; [subst; lia|lia].
  - intros Hst. destruct (vw_tied _ _ Hv Hst) as [Hw [T1 T2 T3 T4]].
    assert (T t = tbl t w) as Et by (unfold tbl; by rewrite E). rewrite Et in *.
    assert (forall t' k a, tbl t' (set_tbl t (delete key (tbl t w)) w) !! k = Some a <->
      tbl t' w !! k = Some a /\ (t', k) <> (t, key)) as Hdel.
    { intros t' k a. rewrite tbl_set. case_decide; [subst t'|naive_solver]. rewrite lookup_delete_Some. naive_solver. }
    split; [apply (calm_wired w); [|apply calm_refl|done]; intros t' k a; by rewrite Hdel; intros []|].
    split; split; try done.
    + intros t' k c Hc. destruct (T1 t' k c Hc) as [r Hr]. exists r. rewrite Hdel. split; [done|].
      intros [= -> ->]. pose proof (vw_bound _ _ Hv t key) as Hb. unfold is_reg in Hb.
      rewrite decide_True in Hb by (by eexists). lia.
    + intros t' k a a' Ha. rewrite Hdel. naive_solver.
Qed.

(** Making a channel no entry has. *)
Lemma reg_make T R0 tid gp (Q : Z -> ghost -> Prop) :
  (forall ch, (strict -> forall t k a, T t !! k = Some a -> aw_ch a <> ch) ->
     Q ch (Gh (Some T) R0 (Self tid (Some ch) None))) ->
  reg (rtdo make_chan) (Gh (Some T) R0 (awake tid)) gp Q.
Proof.
  intros HQ. exists (fun ch g' => (strict -> forall t k a, T t !! k = Some a -> aw_ch a <> ch) /\
    g' = Gh (Some T) R0 (Self tid (Some ch) None)). split; [|intros ch g' [H ->]; by apply HQ].
  intros w Hv. destruct (vw_knows _ _ Hv) as [Hwr HT]. cbn in HT. eexists. split; [split; [|done]|split].
  - intros Hst t k a. rewrite <- HT. intros Ha. destruct (vw_tied _ _ Hv Hst) as [[W1 W2 _] _].
    cbn. by apply make_chan_keeps, W2 with (t := t) (key := k).
  - apply Hv.
  - intros t k. rewrite tbl_set_rt. cbn. lia.
  - split; [done|]. intros t. by rewrite tbl_set_rt.
  - intros Hst. destruct (vw_tied _ _ Hv Hst) as [[W1 W2 W3] [T1 T2 T3 T4]].
    pose proof (make_chan_queues _ W1) as Hq. split; [split|split; split]; try done.
    + intros t k a Ha. by apply make_chan_keeps, W2 with (t := t) (key := k).
    + intros ch [= <-]. apply make_chan_open.
    + intros t k a a'. rewrite tbl_set_rt. congruence.
    + intros ch Ho. by apply make_chan_keeps.
Qed.

(** ** Registration *)

Lemma is_reg_insert t key ch R0 t' k :
  R0 !! (t, key) = None ->
  is_reg t' k (<[(t, key) := ch]> R0) = is_reg t' k R0 + if decide (t' = t /\ k = key) then 1 else 0.
Proof.
  intros Hn. unfold is_reg. destruct (decide (t' = t /\ k = key)) as [[-> ->]|Hne].
  - rewrite lookup_insert_eq, Hn, decide_True, decide_False; [done|by intros []|by eexists].
  - rewrite lookup_insert_ne by naive_solver. lia.
Qed.

Lemma is_reg_delete t key R0 t' k :
  is_Some (R0 !! (t, key)) ->
  is_reg t' k (delete (t, key) R0) = is_reg t' k R0 - if decide (t' = t /\ k = key) then 1 else 0.
Proof.
  intros Hn. unfold is_reg. destruct (decide (t' = t /\ k = key)) as [[-> ->]|Hne].
  - rewrite lookup_delete_eq, decide_False, decide_True; [done|done|by intros []].
  - rewrite lookup_delete_ne by naive_solver. lia.
Qed.

Lemma positive_upd t m T : positive m -> (forall t, positive (T t)) -> forall t', positive (upd_tab t m T t').
Proof. intros Hm HT t'. unfold upd_tab. case_decide; [done|apply HT]. Qed.

Lemma positive_insert m key a : 0 < aw_ref a -> positive m -> positive (<[key := a]> m).
Proof. intros Ha Hm k b [[_ <-]|[_ ?]]%lookup_insert_Some; eauto. Qed.

(** How an insertion changes the counts. *)
Lemma refof_upd t key a T t' k :
  refof (upd_tab t (<[key := a]> (T t)) T t') k - refof (T t') k =
    if decide (t' = t /\ k = key) then aw_ref a - refof (T t) key else 0.
Proof.
  unfold upd_tab. destruct (decide (t' = t)) as [->|]; [|rewrite decide_False by naive_solver; lia].
  rewrite refof_insert. destruct (decide (k = key)) as [->|]; [by rewrite decide_True|].
  rewrite decide_False by naive_solver. lia.
Qed.

Lemma refof_some (m : gmap Z await) key a : m !! key = Some a -> refof m key = aw_ref a.
Proof. intros E. unfold refof. by rewrite E. Qed.

(** The entry's own channel fits. *)
Lemma fits_entry t key a T R0 me w :
  view (Gh (Some T) R0 me) w -> T t !! key = Some a -> strict -> fits t key (aw_ch a) w.
Proof.
  intros Hv Ha Hst. destruct (vw_knows _ _ Hv) as [_ HT]. cbn in HT. rewrite <- HT in Ha.
  destruct (vw_tied _ _ Hv Hst) as [[_ W2 W3] _]. split; [by eapply W2|]. split; [by apply W3|]. naive_solver.
Qed.

(** So does a channel that was just made. *)
Lemma fits_new t key ch T R0 tid w :
  view (Gh (Some T) R0 (Self tid (Some ch) None)) w -> T t !! key = None ->
  (strict -> forall t k a, T t !! k = Some a -> aw_ch a <> ch) -> strict -> fits t key ch w.
Proof.
  intros Hv Ha Hf Hst. destruct (vw_knows _ _ Hv) as [_ HT]. cbn in HT.
  destruct (vw_tied _ _ Hv Hst) as [_ [_ T2 _ _]]. split; [by apply T2|]. split.
  - intros t' k a E. rewrite HT in E. by intros ?%(Hf Hst t' k a E).
  - intros a. rewrite HT. congruence.
Qed.

Lemma reg_add_ref t key T R0 tid gp :
  R0 !! (t, key) = None -> (forall t, positive (T t)) ->
  reg (add_ref t key) (Gh (Some T) R0 (awake tid)) gp
    (fun ch g' => exists T', (forall t, positive (T' t)) /\ g' = Gh (Some T') (<[(t, key) := ch]> R0) (awake tid)).
Proof.
  intros Hn HT. unfold add_ref.
  eapply (reg_bind _ _ _ _ (fun x g' => x = T t !! key /\ g' = Gh (Some T) R0 (awake tid)));
    [by apply (reg_lookup _ _ _ _ _ _ True)|]. intros x g' [-> ->].
  assert (forall ch k c, <[(t, key) := ch]> R0 !! k = Some c -> (k = (t, key) /\ c = ch) \/ R0 !! k = Some c) as HR
    by (intros ch k c [[-> ->]|[_ ?]]%lookup_insert_Some; auto).
  destruct (T t !! key) as [a|] eqn:Ea; cbv iota.
  - assert (0 < aw_ref a) as Hpos by (by eapply HT).
    eapply (reg_bind _ _ _ _ (fun _ g' => exists T', (forall t, positive (T' t)) /\
      g' = Gh (Some T') (<[(t, key) := aw_ch a]> R0) (awake tid))); [|done].
    apply (reg_store _ _ _ _ _ _ (<[(t, key) := aw_ch a]> R0) _ _ _ (int64 (aw_ref a + 1) = aw_ref a + 1)); [|apply HR|].
    + intros w Hv. pose proof (vw_bound _ _ Hv t key) as Hb. destruct (vw_knows _ _ Hv) as [_ HTw]. cbn in HTw.
      rewrite HTw, (refof_some _ _ _ Ea) in Hb. unfold is_reg in Hb. cbn in Hb. rewrite Hn, decide_False in Hb by (by intros []).
      assert (int64 (aw_ref a + 1) = aw_ref a + 1) as E by (apply int64_id; wrap_lia).
      split; [done|]. split; [by eapply fits_entry|]. intros t' k. rewrite refof_upd, is_reg_insert by done.
      rewrite (refof_some _ _ _ Ea). cbn. case_decide; lia.
    + intros E. eexists. split; [|done]. apply positive_upd; [|done]. apply positive_insert; [cbn; lia|done].
  - eapply reg_bind; [apply (reg_make _ _ _ _ (fun ch g' =>
      (strict -> forall t k a, T t !! k = Some a -> aw_ch a <> ch) /\ g' = Gh (Some T) R0 (Self tid (Some ch) None)));
      by auto|].
    intros ch g' [Hf ->]. eapply (reg_bind _ _ _ _ (fun _ g' => exists T', (forall t, positive (T' t)) /\
      g' = Gh (Some T') (<[(t, key) := ch]> R0) (awake tid))); [|done].
    apply (reg_store _ _ _ _ _ _ (<[(t, key) := ch]> R0) _ _ _ True); [|apply HR|].
    + intros w Hv. split; [done|]. split; [by eapply fits_new|]. intros t' k.
      rewrite refof_upd, is_reg_insert by done. unfold refof. rewrite Ea. cbn. case_decide; lia.
    + intros _. eexists. split; [|done]. apply positive_upd; [|done]. by apply positive_insert.
Qed.

(** What is left after leaving. *)
Lemma reg_del_ref t key T R0 tid gp :
  is_Some (R0 !! (t, key)) -> (forall t, positive (T t)) ->
  reg (del_ref t key) (Gh (Some T) R0 (awake tid)) gp
    (fun _ g' => exists T', (forall t, positive (T' t)) /\ g' = Gh (Some T') (delete (t, key) R0) (awake tid)).
Proof.
  intros Hn HT. unfold del_ref.
  eapply (reg_bind _ _ _ _ (fun x g' => 1 <= refof (T t) key /\ x = T t !! key /\
    g' = Gh (Some T) R0 (awake tid))).
  { apply (reg_lookup _ _ _ _ _ _ (1 <= refof (T t) key)); [|done]. intros w Hv.
    pose proof (vw_bound _ _ Hv t key) as Hb. destruct (vw_knows _ _ Hv) as [_ HTw]. cbn in HTw. rewrite HTw in Hb.
    unfold is_reg in Hb. cbn in Hb. rewrite decide_True in Hb by done. lia. }
  intros x g' (Hge & -> & ->). destruct (T t !! key) as [a|] eqn:Ea; [|unfold refof in Hge; rewrite Ea in Hge; lia].
  pose proof (refof_some _ _ _ Ea) as Hr. cbv zeta. set (ref := int64 (aw_ref a - 1)).
  eapply (reg_bind _ _ _ _ (fun _ g' => ref = aw_ref a - 1 /\
    g' = Gh (Some (upd_tab t (<[key := Await (aw_ch a) ref]> (T t)) T)) (delete (t, key) R0) (awake tid))).
  - apply (reg_store _ _ _ _ _ _ (delete (t, key) R0) _ _ _ (ref = aw_ref a - 1)); [| |done].
    + intros w Hv. pose proof (vw_bound _ _ Hv t key) as Hb. destruct (vw_knows _ _ Hv) as [_ HTw]. cbn in HTw.
      rewrite HTw, Hr in Hb. unfold is_reg in Hb. cbn in Hb. rewrite decide_True in Hb by done.
      assert (ref = aw_ref a - 1) as E by (unfold ref; apply int64_id; wrap_lia).
      split; [done|]. split; [by eapply fits_entry|]. intros t' k. rewrite refof_upd, is_reg_delete by done.
      cbn. case_decide; lia.
    + intros k c [_ ?]%lookup_delete_Some. by right.
  - intros [] g' [E ->]. destruct (Z.leb_spec ref 0).
    + apply reg_delete.
      * unfold upd_tab. rewrite decide_True by done. rewrite refof_insert, decide_True by done. cbn. lia.
      * eexists. split; [|done]. intros t'. unfold upd_tab. destruct (decide (t' = t)) as [->|]; [|apply HT].
        rewrite decide_True by done. rewrite delete_insert_eq. intros k b [_ Hb]%lookup_delete_Some. by eapply HT.
    + eexists. split; [|done]. apply positive_upd; [|done]. by apply positive_insert.
Qed.

(** ** Sleeping *)

(** A task goes to sleep on channels it is registered for. *)
Lemma enter_tied tid tm chs pick h R w :
  let g := Gh None R (awake (Some tid)) in let g' := Gh None R (Self (Some tid) None (Some chs)) in
  let w' := set_rt (select_enter tid tm chs pick (w_rt w)) (set_host h w) in
  anchored g' -> NoDup chs -> wired w /\ tied g w -> wired w' /\ tied g' w' /\ harmless g g' w w'.
Proof.
  intros g g' w' Ha Hnd [[W1 W2 W3] [T1 T2 T3 T4]].
  assert (rt_parked (w_rt w) !! tid = None) as Hn.
  { specialize (T3 tid eq_refl). by apply fmap_None in T3. }
  assert (forall t, tbl t w' = tbl t w) as Ht by (intros t; unfold w'; by rewrite tbl_set_rt, tbl_set_host).
  assert (forall ch, open_chan (w_rt w) ch -> open_chan (w_rt w') ch) as Ho
    by (intros ch; by apply select_enter_open).
  assert (forall t, selecting (w_rt w') t = if decide (t = tid) then Some chs else selecting (w_rt w) t) as Hs
    by (intros t; apply select_enter_selecting).
  split; [|split]; split; try done.
  - apply select_enter_queues; try done. intros ch Hin. destruct (Ha chs eq_refl) as [_ Hall].
    destruct (Hall ch Hin) as ([t key] & Hr). destruct (T1 t key ch Hr) as [ref Hk].
    destruct (W2 _ _ _ Hk) as [q Hq]. by eexists.
  - intros t key a. rewrite Ht. intros Hk. by eapply Ho, W2.
  - intros tid' [= <-]. by rewrite Hs, decide_True.
  - intros t key a a'. rewrite Ht. congruence.
  - intros tid' Hne. rewrite Hs, decide_False; [done|]. intros ->. by apply Hne.
Qed.

Lemma leave_tied tid chs R w r' wk :
  let g := Gh None R (Self (Some tid) None (Some chs)) in let g' := Gh None R (awake (Some tid)) in
  select_leave tid (w_rt w) = Some (r', wk) ->
  wired w /\ tied g w -> wired (set_rt r' w) /\ tied g' (set_rt r' w) /\ harmless g g' w (set_rt r' w).
Proof.
  intros g g' E [[W1 W2 W3] [T1 T2 T3 T4]]. destruct (select_leave_keeps _ _ W1 _ _ E) as (Hq & Hc & Hs).
  assert (forall ch, open_chan (w_rt w) ch -> open_chan r' ch) as Ho by (intros ch [q Hch]; exists q; by rewrite Hc).
  split; [|split]; split; try done.
  - intros t key a. rewrite tbl_set_rt. intros Hk. by eapply Ho, W2.
  - intros tid' [= <-]. cbn. by rewrite Hs, decide_True.
  - intros t key a a'. rewrite tbl_set_rt. congruence.
  - intros tid' Hne. cbn. rewrite Hs, decide_False; [done|]. intros ->. by apply Hne.
Qed.

Lemma leave_awaits tid :
  awaits_wake tid (fun w => match select_leave tid (w_rt w) with Some (r, wk) => Some (set_rt r w, wk) | None => None end).
Proof. intros w. destruct (select_leave tid (w_rt w)) as [[]|]; split; intros []; [by eexists|by eexists|done|done]. Qed.

(** A task in a [select] that it cannot leave sleeps. *)
Lemma leave_sleeps tid chs R w :
  tied (Gh None R (Self (Some tid) None (Some chs))) w -> select_leave tid (w_rt w) = None -> sleeps tid w.
Proof.
  intros [_ _ T3 _] E. specialize (T3 tid eq_refl). cbn in T3. unfold selecting in T3. unfold select_leave in E.
  destruct (rt_parked (w_rt w) !! tid) as [p|] eqn:Ep; [|done]. exists p. split; [done|].
  by destruct p as [? ? [wk|]].
Qed.

Lemma reg_select tid tm chs R who gp (Q : wakeup -> ghost -> Prop) :
  let g := Gh None R (awake who) in
  (strict -> who = Some tid /\ anchored (Gh None R (Self who None (Some chs))) /\
     forall w, view g w -> NoDup chs) ->
  (forall wk, Q wk g) -> reg (select tid tm chs) g gp Q.
Proof.
  intros g Hst HQ. set (g1 := Gh None R (Self who None (Some chs))).
  exists (fun _ g' => g' = g1). split.
  - intros w Hv. exists g1. split; [done|]. split; [apply Hv| | |].
    + intros t key. rewrite tbl_set_rt, tbl_set_host. cbn. lia.
    + split; [done|]. intros t. by rewrite tbl_set_rt, tbl_set_host.
    + intros H. destruct (Hst H) as (-> & Ha & Hnd). apply enter_tied; [done|by eapply Hnd|by apply Hv].
  - intros [] g' ->. exists (fun _ g' => g' = g). split; [|intros wk g' ->; apply HQ].
    intros w Hv. destruct (select_leave tid (w_rt w)) as [[r' wk]|] eqn:E.
    2: { intros H. destruct (Hst H) as (-> & _). right; right; right. exists tid.
         split; [apply leave_awaits|]. by eapply leave_sleeps; [apply (vw_tied _ _ Hv H)|]. }
    exists g. split; [done|]. split; [apply Hv| | |].
    + intros t key. rewrite tbl_set_rt. cbn. lia.
    + split; [done|]. intros t. by rewrite tbl_set_rt.
    + intros H. destruct (Hst H) as (-> & _). eapply leave_tied; [done|by apply Hv].
Qed.

End registry.
