(* ===== verification/Tenants.v ===== *)
(** * Every handler gives back its futex registrations

    The rules of Registry.v applied to the program: the waits register, sleep
    and leave however they are woken, a sleeping wait is registered for the
    channels it sleeps on, and every other handler leaves the tables alone.  So
    every goroutine starts and ends with no registration, also when it panics. *)

From stdpp Require Import base list gmap numbers.
From S2P Require Import Prelude GoProg GoSpec Ghost LinuxABI GoRuntime Queues Structs Host World GoIO.
From S2P Require Import WorldSpec Fcntl Stat Signal Futex Mman Socket Sched Misc Syscall Kernel.
From S2P Require Import KernelProps ThreadProps Confined FutexProps Registry.
Local Open Scope Z_scope.
Local Open Scope go_scope.
Import Futex.

Section tenants.
Context {D : Debugger} (strict : Prop).

(** ** The registrations of a wait *)

Definition at_addr (addr ch : Z) : gmap (table * Z) Z := {[(Awaits, addr) := ch]}.
Definition at_bit (addr bit : Z) (chs : Z * Z) : gmap (table * Z) Z :=
  <[(BitAwaits, bit) := chs.2]> (at_addr addr chs.1).

Lemma reg_addAwait addr Rp tid :
  reg strict (addAwait addr) (idle tid) (Gh None Rp (awake tid)) (fun ch g' => g' = Gh None (at_addr addr ch) (awake tid)).
Proof.
  apply reg_section. intros T gp HT. by apply reg_add_ref; [apply lookup_empty|].
Qed.

Lemma reg_delAwait addr ch tid :
  reg strict (delAwait addr) (Gh None (at_addr addr ch) (awake tid)) (idle tid) (fun _ g' => g' = idle tid).
Proof.
  apply (reg_section _ _ _ _ (fun _ => ∅)). intros T gp HT.
  replace (∅ : gmap (table * Z) Z) with (delete (Awaits, addr) (at_addr addr ch))
    by (apply delete_singleton_eq).
  apply reg_del_ref; [|done]. eexists. apply lookup_singleton_eq.
Qed.

Lemma reg_addBitAwait addr bit Rp tid :
  reg strict (addBitAwait addr bit) (idle tid) (Gh None Rp (awake tid))
    (fun chs g' => g' = Gh None (at_bit addr bit chs) (awake tid)).
Proof.
  apply reg_section. intros T gp HT. eapply reg_bind; [by apply reg_add_ref; [apply lookup_empty|]|].
  cbn beta. intros ch1 g1 (T1 & HT1 & ->). eapply reg_bind; [apply reg_add_ref; [|done]|].
  { by rewrite lookup_insert_ne. }
  cbn beta. intros ch2 g2 (T2 & HT2 & ->). by exists T2.
Qed.

Lemma reg_delBitAwait addr bit chs tid :
  reg strict (delBitAwait addr bit) (Gh None (at_bit addr bit chs) (awake tid)) (idle tid) (fun _ g' => g' = idle tid).
Proof.
  apply (reg_section _ _ _ _ (fun _ => ∅)). intros T gp HT.
  assert (is_Some (at_bit addr bit chs !! (Awaits, addr))) as H1.
  { eexists. unfold at_bit. rewrite lookup_insert_ne by done. apply lookup_singleton_eq. }
  eapply reg_bind; [by apply reg_del_ref|]. cbn beta. intros _ g1 (T1 & HT1 & ->).
  replace (∅ : gmap (table * Z) Z) with (delete (BitAwaits, bit) (delete (Awaits, addr) (at_bit addr bit chs))).
  { apply reg_del_ref; [|done]. rewrite lookup_delete_ne by done. eexists. apply lookup_insert_eq. }
  unfold at_bit, at_addr. rewrite delete_insert_ne, delete_singleton_eq by done. by rewrite delete_insert_eq, delete_empty.
Qed.

(** ** The other handlers *)

#[local] Instance leaves_footprint : Footprint leaves_tables stalled.
Proof.
  split; intros; try (split; [done|first [apply calm_refl | by apply quiet_calm]]).
  - left. by exists l.
  - right; left. by exists task.
  - right; right; left. by exists file.
Qed.
#[local] Instance leaves_sched : SchedFoot leaves_tables.
Proof. intros s w. split; [done|apply calm_refl]. Qed.

#[local] Hint Resolve leaves_footprint leaves_sched : confined.

Lemma confined_inert {A} (m : prog World A) : confined leaves_tables stalled m -> inert strict m.
Proof.
  intros Hm g. induction m as [A a|A p|A X f k IH|A S X body IHb s k IH]; cbn in Hm; [done|done|..];
    destruct Hm as [Hf Hk].
  - apply reg_neutral; [apply Hf|apply Hf|]. intros x. by apply IH.
  - split; [intros s'; by apply IHb|intros x; by apply IH].
Qed.

(** ** Handlers *)

(** The task of a goroutine, if it has to have one. *)
Context (who : option Z).

(** A handler starts and ends outside every futex call. *)
Definition releases {A} (m : prog World A) : Prop := reg strict m (idle who) (idle who) (fun _ g' => g' = idle who).

Lemma confined_releases {A} (m : prog World A) : confined leaves_tables stalled m -> releases m.
Proof. intros Hm. by apply confined_inert. Qed.

Lemma releases_bind {A B} (m : prog World A) (k : A -> prog World B) :
  releases m -> (forall a, releases (k a)) -> releases (bind m k).
Proof. intros Hm Hk. eapply reg_bind; [apply Hm|]. intros a g' ->. apply Hk. Qed.

Lemma releases_wait_prepare u v t k : (forall tm, releases (k tm)) -> releases (wait_prepare u v t k).
Proof.
  intros Hk. unfold wait_prepare, read_u32.
  apply releases_bind; [apply confined_releases; confined_solve|]. intros [raw|]; [|apply confined_releases; confined_solve].
  destruct (negb _); [apply confined_releases; confined_solve|]. destruct (negb _); [|apply Hk].
  apply releases_bind; [apply confined_releases; confined_solve|]. intros [ts [e|]]; [apply confined_releases; confined_solve|].
  apply releases_bind; [apply confined_releases; confined_solve|]. intros tm. apply Hk.
Qed.

(** One turn of a wait: sleep, and look at what came. *)
Lemma reg_turn {A} tid tm chs R gp (k : wakeup -> prog World A) :
  let g := Gh None R (awake who) in
  (strict -> who = Some tid /\ anchored (Gh None R (Self who None (Some chs))) /\
     forall w, view strict g w -> NoDup chs) ->
  (forall wk, confined leaves_tables stalled (k wk)) -> gp = g ->
  reg strict (bind (select tid tm chs) k) g gp (fun _ g' => g' = g).
Proof.
  intros g Hs Hk ->. eapply reg_bind; [by apply (reg_select _ _ _ _ _ _ _ (fun _ g' => g' = g))|].
  intros wk g' ->. by apply confined_inert.
Qed.

Context (tid : Z) (Hwho : strict -> who = Some tid).

(** A wait registers, sleeps, and leaves however it is woken. *)
Lemma releases_futex_wait u v t : releases (futex_wait tid u v t).
Proof.
  apply releases_wait_prepare. intros tm. eapply reg_bind; [apply (reg_addAwait _ ∅)|]. intros ch g' ->.
  set (g := Gh None (at_addr u ch) (awake who)).
  apply (reg_defer _ _ _ _ g _ (fun _ g' => g' = g)); [|apply reg_delAwait|].
  - split; [|done]. intros []. apply reg_turn; [| |done].
    + intros Hst. split; [auto|]. split; [|intros; apply list.NoDup_singleton].
      intros chs [= <-]. pose proof (lookup_singleton_eq (M := gmap (table * Z)) (Awaits, u) ch) as E. split.
      * exists u, ch. split; [done|by left].
      * intros c ->%list_elem_of_singleton. by eexists.
    + intros wk. unfold wait_case. confined_solve.
  - intros a g' ->. apply reg_delAwait.
Qed.

Lemma releases_futex_wait_bitset u v t v3 : releases (futex_wait_bitset tid u v t v3).
Proof.
  apply releases_wait_prepare. intros tm. eapply reg_bind; [apply (reg_addBitAwait _ _ ∅)|]. intros [ch1 ch2] g' ->.
  set (R := at_bit u v3 (ch1, ch2)).
  assert (R !! (Awaits, u) = Some ch1 /\ R !! (BitAwaits, v3) = Some ch2) as [E1 E2].
  { unfold R, at_bit, at_addr. rewrite lookup_insert_ne, lookup_insert_eq by done. split; [apply lookup_singleton_eq|done]. }
  set (g := Gh None R (awake who)).
  apply (reg_defer _ _ _ _ g _ (fun _ g' => g' = g)); [|apply reg_delBitAwait|].
  - split; [|done]. intros []. apply reg_turn; [| |done].
    + intros Hst. split; [auto|]. split.
      * intros chs [= <-]. split; [exists u, ch1; split; [done|by left]|].
        intros c [->|[->|[]%not_elem_of_nil]%elem_of_cons]%elem_of_cons; by eexists.
      * intros w Hv. destruct (vw_tied _ _ _ Hv Hst) as [[_ _ W3] [T1 _ _ _]].
        destruct (T1 _ _ _ E1) as [r1 H1], (T1 _ _ _ E2) as [r2 H2].
        apply list.NoDup_cons. split; [|apply list.NoDup_singleton]. intros E%list_elem_of_singleton.
        by destruct (W3 _ _ _ H1 _ _ _ H2 (eq_sym E)).
    + intros wk. unfold wait_bitset_case, read_u32. confined_solve.
  - intros a g' ->. apply reg_delBitAwait.
Qed.

Lemma releases_futex u op v t u2 v3 : releases (futex tid u op v t u2 v3).
Proof.
  unfold futex. cbv zeta. repeat case_match;
    lazymatch goal with
    | |- releases (futex_wait _ _ _ _) => apply releases_futex_wait
    | |- releases (futex_wait_bitset _ _ _ _ _) => apply releases_futex_wait_bitset
    | |- _ => apply confined_releases; eauto using confined_futex_wake, confined_futex_wake_bitset with confined
    end.
Qed.

End tenants.

Section goroutines.
Context {D : Debugger} (strict : Prop) (who : option Z).

Lemma releases_Emulate_futex ctx args :
  (strict -> who = Some (TaskID ctx)) -> releases strict who (Syscall.Emulate_futex ctx args).
Proof.
  intros Hctx. unfold Syscall.Emulate_futex, Syscall.as_u64.
  repeat (apply releases_bind; [|intros ?]);
    first [ by apply releases_futex | apply confined_releases; unfold Syscall.arg; solve [repeat case_match; done] ].
Qed.

(** Hooks of the task's own contexts, reapers, timers and the guest. *)
Lemma goroutine_releases m :
  goroutine_of (fun ctx => strict -> who = Some (TaskID ctx)) m -> releases strict who m.
Proof.
  pose proof leaves_footprint. pose proof leaves_sched.
  apply (goroutine_good leaves_tables stalled (fun A => releases strict who)); intros.
  - by apply releases_bind.
  - by apply confined_releases.
  - by apply releases_Emulate_futex.
  - apply confined_releases, confined_clone; apply _.
  - apply confined_releases. unfold Sched.reap. confined_solve.
Qed.

End goroutines.
