(* ===== verification/RegistryProps.v ===== *)
(** * The futex tables while goroutines run

    What the ghost state of Registry.v says of the real tables, whatever
    goroutines run and however they are interleaved: an entry never counts more
    goroutines than are running, no entry without a waiter is left when the lock
    is free, and nothing is left when all have finished. *)

From stdpp Require Import base list gmap numbers.
From S2P Require Import Prelude GoProg GoSpec Ghost LinuxABI GoRuntime Queues Structs Host World.
From S2P Require Import WorldSpec Futex Sched Syscall Kernel SimHost SimKernel KernelProps ThreadProps FutexProps Registry Tenants.
Local Open Scope Z_scope.
Local Open Scope go_scope.
Import Futex Kernel.

(** ** Any schedule *)

Section pools.
Context {D : Debugger}.

Definition finished {A} (m : prog World A) : bool :=
  match m with Ret _ | Panic _ => true | _ => false end.

(** The goroutines that have not finished. *)
Definition running {A} (ts : list (prog World A)) : nat :=
  length (filter (fun m => finished m = false) ts).

(** Where a goroutine starts and ends. *)
Definition home (g : ghost) : Prop := exists who, g = idle who.

Notation pooled strict := (pool_guided (@reg_act D strict) (fun _ => True) home).

Lemma finished_idle {A} strict (m : prog World A) g :
  homing (@reg_act D strict) (fun _ => True) home m g -> finished m = true -> home g.
Proof. intros (g0 & Hg0 & Hm). destruct m; cbn in Hm; naive_solver. Qed.

Lemma registered_running {A} strict t key (ts : list (prog World A)) gs :
  pooled strict ts gs -> (registered t key gs <= running ts)%nat.
Proof.
  unfold registered, running. induction 1 as [|m g ts gs Hm _ IH]; [done|]. rewrite !filter_cons.
  destruct (finished m) eqn:Ef.
  - destruct (finished_idle strict m g) as [who ->]; [done|done|].
    rewrite (decide_False (P := is_Some _)), decide_False by (done || by intros []). done.
  - rewrite (decide_True (P := false = false)) by done. case_decide; cbn [length]; lia.
Qed.

Lemma refof_positive t key (w : World) :
  positive (tbl t w) -> refof (tbl t w) key = 0 -> tbl t w !! key = None.
Proof.
  intros Hp. unfold refof. destruct (tbl t w !! key) as [a|] eqn:E; [|done].
  intros Hz. apply Hp in E. lia.
Qed.

(** ** From the start *)

(** The goroutines at the start: a task has a goroutine of its own if it counts
    who they are. *)
Definition starts (strict : Prop) (whos : list (option Z)) (ts : list (prog World unit)) : Prop :=
  Forall2 (fun who m => goroutine_of (fun ctx => strict -> who = Some (TaskID ctx)) m) whos ts.

(** A kernel nobody waits in. *)
Record quiescent (w : World) : Prop := {
  qu_ready : ready w;
  qu_empty t : tbl t w = ∅
}.

Lemma idle_inv strict whos w :
  Z.of_nat (length whos) <= MaxInt64 -> quiescent w ->
  (strict -> NoDup (omap id whos) /\ queues_ok (w_rt w) /\ rt_parked (w_rt w) = ∅) ->
  reg_inv strict (idle <$> whos) w.
Proof.
  intros Hsize [[Hl Hm] Hempty] Hst.
  assert (forall (P : ghost -> Prop) `{!forall g, Decision (P g)}, (forall who, ~ P (idle who)) ->
    filter P (idle <$> whos) = []) as Hnil.
  { intros P ? Hn. clear -Hn. induction whos as [|who whos IH]; [done|]. cbn [fmap list_fmap]. by rewrite filter_cons_False. }
  split.
  - split; apply Hm.
  - by rewrite length_fmap.
  - intros t key. unfold registered. rewrite Hempty, Hnil by (by intros who []). done.
  - intros _ t key a. rewrite Hempty. by rewrite lookup_empty.
  - left. split; [apply Hnil; by intros who []|]. unfold writing. pose proof (Hl LkFutex) as E. cbn in E. by rewrite E.
  - intros H. destruct (Hst H) as (Hnd & Hq & Hp).
    assert (forall t, selecting (w_rt w) t = None) as Hsel by (intros t; unfold selecting; by rewrite Hp, lookup_empty).
    split.
    + split; [done|..]; intros t key a; by rewrite Hempty, lookup_empty.
    + replace (tids (idle <$> whos)) with (omap id whos); [done|]. clear. unfold tids.
      induction whos as [|[tid|] whos IH]; cbn in *; [done|by rewrite IH|done].
    + apply list.Forall_fmap, list.Forall_forall. intros who _. split; try done; intros tid _; apply Hsel.
    + intros tid. rewrite Hsel. by intros [].
Qed.

Lemma registrations_kept strict sch whos (ts ts' : list (prog World unit)) (w w' : World) :
  starts strict whos ts -> Z.of_nat (length ts) <= MaxInt64 -> quiescent w ->
  (strict -> NoDup (omap id whos) /\ queues_ok (w_rt w) /\ rt_parked (w_rt w) = ∅) ->
  interleave sch ts w = Some (ts', w') ->
  exists gs, pooled strict ts' gs /\ reg_inv strict gs w'.
Proof.
  intros Hts Hsize Hw Hst Hs.
  eapply (pool_kept (@reg_act D strict) (fun _ => True) (reg_inv strict) home); [| |exact Hs].
  - apply (pool_begin _ _ home ts (idle <$> whos)), Forall2_fmap_r, Forall2_flip.
    eapply list.Forall2_impl; [exact Hts|]. intros who m Hm. split; [by exists who|]. by apply goroutine_releases.
  - apply idle_inv; [by rewrite (Forall2_length Hts)|done|done].
Qed.

Section registrations.
Context (sch : list nat) (ts ts' : list (prog World unit)) (w w' : World).
Context (Hts : Forall goroutine ts) (Hsize : Z.of_nat (length ts) <= MaxInt64).
Context (Hw : ready w) (Hempty : forall t, tbl t w = ∅).
Context (Hs : interleave sch ts w = Some (ts', w')).

(** Whoever the goroutines are. *)
Lemma registrations_any : exists gs, pooled False ts' gs /\ reg_inv False gs w'.
Proof.
  apply (registrations_kept False sch (replicate (length ts) None) ts ts' w w'); [|done|by split|done|done].
  apply Forall2_replicate_l; [done|]. eapply Forall_impl; [|exact Hts]. intros m. by apply goroutine_mono.
Qed.

(** C13: Under every interleaving of any goroutines (interrupt hooks of any
    contexts, reapers, timers, the guest) that starts with empty futex
    tables, each entry of both tables counts the goroutines that are
    registered under its key, none of which has finished; whenever the lock
    is not held for writing no entry is left without a waiter, and when all
    goroutines have returned or panicked both tables are empty. *)
Theorem futex_registrations_released :
  (exists regs : list (gset (table * Z)),
     Forall2 (fun m R => finished m = true -> R = ∅) ts' regs /\
     forall t key, refof (tbl t w') key = Z.of_nat (length (filter (fun R => (t, key) ∈ R) regs))) /\
  (rw_writer (fx_rw (w_futex w')) = false -> forall t key a, tbl t w' !! key = Some a -> 0 < aw_ref a) /\
  (running ts' = 0%nat -> fx_awaits (w_futex w') = Some ∅ /\ fx_bitAwaits (w_futex w') = Some ∅).
Proof.
  destruct registrations_any as (gs & HF & [[[m1 E1] [m2 E2]] _ Hc Hp Hwr _]).
  assert (forall t key, 0 <= refof (tbl t w') key <= Z.of_nat (running ts')) as Hb.
  { intros t key. rewrite Hc. pose proof (registered_running _ t key ts' gs HF). lia. }
  split.
  { exists ((fun g => dom (gh_regs g)) <$> gs). split.
    - apply Forall2_fmap_r. eapply list.Forall2_impl; [exact HF|]. intros m g Hg Hfin.
      by destruct (finished_idle False m g Hg Hfin) as [who ->].
    - intros t key. rewrite Hc. unfold registered. f_equal.
      clear. induction gs as [|g gs IH]; [done|]. cbn [fmap list_fmap]. rewrite !filter_cons.
      destruct (decide (is_Some (gh_regs g !! (t, key)))) as [Hi|Hn]; rewrite <- elem_of_dom in *;
        [rewrite decide_True by done|rewrite decide_False by done]; cbn [length]; by rewrite IH. }
  split; [done|]. intros Hz.
  assert (writing w' = false) as Hf.
  { destruct Hwr as [[_ ?]|(g & Eg & _)]; [done|]. exfalso.
    assert (g ∈ writers gs) as Hin by (rewrite Eg; by left).
    apply list_elem_of_filter in Hin as [[T HT] [i Hi]%list_elem_of_lookup].
    destruct (Forall2_lookup_r _ _ _ _ _ HF Hi) as (m & Hm & Hg).
    assert (finished m = true) as Hfin.
    { destruct (finished m) eqn:Ef; [done|]. unfold running in Hz. apply length_zero_iff_nil in Hz.
      assert (m ∈ filter (fun m => finished m = false) ts') as Hin
        by (apply list_elem_of_filter; split; [done|by eapply list_elem_of_lookup_2]).
      rewrite Hz in Hin. by apply not_elem_of_nil in Hin. }
    by destruct (finished_idle False m g Hg Hfin) as [who ->]. }
  assert (forall t key, tbl t w' !! key = None) as Hn.
  { intros t key. apply refof_positive; [by apply Hp|]. specialize (Hb t key). lia. }
  split; [rewrite E1|rewrite E2]; f_equal; apply map_eq; intros key; rewrite lookup_empty.
  - specialize (Hn Awaits key). unfold tbl in Hn. cbn in Hn. by rewrite E1 in Hn.
  - specialize (Hn BitAwaits key). unfold tbl in Hn. cbn in Hn. by rewrite E2 in Hn.
Qed.

End registrations.
End pools.

(** ** Witness *)

(** Context 7 waits at 0x1000 for a change from 25185; another thread of the
    guest stores 1 there and context 8 wakes one waiter. *)
Definition wake_world : World (D := SimDebugger) :=
  sim_boot (sim_set_regs
    [(7, ARM64_REG_X8, NR_val NR_futex); (7, ARM64_REG_X0, 0x1000); (7, ARM64_REG_X2, 25185);
     (8, ARM64_REG_X8, NR_val NR_futex); (8, ARM64_REG_X0, 0x1000); (8, ARM64_REG_X1, 1);
     (8, ARM64_REG_X2, 1)] sim0).

Definition wake_pool : list (prog (World (D := SimDebugger)) unit) :=
  [pool_intr 7; hdo (fun h => ((MemWritePtr h 0x1000 (le_encode 4 1)).1, tt)) ;;; pool_intr 8].

Lemma wake_pool_goroutines : Forall goroutine wake_pool.
Proof. repeat first [apply pool_intr_goroutine | constructor]. Qed.

Lemma wake_world_empty t : tbl t wake_world = ∅.
Proof. by destruct t. Qed.

(** The waiter parks, the other goroutine runs to its end, the waiter resumes. *)
Definition wake_schedule : list nat := replicate 11 0%nat ++ replicate 12 1%nat ++ replicate 7 0%nat.

Definition wake_end : option (list (prog (World (D := SimDebugger)) unit) * World) :=
  interleave wake_schedule wake_pool wake_world.

(** In between the waiter is registered, at the end nobody runs. *)
Definition wake_course : bool :=
  match wake_end with Some (ts', _) => (running ts' =? 0)%nat | None => false end.

Example wake_registered :
  match interleave (take 11 wake_schedule) wake_pool wake_world with
  | Some (_, w1) => refof (tbl Awaits w1) 0x1000 = 1
  | None => False
  end.
Proof. vm_compute. done. Qed.

Lemma futex_registrations_released_witness :
  match wake_end with
  | Some (_, w') => fx_awaits (w_futex w') = Some ∅ /\ fx_bitAwaits (w_futex w') = Some ∅
  | None => False
  end.
Proof.
  assert (wake_course = true) as Hb by (vm_compute; reflexivity). unfold wake_course in Hb.
  destruct wake_end as [[ts' w']|] eqn:E; [|discriminate].
  apply Nat.eqb_eq in Hb.
  apply (futex_registrations_released wake_schedule wake_pool ts' wake_world w' wake_pool_goroutines
    ltac:(vm_compute; discriminate) (sim_boot_ready _) wake_world_empty E). exact Hb.
Defined.
