(* ===== verification/Sleepers.v ===== *)
(** * Nobody sleeps where no wake can reach

    The two halves of the futex together with the Go runtime, for any number of
    tasks under any schedule: what the invariant of Registry.v says of the tables
    and the receive queues in every state a booted kernel gets to, and what a
    FUTEX_WAKE does in such a state. *)

From stdpp Require Import base list gmap numbers.
From S2P Require Import Prelude GoProg GoSpec Ghost LinuxABI GoRuntime Queues Structs Host World.
From S2P Require Import WorldSpec Threads Futex Sched Syscall Kernel SimHost SimKernel KernelProps ThreadProps FutexProps.
From S2P Require Import Confined Registry Tenants RegistryProps.
Local Open Scope Z_scope.
Local Open Scope go_scope.
Import Futex Kernel.

Section sleepers.
Context {D : Debugger}.

Lemma tids_length gs : (length (tids gs) <= length gs)%nat.
Proof. unfold tids. induction gs as [|g gs IH]; [done|]. cbn. destruct (me_tid (gh_me g)); cbn; lia. Qed.

(** ** What the invariant says *)

Section reached.
Context (gs : list ghost) (w : World) (Hinv : reg_inv True gs w).

Lemma reached_sleepers : sleepers gs w.
Proof. by apply (ri_sleepers _ _ _ Hinv). Qed.

(** Whose sleep it is. *)
Lemma sleeper_ghost tid chs :
  selecting (w_rt w) tid = Some chs ->
  exists g, g ∈ gs /\ me_tid (gh_me g) = Some tid /\ me_on (gh_me g) = Some chs /\ tied g w.
Proof.
  intros Hs. destruct reached_sleepers as [_ _ Hti Hk].
  destruct (proj1 (list_elem_of_omap _ _ _) (Hk tid (mk_is_Some _ _ Hs))) as (g & Hin & Htid).
  pose proof (proj1 (list.Forall_forall _ _) Hti g Hin) as Hg. exists g. split_and!; try done.
  by rewrite <- Hs, (ti_on _ _ Hg tid Htid).
Qed.

(** Its channels are those of entries it is registered under. *)
Lemma sleeper_entry tid chs ch :
  selecting (w_rt w) tid = Some chs -> ch ∈ chs ->
  exists g t key ref, g ∈ gs /\ me_tid (gh_me g) = Some tid /\ gh_regs g !! (t, key) = Some ch /\
    tbl t w !! key = Some (Await ch ref).
Proof.
  intros Hs Hin. destruct (sleeper_ghost tid chs Hs) as (g & Hg & Htid & Hon & Hti).
  destruct (ti_anchor _ _ Hti chs Hon) as [_ Hall]. destruct (Hall ch Hin) as ([t key] & Hr).
  destruct (ti_regs _ _ Hti t key ch Hr) as [ref Ha]. by exists g, t, key, ref.
Qed.

(** Its address is one of them. *)
Lemma sleeper_address tid chs :
  selecting (w_rt w) tid = Some chs -> exists uaddr a, tbl Awaits w !! uaddr = Some a /\ aw_ch a ∈ chs.
Proof.
  intros Hs. destruct (sleeper_ghost tid chs Hs) as (g & Hg & Htid & Hon & Hti).
  destruct (ti_anchor _ _ Hti chs Hon) as [(addr & ch & Hr & Hin) _].
  destruct (ti_regs _ _ Hti Awaits addr ch Hr) as [ref Ha]. by exists addr, (Await ch ref).
Qed.

(** The queue of an entry. *)
Lemma entry_queue t key a :
  tbl t w !! key = Some a ->
  exists q, queued (w_rt w) (aw_ch a) q /\ forall tid, tid ∈ q <-> waits_on (w_rt w) (aw_ch a) tid.
Proof.
  intros Ha. destruct reached_sleepers as [[W1 W2 _] _ _ _]. destruct (W2 _ _ _ Ha) as [q Hq].
  pose proof (fun tid => qk_queue _ W1 _ _ tid Hq) as Hin. cbn in Hin.
  exists q. split; [|done]. split; [done|]. split; [exact (qk_nodup _ W1 _ _ Hq)|].
  apply list.Forall_forall. intros tid (p & Hp & _)%Hin. by eexists.
Qed.

(** So whoever sleeps can be reached at an address. *)
Lemma sleeper_queue tid :
  sleeps tid w -> exists uaddr a q, tbl Awaits w !! uaddr = Some a /\ queued (w_rt w) (aw_ch a) q /\ tid ∈ q /\
    forall tid', tid' ∈ q -> waits_on (w_rt w) (aw_ch a) tid'.
Proof.
  intros (p & Hp & Hk). destruct (sleeper_address tid (pk_chans p)) as (uaddr & a & Ha & Hch);
    [unfold selecting; by rewrite Hp|].
  destruct (entry_queue Awaits uaddr a Ha) as (q & Hq & Hin). exists uaddr, a, q.
  split; [done|]. split; [done|]. split; [apply Hin; by exists p|]. intros tid'. apply Hin.
Qed.

(** With the lock not held for writing the tables are counters of waiters. *)
Lemma reached_represents : writing w = false -> represents (fun t key => refof (tbl t w) key) w.
Proof.
  intros Hw. destruct reached_sleepers as [[W1 W2 W3] _ _ _]. split.
  - intros t key. unfold refof. destruct (tbl t w !! key) as [a|] eqn:Ea; [|done].
    split; [done|]. by eapply (ri_positive _ _ _ Hinv Hw).
  - apply W2.
  - intros t key a t' key' a' Ha Ha' E. by destruct (W3 _ _ _ Ha _ _ _ Ha' (eq_sym E)) as [-> ->].
  - apply W1.
Qed.

(** An entry counts at least those that sleep on its channel. *)
Lemma queue_bounded t key a q :
  tbl t w !! key = Some a -> queued (w_rt w) (aw_ch a) q ->
  (forall tid, tid ∈ q -> waits_on (w_rt w) (aw_ch a) tid) -> zlen q <= aw_ref a.
Proof.
  intros Ha (_ & Hnd & _) Hq.
  assert (aw_ref a = Z.of_nat (registered t key gs)) as -> by (rewrite <- (ri_count _ _ _ Hinv); by rewrite (refof_some _ _ _ Ha)).
  unfold zlen, registered. apply inj_le.
  set (rs := filter (fun g => is_Some (gh_regs g !! (t, key))) gs).
  transitivity (length (tids rs)); [|apply tids_length].
  apply submseteq_length, NoDup_submseteq; [done|]. intros tid Hin.
  destruct (Hq tid Hin) as (p & Hp & _ & Hch).
  destruct (sleeper_entry tid (pk_chans p) (aw_ch a)) as (g & t' & key' & ref & Hg & Htid & Hr & Ha');
    [unfold selecting; by rewrite Hp|done|].
  destruct (wi_sole _ (sl_wired _ _ reached_sleepers) _ _ _ Ha _ _ _ Ha' eq_refl) as [-> ->].
  apply list_elem_of_omap. exists g. split; [|done]. apply list_elem_of_filter. split; [by eexists|done].
Qed.

End reached.

(** ** When nobody can move *)

(** The goroutine goes on once the task has been woken, or is done. *)
Definition until_woken (tid : Z) (m : prog World unit) : Prop :=
  forall w, is_Some (step1 m w) <-> is_Some (select_leave tid (w_rt w)).
Definition until_done (task : Task) (m : prog World unit) : Prop :=
  forall w, is_Some (step1 m w) <-> task_Done (w_host w) task = true.

(** It goes on once a transfer of the file can: there is something to read, or
    room to write. *)
Definition until_transfer (file : File) (m : prog World unit) : Prop :=
  (exists n, forall w, is_Some (step1 m w) <-> is_Some (file_Read (w_host w) file n)) \/
  (exists b, forall w, is_Some (step1 m w) <-> is_Some (file_Write (w_host w) file b)) \/
  (exists base off lim, forall w,
     is_Some (step1 m w) <-> is_Some (file_ReadFrom (w_host w) file base off lim)).

Lemma step1_act {A X} (f : World -> option (World * X)) (k : X -> prog World A) w :
  is_Some (step1 (Act f k) w) <-> is_Some (f w).
Proof. cbn. destruct (f w) as [[w1 x]|]; split; try (by intros []); intros _; by eexists. Qed.

Lemma awaits_file_until {X} file (f : World -> option (World * X)) (k : X -> prog World unit) :
  awaits_file file f -> until_transfer file (Act f k).
Proof.
  intros [(n & H)|[(b & H)|(base & off & lim & H)]]; [left; exists n|right; left; exists b|right; right; exists base, off, lim];
    intros w; by rewrite step1_act.
Qed.

(** What a goroutine that cannot move has come to. *)
Definition waiting (m : prog World unit) (w : World) : Prop :=
  finished m = true \/ (exists task, until_done task m) \/ (exists file, until_transfer file m) \/
  exists tid, until_woken tid m /\ sleeps tid w.

(** A goroutine that cannot go on, with every lock free. *)
Lemma stalled_until g m w :
  homing (@reg_act D True) (fun _ => True) home m g -> view True g w -> ready w -> step1 m w = None ->
  waiting m w.
Proof.
  intros (g0 & _ & Hm) Hv [Hl _] E. destruct m as [a|p|X f k|S X body s k]; [by left|by left| |done].
  right. destruct Hm as (R & Hf & _). specialize (Hf w Hv). cbn in E. destruct (f w) as [[]|] eqn:Ef; [done|].
  destruct (Hf I) as [[l Hn]|[(task & Ht & _)|[(file & Ht & _)|(tid & Ht & Hs)]]];
    [by destruct Hn|left|right; left|right; right].
  - exists task. intros w1. by rewrite step1_act.
  - exists file. by apply awaits_file_until.
  - exists tid. split; [|done]. intros w1. by rewrite step1_act.
Qed.

(** ** Any schedule *)

Section schedule.
Context (h : Host) (sch : list nat) (whos : list (option Z)) (ts ts' : list (prog World unit)) (w' : World).

(** Each goroutine makes the calls of one task at most, no two of the same. *)
Context (Hts : Forall2 (fun who m => goroutine_of (fun ctx => who = Some (TaskID ctx)) m) whos ts).
Context (Hwhos : NoDup (omap id whos)) (Hsize : zlen ts < 2147483648).
Context (Hs : interleave sch ts (Syscall.booted h) = Some (ts', w')).

Lemma reached_pool :
  exists gs, pool_guided (@reg_act D True) (fun _ => True) home ts' gs /\ reg_inv True gs w'.
Proof.
  apply (registrations_kept True sch whos ts ts' (Syscall.booted h) w').
  - eapply list.Forall2_impl; [exact Hts|]. intros who m. apply goroutine_mono. auto.
  - unfold zlen in Hsize. unfold MaxInt64. lia.
  - split; [apply Syscall.booted_ready|]. by intros [].
  - intros _. split; [done|]. split; [apply queues_init|done].
  - done.
Qed.

Lemma reached_size : length ts' = length ts.
Proof.
  clear -Hs. revert ts Hs. generalize (Syscall.booted h). induction sch as [|i s IH]; intros w ts E; cbn in E.
  { by injection E as <- <-. }
  destruct (ts !! i) as [m|]; [|done]. destruct (step1 m w) as [[m1 w1]|]; [|done].
  rewrite (IH _ _ E). apply length_insert.
Qed.

(** C10: Nobody sleeps where no wake can reach: in every state any number of
    tasks reach under any schedule from a booted kernel, each entry of both
    futex tables has an open channel whose receive queue holds, once each,
    the tasks asleep on it, no more than the entry counts; and for each
    sleeping task all channels it waits for are channels of entries, and
    there is an address such that, when the locks are free and the word there
    can be read, FUTEX_WAKE, run then, returns how many it reaches and has
    handed the value of the word to that many, first come first served, this
    task among those in the queue. *)
Theorem no_sleeper_stranded :
  (forall t key a, tbl t w' !! key = Some a ->
     exists q, queued (w_rt w') (aw_ch a) q /\ zlen q <= aw_ref a /\
       forall tid, tid ∈ q <-> waits_on (w_rt w') (aw_ch a) tid) /\
  (forall tid p, rt_parked (w_rt w') !! tid = Some p -> pk_wake p = None ->
     (forall ch, ch ∈ pk_chans p -> exists t key ref, tbl t w' !! key = Some (Await ch ref)) /\
     exists uaddr a q, tbl Awaits w' !! uaddr = Some a /\ queued (w_rt w') (aw_ch a) q /\ tid ∈ q /\
       forall n val bs, ready w' -> (length ts <= n)%nat -> MemReadPtr (w_host w') uaddr 4 = inl bs ->
         let k := wake_many (int32 val) (zlen q) in
         exists r', run n (futex_wake uaddr val) w' = Returned k (set_rt r' w') /\
           queued r' (aw_ch a) (zdrop k q) /\ woken (w_rt w') r' (aw_ch a) (le_decode bs) (ztake k q)).
Proof.
  destruct reached_pool as (gs & HF & Hinv).
  pose proof (list.Forall2_length _ _ _ HF) as Hlen. rewrite reached_size in Hlen. split.
  - intros t key a Ha. destruct (entry_queue gs w' Hinv t key a Ha) as (q & Hq & Hin).
    exists q. split; [done|]. split; [|done]. eapply queue_bounded; [done|done|done|]. intros tid. apply Hin.
  - intros tid p Hp Hk. assert (selecting (w_rt w') tid = Some (pk_chans p)) as Hsel
      by (unfold selecting; by rewrite Hp).
    split.
    { intros ch Hin. destruct (sleeper_entry gs w' Hinv tid _ ch Hsel Hin) as (g & t & key & ref & _ & _ & _ & Ha). eauto. }
    destruct (sleeper_queue gs w' Hinv tid) as (uaddr & a & q & Ha & Hq & Hin & Hall); [by exists p|].
    exists uaddr, a, q. split; [done|]. split; [done|]. split; [done|].
    pose proof (queue_bounded gs w' Hinv Awaits uaddr a q Ha Hq Hall) as Hb.
    rewrite <- (refof_some _ _ _ Ha), (ri_count _ _ _ Hinv) in Hb. pose proof (registered_le Awaits uaddr gs) as Hr.
    intros n val bs Hw Hn Hrd. apply (run_futex_wake n uaddr val a q bs w'); try done; unfold zlen in *; lia.
Qed.

(** What everyone waits for when nobody can move. *)
Lemma reached_stuck :
  Forall (fun m => step1 m w' = None) ts' ->
  ready w' /\ exists gs, reg_inv True gs w' /\
    forall i m, ts' !! i = Some m -> waiting m w'.
Proof.
  intros Hstuck. assert (ready w') as Hw.
  { apply (pool_stuck ts'); [|done]. eapply (schedule_pool sch ts); [|apply Syscall.booted_ready|exact Hs].
    apply list.Forall_forall. intros m [i Hi]%list_elem_of_lookup.
    destruct (Forall2_lookup_r _ _ _ _ _ Hts Hi) as (who & _ & Hm). by eapply goroutine_mono; [|exact Hm]. }
  split; [done|]. destruct reached_pool as (gs & HF & Hinv). exists gs. split; [done|]. intros i m Hi.
  destruct (pool_pick _ _ _ home ts' gs i m w' HF Hinv Hi) as (g & others & _ & _ & Hm & Hg & _).
  apply (stalled_until g m w' Hm (inv_view _ _ _ _ Hg) Hw).
  exact (proj1 (list.Forall_forall _ _) Hstuck m (list_elem_of_lookup_2 _ _ _ Hi)).
Qed.

(** C9: What can hang is a futex wait nobody wakes, a transfer of a file (an
    empty or full pipe) or a task that is not done, never a lock: for any
    number of tasks (each with a goroutine of its own that makes any system
    calls, beside reapers, timers and the guest) and any schedule from a
    booted kernel, when no goroutine can move every lock is free, and each
    goroutine has finished, waits for a task to be done, is in a Read, Write
    or ReadFrom of a file that blocks, or sleeps in a FUTEX_WAIT or
    FUTEX_WAIT_BITSET and is in the receive queue of a channel of the table
    of addresses. The other calls of the debugger are taken to return. *)
Theorem stuck_means_asleep :
  Forall (fun m => step1 m w' = None) ts' ->
  ready w' /\
  forall i m, ts' !! i = Some m ->
    finished m = true \/ (exists task, until_done task m) \/ (exists file, until_transfer file m) \/
    exists tid uaddr a q, until_woken tid m /\
      tbl Awaits w' !! uaddr = Some a /\ queued (w_rt w') (aw_ch a) q /\ tid ∈ q.
Proof.
  intros Hstuck. destruct (reached_stuck Hstuck) as (Hw & gs & Hinv & Hall). split; [done|]. intros i m Hi.
  destruct (Hall i m Hi) as [?|[?|[?|(tid & Ht & Hsl)]]]; [by left|by right; left|by right; right; left|].
  right; right; right. destruct (sleeper_queue gs w' Hinv tid Hsl) as (uaddr & a & q & Ha & Hq & Hin & _). by exists tid, uaddr, a, q.
Qed.

End schedule.
End sleepers.

(** ** Witness *)

(** Context 7 has gone to sleep at 0x1000, context 8 has not run yet. *)
Definition asleep_end : option (list (prog (World (D := SimDebugger)) unit) * World) :=
  interleave (take 11 wake_schedule) wake_pool wake_world.

Definition asleep_course : bool :=
  match asleep_end with
  | Some (_, w1) => match rt_parked (w_rt w1) !! 7 with Some (Parked _ _ None) => true | _ => false end
  | None => false
  end.

Lemma wake_pool_tasks :
  Forall2 (fun who m => goroutine_of (D := SimDebugger) (fun ctx => who = Some (TaskID ctx)) m)
    [Some 7; Some 8] wake_pool.
Proof.
  constructor; [by apply pool_intr_of|]. constructor; [|constructor].
  apply (go_then (D := SimDebugger)); [apply (go_host (D := SimDebugger))|by apply pool_intr_of].
Qed.

Lemma wake_tids : NoDup (omap id [Some 7; Some 8]).
Proof. by apply (bool_decide_unpack _). Qed.

Lemma no_sleeper_stranded_witness :
  match asleep_end with
  | Some (_, w1) => exists uaddr a q, tbl Awaits w1 !! uaddr = Some a /\ queued (w_rt w1) (aw_ch a) q /\ 7 ∈ q
  | None => False
  end.
Proof.
  assert (asleep_course = true) as Hb by (vm_compute; reflexivity). unfold asleep_course in Hb.
  destruct asleep_end as [[ts' w1]|] eqn:E; [|discriminate].
  destruct (rt_parked (w_rt w1) !! 7) as [[tm chs [wk|]]|] eqn:Ep; try discriminate.
  destruct (no_sleeper_stranded _ (take 11 wake_schedule) [Some 7; Some 8] wake_pool ts' w1
    wake_pool_tasks wake_tids eq_refl E) as [_ Hsl].
  destruct (Hsl 7 (Parked tm chs None) Ep eq_refl) as (_ & uaddr & a & q & Ha & Hq & Hin & _).
  exists uaddr, a, q. split; [exact Ha|]. split; [exact Hq|exact Hin].
Defined.

(** Context 7 sleeps at 0x1000 and context 9 reads an empty pipe, for ever. *)
Definition sim_pipe_reader : sim_file := SimFile 50 false false true false false false true.

Definition stuck_world : World (D := SimDebugger) :=
  sim_boot (sim_set_fds (<[7 := sim_pipe_reader]> (sm_fds sim0)) (sim_set_regs
    [(7, ARM64_REG_X8, NR_val NR_futex); (7, ARM64_REG_X0, 0x1000); (7, ARM64_REG_X2, 25185);
     (9, ARM64_REG_X8, NR_val NR_read); (9, ARM64_REG_X0, 7); (9, ARM64_REG_X1, 0x1000);
     (9, ARM64_REG_X2, 4)] sim0)).

Definition stuck_pool : list (prog (World (D := SimDebugger)) unit) := [pool_intr 7; pool_intr 9].
Definition stuck_schedule : list nat := replicate 11 0%nat ++ replicate 5 1%nat.

Definition stuck_end : option (list (prog (World (D := SimDebugger)) unit) * World) :=
  interleave stuck_schedule stuck_pool stuck_world.

Definition stuck_course : bool :=
  match stuck_end with
  | Some (ts, w1) =>
      forallb (fun m => match step1 m w1 with None => negb (finished m) | Some _ => false end) ts
  | None => false
  end.

Lemma stuck_tasks :
  Forall2 (fun who m => goroutine_of (D := SimDebugger) (fun ctx => who = Some (TaskID ctx)) m)
    [Some 7; Some 9] stuck_pool.
Proof. by repeat constructor; apply pool_intr_of. Qed.

Lemma stuck_tids : NoDup (omap id [Some 7; Some 9]).
Proof. by apply (bool_decide_unpack _). Qed.

(** Nobody can move, and nobody has finished. *)
Lemma stuck_all ts w1 : stuck_end = Some (ts, w1) ->
  Forall (fun m => step1 m w1 = None) ts /\ Forall (fun m => finished m = false) ts.
Proof.
  intros E. assert (stuck_course = true) as Hb by (vm_compute; reflexivity). unfold stuck_course in Hb.
  rewrite E in Hb. apply Is_true_true_2, forallb_True in Hb. split; (eapply list.Forall_impl; [exact Hb|]);
    intros m Hm; cbn in Hm; destruct (step1 m w1); try done. by apply negb_prop_elim in Hm; destruct (finished m).
Qed.

Lemma stuck_means_asleep_witness :
  match stuck_end with
  | Some (ts, w1) => ready w1 /\ forall i m, ts !! i = Some m -> finished m = false /\
      (finished m = true \/ (exists task, until_done (D := SimDebugger) task m) \/
       (exists file, until_transfer (D := SimDebugger) file m) \/
       exists tid uaddr a q, until_woken tid m /\
         tbl Awaits w1 !! uaddr = Some a /\ queued (w_rt w1) (aw_ch a) q /\ tid ∈ q)
  | None => False
  end.
Proof.
  destruct stuck_end as [[ts w1]|] eqn:E.
  - destruct (stuck_all ts w1 E) as [Hst Hfin].
    destruct (stuck_means_asleep _ stuck_schedule [Some 7; Some 9] stuck_pool ts w1 stuck_tasks stuck_tids eq_refl E Hst)
      as [Hw Hall].
    split; [exact Hw|]. intros i m Hi. split; [exact (list.Forall_lookup_1 _ _ _ _ Hfin Hi)|exact (Hall i m Hi)].
  - assert (stuck_course = true) as Hb by (vm_compute; reflexivity). unfold stuck_course in Hb.
    rewrite E in Hb. discriminate.
Defined.
