(* ===== verification/CloseProps.v ===== *)
(** * Closing the kernel: theorems

    [Kernel.Close] with syscalls still asleep in it: the hook is removed, the
    tables go, and every waiter is told; what a waiter then returns. *)

From stdpp Require Import base list gmap numbers.
From S2P Require Import Prelude GoProg GoSpec LinuxABI GoRuntime Queues Structs Host SimHost World.
From S2P Require Import WorldSpec Fcntl Signal Futex Syscall Kernel SimKernel ThreadProps FutexProps.
From S2P Require Import Registry RegistryProps Sleepers.
Local Open Scope Z_scope.
Local Open Scope go_scope.
Import Futex.

Section closeprops.
Context {D : Debugger}.

(** The kernel's tables are gone. *)
Definition tables_gone (w : World) : Prop :=
  fc_flags (w_fcntl w) = None /\ fx_awaits (w_futex w) = None /\ fx_bitAwaits (w_futex w) = None /\
  sg_table (w_signal w) = None.

(** Without tables there is nothing to leave. *)
Lemma run_delAwait_gone n addr w : locks_free w -> tables_gone w -> run n (delAwait addr) w = Returned tt w.
Proof.
  intros Hl (_ & Ha & _ & _). pose proof (Hl LkFutex) as Hf.
  destruct w as [h r fc [rw aw bw] sg sd e]. cbn in Ha, Hf. subst. done.
Qed.

(** A waiter whose channel was closed returns, also when the tables are gone. *)
Lemma closed_waiter_returns n tid addr val tm ch p i v w :
  locks_free w -> tables_gone w -> rt_parked (w_rt w) !! tid = Some p -> pk_wake p = Some (WkRecv i v false) ->
  run n (suspended tid addr val tm ch) w = Returned (-1) (set_err (Errno_val EPERM) (unpark tid w)).
Proof.
  intros Hl Hg Hp Hk. unfold suspended. rewrite run_defer, bind_assoc. rewrite (run_leave _ _ _ _ _ _ Hp Hk).
  remember (delAwait addr) as d eqn:Ed. cbn. subst d.
  rewrite run_bind, run_delAwait_gone; [done|intros l; specialize (Hl l); by destruct l|done].
Qed.

(** Closing the kernel tells everyone who is parked on a channel of the tables. *)
Lemma kernel_close_told `{!RangeLaw} n hook c w :
  ready w -> represents c w ->
  exists w', run n (Kernel.Close hook) w = Returned tt w' /\ locks_free w' /\ tables_gone w' /\
    forall t key a q tid, tbl t w !! key = Some a -> rt_chans (w_rt w) !! aw_ch a = Some (Chan false q) ->
      tid ∈ q -> is_Some (rt_parked (w_rt w) !! tid) -> told (w_rt w') tid.
Proof.
  intros Hw Hc. unfold Kernel.Close, Syscall.Close. rewrite run_hdo.
  set (w1 := set_signal (World.Signal (sg_set (w_signal w)) (sg_rw (w_signal w)) None)
    (set_host (hook_Close (w_host w) hook).1 w)).
  change (exists w', run n (Futex.dtor ;;; Fcntl.dtor) w1 = Returned tt w' /\ locks_free w' /\ tables_gone w' /\
    forall t key a q tid, tbl t w !! key = Some a -> rt_chans (w_rt w) !! aw_ch a = Some (Chan false q) ->
      tid ∈ q -> is_Some (rt_parked (w_rt w) !! tid) -> told (w_rt w') tid).
  assert (locks_free w1) as Hl1 by (intros l; pose proof (proj1 Hw l); by destruct l).
  assert (represents c w1) as Hc1 by (destruct Hc as [H1 H2 H3 H4]; by split).
  destruct (futex_dtor_tells_waiters n c w1 Hl1 (ready_made w Hw) Hc1)
    as (w2 & E & Hl2 & Ef & Es & Ea & Eb & Ht).
  rewrite run_bind, E. cbn [then_run].
  exists (set_fcntl (World.Fcntl (fc_rw (w_fcntl w2)) None) w2). split; [done|].
  split; [intros l; specialize (Hl2 l); by destruct l|]. split; [|exact Ht].
  split_and!; [done|done|done|]. cbn. by rewrite Es.
Qed.

(** C26: Closing the kernel with syscalls asleep in it returns: every table
    is nil and every lock free, whatever order the range over the tables
    takes, and each goroutine parked in a FUTEX_WAIT then returns -1 with
    EPERM. *)
Theorem kernel_close_tells_waiters `{!RangeLaw} n hook c w :
  ready w -> represents c w ->
  exists w', run n (Kernel.Close hook) w = Returned tt w' /\ locks_free w' /\ tables_gone w' /\
    forall key a q tid val tm, tbl Awaits w !! key = Some a ->
      rt_chans (w_rt w) !! aw_ch a = Some (Chan false q) -> tid ∈ q ->
      is_Some (rt_parked (w_rt w) !! tid) ->
      run n (suspended tid key val tm (aw_ch a)) w' =
        Returned (-1) (set_err (Errno_val EPERM) (unpark tid w')).
Proof.
  intros Hw Hc. destruct (kernel_close_told n hook c w Hw Hc) as (w' & E & Hl & Hg & Ht).
  exists w'. split_and!; [done|done|done|]. intros key a q tid val tm Hk Hq Hin Hp.
  destruct (Ht Awaits key a q tid Hk Hq Hin Hp) as (p & i & v & Hp2 & Hwk).
  by apply (closed_waiter_returns n tid key val tm (aw_ch a) p i v w').
Qed.

(** ** Closing a kernel that hangs *)

Lemma told_leaves r tid : told r tid -> is_Some (select_leave tid r).
Proof. intros ([tm chs wk] & i & v & Hp & Hk). cbn in Hk. subst wk. unfold select_leave. rewrite Hp. by eexists. Qed.

(** C11: Closing a kernel that hangs frees what sleeps in it: when any number
    of tasks have come, under any schedule from a booted kernel, to where no
    goroutine can move, Close returns with every lock free and every table
    gone, every sleeping task has been told that its channel is closed, and
    each goroutine that has neither finished nor waits for a task to be done
    or for a transfer of a file (an empty or full pipe) can go on. The other
    calls of the debugger are taken to return. *)
Theorem close_frees_sleepers `{!RangeLaw} n hook h sch whos ts ts' w' :
  Forall2 (fun who m => goroutine_of (fun ctx => who = Some (TaskID ctx)) m) whos ts ->
  NoDup (omap id whos) -> zlen ts < 2147483648 ->
  interleave sch ts (Syscall.booted h) = Some (ts', w') -> Forall (fun m => step1 m w' = None) ts' ->
  exists w2, run n (Kernel.Close hook) w' = Returned tt w2 /\ locks_free w2 /\ tables_gone w2 /\
    (forall tid p, rt_parked (w_rt w') !! tid = Some p -> pk_wake p = None -> told (w_rt w2) tid) /\
    forall i m, ts' !! i = Some m ->
      finished m = true \/ (exists task, until_done task m) \/ (exists file, until_transfer file m) \/
      is_Some (step1 m w2).
Proof.
  intros Hts Hnd Hsize Hs Hstuck.
  destruct (reached_stuck h sch whos ts ts' w' Hts Hnd Hsize Hs Hstuck) as (Hw & gs & Hinv & Hall).
  assert (writing w' = false) as Hwr by (pose proof (proj1 Hw LkFutex) as E; unfold writing; cbn in E; by rewrite E).
  destruct (kernel_close_told n hook _ w' Hw (reached_represents gs w' Hinv Hwr)) as (w2 & E & Hl & Hg & Ht).
  assert (forall tid, sleeps tid w' -> told (w_rt w2) tid) as Htold.
  { intros tid Hsl. destruct (sleeper_queue gs w' Hinv tid Hsl) as (uaddr & a & q & Ha & (Hq & _) & Hin & _).
    destruct Hsl as (p & Hp & _). by eapply (Ht Awaits uaddr a q). }
  exists w2. split_and!; [done|done|done|intros tid p Hp Hk; apply Htold; by exists p|].
  intros i m Hi. destruct (Hall i m Hi) as [?|[?|[?|(tid & Hu & Hsl)]]]; [by left|by right; left|by right; right; left|].
  right; right; right. by apply Hu, told_leaves, Htold.
Qed.

End closeprops.

Definition sim_hook : Hook (Debugger := SimDebugger) := tt.

Lemma kernel_close_tells_waiters_witness :
  exists w', run 0 (Kernel.Close sim_hook) sim_waiting = Returned tt w' /\ locks_free w' /\ tables_gone w' /\
    forall key a q tid val tm, tbl Awaits sim_waiting !! key = Some a ->
      rt_chans (w_rt sim_waiting) !! aw_ch a = Some (Chan false q) -> tid ∈ q ->
      is_Some (rt_parked (w_rt sim_waiting) !! tid) ->
      run 0 (suspended tid key val tm (aw_ch a)) w' =
        Returned (-1) (set_err (Errno_val EPERM) (unpark tid w')).
Proof. exact (kernel_close_tells_waiters 0 sim_hook _ sim_waiting sim_waiting_ready sim_waiting_represents). Defined.

(** Context 7 sleeps and context 9 reads an empty pipe; when the kernel is closed
    the first can go on. *)
Lemma close_frees_sleepers_witness :
  match stuck_end with
  | Some (ts, w1) => exists w2, run 0 (Kernel.Close sim_hook) w1 = Returned tt w2 /\ locks_free w2 /\
      tables_gone w2 /\
      (forall tid p, rt_parked (w_rt w1) !! tid = Some p -> pk_wake p = None -> told (w_rt w2) tid) /\
      forall i m, ts !! i = Some m -> finished m = false /\
        (finished m = true \/ (exists task, until_done (D := SimDebugger) task m) \/
         (exists file, until_transfer (D := SimDebugger) file m) \/ is_Some (step1 m w2))
  | None => False
  end.
Proof.
  destruct stuck_end as [[ts w1]|] eqn:E.
  - destruct (stuck_all ts w1 E) as [Hst Hfin].
    destruct (close_frees_sleepers 0 sim_hook _ stuck_schedule [Some 7; Some 9] stuck_pool ts w1
      stuck_tasks stuck_tids eq_refl E Hst) as (w2 & E2 & Hl & Hg & Ht & Hall).
    exists w2. split; [exact E2|]. split; [exact Hl|]. split; [exact Hg|]. split; [exact Ht|].
    intros i m Hi. split; [exact (list.Forall_lookup_1 _ _ _ _ Hfin Hi)|exact (Hall i m Hi)].
  - assert (stuck_course = true) as Hb by (vm_compute; reflexivity). unfold stuck_course in Hb.
    rewrite E in Hb. discriminate.
Defined.
