(* ===== verification/MiscProps.v ===== *)
(** * Mappings, tasks, sockets and the clock: theorems

    mmap of files against the laws of IoProps, clone with its reaper, the type
    flags of sockets, and the values of the clock and random handlers. *)

From stdpp Require Import base list gmap numbers.
From Stdlib Require Import Strings.Byte.
From S2P Require Import Prelude GoProg GoSpec LinuxABI GoRuntime Structs Host SimHost World GoIO.
From S2P Require Import WorldSpec Mman Socket Sched Misc Syscall SimKernel IoProps.
Local Open Scope Z_scope.
Local Open Scope go_scope.

(** ** mmap of a file *)

Section mmap.
Context {D : Debugger} {ST : Storage} {ML : MemoryLaws ST} (f : File) `{!ReadsWell ST f}.
Import Mman.

(** [mmap] of a file at offset 0 at an address the debugger chooses, up to the
    copy of the file's bytes into the new mapping. *)
Lemma run_mmap_file n addr len prot flags fd w h1 a :
  has_bits flags MAP_ANONYMOUS = false -> has_bits flags MAP_FIXED = false -> 0 <= fd ->
  GetFile (w_host w) fd = inl f -> is_ReadFile f = true ->
  MapAlloc (w_host w) len prot = (h1, inl a) ->
  run n (mmap addr len prot flags fd 0) w =
  then_run n (fun '(_, err) =>
      match err with
      | Some _ => let! _ := hdo (fun h => MapFree h a len) in map_fail ENODEV
      | None => Ret a
      end) (run n (io_CopyN_offset a (file_reader f) (int64 len)) (set_host h1 w)).
Proof.
  intros Ha Hf Hfd Hg Hr Hm. unfold mmap. rewrite Ha, (proj2 (Z.leb_le _ _)) by done. cbn [negb andb].
  rewrite run_hget, Hg, Hr. change (negb (0 =? 0)) with false. cbn [negb]. cbv iota.
  unfold map_region. rewrite Hf, run_hdo, Hm. cbn [fst snd]. rewrite run_bind. done.
Qed.

(** mmap at offset 0 and at an address the debugger chooses returns the
    address of the new mapping, which holds the next len bytes of the file
    from its current position; nothing outside it changes. *)
Theorem mmap_copies_file n addr len prot flags fd w h1 a :
  has_bits flags MAP_ANONYMOUS = false -> has_bits flags MAP_FIXED = false -> 0 <= fd ->
  GetFile (w_host w) fd = inl f -> is_ReadFile f = true ->
  MapAlloc (w_host w) len prot = (h1, inl a) -> mapped h1 a len ->
  0 <= len < 9223372036854775808 -> len <= Z.of_nat n -> len <= zlen (unread h1 f) ->
  exists h2 b, run n (mmap addr len prot flags fd 0) w = Returned a (set_host h2 w) /\
    zlen b = len /\ unread h1 f = b ++ unread h2 f /\ block h2 a b /\ same_outside h1 h2 a len.
Proof.
  intros Ha Hf Hfd Hg Hr Hm Hmap Hl Hn Hu. rewrite (run_mmap_file _ _ _ _ _ _ _ h1 a) by done.
  rewrite int64_id by wrap_lia.
  destruct (run_CopyN f n a len h1 w) as (h2 & b & (U & B & S) & Hb & ->); [lia|done|].
  rewrite Z.min_l in Hb by done. rewrite (proj2 (Z.leb_le _ _)) by done. cbn [then_run].
  exists h2, b. rewrite Hb in S. by split_and!.
Qed.

(** mmap of more bytes than the file has fails with ENODEV after copying the
    whole file; the new mapping is freed. *)
Theorem mmap_short_file_fails n addr len prot flags fd w h1 a :
  has_bits flags MAP_ANONYMOUS = false -> has_bits flags MAP_FIXED = false -> 0 <= fd ->
  GetFile (w_host w) fd = inl f -> is_ReadFile f = true ->
  MapAlloc (w_host w) len prot = (h1, inl a) -> mapped h1 a len ->
  0 <= len < 9223372036854775808 -> len <= Z.of_nat n -> zlen (unread h1 f) < len ->
  exists h2, run n (mmap addr len prot flags fd 0) w =
      Returned MaxUint64 (set_err (Errno_val ENODEV) (set_host (MapFree h2 a len).1 w)) /\
    unread h2 f = [] /\ block h2 a (unread h1 f).
Proof.
  intros Ha Hf Hfd Hg Hr Hm Hmap Hl Hn Hu. rewrite (run_mmap_file _ _ _ _ _ _ _ h1 a) by done.
  rewrite int64_id by wrap_lia.
  destruct (run_CopyN f n a len h1 w) as (h2 & b & (U & B & S) & Hb & ->); [lia|done|].
  rewrite (proj2 (Z.leb_gt _ _)) by done. cbn [then_run]. exists h2.
  assert (unread h2 f = []) as E0.
  { apply length_zero_iff_nil. pose proof (f_equal zlen U) as Hz. rewrite zlen_app in Hz.
    unfold zlen in *. lia. }
  split; [done|]. split; [done|]. by rewrite U, E0, app_nil_r.
Qed.

End mmap.

Section miscprops.
Context {D : Debugger}.

(** In the supported domains a stream or datagram socket with SOCK_CLOEXEC
    behaves as without it, and with SOCK_NONBLOCK fails with EAFNOSUPPORT. *)
Theorem socket_type_flags n domain typ protocol w :
  (domain = 1 \/ domain = 2 \/ domain = 10) -> (typ = 1 \/ typ = 2) ->
  (* SOCK_CLOEXEC *)
  run n (Socket.socket domain (Z.lor typ 0x80000) protocol) w = run n (Socket.socket domain typ protocol) w /\
  (* SOCK_NONBLOCK *)
  run n (Socket.socket domain (Z.lor typ 0x800) protocol) w =
    Returned (-1) (set_err (Errno_val EAFNOSUPPORT) w).
Proof. by intros [->|[->| ->]] [->| ->]. Qed.

Lemma network_of_supported domain typ :
  domain ∈ [Socket.AF_LOCAL; Socket.AF_INET; Socket.AF_INET6] /\
  typ ∈ [Socket.SOCK_STREAM; Socket.SOCK_DGRAM] ->
  Socket.network_of domain typ = NetUnix \/ Socket.network_of domain typ = NetUnixGram \/
  Socket.network_of domain typ = NetTCP \/ Socket.network_of domain typ = NetUDP.
Proof. rewrite !elem_of_cons. intros [[->|[->|[->|[]%not_elem_of_nil]]] [->|[->|[]%not_elem_of_nil]]]; cbn; auto. Qed.

Lemma network_of_unsupported domain typ :
  ~ (domain ∈ [Socket.AF_LOCAL; Socket.AF_INET; Socket.AF_INET6] /\
     typ ∈ [Socket.SOCK_STREAM; Socket.SOCK_DGRAM]) ->
  Socket.network_of domain typ = NetNone.
Proof.
  intros Hno. unfold Socket.network_of.
  destruct (Z.eqb_spec domain Socket.AF_LOCAL), (Z.eqb_spec domain Socket.AF_INET),
    (Z.eqb_spec domain Socket.AF_INET6), (Z.eqb_spec typ Socket.SOCK_STREAM),
    (Z.eqb_spec typ Socket.SOCK_DGRAM); cbn; try done; exfalso; apply Hno; set_solver.
Qed.

(** socket for every address family and socket type the file declares:
    AF_UNSPEC panics, a stream or datagram socket of the local, IPv4 and IPv6
    families is created by the debugger and its descriptor returned (or
    EACCES), and every other combination fails with EAFNOSUPPORT and changes
    nothing. *)
Theorem socket_supported n domain typ protocol w :
  domain ∈ Socket.address_families -> typ ∈ Socket.socket_types ->
  let o := run n (Socket.socket domain typ protocol) w in
  if decide (domain = Socket.AF_UNSPEC) then exists msg, o = Panicked (PanicMsg msg) w
  else if decide (domain ∈ [Socket.AF_LOCAL; Socket.AF_INET; Socket.AF_INET6] /\
                  typ ∈ [Socket.SOCK_STREAM; Socket.SOCK_DGRAM]) then
    exists network, network <> NetNone /\
      match NewSocket (w_host w) network with
      | (h, inr _) => o = Returned (-1) (set_err (Errno_val EACCES) (set_host h w))
      | (h, inl s) => o = Returned (int32 (CreateFileDescriptor h s).2)
                            (set_host (CreateFileDescriptor h s).1 w)
      end
  else o = Returned (-1) (set_err (Errno_val EAFNOSUPPORT) w).
Proof.
  intros Hd Ht o. unfold o. clear o.
  assert (Socket.mask_type typ = typ) as Em.
  { unfold Socket.socket_types in Ht. repeat (apply elem_of_cons in Ht as [->|Ht]; [done|]).
    by apply not_elem_of_nil in Ht. }
  unfold Socket.socket. cbv zeta. rewrite Em.
  destruct (decide (domain = Socket.AF_UNSPEC)) as [->|Hu]; [by eexists|].
  rewrite (proj2 (Z.eqb_neq _ _) Hu).
  destruct (decide _) as [Hyes|Hno].
  - exists (Socket.network_of domain typ). destruct (network_of_supported domain typ Hyes) as [->|[->|[->| ->]]];
      (split; [done|]); rewrite run_hdo; by destruct (NewSocket _ _) as [h [s|e]].
  - by rewrite (network_of_unsupported domain typ Hno).
Qed.

(** ** Tasks *)

Lemma run_set_entry n task s w : exists h b, run n (Sched.set_entry task s) w = Returned b (set_host h w).
Proof.
  unfold Sched.set_entry. cbv zeta. destruct (s =? 0); [by do 2 eexists|].
  rewrite run_hdo, run_hget. destruct (MemExtract _ _ _ _) as [call e]. rewrite run_hdo.
  destruct (CallTaskOf _ _ _) as [h' [err|]]; cbn [fst snd]; [by do 2 eexists|].
  rewrite run_hdo. by do 2 eexists.
Qed.

Lemma run_set_tls n task fl tls w : exists h, run n (Sched.set_tls task fl tls) w = Returned tt (set_host h w).
Proof.
  unfold Sched.set_tls. destruct (has_bits _ _); [|by exists (w_host w); destruct w].
  rewrite run_hget. destruct (Sched.tls_reg _); [by eexists|by exists (w_host w); destruct w].
Qed.

(** C35: clone without CLONE_VFORK always returns: -1 with EAGAIN and no task
    registered, or the id of the forked task, which is then in the task table
    under that id with a reaper started for it. *)
Theorem clone_registers_child n ctx flags stack parent_tid tls child_tid w :
  has_bits flags Sched.CLONE_VFORK = false ->
  match run n (Sched.clone ctx flags stack parent_tid tls child_tid) w with
  | Returned r w' =>
      (r = -1 /\ w_err w' = Errno_val EAGAIN /\ w_sched w' = w_sched w) \/
      exists task, (TaskFork (w_host w) ctx).2 = inl task /\ r = int32 (task_ID task) /\
        w_err w' = w_err w /\
        sd_tasks (w_sched w') = <[r := task]> (sd_tasks (w_sched w)) /\
        sd_reapers (w_sched w') = (r, task) :: sd_reapers (w_sched w)
  | _ => False
  end.
Proof.
  intros Hv. unfold Sched.clone. rewrite run_hdo. destruct (TaskFork _ _) as [h1 [task|e]]; cbn [fst snd];
    [|by left].
  rewrite run_bind. destruct (run_set_entry n task stack (set_host h1 w)) as (h2 & [] & ->);
    cbn [then_run negb]; [|by left].
  rewrite run_bind. destruct (run_set_tls n task flags tls (set_host h2 (set_host h1 w))) as (h3 & ->).
  cbn [then_run]. unfold Sched.run_child. rewrite run_hdo. cbn [w_host set_host].
  destruct (task_Run h3 task) as [h4 [e|]]; cbn [fst snd]; [by left|]. rewrite Hv.
  destruct (child_tid =? 0); cbn; right; by exists task.
Qed.

(** A reaper blocks until its task is done and then removes and closes it. *)
Theorem reaper_waits_and_removes n pid task w :
  if task_Done (w_host w) task then
    exists w', run n (Sched.reap pid task) w = Returned tt w' /\
      sd_tasks (w_sched w') = delete pid (sd_tasks (w_sched w)) /\
      w_host w' = (task_Close (w_host w) task).1
  else exists m, run n (Sched.reap pid task) w = Blocked m w.
Proof.
  unfold Sched.reap, Sched.wait_done. cbn [bind]. rewrite run_act.
  destruct (task_Done (w_host w) task); [|by eexists]. by eexists.
Qed.

(** ** The clock and the random source *)

(** A clock the host refuses: the call returns the host's result with the
    errno clear. *)
Theorem clock_gettime_hides_failure n clock ts w r st :
  C_clock_gettime (w_host w) clock = (r, st) ->
  run n (Misc.clock_gettime clock ts) w =
  if r =? 0 then Returned 0 (set_host (MemWrite (w_host w) ts ShTimespec st).1 w)
  else Returned (int32 r) w.
Proof.
  intros Hc. unfold Misc.clock_gettime. rewrite run_hget, Hc.
  destruct (Z.eqb_spec r 0) as [->|]; [by destruct st|done].
Qed.

(** The time of day in seconds and microseconds; the zone is counted in
    minutes east. *)
Theorem gettimeofday_values now :
  0 <= now_Nanosecond now < 1000000000 -> is_i32 (now_ZoneOffset now) ->
  let tv := Misc.timeval_of now in
  (now_Unix now * 1000000000 + now_Nanosecond now) / 1000 = tvl_sec tv * 1000000 + tvl_usec tv /\
  0 <= tvl_usec tv < 1000000 /\
  (* the minutes are counted east of Greenwich *)
  tz_minuteswest (Misc.timezone_of now) = Z.quot (now_ZoneOffset now) 60.
Proof.
  intros Hn Hz. cbn. rewrite (Z.quot_div_nonneg (now_Nanosecond now)) by lia.
  split; [|split].
  - replace (now_Unix now * 1000000000 + now_Nanosecond now)
      with (now_Nanosecond now + now_Unix now * 1000000 * 1000) by lia.
    rewrite Z.div_add by lia. lia.
  - split; [apply Z.div_pos; lia|apply Z.div_lt_upper_bound; lia].
  - apply int32_id. pose proof (Z.quot_rem (now_ZoneOffset now) 60 ltac:(lia)).
    pose proof (Z.rem_bound_abs (now_ZoneOffset now) 60 ltac:(lia)). unfold is_i32 in *. lia.
Qed.

(** getrandom without GRND_RANDOM returns at most 256 bytes. *)
Theorem getrandom_is_bounded n buf count flags w h1 data :
  has_bits flags Misc.GRND_RANDOM = false -> 0 <= count ->
  rand_Read (w_host w) (Z.min count 256) = (h1, inl data) -> zlen data = Z.min count 256 ->
  run n (Misc.getrandom buf count flags) w =
    Returned (Z.min count 256) (set_host (MemWrite h1 buf ShBytes data).1 w).
Proof.
  intros Hf Hc Hr Hl. unfold Misc.getrandom. rewrite Hf, run_hdo, Hr. cbn [fst snd].
  rewrite run_hdo, run_ret, Hl. done.
Qed.

End miscprops.

(** ** Witnesses *)

(** [sim0] after a mapping of [n] bytes. *)
Definition sim_alloc (n : Z) : Host (Debugger := SimDebugger) :=
  (MapAlloc (Debugger := SimDebugger) sim0 n 3).1.

Lemma sim_alloc_mapped n : 0 < n -> mapped (sim_alloc n) 0x5000 n.
Proof.
  intros Hn i Hi. unfold sim_alloc. cbn [MapAlloc SimDebugger].
  rewrite (proj2 (Z.eqb_neq _ _)) by lia. cbn -[sim_poke replicate sim0 lookup].
  assert (zlen (replicate (Z.to_nat n) "000"%byte) = n) as Hz by (unfold zlen; rewrite length_replicate; lia).
  rewrite sim_poke_lookup, decide_True by lia. apply lookup_lt_is_Some_2. rewrite length_replicate. lia.
Qed.

Lemma mmap_copies_file_witness :
  exists h2 b, run 4 (Mman.mmap 0 4 3 2 5 0) sim_world = Returned 0x5000 (set_host h2 sim_world) /\
    zlen b = 4 /\ unread (sim_alloc 4) sim_regular = b ++ unread h2 sim_regular /\
    block h2 0x5000 b /\ same_outside (sim_alloc 4) h2 0x5000 4.
Proof.
  apply (mmap_copies_file (D := SimDebugger) sim_regular 4 0 4 3 2 5 sim_world (sim_alloc 4) 0x5000);
    [reflexivity|reflexivity|lia|reflexivity|reflexivity|reflexivity|by apply sim_alloc_mapped
    |lia|lia|by vm_compute].
Defined.

Lemma mmap_short_file_fails_witness :
  exists h2, run 20 (Mman.mmap 0 20 3 2 5 0) sim_world =
      Returned MaxUint64 (set_err (Errno_val ENODEV) (set_host (MapFree h2 0x5000 20).1 sim_world)) /\
    unread h2 sim_regular = [] /\ block h2 0x5000 (unread (sim_alloc 20) sim_regular).
Proof.
  apply (mmap_short_file_fails (D := SimDebugger) sim_regular 20 0 20 3 2 5 sim_world (sim_alloc 20) 0x5000);
    [reflexivity|reflexivity|lia|reflexivity|reflexivity|reflexivity|by apply sim_alloc_mapped
    |lia|lia|by vm_compute].
Defined.

Lemma socket_supported_witness :
  exists network, network <> NetNone /\
    match NewSocket (w_host sim_world) network with
    | (h, inr _) => run 0 (Socket.socket 2 1 0) sim_world =
        Returned (-1) (set_err (Errno_val EACCES) (set_host h sim_world))
    | (h, inl s) => run 0 (Socket.socket 2 1 0) sim_world =
        Returned (int32 (CreateFileDescriptor h s).2) (set_host (CreateFileDescriptor h s).1 sim_world)
    end.
Proof.
  apply (socket_supported 0 2 1 0 sim_world); apply (bool_decide_unpack _); vm_compute; exact I.
Defined.

Lemma socket_type_flags_witness :
  run 0 (Socket.socket 2 0x80001 0) sim_world = run 0 (Socket.socket 2 1 0) sim_world /\
  run 0 (Socket.socket 2 0x801 0) sim_world = Returned (-1) (set_err (Errno_val EAFNOSUPPORT) sim_world).
Proof.
  apply (socket_type_flags 0 2 1 0 sim_world); [right; left; reflexivity|left; reflexivity].
Defined.

Lemma clone_registers_child_witness :
  match run 0 (Sched.clone (D := SimDebugger) 7 0 0 0 0 0) sim_world with
  | Returned r w' =>
      (r = -1 /\ w_err w' = Errno_val EAGAIN /\ w_sched w' = w_sched sim_world) \/
      exists task, (TaskFork (w_host sim_world) (7 : Ctx)).2 = inl task /\ r = int32 (task_ID task) /\
        w_err w' = w_err sim_world /\
        sd_tasks (w_sched w') = <[r := task]> (sd_tasks (w_sched sim_world)) /\
        sd_reapers (w_sched w') = (r, task) :: sd_reapers (w_sched sim_world)
  | _ => False
  end.
Proof. apply (clone_registers_child 0 (7 : Ctx (Debugger := SimDebugger)) 0 0 0 0 0 sim_world). reflexivity. Defined.

Lemma clock_gettime_hides_failure_witness :
  run 0 (Misc.clock_gettime (-1) 0x2000) sim_world = Returned (-1) sim_world.
Proof. exact (clock_gettime_hides_failure 0 (-1) 0x2000 sim_world (-1) zero_timespec eq_refl). Defined.

Lemma gettimeofday_values_witness :
  let now := TimeNow 1700000000 123456789 3600 in
  let tv := Misc.timeval_of now in
  (1700000000 * 1000000000 + 123456789) / 1000 = tvl_sec tv * 1000000 + tvl_usec tv /\
  0 <= tvl_usec tv < 1000000 /\ tz_minuteswest (Misc.timezone_of now) = 60.
Proof.
  apply (gettimeofday_values (TimeNow 1700000000 123456789 3600)); [cbn; lia|by vm_compute].
Defined.

Lemma getrandom_is_bounded_witness :
  exists h', run 0 (Misc.getrandom 0x2000 1000 0) sim_world = Returned 256 (set_host h' sim_world).
Proof.
  eexists. refine (getrandom_is_bounded 0 0x2000 1000 0 sim_world sim0 (replicate 256 "042"%byte) eq_refl _ _ eq_refl);
    [lia|reflexivity].
Defined.
