(* ===== verification/MmapProps.v ===== *)
(** * Mapping files: theorems

    [mmap] of a file, at any offset and with or without MAP_FIXED: it moves to
    the offset, asks the debugger for the region, and copies the bytes that
    follow.  What it copies is stated against the laws of IoProps, one for
    [Seek] and one for the mapping calls. *)

From stdpp Require Import base list gmap numbers.
From Stdlib Require Import Strings.Byte.
From S2P Require Import Prelude GoProg GoSpec LinuxABI GoRuntime Structs Host SimHost World GoIO.
From S2P Require Import WorldSpec Mman Syscall SimKernel IoProps.
Local Open Scope Z_scope.
Local Open Scope go_scope.
Import Mman.

(** The mapping calls do not touch files. *)
Class MapLaws `{D : Debugger} (ST : Storage) : Prop := {
  alloc_files h len prot f : unread (MapAlloc h len prot).1 f = unread h f;
  map_files h addr len prot f : unread (MemMap h addr len prot).1 f = unread h f;
  unmap_files h addr len f : unread (MemUnmap h addr len).1 f = unread h f
}.

(** A file as an [io.Seeker]: what is left after seeking to [off] from the start
    is its contents from there on. *)
Class SeeksWell `{D : Debugger} (ST : Storage) (contents : Host -> bytes) (f : File) : Prop :=
  file_seeks h off h' p :
    0 <= off -> file_Seek h f off 0 = (h', inl p) ->
    unread h' f = zdrop off (contents h) /\ (forall a, mem h' a = mem h a).

Section mmap.
Context {D : Debugger} {ST : Storage} {ML : MemoryLaws ST} {PL : MapLaws ST}.
Context (f : File) (contents : Host -> bytes) `{!ReadsWell ST f} `{!SeeksWell ST contents f}.

(** ** io.ReadFull *)

Lemma read_full_loop k len w : forall j st h,
  zlen st <= len -> len - zlen st < Z.of_nat j + 1 -> len - zlen st <= zlen (unread h f) ->
  exists h' b, unread h f = b ++ unread h' f /\ zlen st + zlen b = len /\ (forall a, mem h' a = mem h a) /\
    run_loop k j (read_full_turn (file_reader f) len) Ret st (set_host h w) =
      Returned (st ++ b, None) (set_host h' w).
Proof.
  induction j as [|j IH]; intros st h Hst Hj Hu.
  all: destruct (decide (zlen st = len)) as [He|Hne];
    [exists h, []; rewrite run_loop_eq; unfold read_full_turn; rewrite (proj2 (Z.leb_le _ _)) by lia;
     rewrite app_nil_r; split_and!; [done|unfold zlen at 2; cbn; lia|done|done]|].
  { lia. }
  rewrite run_loop_eq. unfold read_full_turn at 1. rewrite (proj2 (Z.leb_gt _ _)) by lia.
  destruct (file_reads (f := f) h (len - zlen st)) as (h1 & b & e & Er & Hb & U & Hm & He); [lia|].
  unfold file_reader at 1. rewrite (run_hwait _ _ _ (set_host h w) _ _ Er).
  destruct e as [e|].
  - destruct He as [-> He]. assert (zlen st + zlen b = len) as Hlen.
    { rewrite U, He, app_nil_r in Hu. lia. }
    rewrite (proj2 (Z.leb_le _ _)) by (rewrite zlen_app; lia). exists h1, b. by split_and!.
  - assert (0 < zlen b) by (destruct b; [done|unfold zlen; cbn; lia]).
    rewrite U, zlen_app in Hu. rewrite run_ret.
    destruct (IH (st ++ b) h1) as (h2 & c & U2 & Hl & Hm2 & E); [rewrite zlen_app; lia..|].
    rewrite zlen_app in Hl. exists h2, (b ++ c). rewrite zlen_app. split_and!.
    + by rewrite U, U2, app_assoc.
    + lia.
    + intros a. by rewrite Hm2.
    + rewrite app_assoc. exact E.
Qed.

Lemma run_ReadFull k len h w :
  0 <= len <= Z.of_nat k -> len <= zlen (unread h f) ->
  exists h' b, unread h f = b ++ unread h' f /\ zlen b = len /\ (forall a, mem h' a = mem h a) /\
    run k (io_ReadFull (file_reader f) len) (set_host h w) = Returned (b, None) (set_host h' w).
Proof.
  intros Hl Hu. unfold io_ReadFull. rewrite run_iter.
  destruct (read_full_loop k len w k [] h) as (h' & b & U & Hb & Hm & E);
    [unfold zlen; cbn; lia|unfold zlen; cbn; lia|unfold zlen at 1; cbn; lia|].
  exists h', b. by split_and!.
Qed.

(** ** Moving to the offset *)

(** The bytes the mapping starts from.  With offset 0 the code does not move:
    they are what is left of the file. *)
Definition map_source (offset : Z) (h : Host) : bytes :=
  if offset =? 0 then unread h f
  else if is_Seeker f then zdrop offset (contents h)
  else zdrop offset (unread h f).

(** The offset can be reached. *)
Definition reachable_offset (offset : Z) (h : Host) : Prop :=
  if is_Seeker f then exists h' p, file_Seek h f offset 0 = (h', inl p)
  else offset <= max_make /\ offset <= zlen (unread h f).

Lemma run_skip_to k offset w :
  0 <= offset <= Z.of_nat k -> offset <> 0 -> reachable_offset offset (w_host w) ->
  exists h1, run k (skip_to f offset) w = Returned None (set_host h1 w) /\
    unread h1 f = map_source offset (w_host w) /\ (forall a, mem h1 a = mem (w_host w) a).
Proof.
  unfold reachable_offset, map_source, skip_to. intros Hk Hne Hr.
  rewrite (proj2 (Z.eqb_neq _ _)) by done. destruct (is_Seeker f).
  - destruct Hr as (h1 & p & Es). exists h1. rewrite run_hdo, Es. cbn [fst snd].
    destruct (file_seeks (f := f) _ _ _ _ (proj1 Hk) Es). by split_and!.
  - destruct Hr as [Hmax Hlen]. rewrite !(proj2 (Z.ltb_ge _ _)) by lia. cbn [orb]. rewrite run_bind.
    destruct (run_ReadFull k offset (w_host w) w) as (h1 & b & U & Hb & Hm & E); [done|done|].
    replace (set_host (w_host w) w) with w in E by (by destruct w).
    rewrite E. cbn [then_run]. exists h1. split; [done|]. split; [|done].
    rewrite U, <- Hb. unfold zdrop, zlen. rewrite Nat2Z.id. by rewrite drop_app_length.
Qed.

(** ** The region *)

Definition region_of (addr len : Z) (prot : MemProt) (flags : Z) (h : Host) : Host * (Z + error) :=
  if has_bits flags MAP_FIXED then MemMap (MemUnmap h addr len).1 addr len prot
  else MapAlloc h len prot.

Lemma region_files addr len prot flags h : unread (region_of addr len prot flags h).1 f = unread h f.
Proof. unfold region_of. destruct (has_bits _ _); by rewrite ?map_files, ?unmap_files, ?alloc_files. Qed.

Lemma run_map_region k addr len prot flags h w :
  0 <= len < 9223372036854775808 -> len <= Z.of_nat k ->
  match region_of addr len prot flags h with
  | (h2, inr _) => run k (map_region addr len prot flags (Some f)) (set_host h w) =
      Returned MAP_FAILED (set_err (Errno_val EINVAL) (set_host h2 w))
  | (h2, inl a) => mapped h2 a len -> exists h3 b,
      moved f h2 h3 a b /\ zlen b = Z.min len (zlen (unread h f)) /\
      run k (map_region addr len prot flags (Some f)) (set_host h w) =
        if len <=? zlen (unread h f) then Returned a (set_host h3 w)
        else Returned MAP_FAILED (set_err (Errno_val ENODEV) (set_host (MapFree h3 a len).1 w))
  end.
Proof.
  intros Hl Hk. pose proof (region_files addr len prot flags h) as Hf.
  assert (run k (map_region addr len prot flags (Some f)) (set_host h w) =
    match region_of addr len prot flags h with
    | (h2, inr _) => run k (map_fail EINVAL) (set_host h2 w)
    | (h2, inl a) => run k (let! '(_, err) := io_CopyN_offset a (file_reader f) (int64 len) in
        match err with
        | Some _ => let! _ := hdo (fun h => MapFree h a len) in map_fail ENODEV
        | None => Ret a
        end) (set_host h2 w)
    end) as ->.
  { unfold map_region, region_of. destruct (has_bits flags MAP_FIXED).
    - rewrite bind_assoc, !run_hdo. cbn [w_host set_host]. by destruct (MemMap _ _ _ _) as [h2 [a|e]].
    - rewrite run_hdo. cbn [w_host set_host]. by destruct (MapAlloc _ _ _) as [h2 [a|e]]. }
  destruct (region_of addr len prot flags h) as [h2 [a|e]]; cbn [fst] in Hf; [|done].
  intros Hm. rewrite int64_id by wrap_lia. rewrite run_bind.
  destruct (run_CopyN f k a len h2 w) as (h3 & b & Hmv & Hb & ->); [lia|done|].
  rewrite Hf in Hb |- *. exists h3, b. split; [done|]. split; [done|]. cbn [then_run].
  by destruct (len <=? zlen (unread h f)).
Qed.

(** C31: mmap of a file, at any offset it can reach, with or without
    MAP_FIXED: it fails with EINVAL when the debugger has no region;
    otherwise the next bytes of the file are copied to the region and nothing
    outside it changes, and it returns the address when the file has len
    bytes from there on, else frees the region and fails with ENODEV. From
    there on means from the offset of a seekable file and from the position
    plus the offset of another, but with offset 0 from the current position
    of either. *)
Theorem mmap_maps_file k addr len prot flags fd offset w :
  has_bits flags MAP_ANONYMOUS = false -> 0 <= fd -> GetFile (w_host w) fd = inl f -> is_ReadFile f = true ->
  0 <= offset <= Z.of_nat k -> (offset <> 0 -> reachable_offset offset (w_host w)) ->
  0 <= len < 9223372036854775808 -> len <= Z.of_nat k ->
  let source := map_source offset (w_host w) in
  exists h1, unread h1 f = source /\ (forall a, mem h1 a = mem (w_host w) a) /\
  match region_of addr len prot flags h1 with
  | (h2, inr _) => run k (mmap addr len prot flags fd offset) w =
      Returned MAP_FAILED (set_err (Errno_val EINVAL) (set_host h2 w))
  | (h2, inl a) => mapped h2 a len -> exists h3 b,
      moved f h2 h3 a b /\ zlen b = Z.min len (zlen source) /\
      run k (mmap addr len prot flags fd offset) w =
        if len <=? zlen source then Returned a (set_host h3 w)
        else Returned MAP_FAILED (set_err (Errno_val ENODEV) (set_host (MapFree h3 a len).1 w))
  end.
Proof.
  intros Ha Hfd Hg Hr Hoff Hreach Hl Hk source. unfold mmap.
  rewrite Ha, (proj2 (Z.leb_le _ _)) by done. cbn [negb andb]. rewrite run_hget, Hg, Hr. cbn [negb].
  destruct (Z.eqb_spec offset 0) as [E0|Hne]; cbn [negb].
  - exists (w_host w). assert (unread (w_host w) f = source) as Hs by (unfold source, map_source; by rewrite E0).
    split; [done|]. split; [done|].
    pose proof (run_map_region k addr len prot flags (w_host w) w Hl Hk) as HR.
    replace (set_host (w_host w) w) with w in HR by (by destruct w). by rewrite <- Hs.
  - destruct (run_skip_to k offset w Hoff Hne (Hreach Hne)) as (h1 & E & Hs & Hm).
    exists h1. split; [done|]. split; [done|]. rewrite run_bind, E. cbn [then_run].
    pose proof (run_map_region k addr len prot flags h1 w Hl Hk) as HR. by rewrite Hs in HR.
Qed.

End mmap.

(** ** Witnesses *)

#[export] Instance sim_map_laws : MapLaws SimStorage.
Proof.
  split; intros; [|done..]. cbn. by destruct (_ =? 0).
Qed.

#[export] Instance sim_seeks_well f : SeeksWell SimStorage (fun h => (sim_contents h f).1) f.
Proof.
  intros h off h' p Ho E. cbn in E.
  assert ((sim_contents h f).1 = default [] (fst <$> sm_data h !! sf_id f)) as Hc
    by (unfold sim_contents; by destruct (sm_data h !! sf_id f) as [[]|]).
  destruct (sm_data h !! sf_id f) as [[d pos]|]; [|done]. rewrite (proj2 (Z.ltb_ge _ _)) in E by done.
  simplify_eq. split; [|done]. cbn -[sim_contents]. rewrite sim_contents_set, Hc. done.
Qed.

(** Four bytes of a file of ten, from the third on. *)
Lemma mmap_maps_file_witness :
  let source := byte_of_Z <$> [3; 4; 5; 6; 7; 8; 9; 10] in
  exists h1, unread h1 sim_regular = source /\ (forall a, mem h1 a = mem (w_host sim_world) a) /\
  match region_of 0 4 3 2 h1 with
  | (h2, inr _) => run 4 (mmap 0 4 3 2 5 2) sim_world =
      Returned MAP_FAILED (set_err (Errno_val EINVAL) (set_host h2 sim_world))
  | (h2, inl a) => mapped h2 a 4 -> exists h3 b,
      moved sim_regular h2 h3 a b /\ zlen b = 4 /\
      run 4 (mmap 0 4 3 2 5 2) sim_world = Returned a (set_host h3 sim_world)
  end.
Proof.
  refine (mmap_maps_file (D := SimDebugger) sim_regular (fun h => (sim_contents h sim_regular).1)
    4 0 4 3 2 5 2 sim_world eq_refl _ eq_refl eq_refl _ _ _ _); [lia|lia| |lia|lia].
  intros _. unfold reachable_offset. cbn. by do 2 eexists.
Defined.
