(* ===== verification/FileTrip.v ===== *)
(** * Through a file and back

    A guest writes a block to a file, seeks back and reads it again: three
    handlers, two copy loops and the debugger's descriptor in between.  The
    bytes that arrive are the bytes that left. *)

From stdpp Require Import base list gmap numbers.
From Stdlib Require Import Strings.Byte.
From S2P Require Import Prelude GoProg GoSpec LinuxABI GoRuntime Structs Host SimHost World GoIO.
From S2P Require Import WorldSpec Fcntl Syscall SimKernel IoProps MmapProps.
Local Open Scope Z_scope.
Local Open Scope go_scope.

(** Reading, writing and seeking leave the descriptors where they lead. *)
Class TransferLaws `{Debugger} : Prop := {
  transfer_write h f b h' r : file_Write h f b = Some (h', r) -> same_files h h';
  transfer_from h f base off lim h' r :
    file_ReadFrom h f base off lim = Some (h', r) -> same_files h h';
  transfer_seek h f off whence : same_files h (file_Seek h f off whence).1
}.

Section filetrip.
Context {D : Debugger} {TL : TransferLaws}.

Definition leads (fd : Z) (f : File) (w : World) : Prop := GetFile (w_host w) fd = inl f.

Lemma leads_file_at fd f w : leads fd f w <-> file_at (w_host w) fd = Some f.
Proof. unfold leads, file_at. destruct (GetFile (w_host w) fd); naive_solver. Qed.

Lemma keeps_leads_hwait fd f {X} (g : Host -> option (Host * X)) :
  (forall h h' x, g h = Some (h', x) -> same_files h h') -> keeps (leads fd f) (hwait g).
Proof.
  intros Hg. apply keeps_act; [|intros; apply keeps_ret]. intros w w' x Hw E.
  destruct (g (w_host w)) as [[h' y]|] eqn:Eg; simplify_eq.
  apply leads_file_at in Hw. apply leads_file_at. cbn. by rewrite (Hg _ _ _ Eg).
Qed.

Lemma keeps_leads_hget fd f {X} (g : Host -> X) : keeps (leads fd f) (hget g).
Proof. apply keeps_act; [by intros; simplify_eq|]. intros; apply keeps_ret. Qed.

Lemma keeps_leads_Copy fd f file base n : keeps (leads fd f) (io_Copy_section file base n).
Proof.
  unfold io_Copy_section. destruct (is_ReaderFrom file).
  { apply keeps_leads_hwait. intros h h' x. apply transfer_from. }
  apply keeps_copy.
  - intros off k. unfold section_read. destruct (_ <=? off); [apply keeps_ret|].
    apply keeps_bind; [apply keeps_leads_hget|]. intros []; apply keeps_ret.
  - intros s b. unfold file_write. apply keeps_bind.
    + apply keeps_leads_hwait. intros h h' x. apply transfer_write.
    + intros []; apply keeps_ret.
Qed.

Context {ST : Storage} {ML : MemoryLaws ST} (f : File).
Context `{!ReadsWell ST f} `{!WritesWell ST f} `{!SeeksWell ST (fun h => contents h f) f}.

(** Seek to an offset from the start, then read. *)
Definition read_at (fd off buf count : Z) : prog World (Z * Z) :=
  let! p := Fcntl.lseek fd off 0 in
  let! n := Fcntl.read fd buf count in
  Ret (p, n).

Lemma run_read_at k fd off buf bs rest w h2 p :
  leads fd f w -> is_Reader f = true -> is_Seeker f = true -> 0 <= off ->
  zlen bs < 9223372036854775808 -> zlen bs <= Z.of_nat k -> mapped (w_host w) buf (zlen bs) ->
  zdrop off (contents (w_host w) f) = bs ++ rest ->
  file_Seek (w_host w) f off 0 = (h2, inl p) ->
  exists h3, run k (read_at fd off buf (zlen bs)) w = Returned (p, zlen bs) (set_host h3 w) /\
    block h3 buf bs /\ same_outside (w_host w) h3 buf (zlen bs).
Proof.
  intros Hg Hr Hs Hoff Hl Hk Hm Hst Hseek. pose proof (zlen_nonneg bs).
  destruct (file_seeks (w_host w) off h2 p Hoff Hseek) as [Hu Hmem]. rewrite Hst in Hu.
  assert (leads fd f (set_host h2 w)) as Hg2.
  { apply leads_file_at. apply leads_file_at in Hg. cbn. rewrite <- Hg.
    pose proof (transfer_seek (w_host w) f off 0 fd) as E. by rewrite Hseek in E. }
  unfold read_at, Fcntl.lseek, leads in *. cbn [w_host set_host] in Hg2.
  rewrite run_bind, run_hget, Hg, Hs, run_hdo, Hseek. cbn [fst snd]. rewrite run_ret. cbn [then_run].
  unfold Fcntl.read. rewrite bind_assoc, run_hget. cbn [w_host set_host]. rewrite Hg2, Hr, bind_assoc, run_bind.
  rewrite int64_id by wrap_lia.
  destruct (run_CopyN f k buf (zlen bs) h2 w) as (h3 & b & (U & B & S) & Hb & E); [lia| |].
  { intros i Hi. rewrite Hmem. by apply Hm. }
  assert (zlen bs <= zlen (unread h2 f)) as Hle by (rewrite Hu, zlen_app; pose proof (zlen_nonneg rest); lia).
  rewrite Z.min_l in Hb by done. rewrite (proj2 (Z.leb_le _ _)) in E by done. rewrite E. cbn [then_run bind].
  rewrite run_ret. exists h3. rewrite Hb in *. split; [done|].
  assert (b = bs) as ->.
  { rewrite Hu in U. symmetry in U. apply app_inj_1 in U as [-> _]; [done|]. unfold zlen in Hb. lia. }
  split; [done|]. intros x Hx. by rewrite S, Hmem.
Qed.

(** C17: A block written to a seekable file with write, at whatever offset
    the file was, and read back with lseek to that offset and read arrives
    unchanged at the second buffer, whether io.Copy or the file's own
    ReadFrom did the writing; no other memory is changed. *)
Theorem write_seek_read k fd buf buf2 bs w :
  GetFile (w_host w) fd = inl f ->
  is_Writer f = true -> is_Reader f = true -> is_Seeker f = true ->
  zlen bs < 9223372036854775808 -> zlen bs <= Z.of_nat k ->
  block (w_host w) buf bs -> mapped (w_host w) buf2 (zlen bs) ->
  let o := offset (w_host w) f in
  exists h1, run k (Fcntl.write fd buf (zlen bs)) w = Returned (zlen bs) (set_host h1 w) /\
    contents h1 f = written o bs (contents (w_host w) f) /\
    forall h2 p, file_Seek h1 f (Z.of_nat o) 0 = (h2, inl p) ->
      exists h3, run k (read_at fd (Z.of_nat o) buf2 (zlen bs)) (set_host h1 w) =
          Returned (p, zlen bs) (set_host h3 w) /\
        block h3 buf2 bs /\ same_outside (w_host w) h3 buf2 (zlen bs).
Proof.
  intros Hg Hwr Hrd Hsk Hl Hk Hb Hm o. pose proof (zlen_nonneg bs).
  destruct (run_Copy f k buf bs (w_host w) w) as (h1 & E & Hst & _ & Hmem); [done|lia|done|].
  replace (set_host (w_host w) w) with w in E by (by destruct w).
  pose proof (keeps_leads_Copy fd f f buf (zlen bs) k w Hg) as Hg1. rewrite E in Hg1.
  exists h1. split; [unfold Fcntl.write; rewrite run_hget, Hg, Hwr, run_bind, int64_id by wrap_lia; by rewrite E|].
  split; [done|]. intros h2 p Hseek.
  destruct (drop_splice "000"%byte o bs (contents (w_host w) f)) as [rest Hd].
  destruct (run_read_at k fd (Z.of_nat o) buf2 bs rest (set_host h1 w) h2 p) as (h3 & E3 & B3 & S3);
    try done; [lia| |unfold zdrop; cbn; by rewrite Hst, Nat2Z.id|].
  - intros i Hi. cbn. rewrite Hmem. by apply Hm.
  - exists h3. split; [done|]. split; [done|]. intros x Hx. rewrite S3 by done. apply Hmem.
Qed.

End filetrip.

(** ** Witness *)

#[export] Instance sim_transfer_laws : TransferLaws (H := SimDebugger).
Proof.
  assert (forall (h : sim) f b, sm_fds (sim_write_file h f b).1 = sm_fds h) as Hw.
  { intros h f b. unfold sim_write_file. by destruct (sim_contents _ _). }
  split.
  - intros h f b h' r [= E] fd. rewrite !sim_file_at. specialize (Hw h f b). by rewrite E in Hw; cbn in Hw; rewrite Hw.
  - intros h f base off lim h' r E fd. rewrite !sim_file_at. cbn in E. set (b := sim_peek _ _ _) in E.
    specialize (Hw h f b). destruct (sim_write_file h f b). simplify_eq. cbn in Hw. by rewrite Hw.
  - intros h f off whence fd. rewrite !sim_file_at. cbn.
    by destruct (sm_data h !! sf_id f) as [[]|]; [destruct (_ <? 0)|].
Qed.

#[export] Instance sim_seeks_contents f : SeeksWell SimStorage (fun h => contents h f) f.
Proof. apply sim_seeks_well. Qed.

Lemma sim_seek_ok (h : Host (Debugger := SimDebugger)) f off :
  0 <= off -> contents h f <> [] -> exists h2, file_Seek h f off 0 = (h2, inl off).
Proof.
  intros Ho Hs. cbn in *. unfold sim_contents in Hs. destruct (sm_data h !! sf_id f) as [[d pos]|]; [|done].
  rewrite (proj2 (Z.ltb_ge _ _)) by done. by eexists.
Qed.

(** The file of ten bytes at position 3: the two bytes at 0x1000 are written over
    the fourth and the fifth and come back at 0x1020. *)
Definition sim_at_three : sim := sim_set_data (<[1 := (sim_ten, 3)]> ∅) sim0.

Lemma write_seek_read_witness :
  exists h1 h3, run 2 (Fcntl.write 5 0x1000 2) (sim_boot sim_at_three) =
      Returned 2 (set_host h1 (sim_boot sim_at_three)) /\
    contents h1 sim_regular = take 3 sim_ten ++ sim_path ++ drop 5 sim_ten /\
    run 2 (read_at 5 3 0x1020 2) (set_host h1 (sim_boot sim_at_three)) =
      Returned (3, 2) (set_host h3 (sim_boot sim_at_three)) /\
    block h3 0x1020 sim_path.
Proof.
  destruct (write_seek_read (D := SimDebugger) sim_regular 2 5 0x1000 0x1020 sim_path (sim_boot sim_at_three))
    as (h1 & E1 & Hst & Hr);
    [reflexivity|reflexivity|reflexivity|reflexivity|by vm_compute|by vm_compute|
     apply sim_buffer_block| |].
  { intros i Hi. change (zlen sim_path) with 2 in Hi.
    replace (0x1020 + i) with (0x1000 + (0x20 + i)) by lia. apply (sim_buffer_mapped 64); lia. }
  destruct (sim_seek_ok h1 sim_regular 3) as [h2 E2]; [lia|by rewrite Hst|].
  destruct (Hr h2 3 E2) as (h3 & E3 & B & _). by exists h1, h3.
Defined.
