(* ===== verification/Stream.v ===== *)
(** * Argument streams: the interface between the decoder and the va_lists

    [encoding.Decode] of the debugger reads a value from an [encoding.Stream],
    the interface the va_lists of src/gcc implement.  The decoder is not in this
    repository; all it can do is call the interface, so a decoder is a [decode]:
    a finite tree of calls, each continued by its result.  The class [Stream] is
    the interface and [run_decode] the calls' effect on an implementation. *)

From stdpp Require Import base list numbers.
From Stdlib Require Import SpecFloat Strings.Byte.
From S2P Require Import Prelude.
Local Open Scope Z_scope.

(** A [float64] and a [float32] as their values. *)
Definition float64_of_bits (z : Z) : spec_float :=
  let s := Z.testbit z 63 in
  let e := Z.land (Z.shiftr z 52) 2047 in
  let m := Z.land z (Z.ones 52) in
  if e =? 2047 then (if m =? 0 then S754_infinity s else S754_nan)
  else if e =? 0 then
    match m with Zpos p => S754_finite s p (-1074) | _ => S754_zero s end
  else
    match m + 2 ^ 52 with Zpos p => S754_finite s p (e - 1075) | _ => S754_nan end.

(** The conversion [float32(d)]: round to nearest, ties to even. *)
Definition float32_of_float64 (d : spec_float) : spec_float :=
  match d with
  | S754_finite s m e => binary_round 24 128 s m e
  | d => d
  end.

(** What [internal.PointerStream] is asked for: the address and the size. *)
Record pointer_stream := PointerStream { ps_addr : Z; ps_size : Z }.

(** The reading methods of [encoding.Stream]; every writing method of the
    va_lists is unsupported. *)
Class Stream (S : Type) := {
  BlockSize : S -> Z;
  Offset : S -> Z;
  Skip : Z -> S -> S * option error;
  Read : Z -> S -> S * (bytes + error);
  ReadDouble : S -> S * (spec_float + error);
  ReadFloat : S -> S * (spec_float + error);
  ReadString : S -> S * (bytes + error);
  ReadStream : S -> S * (pointer_stream + error);
  Write : bytes -> S -> S * (Z * option error);
  WriteFloat : spec_float -> S -> S * option error;
  WriteDouble : spec_float -> S -> S * option error;
  WriteString : bytes -> S -> S * option error;
  WriteStream : Z -> S -> S * (pointer_stream + error)
}.

(** A decoder: what it does with the stream before it returns. *)
Inductive decode :=
| DDone (e : option error)
| DBlockSize (k : Z -> decode)
| DOffset (k : Z -> decode)
| DSkip (n : Z) (k : option error -> decode)
| DRead (n : Z) (k : bytes + error -> decode)
| DReadDouble (k : spec_float + error -> decode)
| DReadFloat (k : spec_float + error -> decode)
| DReadString (k : bytes + error -> decode)
| DReadStream (k : pointer_stream + error -> decode)
| DWrite (b : bytes) (k : Z * option error -> decode)
| DWriteFloat (x : spec_float) (k : option error -> decode)
| DWriteDouble (x : spec_float) (k : option error -> decode)
| DWriteString (b : bytes) (k : option error -> decode)
| DWriteStream (n : Z) (k : pointer_stream + error -> decode).

Section stream.
Context {S : Type} `{Stream S}.

(** [encoding.Decode(va, arg)] *)
Fixpoint run_decode (d : decode) (va : S) : S * option error :=
  match d with
  | DDone e => (va, e)
  | DBlockSize k => run_decode (k (BlockSize va)) va
  | DOffset k => run_decode (k (Offset va)) va
  | DSkip n k => run_decode (k (Skip n va).2) (Skip n va).1
  | DRead n k => run_decode (k (Read n va).2) (Read n va).1
  | DReadDouble k => run_decode (k (ReadDouble va).2) (ReadDouble va).1
  | DReadFloat k => run_decode (k (ReadFloat va).2) (ReadFloat va).1
  | DReadString k => run_decode (k (ReadString va).2) (ReadString va).1
  | DReadStream k => run_decode (k (ReadStream va).2) (ReadStream va).1
  | DWrite b k => run_decode (k (Write b va).2) (Write b va).1
  | DWriteFloat x k => run_decode (k (WriteFloat x va).2) (WriteFloat x va).1
  | DWriteDouble x k => run_decode (k (WriteDouble x va).2) (WriteDouble x va).1
  | DWriteString b k => run_decode (k (WriteString b va).2) (WriteString b va).1
  | DWriteStream n k => run_decode (k (WriteStream n va).2) (WriteStream n va).1
  end.

(** The loop of [Extract]: decode each argument, then realign. *)
Fixpoint extract (realign : S -> S) (args : list decode) (va : S) : S * option error :=
  match args with
  | [] => (va, None)
  | d :: args =>
      match run_decode d va with
      | (va', Some e) => (va', Some e)
      | (va', None) => extract realign args (realign va')
      end
  end.

(** An invariant that every call of the interface preserves survives any
    decoder, whatever the decoder does. *)
Class StreamInv (I : S -> Prop) : Prop := {
  inv_Skip n va : I va -> I (Skip n va).1;
  inv_Read n va : I va -> I (Read n va).1;
  inv_ReadDouble va : I va -> I (ReadDouble va).1;
  inv_ReadFloat va : I va -> I (ReadFloat va).1;
  inv_ReadString va : I va -> I (ReadString va).1;
  inv_ReadStream va : I va -> I (ReadStream va).1;
  inv_Write b va : I va -> I (Write b va).1;
  inv_WriteFloat x va : I va -> I (WriteFloat x va).1;
  inv_WriteDouble x va : I va -> I (WriteDouble x va).1;
  inv_WriteString b va : I va -> I (WriteString b va).1;
  inv_WriteStream n va : I va -> I (WriteStream n va).1
}.

Lemma run_decode_inv (I : S -> Prop) `{!StreamInv I} d : forall va,
  I va -> I (run_decode d va).1.
Proof.
  induction d; intros va Hva; cbn [run_decode]; auto;
    match goal with IH : forall _, _ |- _ => apply IH end;
    by first [apply inv_Skip | apply inv_Read | apply inv_ReadDouble | apply inv_ReadFloat
             | apply inv_ReadString | apply inv_ReadStream | apply inv_Write
             | apply inv_WriteFloat | apply inv_WriteDouble | apply inv_WriteString
             | apply inv_WriteStream].
Qed.

Lemma extract_inv (I : S -> Prop) `{!StreamInv I} realign args : forall va,
  (forall va, I va -> I (realign va)) -> I va -> I (extract realign args va).1.
Proof.
  induction args as [|d args IH]; intros va Hr Hva; cbn [extract]; [done|].
  pose proof (run_decode_inv I d va Hva) as Hd.
  destruct (run_decode d va) as [va' [e|]]; cbn in *; [done|]. by apply IH; [|apply Hr].
Qed.

End stream.

(** ** Sequential byte sources

    The contract of [Read] that [Decode] relies on: the arguments are a stream
    of bytes, and reading [n] returns the next [n] and moves past them.
    [stream va] is the stream as a function of the position and [avail va n]
    says its first [n] bytes are in mapped memory. *)
Definition slice (s : Z -> byte) (n : Z) : bytes := (fun j => s (Z.of_nat j)) <$> seq 0 (Z.to_nat n).
Definition shift (s : Z -> byte) (n : Z) : Z -> byte := fun i => s (n + i).

Class Sequential (S : Type) `{Stream S} (ok : S -> Prop) (stream : S -> Z -> byte)
    (avail : S -> Z -> Prop) : Prop := {
  seq_Read va n :
    ok va -> 0 <= n < 2 ^ 31 -> avail va n ->
    exists va', Read n va = (va', inl (slice (stream va) n)) /\ ok va' /\
      (forall i, 0 <= i -> stream va' i = stream va (n + i)) /\
      (forall k, avail va (n + k) -> avail va' k);
  seq_avail_le va n k : 0 <= n <= k -> avail va k -> avail va n
}.

(** Reads of the sizes given, one after the other. *)
Fixpoint reads {S} `{Stream S} (ns : list Z) (va : S) : S * (list bytes + error) :=
  match ns with
  | [] => (va, inl [])
  | n :: ns =>
      match Read n va with
      | (va', inr e) => (va', inr e)
      | (va', inl b) =>
          match reads ns va' with
          | (va'', inl bs) => (va'', inl (b :: bs))
          | (va'', inr e) => (va'', inr e)
          end
      end
  end.

Definition zsum (ns : list Z) : Z := foldr Z.add 0 ns.

(** The slices of a stream that the sizes cut out. *)
Fixpoint slices (s : Z -> byte) (ns : list Z) : list bytes :=
  match ns with
  | [] => []
  | n :: ns => slice s n :: slices (shift s n) ns
  end.

Lemma slice_ext s s' n : (forall i, 0 <= i -> s i = s' i) -> slice s n = slice s' n.
Proof. intros E. apply list_fmap_ext. intros i x _. apply E. lia. Qed.

Lemma slices_ext ns : forall s s', Forall (Z.le 0) ns ->
  (forall i, 0 <= i -> s i = s' i) -> slices s ns = slices s' ns.
Proof.
  induction ns as [|n ns IH]; intros s s' Hns E; cbn; [done|]. inv Hns.
  f_equal; [by apply slice_ext|]. apply IH; [done|]. intros i Hi. apply E. lia.
Qed.

Lemma length_slice s n : 0 <= n -> zlen (slice s n) = n.
Proof. intros. unfold zlen, slice. rewrite length_fmap, length_seq. lia. Qed.

Lemma zsum_nonneg ns : Forall (Z.le 0) ns -> 0 <= zsum ns.
Proof. induction 1; unfold zsum in *; cbn [foldr]; lia. Qed.

Lemma slice_app s n m : 0 <= n -> 0 <= m -> slice s (n + m) = slice s n ++ slice (shift s n) m.
Proof.
  intros Hn Hm. unfold slice, shift.
  rewrite Z2Nat.inj_add, seq_app, fmap_app by lia. f_equal. rewrite Nat.add_0_l.
  apply list_eq. intros i. rewrite !list_lookup_fmap.
  destruct (decide (i < Z.to_nat m)%nat).
  - rewrite !lookup_seq_lt by lia. cbn. f_equal. f_equal. lia.
  - rewrite !lookup_seq_ge by lia. done.
Qed.

Section sequential.
Context {S : Type} `{Stream S} {ok : S -> Prop} {stream : S -> Z -> byte}
  {avail : S -> Z -> Prop} `{!Sequential S ok stream avail}.

(** Any sequence of reads of a sequential source returns the consecutive
    slices of its stream. *)
Lemma reads_slices ns : forall va,
  ok va -> Forall (fun n => 0 <= n < 2 ^ 31) ns -> avail va (zsum ns) ->
  exists va', reads ns va = (va', inl (slices (stream va) ns)) /\ ok va' /\
    (forall i, 0 <= i -> stream va' i = stream va (zsum ns + i)).
Proof.
  induction ns as [|n ns IH]; intros va Hok Hns Hav; cbn [reads slices zsum foldr].
  - exists va. done.
  - inv Hns as [|? ? Hn Hns']. cbn beta in Hn.
    assert (Forall (Z.le 0) ns) as Hpos by (eapply Forall_impl; [|exact Hns']; cbn beta; lia).
    pose proof (zsum_nonneg ns Hpos) as Hs. change (zsum (n :: ns)) with (n + zsum ns) in Hav.
    destruct (seq_Read va n) as (va1 & -> & Hok1 & Hst & Hav1);
      [done|done|apply (seq_avail_le va n (n + zsum ns)); [lia|done]|].
    destruct (IH va1) as (va2 & -> & Hok2 & Hst2); [done|done|by apply Hav1|].
    exists va2. split; [|split; [done|]].
    + do 3 f_equal. by apply slices_ext.
    + intros i Hi. rewrite Hst2, Hst by lia. f_equal. change (foldr Z.add 0 ns) with (zsum ns). lia.
Qed.

End sequential.
