(* ===== verification/VaStd.v ===== *)
(** * The plain va_list: src/gcc/std.go

    A pointer into the caller's stack, used for ARM and x86, and the pieces the
    three va_lists share. *)

From stdpp Require Import base list numbers.
From Stdlib Require Import SpecFloat Strings.Byte.
From S2P Require Import Prelude Structs Host Stream.
Local Open Scope Z_scope.

(** [float32(d), nil] or the error: every [ReadFloat]. *)
Definition to_float32 {S} (r : S * (spec_float + error)) : S * (spec_float + error) :=
  (r.1, match r.2 with inl d => inl (float32_of_float64 d) | inr e => inr e end).

Definition as_float64 (r : bytes + error) : spec_float + error :=
  match r with inl b => inl (float64_of_bits (le_decode b)) | inr e => inr e end.

(** The pointer read by [ReadStream], handed to [internal.PointerStream]. *)
Definition as_pointer {S} (size : Z) (r : S * (bytes + error)) : S * (pointer_stream + error) :=
  (r.1, match r.2 with inl b => inl (PointerStream (le_decode b) size) | inr e => inr e end).

(** [debugger.Align]: not in this repository, a parameter of [Extract]. *)
Definition aligner := Z -> Z -> Z.

Module Std.

Record va_std := VaStd { ptr : Z; size : Z }.

(** [NewStdVaList] *)
Definition NewStdVaList (p sz : Z) : va_std + error :=
  if (p =? 0) || (sz =? 0) then inr ErrArgumentInvalid
  else inl (VaStd p (int64 sz)).

Section std.
Context {D : Debugger} (h : Host).

Definition Skip (n : Z) (va : va_std) : va_std * option error :=
  (VaStd (uint64 (ptr va + uint64 n)) (size va), None).

Definition Read (n : Z) (va : va_std) : va_std * (bytes + error) :=
  (VaStd (uint64 (ptr va + uint64 n)) (size va), MemReadPtr h (ptr va) (uint64 n)).

Definition ReadDouble (va : va_std) : va_std * (spec_float + error) :=
  let r := Read 8 va in (r.1, as_float64 r.2).

#[export] Instance stream : Stream va_std := {|
  Stream.BlockSize := size;
  Stream.Offset _ := 0;
  Stream.Skip := Skip;
  Stream.Read := Read;
  Stream.ReadDouble := ReadDouble;
  Stream.ReadFloat va := to_float32 (ReadDouble va);
  Stream.ReadString va := (va, inr ErrUnsupported);
  Stream.ReadStream va := as_pointer (size va) (Read (size va) va);
  Stream.Write _ va := (va, (0, Some ErrUnsupported));
  Stream.WriteFloat _ va := (va, Some ErrUnsupported);
  Stream.WriteDouble _ va := (va, Some ErrUnsupported);
  Stream.WriteString _ va := (va, Some ErrUnsupported);
  Stream.WriteStream _ va := (va, inr ErrUnsupported) |}.

Definition realign (Align : aligner) (va : va_std) : va_std :=
  VaStd (Align (ptr va) 4) (size va).

Definition Extract (Align : aligner) (args : list decode) (va : va_std) : va_std * option error :=
  extract (realign Align) args va.

End std.
End Std.

