(* ===== verification/VaA64.v ===== *)
(** * The AAPCS64 va_list: src/gcc/arm64/va.go

    General registers are saved below [__gr_top] at the negative offset
    [__gr_offs], vector registers below [__vr_top]; what does not fit is on the
    stack. *)

From stdpp Require Import base list numbers.
From Stdlib Require Import SpecFloat Strings.Byte.
From S2P Require Import Prelude Structs Host Stream VaStd.
Local Open Scope Z_scope.

Module Arm64.

Definition POINTER_SIZE : Z := 8.

Section arm64.
Context {D : Debugger} (h : Host).

Definition NewVaList (p : Z) : va_arm64 + error :=
  match MemExtract h p ShVaArm64 zero_va_arm64 with
  | (_, Some e) => inr e
  | (l, None) => inl l
  end.

Definition set_stack (v : Z) (va : va_arm64) : va_arm64 :=
  VaArm64 v (a64_gr_top va) (a64_vr_top va) (a64_gr_offs va) (a64_vr_offs va).
Definition set_gr_offs (v : Z) (va : va_arm64) : va_arm64 :=
  VaArm64 (a64_stack va) (a64_gr_top va) (a64_vr_top va) v (a64_vr_offs va).
Definition set_vr_offs (v : Z) (va : va_arm64) : va_arm64 :=
  VaArm64 (a64_stack va) (a64_gr_top va) (a64_vr_top va) (a64_gr_offs va) v.

Definition Skip (n : Z) (va : va_arm64) : va_arm64 * option error :=
  (if a64_gr_offs va <? 0
   then set_gr_offs (int32 (a64_gr_offs va + int32 n)) va
   else set_stack (uint64 (a64_stack va + uint64 n)) va, None).

(** [va.__gr_top+uint64(va.__gr_offs)] *)
Definition gr_addr (va : va_arm64) : Z := uint64 (a64_gr_top va + uint64 (a64_gr_offs va)).

Definition Read (n : Z) (va : va_arm64) : va_arm64 * (bytes + error) :=
  if 0 <=? a64_gr_offs va then
    (set_stack (uint64 (a64_stack va + uint64 n)) va, MemReadPtr h (a64_stack va) (uint64 n))
  else
    let x := n + a64_gr_offs va in
    if x <=? 0 then
      (set_gr_offs (int32 (a64_gr_offs va + int32 n)) va, MemReadPtr h (gr_addr va) (uint64 n))
    else
      let i := n - x in
      match MemReadPtr h (gr_addr va) (uint64 i) with
      | inr e => (va, inr e)
      | inl b1 =>
          let va := set_gr_offs 0 va in
          (set_stack (uint64 (a64_stack va + uint64 x)) va,
           match MemReadPtr h (a64_stack va) (uint64 x) with
           | inl b2 => inl (b1 ++ b2)
           | inr e => inr e
           end)
      end.

Definition ReadDouble (va : va_arm64) : va_arm64 * (spec_float + error) :=
  if 0 <=? a64_vr_offs va then
    (set_stack (uint64 (a64_stack va + 8)) va, as_float64 (MemReadPtr h (a64_stack va) 8))
  else
    (set_vr_offs (int32 (a64_vr_offs va + 16)) va,
     as_float64 (MemReadPtr h (uint64 (a64_vr_top va + uint64 (a64_vr_offs va))) 8)).

#[export] Instance stream : Stream va_arm64 := {|
  Stream.BlockSize _ := 8;
  Stream.Offset _ := 0;
  Stream.Skip := Skip;
  Stream.Read := Read;
  Stream.ReadDouble := ReadDouble;
  Stream.ReadFloat va := to_float32 (ReadDouble va);
  Stream.ReadString va := (va, inr ErrUnsupported);
  Stream.ReadStream va := as_pointer POINTER_SIZE (Read 8 va);
  Stream.Write _ va := (va, (0, Some ErrUnsupported));
  Stream.WriteFloat _ va := (va, Some ErrUnsupported);
  Stream.WriteDouble _ va := (va, Some ErrUnsupported);
  Stream.WriteString _ va := (va, Some ErrUnsupported);
  Stream.WriteStream _ va := (va, inr ErrUnsupported) |}.

Definition realign (Align : aligner) (va : va_arm64) : va_arm64 :=
  set_gr_offs (Align (a64_gr_offs va) POINTER_SIZE)
    (set_stack (Align (a64_stack va) POINTER_SIZE) va).

Definition Extract (Align : aligner) (args : list decode) (va : va_arm64) : va_arm64 * option error :=
  extract (realign Align) args va.

End arm64.
End Arm64.

