(* ===== verification/VaX64.v ===== *)
(** * The System V x86-64 va_list: src/gcc/x86_64/va.go

    Six general registers are saved at [reg_save_area], eight vector registers
    after them; what does not fit is in [overflow_arg_area]. *)

From stdpp Require Import base list numbers.
From Stdlib Require Import SpecFloat Strings.Byte.
From S2P Require Import Prelude Structs Host Stream VaStd.
Local Open Scope Z_scope.

Module X8664.

Definition POINTER_SIZE : Z := 8.
Definition GENERAL_OFFSET_MAX : Z := 6 * POINTER_SIZE.
Definition XMM_OFFSET_MAX : Z := GENERAL_OFFSET_MAX + 8 * 16.

Section x86_64.
Context {D : Debugger} (h : Host).

Definition NewVaList (p : Z) : va_x86_64 + error :=
  match MemExtract h p ShVaX8664 zero_va_x86_64 with
  | (_, Some e) => inr e
  | (l, None) => inl l
  end.

Definition set_gp (v : Z) (va : va_x86_64) : va_x86_64 :=
  VaX8664 v (x64_fp_offset va) (x64_overflow_arg_area va) (x64_reg_save_area va).
Definition set_fp (v : Z) (va : va_x86_64) : va_x86_64 :=
  VaX8664 (x64_gp_offset va) v (x64_overflow_arg_area va) (x64_reg_save_area va).
Definition set_overflow (v : Z) (va : va_x86_64) : va_x86_64 :=
  VaX8664 (x64_gp_offset va) (x64_fp_offset va) v (x64_reg_save_area va).

Definition Skip (n : Z) (va : va_x86_64) : va_x86_64 * option error :=
  (if x64_gp_offset va <? GENERAL_OFFSET_MAX
   then set_gp (uint32 (x64_gp_offset va + uint32 n)) va
   else set_overflow (uint64 (x64_overflow_arg_area va + uint64 n)) va, None).

(** [va.reg_save_area+uint64(va.gp_offset)] *)
Definition gp_addr (va : va_x86_64) : Z := uint64 (x64_reg_save_area va + x64_gp_offset va).

Definition Read (n : Z) (va : va_x86_64) : va_x86_64 * (bytes + error) :=
  if GENERAL_OFFSET_MAX <=? x64_gp_offset va then
    (set_overflow (uint64 (x64_overflow_arg_area va + uint64 n)) va,
     MemReadPtr h (x64_overflow_arg_area va) (uint64 n))
  else if n + x64_gp_offset va <=? GENERAL_OFFSET_MAX then
    (set_gp (uint32 (x64_gp_offset va + uint32 n)) va, MemReadPtr h (gp_addr va) (uint64 n))
  else
    let i := uint32 (GENERAL_OFFSET_MAX - x64_gp_offset va) in
    match MemReadPtr h (gp_addr va) i with
    | inr e => (va, inr e)
    | inl b1 =>
        let va := set_gp GENERAL_OFFSET_MAX va in
        let x := uint64 (uint64 n - i) in
        (set_overflow (uint64 (x64_overflow_arg_area va + x)) va,
         match MemReadPtr h (x64_overflow_arg_area va) x with
         | inl b2 => inl (b1 ++ b2)
         | inr e => inr e
         end)
    end.

Definition ReadDouble (va : va_x86_64) : va_x86_64 * (spec_float + error) :=
  if XMM_OFFSET_MAX <=? x64_fp_offset va then
    (set_overflow (uint64 (x64_overflow_arg_area va + 8)) va,
     as_float64 (MemReadPtr h (x64_overflow_arg_area va) 8))
  else
    (set_fp (uint32 (x64_fp_offset va + 16)) va,
     as_float64 (MemReadPtr h (uint64 (x64_reg_save_area va + x64_fp_offset va)) 8)).

#[export] Instance stream : Stream va_x86_64 := {|
  Stream.BlockSize _ := 8;
  Stream.Offset _ := 0;
  Stream.Skip := Skip;
  Stream.Read := Read;
  Stream.ReadDouble := ReadDouble;
  Stream.ReadFloat va := to_float32 (ReadDouble va);
  Stream.ReadString va := (va, inr ErrUnsupported);
  Stream.ReadStream va := as_pointer POINTER_SIZE (Read 8 va);
  Stream.Write _ va := (va, (0, Some ErrUnsupported));
  Stream.WriteFloat _ va := (va, Some ErrUnsupported);
  Stream.WriteDouble _ va := (va, Some ErrUnsupported);
  Stream.WriteString _ va := (va, Some ErrUnsupported);
  Stream.WriteStream _ va := (va, inr ErrUnsupported) |}.

Definition realign (Align : aligner) (va : va_x86_64) : va_x86_64 :=
  set_overflow (Align (x64_overflow_arg_area va) POINTER_SIZE)
    (set_gp (Align (x64_gp_offset va) POINTER_SIZE) va).

Definition Extract (Align : aligner) (args : list decode) (va : va_x86_64) : va_x86_64 * option error :=
  extract (realign Align) args va.

End x86_64.
End X8664.

