(* ===== verification/VaList.v ===== *)
(** * Choosing a va_list: src/gcc/va.go, gcc/arm/va.go and gcc/x86/va.go

    The list of each architecture behind one constructor. *)

From stdpp Require Import base list numbers.
From Stdlib Require Import SpecFloat Strings.Byte.
From S2P Require Import Prelude Structs Host Stream VaStd VaA64 VaX64.
Local Open Scope Z_scope.

Inductive va_list := VaPtr (l : Std.va_std) | VaA64 (l : va_arm64) | VaX64 (l : va_x86_64).

Section new.
Context {D : Debugger}.

Definition wrap_va {L} (c : L -> va_list) (r : L + error) : va_list + error :=
  match r with inl l => inl (c l) | inr e => inr e end.

Definition NewVaList (h : Host) (p : Z) : va_list + error :=
  match dbg_Arch h with
  | ARCH_ARM | ARCH_X86 => wrap_va VaPtr (Std.NewStdVaList p 4)
  | ARCH_ARM64 => wrap_va VaA64 (Arm64.NewVaList h p)
  | ARCH_X86_64 => wrap_va VaX64 (X8664.NewVaList h p)
  | ARCH_OTHER _ => inr ErrArchUnsupported
  end.

(** [arm.NewVaList] and [x86.NewVaList] *)
Definition NewVaList_arm (p : Z) : Std.va_std + error := Std.NewStdVaList p 4.
Definition NewVaList_x86 (p : Z) : Std.va_std + error := Std.NewStdVaList p 4.

End new.
