(* ===== verification/VaProps.v ===== *)
(** * Variable arguments: theorems

    A va_list is a cursor over bytes that lie in a register save area first and
    on the stack after it.  [Read] of each va_list refines that cursor: any
    sequence of reads returns consecutive slices, also across the boundary; an
    [Extract] of integers moves by whole slots; [Skip] does neither when it
    crosses the boundary. *)

From stdpp Require Import base list numbers.
From Stdlib Require Import SpecFloat Strings.Byte.
From S2P Require Import Prelude Structs Host SimHost Stream VaStd VaA64 VaX64 VaList.
Local Open Scope Z_scope.

(** ** Memory *)

(** A mapped range is read completely; [mem] is the memory of [h]. *)
Class PtrRead `{D : Debugger} (h : Host) (mem : Z -> option byte) : Prop :=
  ptr_read_bytes : forall a n, 0 <= n -> (forall i, 0 <= i < n -> is_Some (mem (a + i))) ->
    MemReadPtr h a n = inl (slice (fun i => default "000"%byte (mem (a + i))) n).

(** The bytes a cursor runs over, given the address of each. *)
Definition bytes_at (mem : Z -> option byte) (addr : Z -> Z) (i : Z) : byte :=
  default "000"%byte (mem (addr i)).

Definition all_mapped (mem : Z -> option byte) (addr : Z -> Z) (n : Z) : Prop :=
  forall i, 0 <= i < n -> is_Some (mem (addr i)).

Lemma read_run `{D : Debugger} h mem `{!PtrRead h mem} addr a n :
  0 <= n -> (forall i, 0 <= i < n -> addr i = a + i) -> all_mapped mem addr n ->
  MemReadPtr h a n = inl (slice (bytes_at mem addr) n).
Proof.
  intros Hn Ha Hm. rewrite (ptr_read_bytes (mem := mem)); [|done|].
  - f_equal. apply list_eq. intros i. unfold slice. rewrite !list_lookup_fmap.
    destruct (decide (i < Z.to_nat n)%nat).
    + rewrite lookup_seq_lt by lia. cbn. unfold bytes_at. by rewrite Ha by lia.
    + by rewrite lookup_seq_ge by lia.
  - intros i Hi. rewrite <- Ha by done. by apply Hm.
Qed.

(** ** Extract

    [debugger.Align] rounds up to a multiple. *)
Definition rounds_up (Align : aligner) : Prop :=
  forall x n, 0 < n -> Align x n = (x + (n - 1)) / n * n.

Lemma rounds_up_id Align x n : rounds_up Align -> 0 < n -> x mod n = 0 -> Align x n = x.
Proof.
  intros HA Hn Hx. rewrite HA by done. pose proof (Z.div_mod x n ltac:(lia)).
  replace (x + (n - 1)) with (n - 1 + x / n * n) by lia. rewrite Z.div_add, Z.div_small by lia. lia.
Qed.

(** Between a multiple of [n] and the next one. *)
Lemma rounds_up_next Align x n s : rounds_up Align -> 0 < n -> x mod n = 0 -> 1 <= s <= n ->
  Align (x + s) n = x + n.
Proof.
  intros HA Hn Hx Hs. rewrite HA by done.
  replace (x + s + (n - 1)) with (s - 1 + (x / n + 1) * n) by (pose proof (Z.div_mod x n ltac:(lia)); lia).
  rewrite Z.div_add, (Z.div_small (s - 1)) by lia. pose proof (Z.div_mod x n ltac:(lia)). lia.
Qed.

(** Decoding an integer of [s] bytes. *)
Definition int_arg (s : Z) : decode :=
  DRead s (fun r => DDone (match r with inl _ => None | inr e => Some e end)).

(** ** x86-64 *)

Section x64.
Context {D : Debugger} (h : Host) (mem : Z -> option byte) `{!PtrRead h mem}.
Import X8664.

(** The bytes left in the save area. *)
Definition x64_regs (va : va_x86_64) : Z := Z.max 0 (GENERAL_OFFSET_MAX - x64_gp_offset va).

Definition x64_addr (va : va_x86_64) (i : Z) : Z :=
  if i <? x64_regs va then x64_reg_save_area va + x64_gp_offset va + i
  else x64_overflow_arg_area va + (i - x64_regs va).

Definition x64_stream (va : va_x86_64) : Z -> byte := bytes_at mem (x64_addr va).

Definition x64_ok (va : va_x86_64) : Prop :=
  is_u32 (x64_gp_offset va) /\ 0 <= x64_overflow_arg_area va /\
  0 <= x64_reg_save_area va /\ x64_reg_save_area va + GENERAL_OFFSET_MAX < 2 ^ 64.

(** The next [n] bytes are mapped and the stack does not wrap. *)
Definition x64_avail (va : va_x86_64) (n : Z) : Prop :=
  x64_overflow_arg_area va + Z.max 0 (n - x64_regs va) < 2 ^ 64 /\ all_mapped mem (x64_addr va) n.

(** The cursor has moved by [n]. *)
Definition x64_moved (n : Z) (va va' : va_x86_64) : Prop :=
  x64_ok va' /\ (forall i, 0 <= i -> x64_addr va' i = x64_addr va (n + i)) /\
  x64_overflow_arg_area va' = x64_overflow_arg_area va + Z.max 0 (n - x64_regs va) /\
  x64_regs va' = Z.max 0 (x64_regs va - n).

Ltac x64_solve :=
  unfold x64_moved, x64_ok, x64_addr, x64_regs, GENERAL_OFFSET_MAX, POINTER_SIZE in *; cbn in *;
  repeat match goal with
         | |- _ /\ _ => split
         | |- forall _, _ => intros ?
         | |- context [?a <? ?b] => destruct (Z.ltb_spec a b)
         end; try done; try lia; try wrap_lia.

Lemma x64_read_stack va n :
  x64_ok va -> 0 <= n < 2 ^ 31 -> x64_avail va n -> GENERAL_OFFSET_MAX <= x64_gp_offset va ->
  exists va', Read h n va = (va', inl (slice (x64_stream va) n)) /\ x64_moved n va va'.
Proof.
  intros Hok Hn [Hst Hm] Hc. unfold Read. rewrite (proj2 (Z.leb_le _ _)) by done.
  rewrite !uint64_id by x64_solve.
  rewrite (read_run h mem (x64_addr va)) by (done || x64_solve).
  eexists. split; [reflexivity|x64_solve].
Qed.

Lemma x64_read_regs va n :
  x64_ok va -> 0 <= n < 2 ^ 31 -> x64_avail va n -> n + x64_gp_offset va <= GENERAL_OFFSET_MAX ->
  x64_gp_offset va < GENERAL_OFFSET_MAX ->
  exists va', Read h n va = (va', inl (slice (x64_stream va) n)) /\ x64_moved n va va'.
Proof.
  intros Hok Hn [Hst Hm] Hc Hg. unfold Read, gp_addr.
  rewrite (proj2 (Z.leb_gt _ _)), (proj2 (Z.leb_le _ _)) by done.
  rewrite (uint32_id n), uint32_id, !uint64_id by x64_solve.
  rewrite (read_run h mem (x64_addr va)) by (done || x64_solve).
  eexists. split; [reflexivity|x64_solve].
Qed.

Lemma x64_read_split va n :
  x64_ok va -> 0 <= n < 2 ^ 31 -> x64_avail va n -> GENERAL_OFFSET_MAX < n + x64_gp_offset va ->
  x64_gp_offset va < GENERAL_OFFSET_MAX ->
  exists va', Read h n va = (va', inl (slice (x64_stream va) n)) /\ x64_moved n va va'.
Proof.
  intros Hok Hn [Hst Hm] Hc Hg. unfold Read, gp_addr.
  rewrite !(proj2 (Z.leb_gt _ _)) by done. cbv zeta. cbn [set_gp x64_overflow_arg_area].
  set (r := GENERAL_OFFSET_MAX - x64_gp_offset va).
  rewrite (uint32_id r), !uint64_id by (unfold r; x64_solve).
  assert (0 <= r < n) as Hr by (unfold r; clear Hm; x64_solve).
  rewrite (read_run h mem (x64_addr va)); [|lia|unfold r; x64_solve|intros i Hi; apply Hm; lia].
  rewrite (read_run h mem (fun i => x64_addr va (r + i)));
    [|lia|unfold r; x64_solve|intros i Hi; apply Hm; lia].
  assert (slice (x64_stream va) n = slice (bytes_at mem (x64_addr va)) r ++
      slice (bytes_at mem (fun i => x64_addr va (r + i))) (n - r)) as ->.
  { replace n with (r + (n - r)) at 1 by lia. rewrite slice_app by (unfold r; x64_solve). done. }
  eexists. split; [reflexivity|unfold r; x64_solve].
Qed.

#[local] Instance x64_sequential :
  Sequential va_x86_64 (H := X8664.stream h) x64_ok x64_stream x64_avail.
Proof.
  split.
  - intros va n Hok Hn Hav.
    assert (exists va', Read h n va = (va', inl (slice (x64_stream va) n)) /\ x64_moved n va va')
      as (va' & E & Hok' & Hadv & Hov & Hrg).
    { destruct (Z.le_gt_cases GENERAL_OFFSET_MAX (x64_gp_offset va)); [by apply x64_read_stack|].
      destruct (Z.le_gt_cases (n + x64_gp_offset va) GENERAL_OFFSET_MAX);
        [by apply x64_read_regs|by apply x64_read_split]. }
    exists va'. split; [done|]. split; [done|]. split.
    + intros i Hi. unfold x64_stream, bytes_at. by rewrite Hadv.
    + intros k [H1 H2]. split; [pose proof (proj1 Hav); lia|].
      intros i Hi. rewrite Hadv by lia. apply H2. lia.
  - intros va n k Hk [H1 H2]. split; [lia|]. intros i Hi. apply H2. lia.
Qed.

(** C21: Reads of any sizes from an x86-64 va_list return the consecutive
    slices of one byte stream: the rest of the register save area followed by
    the overflow area, also when a read crosses from one to the other. *)
Theorem x64_reads_are_consecutive va ns :
  x64_ok va -> Forall (fun n => 0 <= n < 2 ^ 31) ns -> x64_avail va (zsum ns) ->
  exists va', reads (H := X8664.stream h) ns va = (va', inl (slices (x64_stream va) ns)) /\ x64_ok va' /\
    (forall i, 0 <= i -> x64_stream va' i = x64_stream va (zsum ns + i)).
Proof. apply reads_slices. Qed.

(** Skip on an x86-64 va_list moves by n as long as it stays in the save
    area; one that crosses its end moves to the start of the overflow area
    and drops the rest of the distance. *)
Theorem x64_skip_drops_remainder n va :
  x64_ok va -> 0 < n < 2 ^ 31 -> x64_gp_offset va < GENERAL_OFFSET_MAX ->
  let va' := (Skip n va).1 in
  (n <= x64_regs va -> forall i, 0 <= i -> x64_addr va' i = x64_addr va (n + i)) /\
  (x64_regs va < n -> forall i, 0 <= i -> x64_addr va' i = x64_addr va (x64_regs va + i)).
Proof.
  intros Hok Hn Hg va'. unfold va', Skip. rewrite (proj2 (Z.ltb_lt _ _)) by done. cbn [fst].
  rewrite (uint32_id n), uint32_id by x64_solve. x64_solve.
Qed.

(** One integer argument takes one slot of eight bytes. *)
Lemma x64_extract_one Align s va :
  rounds_up Align -> x64_ok va -> x64_gp_offset va mod 8 = 0 -> x64_overflow_arg_area va mod 8 = 0 ->
  1 <= s <= 8 -> x64_avail va 8 ->
  exists va1, run_decode (H := X8664.stream h) (int_arg s) va = (va1, None) /\
    x64_moved 8 va (realign Align va1) /\
    x64_gp_offset (realign Align va1) mod 8 = 0 /\ x64_overflow_arg_area (realign Align va1) mod 8 = 0.
Proof.
  intros HA Hok Hg8 Ho8 Hs [Hst Hm].
  assert (all_mapped mem (x64_addr va) s) as Hms by (intros i Hi; apply Hm; lia).
  cbn [run_decode int_arg Stream.Read X8664.stream]. unfold Read, gp_addr.
  destruct (Z.leb_spec GENERAL_OFFSET_MAX (x64_gp_offset va)) as [Hc|Hc].
  - rewrite !uint64_id by x64_solve.
    rewrite (read_run h mem (x64_addr va)) by (done || (clear Hm; x64_solve)).
    eexists. split; [reflexivity|]. unfold realign, set_overflow, set_gp. cbn.
    rewrite (rounds_up_next Align (x64_overflow_arg_area va)), (rounds_up_id Align (x64_gp_offset va))
      by (done || lia).
    split; [clear Hm Hms; x64_solve|]. split; [done|]. by rewrite <- Zplus_mod_idemp_r, Z.mod_same, Z.add_0_r.
  - assert (x64_gp_offset va + 8 <= 48).
    { unfold GENERAL_OFFSET_MAX, POINTER_SIZE in Hc. Z.div_mod_to_equations. lia. }
    rewrite (proj2 (Z.leb_le _ _)) by (unfold GENERAL_OFFSET_MAX, POINTER_SIZE; lia).
    rewrite (uint32_id s), uint32_id, !uint64_id by (clear Hm Hms; x64_solve).
    rewrite (read_run h mem (x64_addr va)) by (done || (clear Hm; x64_solve)).
    eexists. split; [reflexivity|]. unfold realign, set_overflow, set_gp. cbn.
    rewrite (rounds_up_next Align (x64_gp_offset va)), (rounds_up_id Align (x64_overflow_arg_area va))
      by (done || lia).
    split; [clear Hm Hms; x64_solve|]. split; [|done]. by rewrite <- Zplus_mod_idemp_r, Z.mod_same, Z.add_0_r.
Qed.

(** Extracting integers of 1 to 8 bytes from an aligned x86-64 va_list
    succeeds and moves the list by one eight-byte slot per argument, from the
    registers to the stack. *)
Theorem x64_extract_moves_by_slots Align sizes : forall va,
  rounds_up Align -> x64_ok va -> x64_gp_offset va mod 8 = 0 -> x64_overflow_arg_area va mod 8 = 0 ->
  Forall (fun s => 1 <= s <= 8) sizes -> x64_avail va (8 * zlen sizes) ->
  exists va', Extract h Align (int_arg <$> sizes) va = (va', None) /\
    forall i, 0 <= i -> x64_addr va' i = x64_addr va (8 * zlen sizes + i).
Proof.
  unfold Extract. induction sizes as [|s sizes IH]; intros va HA Hok Hg8 Ho8 Hs Hav; [by exists va|].
  apply list.Forall_cons in Hs as [Hs Hss]. cbn [fmap list_fmap extract].
  assert (zlen (s :: sizes) = 1 + zlen sizes) as Hz by (unfold zlen; cbn; lia).
  pose proof (zlen_nonneg sizes). rewrite Hz in *. destruct Hav as [Hst Hm].
  destruct (x64_extract_one Align s va) as (va1 & -> & (Hok1 & Hadv & Hov & Hrg) & Hg1 & Ho1); try done.
  { split; [lia|]. intros i Hi. apply Hm. lia. }
  destruct (IH (realign Align va1)) as (va' & -> & Hadv'); try done.
  { split; [lia|]. intros i Hi. rewrite Hadv by lia. apply Hm. lia. }
  exists va'. split; [done|]. intros i Hi. rewrite Hadv', Hadv by lia. f_equal. lia.
Qed.

(** What no decoder changes: the save area, and that the vector registers are
    taken one after the other up to the last. *)
Definition x64_frame (area : Z) (va : va_x86_64) : Prop :=
  x64_reg_save_area va = area /\ 0 <= x64_fp_offset va <= XMM_OFFSET_MAX /\ x64_fp_offset va mod 16 = 0.

#[local] Instance x64_frame_inv area : StreamInv (H := X8664.stream h) (x64_frame area).
Proof.
  assert (forall n va, x64_frame area va -> x64_frame area (Read h n va).1) as HR.
  { intros n va Hva. unfold Read. repeat case_match; done. }
  assert (forall va, x64_frame area va -> x64_frame area (ReadDouble h va).1) as HD.
  { intros va (H1 & H2 & H3). unfold ReadDouble.
    destruct (Z.leb_spec XMM_OFFSET_MAX (x64_fp_offset va)) as [|Hlt]; [done|].
    unfold XMM_OFFSET_MAX, GENERAL_OFFSET_MAX, POINTER_SIZE in *.
    assert (x64_fp_offset va + 16 <= 176) by (Z.div_mod_to_equations; lia).
    split_and!; [done|..]; cbn; unfold XMM_OFFSET_MAX, GENERAL_OFFSET_MAX, POINTER_SIZE;
      rewrite uint32_id by wrap_lia; [lia..|].
    by rewrite <- Zplus_mod_idemp_r, Z.mod_same, Z.add_0_r. }
  split; intros; cbn; auto. unfold Skip. by case_match.
Qed.

(** Whatever the decoders do with the stream, Extract on an x86-64 va_list
    leaves the save area where it is, takes the vector registers in steps of
    16 and never past the last. *)
Theorem x64_extract_stays_in_save_area Align args va :
  0 <= x64_fp_offset va <= XMM_OFFSET_MAX -> x64_fp_offset va mod 16 = 0 ->
  let va' := (Extract h Align args va).1 in
  x64_reg_save_area va' = x64_reg_save_area va /\
  0 <= x64_fp_offset va' <= XMM_OFFSET_MAX /\ x64_fp_offset va' mod 16 = 0.
Proof.
  intros H1 H2 va'.
  by apply (extract_inv (H := X8664.stream h) (x64_frame (x64_reg_save_area va))).
Qed.

End x64.

(** ** AArch64 *)

Section a64.
Context {D : Debugger} (h : Host) (mem : Z -> option byte) `{!PtrRead h mem}.
Import Arm64.

Definition a64_regs (va : va_arm64) : Z := Z.max 0 (- a64_gr_offs va).

Definition a64_addr (va : va_arm64) (i : Z) : Z :=
  if i <? a64_regs va then a64_gr_top va + a64_gr_offs va + i
  else a64_stack va + (i - a64_regs va).

Definition a64_bytes (va : va_arm64) : Z -> byte := bytes_at mem (a64_addr va).

Definition a64_ok (va : va_arm64) : Prop :=
  is_i32 (a64_gr_offs va) /\ 0 <= a64_stack va /\ a64_gr_top va < 2 ^ 64 /\
  (a64_gr_offs va < 0 -> 0 <= a64_gr_top va + a64_gr_offs va).

Definition a64_avail (va : va_arm64) (n : Z) : Prop :=
  a64_stack va + Z.max 0 (n - a64_regs va) < 2 ^ 64 /\ all_mapped mem (a64_addr va) n.

Definition a64_moved (n : Z) (va va' : va_arm64) : Prop :=
  a64_ok va' /\ (forall i, 0 <= i -> a64_addr va' i = a64_addr va (n + i)) /\
  a64_stack va' = a64_stack va + Z.max 0 (n - a64_regs va) /\
  a64_regs va' = Z.max 0 (a64_regs va - n).

Ltac a64_solve :=
  unfold a64_moved, a64_ok, a64_addr, a64_regs, POINTER_SIZE in *; cbn in *;
  repeat match goal with
         | |- _ /\ _ => split
         | |- forall _, _ => intros ?
         | |- context [?a <? ?b] => destruct (Z.ltb_spec a b)
         end; try done; try lia; try wrap_lia.

Lemma a64_gr_addr va : a64_ok va -> a64_gr_offs va < 0 -> gr_addr va = a64_gr_top va + a64_gr_offs va.
Proof. intros (H1 & _ & H3 & H4) Hg. specialize (H4 Hg). unfold gr_addr. wrap_lia. Qed.

Lemma a64_read_stack va n :
  a64_ok va -> 0 <= n < 2 ^ 31 -> a64_avail va n -> 0 <= a64_gr_offs va ->
  exists va', Read h n va = (va', inl (slice (a64_bytes va) n)) /\ a64_moved n va va'.
Proof.
  intros Hok Hn [Hst Hm] Hc. unfold Read. rewrite (proj2 (Z.leb_le _ _)) by done.
  rewrite !uint64_id by a64_solve.
  rewrite (read_run h mem (a64_addr va)) by (done || a64_solve).
  eexists. split; [reflexivity|a64_solve].
Qed.

Lemma a64_read_regs va n :
  a64_ok va -> 0 <= n < 2 ^ 31 -> a64_avail va n -> n + a64_gr_offs va <= 0 -> a64_gr_offs va < 0 ->
  exists va', Read h n va = (va', inl (slice (a64_bytes va) n)) /\ a64_moved n va va'.
Proof.
  intros Hok Hn [Hst Hm] Hc Hg. unfold Read. rewrite a64_gr_addr by done.
  rewrite (proj2 (Z.leb_gt _ _)) by done. cbv zeta. rewrite (proj2 (Z.leb_le _ _)) by done.
  rewrite (int32_id n), int32_id, !uint64_id by (clear Hm; a64_solve).
  rewrite (read_run h mem (a64_addr va)) by (done || a64_solve).
  eexists. split; [reflexivity|clear Hm; a64_solve].
Qed.

Lemma a64_read_split va n :
  a64_ok va -> 0 <= n < 2 ^ 31 -> a64_avail va n -> 0 < n + a64_gr_offs va -> a64_gr_offs va < 0 ->
  exists va', Read h n va = (va', inl (slice (a64_bytes va) n)) /\ a64_moved n va va'.
Proof.
  intros Hok Hn [Hst Hm] Hc Hg. unfold Read. rewrite a64_gr_addr by done.
  rewrite (proj2 (Z.leb_gt _ _)) by done. cbv zeta. rewrite (proj2 (Z.leb_gt _ _)) by done.
  cbn [set_gr_offs a64_stack]. set (r := - a64_gr_offs va).
  replace (n - (n + a64_gr_offs va)) with r by lia. replace (n + a64_gr_offs va) with (n - r) by lia.
  assert (0 <= r < n) as Hr by lia.
  rewrite !uint64_id by (unfold r; clear Hm; a64_solve).
  rewrite (read_run h mem (a64_addr va)); [|lia|unfold r; a64_solve|intros i Hi; apply Hm; lia].
  rewrite (read_run h mem (fun i => a64_addr va (r + i)));
    [|lia|unfold r; a64_solve|intros i Hi; apply Hm; lia].
  assert (slice (a64_bytes va) n = slice (bytes_at mem (a64_addr va)) r ++
      slice (bytes_at mem (fun i => a64_addr va (r + i))) (n - r)) as ->.
  { replace n with (r + (n - r)) at 1 by lia. rewrite slice_app by lia. done. }
  eexists. split; [reflexivity|unfold r; clear Hm; a64_solve].
Qed.

#[local] Instance a64_sequential :
  Sequential va_arm64 (H := Arm64.stream h) a64_ok a64_bytes a64_avail.
Proof.
  split.
  - intros va n Hok Hn Hav.
    assert (exists va', Read h n va = (va', inl (slice (a64_bytes va) n)) /\ a64_moved n va va')
      as (va' & E & Hok' & Hadv & Hov & Hrg).
    { destruct (Z.le_gt_cases 0 (a64_gr_offs va)); [by apply a64_read_stack|].
      destruct (Z.le_gt_cases (n + a64_gr_offs va) 0);
        [by apply a64_read_regs|by apply a64_read_split]. }
    exists va'. split; [done|]. split; [done|]. split.
    + intros i Hi. unfold a64_bytes, bytes_at. by rewrite Hadv.
    + intros k [H1 H2]. split; [pose proof (proj1 Hav); lia|].
      intros i Hi. rewrite Hadv by lia. apply H2. lia.
  - intros va n k Hk [H1 H2]. split; [lia|]. intros i Hi. apply H2. lia.
Qed.

(** C22: Reads of any sizes from an AArch64 va_list return the consecutive
    slices of one byte stream: the saved general registers below gr_top
    followed by the stack, also across the boundary. *)
Theorem a64_reads_are_consecutive va ns :
  a64_ok va -> Forall (fun n => 0 <= n < 2 ^ 31) ns -> a64_avail va (zsum ns) ->
  exists va', reads (H := Arm64.stream h) ns va = (va', inl (slices (a64_bytes va) ns)) /\ a64_ok va' /\
    (forall i, 0 <= i -> a64_bytes va' i = a64_bytes va (zsum ns + i)).
Proof. apply reads_slices. Qed.

(** Skip on an AArch64 va_list drops the rest of the distance when it crosses
    the end of the saved registers. *)
Theorem a64_skip_drops_remainder n va :
  a64_ok va -> 0 < n < 2 ^ 31 -> a64_gr_offs va < 0 ->
  let va' := (Skip n va).1 in
  (n <= a64_regs va -> forall i, 0 <= i -> a64_addr va' i = a64_addr va (n + i)) /\
  (a64_regs va < n -> forall i, 0 <= i -> a64_addr va' i = a64_addr va (a64_regs va + i)).
Proof.
  intros Hok Hn Hg va'. unfold va', Skip. rewrite (proj2 (Z.ltb_lt _ _)) by done. cbn [fst].
  rewrite (int32_id n), int32_id by a64_solve. a64_solve.
Qed.

Lemma a64_extract_one Align s va :
  rounds_up Align -> a64_ok va -> a64_gr_offs va mod 8 = 0 -> a64_stack va mod 8 = 0 ->
  1 <= s <= 8 -> a64_avail va 8 ->
  exists va1, run_decode (H := Arm64.stream h) (int_arg s) va = (va1, None) /\
    a64_moved 8 va (realign Align va1) /\
    a64_gr_offs (realign Align va1) mod 8 = 0 /\ a64_stack (realign Align va1) mod 8 = 0.
Proof.
  intros HA Hok Hg8 Ho8 Hs [Hst Hm].
  assert (all_mapped mem (a64_addr va) s) as Hms by (intros i Hi; apply Hm; lia).
  cbn [run_decode int_arg Stream.Read Arm64.stream]. unfold Read. cbv zeta.
  destruct (Z.leb_spec 0 (a64_gr_offs va)) as [Hc|Hc].
  - rewrite !uint64_id by (clear Hm Hms; a64_solve).
    rewrite (read_run h mem (a64_addr va)) by (done || (clear Hm; a64_solve)).
    eexists. split; [reflexivity|]. unfold realign, set_stack, set_gr_offs, POINTER_SIZE. cbn.
    rewrite (rounds_up_next Align (a64_stack va)), (rounds_up_id Align (a64_gr_offs va)) by (done || lia).
    split; [clear Hm Hms; a64_solve|]. split; [done|]. by rewrite <- Zplus_mod_idemp_r, Z.mod_same, Z.add_0_r.
  - assert (a64_gr_offs va + 8 <= 0) by (Z.div_mod_to_equations; lia).
    rewrite a64_gr_addr, (proj2 (Z.leb_le _ _)) by (done || lia).
    rewrite (int32_id s), int32_id, !uint64_id by (clear Hm Hms; a64_solve).
    rewrite (read_run h mem (a64_addr va)) by (done || (clear Hm; a64_solve)).
    eexists. split; [reflexivity|]. unfold realign, set_stack, set_gr_offs, POINTER_SIZE. cbn.
    rewrite (rounds_up_next Align (a64_gr_offs va)), (rounds_up_id Align (a64_stack va)) by (done || lia).
    split; [clear Hm Hms; a64_solve|]. split; [|done]. by rewrite <- Zplus_mod_idemp_r, Z.mod_same, Z.add_0_r.
Qed.

(** Extracting integers of 1 to 8 bytes from an aligned AArch64 va_list
    succeeds and moves the list by one eight-byte slot per argument, from the
    registers to the stack. *)
Theorem a64_extract_moves_by_slots Align sizes : forall va,
  rounds_up Align -> a64_ok va -> a64_gr_offs va mod 8 = 0 -> a64_stack va mod 8 = 0 ->
  Forall (fun s => 1 <= s <= 8) sizes -> a64_avail va (8 * zlen sizes) ->
  exists va', Extract h Align (int_arg <$> sizes) va = (va', None) /\
    forall i, 0 <= i -> a64_addr va' i = a64_addr va (8 * zlen sizes + i).
Proof.
  unfold Extract. induction sizes as [|s sizes IH]; intros va HA Hok Hg8 Ho8 Hs Hav; [by exists va|].
  apply list.Forall_cons in Hs as [Hs Hss]. cbn [fmap list_fmap extract].
  assert (zlen (s :: sizes) = 1 + zlen sizes) as Hz by (unfold zlen; cbn; lia).
  pose proof (zlen_nonneg sizes). rewrite Hz in *. destruct Hav as [Hst Hm].
  destruct (a64_extract_one Align s va) as (va1 & -> & (Hok1 & Hadv & Hov & Hrg) & Hg1 & Ho1); try done.
  { split; [lia|]. intros i Hi. apply Hm. lia. }
  destruct (IH (realign Align va1)) as (va' & -> & Hadv'); try done.
  { split; [lia|]. intros i Hi. rewrite Hadv by lia. apply Hm. lia. }
  exists va'. split; [done|]. intros i Hi. rewrite Hadv', Hadv by lia. f_equal. lia.
Qed.

End a64.

(** ** The plain list *)

Section std.
Context {D : Debugger} (h : Host) (mem : Z -> option byte) `{!PtrRead h mem}.
Import Std.

Definition std_addr (va : va_std) (i : Z) : Z := ptr va + i.
Definition std_bytes (va : va_std) : Z -> byte := bytes_at mem (std_addr va).
Definition std_ok (va : va_std) : Prop := 0 <= ptr va.
Definition std_avail (va : va_std) (n : Z) : Prop :=
  ptr va + n < 2 ^ 64 /\ all_mapped mem (std_addr va) n.

#[local] Instance std_sequential :
  Sequential va_std (H := Std.stream h) std_ok std_bytes std_avail.
Proof.
  unfold std_ok, std_avail, std_addr. split.
  - intros va n Hok Hn [H1 H2]. cbn [Stream.Read Std.stream]. unfold Read.
    rewrite !uint64_id by wrap_lia.
    rewrite (read_run h mem (std_addr va)) by (done || lia). eexists. split; [reflexivity|]. cbn.
    split; [lia|]. split.
    + intros i Hi. unfold std_bytes, bytes_at, std_addr. cbn. do 2 f_equal. lia.
    + intros k [H3 H4]. split; [lia|]. intros i Hi.
      replace (ptr va + n + i) with (ptr va + (n + i)) by lia. apply H4. lia.
  - intros va n k Hk [H1 H2]. split; [lia|]. intros i Hi. apply H2. lia.
Qed.

(** Reads from a plain list return the consecutive slices of the memory at
    its pointer. *)
Theorem std_reads_are_consecutive va ns :
  std_ok va -> Forall (fun n => 0 <= n < 2 ^ 31) ns -> std_avail va (zsum ns) ->
  exists va', reads (H := Std.stream h) ns va = (va', inl (slices (std_bytes va) ns)) /\ std_ok va' /\
    (forall i, 0 <= i -> std_bytes va' i = std_bytes va (zsum ns + i)).
Proof. apply reads_slices. Qed.

End std.

(** ** Witnesses *)

#[export] Instance sim_ptr_reads (h : sim) : PtrRead (h : Host) (fun a => sm_mem h !! a).
Proof.
  intros a n Hn Hm. cbn. unfold sim_mapped.
  assert (forall k b, (forall i, 0 <= i < Z.of_nat k -> is_Some (sm_mem h !! (b + i))) ->
    sim_peek (sm_mem h) b k = (fun j => default "000"%byte (sm_mem h !! (b + Z.of_nat j))) <$> seq 0 k) as Hp.
  { induction k as [|k IH]; intros b Hb; [done|]. cbn [sim_peek seq fmap list_fmap].
    destruct (Hb 0) as [x Hx]; [lia|]. rewrite Z.add_0_r in Hx. rewrite Hx. f_equal.
    - by rewrite Z.add_0_r, Hx.
    - rewrite IH by (intros i Hi; replace (b + 1 + i) with (b + (1 + i)) by lia; apply Hb; lia).
      rewrite <- fmap_S_seq, <- list_fmap_compose. apply list_fmap_ext. intros _ j _. cbn.
      do 2 f_equal. lia. }
  rewrite Hp by (intros i Hi; apply Hm; lia).
  unfold zlen. rewrite length_fmap, length_seq, Z2Nat.id, Z.eqb_refl by done. done.
Qed.

(** One general register left, at 0x1028; the stack at 0x1030. *)
Definition sim_va_x64 : va_x86_64 := VaX8664 40 176 0x1030 0x1000.
Definition sim_va_a64 : va_arm64 := VaArm64 0x1030 0x1030 0 (-8) 0.
Definition sim_host : Host (Debugger := SimDebugger) := sim0.
Definition sim_mem (a : Z) : option byte := sm_mem sim0 !! a.

Lemma sim_mem_mapped a : 0x1000 <= a < 0x1040 -> is_Some (sim_mem a).
Proof.
  intros Ha. assert (forall i, (i < 64)%nat -> is_Some (sim_mem (0x1000 + Z.of_nat i))) as H.
  { intros i Hi. do 64 (destruct i as [|i]; [by vm_compute; eexists|]). lia. }
  replace a with (0x1000 + Z.of_nat (Z.to_nat (a - 0x1000))) by lia. apply H. lia.
Qed.

Lemma sim_x64_ok : x64_ok sim_va_x64.
Proof. by vm_compute. Qed.
Lemma sim_x64_avail : x64_avail sim_mem sim_va_x64 16.
Proof.
  split; [by vm_compute|]. intros i Hi. apply sim_mem_mapped.
  unfold x64_addr. change (x64_regs sim_va_x64) with 8. cbn. destruct (Z.ltb_spec i 8); lia.
Qed.
Lemma sim_a64_ok : a64_ok sim_va_a64.
Proof. by vm_compute. Qed.
Lemma sim_a64_avail : a64_avail sim_mem sim_va_a64 16.
Proof.
  split; [by vm_compute|]. intros i Hi. apply sim_mem_mapped.
  unfold a64_addr. change (a64_regs sim_va_a64) with 8. cbn. destruct (Z.ltb_spec i 8); lia.
Qed.

Definition sim_align : aligner := fun x n => (x + (n - 1)) / n * n.

Lemma x64_reads_are_consecutive_witness :
  exists va', reads (H := X8664.stream sim_host) [12; 4] sim_va_x64 =
      (va', inl (slices (x64_stream sim_mem sim_va_x64) [12; 4])) /\ x64_ok va' /\
    (forall i, 0 <= i -> x64_stream sim_mem va' i = x64_stream sim_mem sim_va_x64 (16 + i)).
Proof.
  apply (x64_reads_are_consecutive sim_host sim_mem sim_va_x64 [12; 4]);
    [apply sim_x64_ok|by repeat constructor|apply sim_x64_avail].
Defined.

Lemma x64_skip_drops_remainder_witness :
  let va' := (X8664.Skip 12 sim_va_x64).1 in
  (12 <= 8 -> forall i, 0 <= i -> x64_addr va' i = x64_addr sim_va_x64 (12 + i)) /\
  (8 < 12 -> forall i, 0 <= i -> x64_addr va' i = x64_addr sim_va_x64 (8 + i)).
Proof. apply (x64_skip_drops_remainder 12 sim_va_x64); [apply sim_x64_ok|lia|by vm_compute]. Defined.

Lemma x64_extract_moves_by_slots_witness :
  exists va', X8664.Extract sim_host sim_align (int_arg <$> [4; 1]) sim_va_x64 = (va', None) /\
    forall i, 0 <= i -> x64_addr va' i = x64_addr sim_va_x64 (16 + i).
Proof.
  apply (x64_extract_moves_by_slots sim_host sim_mem sim_align [4; 1] sim_va_x64);
    [by intros x n|apply sim_x64_ok|done|done|by repeat constructor|apply sim_x64_avail].
Defined.

(** A decoder that reads a double, an integer and a string. *)
Definition sim_decoder : decode :=
  DReadDouble (fun _ => DRead 8 (fun _ => DReadString (fun r =>
    DDone match r with inl _ => None | inr e => Some e end))).

Lemma x64_extract_stays_in_save_area_witness :
  let va' := (X8664.Extract sim_host sim_align [sim_decoder; sim_decoder] (VaX8664 0 48 0x1030 0x1000)).1 in
  x64_reg_save_area va' = 0x1000 /\ 0 <= x64_fp_offset va' <= X8664.XMM_OFFSET_MAX /\
  x64_fp_offset va' mod 16 = 0.
Proof.
  apply (x64_extract_stays_in_save_area sim_host sim_align [sim_decoder; sim_decoder]
    (VaX8664 0 48 0x1030 0x1000)); [by vm_compute|done].
Defined.

Lemma a64_reads_are_consecutive_witness :
  exists va', reads (H := Arm64.stream sim_host) [12; 4] sim_va_a64 =
      (va', inl (slices (a64_bytes sim_mem sim_va_a64) [12; 4])) /\ a64_ok va' /\
    (forall i, 0 <= i -> a64_bytes sim_mem va' i = a64_bytes sim_mem sim_va_a64 (16 + i)).
Proof.
  apply (a64_reads_are_consecutive sim_host sim_mem sim_va_a64 [12; 4]);
    [apply sim_a64_ok|by repeat constructor|apply sim_a64_avail].
Defined.

Lemma a64_skip_drops_remainder_witness :
  let va' := (Arm64.Skip 12 sim_va_a64).1 in
  (12 <= 8 -> forall i, 0 <= i -> a64_addr va' i = a64_addr sim_va_a64 (12 + i)) /\
  (8 < 12 -> forall i, 0 <= i -> a64_addr va' i = a64_addr sim_va_a64 (8 + i)).
Proof. apply (a64_skip_drops_remainder 12 sim_va_a64); [apply sim_a64_ok|lia|by vm_compute]. Defined.

Lemma a64_extract_moves_by_slots_witness :
  exists va', Arm64.Extract sim_host sim_align (int_arg <$> [4; 1]) sim_va_a64 = (va', None) /\
    forall i, 0 <= i -> a64_addr va' i = a64_addr sim_va_a64 (16 + i).
Proof.
  apply (a64_extract_moves_by_slots sim_host sim_mem sim_align [4; 1] sim_va_a64);
    [by intros x n|apply sim_a64_ok|done|done|by repeat constructor|apply sim_a64_avail].
Defined.

Lemma std_reads_are_consecutive_witness :
  exists va', reads (H := Std.stream sim_host) [4; 8] (Std.VaStd 0x1000 4) =
      (va', inl (slices (std_bytes sim_mem (Std.VaStd 0x1000 4)) [4; 8])) /\ std_ok va' /\
    (forall i, 0 <= i -> std_bytes sim_mem va' i = std_bytes sim_mem (Std.VaStd 0x1000 4) (12 + i)).
Proof.
  apply (std_reads_are_consecutive sim_host sim_mem (Std.VaStd 0x1000 4) [4; 8]);
    [by vm_compute|by repeat constructor|].
  split; [by vm_compute|]. intros i Hi. apply sim_mem_mapped. unfold std_addr. cbn. cbn in Hi. lia.
Defined.
