(* ===== verification/VaAbi.v ===== *)
(** * Variable arguments and the calling conventions

    The caller of a variadic function puts each argument where the calling
    convention says, and [va_arg] finds it there.  For each of the three
    conventions [slot] is the convention's [va_arg]: where the next argument of
    a class and size lies, and the va_list after it.  [Extract] conforms to it
    when the decoders are given, argument by argument, the values the caller
    passed, and the list ends where [va_arg] would leave it. *)

From stdpp Require Import base list numbers.
From Stdlib Require Import SpecFloat Strings.Byte.
From S2P Require Import Prelude Structs Host SimHost Stream VaStd VaA64 VaX64 VaList VaProps.
Local Open Scope Z_scope.

(** ** Arguments

    What [Decode] does with a destination of each kind: one call of the stream,
    and [k] with its result. *)
Inductive argument :=
| AInt (s : Z) (k : bytes + error -> option error)
| APtr (k : pointer_stream + error -> option error)
| AFloat (k : spec_float + error -> option error)
| ADouble (k : spec_float + error -> option error).

Definition decoder (a : argument) : decode :=
  match a with
  | AInt s k => DRead s (fun r => DDone (k r))
  | APtr k => DReadStream (fun r => DDone (k r))
  | AFloat k => DReadFloat (fun r => DDone (k r))
  | ADouble k => DReadDouble (fun r => DDone (k r))
  end.

Definition is_float (a : argument) : bool :=
  match a with AFloat _ | ADouble _ => true | _ => false end.

(** A float is passed as a double. [w] is the size of a pointer. *)
Definition arg_size (w : Z) (a : argument) : Z :=
  match a with AInt s _ => s | APtr _ => w | _ => 8 end.

Definition sized (a : argument) : Prop :=
  match a with AInt s _ => 1 <= s <= 8 | _ => True end.

(** What the destination makes of the bytes [b] of the argument. *)
Definition given (w : Z) (a : argument) (b : bytes) : option error :=
  match a with
  | AInt _ k => k (inl b)
  | APtr k => k (inl (PointerStream (le_decode b) w))
  | AFloat k => k (inl (float32_of_float64 (float64_of_bits (le_decode b))))
  | ADouble k => k (inl (float64_of_bits (le_decode b)))
  end.

(** The bytes [b] lie at [addr]. *)
Definition holds (mem : Z -> option byte) (addr : Z) (b : bytes) : Prop :=
  forall i x, b !! i = Some x -> mem (addr + Z.of_nat i) = Some x.

Lemma holds_read `{D : Debugger} h mem `{!PtrRead h mem} addr b n :
  holds mem addr b -> zlen b = n -> MemReadPtr h addr n = inl b.
Proof.
  intros Hb <-. pose proof (zlen_nonneg b).
  assert (forall i, 0 <= i < zlen b -> exists x, b !! Z.to_nat i = Some x /\ mem (addr + i) = Some x) as Hat.
  { intros i Hi. destruct (lookup_lt_is_Some_2 b (Z.to_nat i)) as [x Hx]; [unfold zlen in *; lia|].
    exists x. split; [done|]. rewrite <- (Hb _ _ Hx). f_equal. lia. }
  rewrite (ptr_read_bytes (mem := mem)); [|done|intros i Hi; destruct (Hat i Hi) as (x & _ & ->); by eexists].
  f_equal. apply list_eq. intros i. unfold slice. rewrite list_lookup_fmap.
  destruct (decide (i < length b)%nat) as [Hi|Hi].
  - rewrite lookup_seq_lt by (unfold zlen in *; lia). cbn.
    destruct (Hat (Z.of_nat i)) as (x & Hx & ->); [unfold zlen in *; lia|]. by rewrite Nat2Z.id in Hx.
  - rewrite lookup_seq_ge by (unfold zlen in *; lia). symmetry. apply lookup_ge_None_2. lia.
Qed.

(** ** Conformance to a convention *)

Section conformance.
Context {S : Type} `{Stream S} (mem : Z -> option byte) (w : Z) (realign : S -> S).

(** [slot fp n va]: the address of the next argument of [n] bytes, in the
    floating-point class or not, and the list after it. *)
Variable slot : bool -> Z -> S -> Z * S.

(** Each argument of the call with the bytes the caller passed for it. *)
Fixpoint passed (args : list (argument * bytes)) (va : S) : Prop :=
  match args with
  | [] => True
  | (a, b) :: args =>
      let n := arg_size w a in
      sized a /\ zlen b = n /\ holds mem (slot (is_float a) n va).1 b /\
      passed args (slot (is_float a) n va).2
  end.

(** The decoders are given what was passed, up to the first that fails. *)
Fixpoint received (args : list (argument * bytes)) (va : S) : S * option error :=
  match args with
  | [] => (va, None)
  | (a, b) :: args =>
      let va' := (slot (is_float a) (arg_size w a) va).2 in
      match given w a b with
      | Some e => (va', Some e)
      | None => received args va'
      end
  end.

(** [ok n va]: a well-formed list with room for [n] more arguments. *)
Class Conforms (ok : Z -> S -> Prop) : Prop := {
  conf_realign n va : ok n va -> realign va = va;
  conf_arg n va a b : 0 <= n -> ok (n + 1) va -> sized a -> zlen b = arg_size w a ->
    holds mem (slot (is_float a) (arg_size w a) va).1 b ->
    exists va1, run_decode (decoder a) va = (va1, given w a b) /\
      realign va1 = (slot (is_float a) (arg_size w a) va).2 /\
      ok n (slot (is_float a) (arg_size w a) va).2
}.

Lemma extract_conforms ok `{!Conforms ok} args : forall va,
  ok (zlen args) va -> passed args va ->
  let r := extract realign (decoder ∘ fst <$> args) va in
  (realign r.1, r.2) = received args va.
Proof.
  induction args as [|[a b] args IH]; intros va Hok Hp r; subst r.
  - cbn. by rewrite (conf_realign _ _ Hok).
  - destruct Hp as (Hs & Hb & Hm & Hp). cbn [fmap list_fmap extract received compose fst].
    destruct (conf_arg (zlen args) va a b) as (va1 & -> & Hva1 & Hok1);
      [apply zlen_nonneg|by rewrite zlen_cons, Z.add_comm in Hok|done..|].
    destruct (given w a b) as [e|]; cbn [fst snd].
    + by rewrite Hva1.
    + rewrite Hva1. by apply IH.
Qed.

End conformance.

(** ** System V x86-64

    An argument of a general class takes one of the six saved general
    registers, one of a floating-point class one of the eight saved vector
    registers; the others are in eight-byte slots of the overflow area. *)

Section x64.
Context {D : Debugger} (h : Host) (mem : Z -> option byte) `{!PtrRead h mem}.
Import X8664.

Definition sysv_overflow (va : va_x86_64) : Z * va_x86_64 :=
  (x64_overflow_arg_area va, set_overflow (x64_overflow_arg_area va + 8) va).

Definition sysv_slot (fp : bool) (n : Z) (va : va_x86_64) : Z * va_x86_64 :=
  if fp then
    if x64_fp_offset va <? 48 + 8 * 16
    then (x64_reg_save_area va + x64_fp_offset va, set_fp (x64_fp_offset va + 16) va)
    else sysv_overflow va
  else if x64_gp_offset va <? 6 * 8
    then (x64_reg_save_area va + x64_gp_offset va, set_gp (x64_gp_offset va + 8) va)
    else sysv_overflow va.

Definition sysv_ok (n : Z) (va : va_x86_64) : Prop :=
  (is_u32 (x64_gp_offset va) /\ x64_gp_offset va mod 8 = 0) /\ is_u32 (x64_fp_offset va) /\
  (0 <= x64_reg_save_area va /\ x64_reg_save_area va + 176 <= 2 ^ 64) /\
  (0 <= x64_overflow_arg_area va /\ x64_overflow_arg_area va mod 8 = 0 /\
   x64_overflow_arg_area va + 8 * n < 2 ^ 64).

Context (Align : aligner) (HA : rounds_up Align).

Lemma mod_next x n : 0 < n -> x mod n = 0 -> (x + n) mod n = 0.
Proof. intros. by rewrite <- Zplus_mod_idemp_r, Z.mod_same, Z.add_0_r by lia. Qed.

(** The two ways a general argument is read. *)
Lemma x64_read_slot n va s b :
  0 <= n -> sysv_ok (n + 1) va -> 1 <= s <= 8 -> zlen b = s ->
  holds mem (sysv_slot false s va).1 b ->
  exists va1, Read h s va = (va1, inl b) /\ realign Align va1 = (sysv_slot false s va).2 /\
    sysv_ok n (sysv_slot false s va).2.
Proof.
  intros Hn ([Hg Hg8] & Hf & Hr & Ho & Ho8 & Hov) Hs Hb.
  unfold Read, gp_addr, sysv_slot, sysv_overflow, GENERAL_OFFSET_MAX, POINTER_SIZE.
  destruct (Z.ltb_spec (x64_gp_offset va) (6 * 8)) as [Hc|Hc]; cbn [fst snd]; intros Hm.
  - assert (x64_gp_offset va + 8 <= 48) by (Z.div_mod_to_equations; lia).
    rewrite (proj2 (Z.leb_gt _ _)), (proj2 (Z.leb_le _ _)) by lia.
    rewrite (uint32_id s), uint32_id, !uint64_id by wrap_lia. erewrite holds_read by done.
    eexists. split; [done|]. unfold realign, set_gp, set_overflow, POINTER_SIZE. cbn.
    rewrite (rounds_up_next _ (x64_gp_offset va)), (rounds_up_id _ (x64_overflow_arg_area va)) by (done || lia). split; [done|].
    unfold sysv_ok. cbn. pose proof (mod_next (x64_gp_offset va) 8). split_and!; try done; wrap_lia || lia.
  - rewrite (proj2 (Z.leb_le _ _)) by lia. rewrite !uint64_id by wrap_lia.
    erewrite holds_read by done.
    eexists. split; [done|]. unfold realign, set_gp, set_overflow, POINTER_SIZE. cbn.
    rewrite (rounds_up_next _ (x64_overflow_arg_area va)), (rounds_up_id _ (x64_gp_offset va)) by (done || lia). split; [done|].
    unfold sysv_ok. cbn. pose proof (mod_next (x64_overflow_arg_area va) 8). split_and!; try done; wrap_lia || lia.
Qed.

Lemma x64_read_fp_slot n va b :
  0 <= n -> sysv_ok (n + 1) va -> zlen b = 8 -> holds mem (sysv_slot true 8 va).1 b ->
  exists va1, ReadDouble h va = (va1, inl (float64_of_bits (le_decode b))) /\
    realign Align va1 = (sysv_slot true 8 va).2 /\ sysv_ok n (sysv_slot true 8 va).2.
Proof.
  intros Hn ([Hg Hg8] & Hf & Hr & Ho & Ho8 & Hov) Hb.
  unfold ReadDouble, sysv_slot, sysv_overflow, XMM_OFFSET_MAX, GENERAL_OFFSET_MAX, POINTER_SIZE.
  destruct (Z.ltb_spec (x64_fp_offset va) (48 + 8 * 16)) as [Hc|Hc]; cbn [fst snd]; intros Hm.
  - rewrite (proj2 (Z.leb_gt _ _)) by lia. rewrite uint32_id, uint64_id by wrap_lia.
    erewrite holds_read by done. eexists. split; [done|].
    unfold realign, set_gp, set_overflow, set_fp, POINTER_SIZE. cbn.
    do 2 rewrite (rounds_up_id Align) by (done || lia). split; [done|].
    unfold sysv_ok. cbn. split_and!; try done; wrap_lia || lia.
  - rewrite (proj2 (Z.leb_le _ _)) by lia. rewrite uint64_id by wrap_lia.
    erewrite holds_read by done. eexists. split; [done|].
    pose proof (mod_next (x64_overflow_arg_area va) 8).
    unfold realign, set_gp, set_overflow, POINTER_SIZE. cbn.
    do 2 rewrite (rounds_up_id Align) by (done || lia). split; [done|].
    unfold sysv_ok. cbn. split_and!; try done; wrap_lia || lia.
Qed.

#[local] Instance x64_conforms :
  Conforms (H := X8664.stream h) mem 8 (realign Align) sysv_slot sysv_ok.
Proof.
  split.
  - intros n va ([Hg Hg8] & Hf & Hr & Ho & Ho8 & Hov). unfold realign, set_gp, set_overflow, POINTER_SIZE.
    cbn. do 2 rewrite (rounds_up_id Align) by (done || lia). by destruct va.
  - intros n va a b Hn Hok Hs Hb Hm. destruct a as [s k|k|k|k]; cbn [arg_size is_float] in *;
      cbn [run_decode decoder given Stream.Read Stream.ReadStream Stream.ReadFloat Stream.ReadDouble X8664.stream].
    + destruct (x64_read_slot n va s b) as (va1 & -> & Hva1); eauto.
    + destruct (x64_read_slot n va 8 b) as (va1 & E & Hva1); [done|done|lia|done..|].
      unfold as_pointer. rewrite E. eauto.
    + destruct (x64_read_fp_slot n va b) as (va1 & E & Hva1); [done..|].
      unfold to_float32. rewrite E. eauto.
    + destruct (x64_read_fp_slot n va b) as (va1 & -> & Hva1); eauto.
Qed.

(** C19: Extract on an x86-64 va_list implements va_arg of the System V
    convention: for any sequence of integers, pointers, floats and doubles,
    in registers or on the stack, the destinations are given exactly the
    values the caller passed, up to the first destination that refuses its
    value, and the list ends where va_arg leaves it. The decoder, which is
    the debugger's, is taken to make one call of the stream for each
    destination. *)
Theorem x64_extract_follows_abi args va :
  sysv_ok (zlen args) va -> passed mem 8 sysv_slot args va ->
  let r := Extract h Align (decoder ∘ fst <$> args) va in
  (realign Align r.1, r.2) = received 8 sysv_slot args va.
Proof. apply (extract_conforms (H := X8664.stream h) mem 8 (realign Align) sysv_slot sysv_ok). Qed.

End x64.

(** ** AAPCS64

    The saved registers lie below [__gr_top] and [__vr_top]; an offset that has
    reached zero sends the argument to an eight-byte slot of the stack. *)

Section a64.
Context {D : Debugger} (h : Host) (mem : Z -> option byte) `{!PtrRead h mem}.
Import Arm64.

Definition aapcs64_stack (va : va_arm64) : Z * va_arm64 :=
  (a64_stack va, set_stack (a64_stack va + 8) va).

Definition aapcs64_slot (fp : bool) (n : Z) (va : va_arm64) : Z * va_arm64 :=
  if fp then
    if a64_vr_offs va <? 0
    then (a64_vr_top va + a64_vr_offs va, set_vr_offs (a64_vr_offs va + 16) va)
    else aapcs64_stack va
  else if a64_gr_offs va <? 0
    then (a64_gr_top va + a64_gr_offs va, set_gr_offs (a64_gr_offs va + 8) va)
    else aapcs64_stack va.

(** The registers saved below [top] are in the address space. *)
Definition save_area (top offs : Z) : Prop := is_i32 offs /\ (offs < 0 -> 0 <= top + offs /\ top < 2 ^ 64).

Definition aapcs64_ok (n : Z) (va : va_arm64) : Prop :=
  (save_area (a64_gr_top va) (a64_gr_offs va) /\ a64_gr_offs va mod 8 = 0) /\
  save_area (a64_vr_top va) (a64_vr_offs va) /\
  (0 <= a64_stack va /\ a64_stack va mod 8 = 0 /\ a64_stack va + 8 * n < 2 ^ 64).

Context (Align : aligner) (HA : rounds_up Align).

Lemma save_area_next top offs k : save_area top offs -> offs < 0 -> 0 <= k < 2 ^ 31 -> save_area top (offs + k).
Proof. intros [H1 H2] Hneg Hk. specialize (H2 Hneg). split; [wrap_lia|]. intros. lia. Qed.

Lemma save_area_addr top offs : save_area top offs -> offs < 0 -> uint64 (top + uint64 offs) = top + offs.
Proof. intros [H1 H2] Hneg. specialize (H2 Hneg). wrap_lia. Qed.

Lemma a64_read_slot n va s b :
  0 <= n -> aapcs64_ok (n + 1) va -> 1 <= s <= 8 -> zlen b = s ->
  holds mem (aapcs64_slot false s va).1 b ->
  exists va1, Read h s va = (va1, inl b) /\ realign Align va1 = (aapcs64_slot false s va).2 /\
    aapcs64_ok n (aapcs64_slot false s va).2.
Proof.
  intros Hn ([Hg Hg8] & Hv & Ho & Ho8 & Hov) Hs Hb.
  unfold Read, gr_addr, aapcs64_slot, aapcs64_stack. cbv zeta.
  destruct (Z.ltb_spec (a64_gr_offs va) 0) as [Hc|Hc]; cbn [fst snd]; intros Hm.
  - assert (a64_gr_offs va + 8 <= 0) by (Z.div_mod_to_equations; lia).
    assert (is_i32 (a64_gr_offs va)) as Hi by apply Hg.
    rewrite (proj2 (Z.leb_gt _ _)), (proj2 (Z.leb_le _ _)), save_area_addr by (done || lia).
    rewrite (int32_id s), int32_id, !uint64_id by wrap_lia. erewrite holds_read by done.
    eexists. split; [done|]. unfold realign, set_gr_offs, set_stack, POINTER_SIZE. cbn.
    rewrite (rounds_up_next _ (a64_gr_offs va)), (rounds_up_id _ (a64_stack va)) by (done || lia).
    split; [done|]. pose proof (mod_next (a64_gr_offs va) 8). pose proof (save_area_next _ _ 8 Hg Hc).
    unfold aapcs64_ok. cbn. split_and!; auto with lia.
  - rewrite (proj2 (Z.leb_le _ _)) by lia. rewrite !uint64_id by wrap_lia.
    erewrite holds_read by done.
    eexists. split; [done|]. unfold realign, set_gr_offs, set_stack, POINTER_SIZE. cbn.
    rewrite (rounds_up_next _ (a64_stack va)), (rounds_up_id _ (a64_gr_offs va)) by (done || lia).
    split; [done|]. pose proof (mod_next (a64_stack va) 8).
    unfold aapcs64_ok. cbn. split_and!; auto with lia.
Qed.

Lemma a64_read_fp_slot n va b :
  0 <= n -> aapcs64_ok (n + 1) va -> zlen b = 8 -> holds mem (aapcs64_slot true 8 va).1 b ->
  exists va1, ReadDouble h va = (va1, inl (float64_of_bits (le_decode b))) /\
    realign Align va1 = (aapcs64_slot true 8 va).2 /\ aapcs64_ok n (aapcs64_slot true 8 va).2.
Proof.
  intros Hn ([Hg Hg8] & Hv & Ho & Ho8 & Hov) Hb.
  unfold ReadDouble, aapcs64_slot, aapcs64_stack.
  destruct (Z.ltb_spec (a64_vr_offs va) 0) as [Hc|Hc]; cbn [fst snd]; intros Hm.
  - assert (is_i32 (a64_vr_offs va)) as Hi by apply Hv.
    rewrite (proj2 (Z.leb_gt _ _)), save_area_addr by (done || lia). rewrite int32_id by wrap_lia.
    erewrite holds_read by done. eexists. split; [done|].
    unfold realign, set_gr_offs, set_stack, set_vr_offs, POINTER_SIZE. cbn.
    do 2 rewrite (rounds_up_id Align) by (done || lia). split; [done|].
    pose proof (save_area_next _ _ 16 Hv Hc). unfold aapcs64_ok. cbn. split_and!; auto with lia.
  - rewrite (proj2 (Z.leb_le _ _)) by lia. rewrite uint64_id by wrap_lia.
    erewrite holds_read by done. eexists. split; [done|].
    pose proof (mod_next (a64_stack va) 8).
    unfold realign, set_gr_offs, set_stack, POINTER_SIZE. cbn.
    do 2 rewrite (rounds_up_id Align) by (done || lia). split; [done|].
    unfold aapcs64_ok. cbn. split_and!; auto with lia.
Qed.

#[local] Instance a64_conforms :
  Conforms (H := Arm64.stream h) mem 8 (realign Align) aapcs64_slot aapcs64_ok.
Proof.
  split.
  - intros n va ([Hg Hg8] & Hv & Ho & Ho8 & Hov). unfold realign, set_gr_offs, set_stack, POINTER_SIZE.
    cbn. do 2 rewrite (rounds_up_id Align) by (done || lia). by destruct va.
  - intros n va a b Hn Hok Hs Hb Hm. destruct a as [s k|k|k|k]; cbn [arg_size is_float] in *;
      cbn [run_decode decoder given Stream.Read Stream.ReadStream Stream.ReadFloat Stream.ReadDouble Arm64.stream].
    + destruct (a64_read_slot n va s b) as (va1 & -> & Hva1); eauto.
    + destruct (a64_read_slot n va 8 b) as (va1 & E & Hva1); [done|done|lia|done..|].
      unfold as_pointer. rewrite E. eauto.
    + destruct (a64_read_fp_slot n va b) as (va1 & E & Hva1); [done..|].
      unfold to_float32. rewrite E. eauto.
    + destruct (a64_read_fp_slot n va b) as (va1 & -> & Hva1); eauto.
Qed.

(** C20: Extract on an AArch64 va_list implements va_arg of the AAPCS64: for
    any sequence of integers, pointers, floats and doubles the destinations
    are given exactly the values the caller passed, from the saved general
    and vector registers and then the stack, and the list ends where va_arg
    leaves it. The decoder, which is the debugger's, is taken to make one
    call of the stream for each destination. *)
Theorem a64_extract_follows_abi args va :
  aapcs64_ok (zlen args) va -> passed mem 8 aapcs64_slot args va ->
  let r := Extract h Align (decoder ∘ fst <$> args) va in
  (realign Align r.1, r.2) = received 8 aapcs64_slot args va.
Proof. apply (extract_conforms (H := Arm64.stream h) mem 8 (realign Align) aapcs64_slot aapcs64_ok). Qed.

End a64.

(** ** i386 and ARM

    Both conventions pass everything on the stack in words of four bytes.  On
    ARM an argument of eight bytes starts at a multiple of eight. *)

Section std.
Context {D : Debugger} (h : Host) (mem : Z -> option byte) `{!PtrRead h mem}.
Import Std.

(** The next multiple of [n]. *)
Definition up (x n : Z) : Z := (x + (n - 1)) / n * n.

Definition i386_slot (fp : bool) (n : Z) (va : va_std) : Z * va_std :=
  (ptr va, VaStd (ptr va + up n 4) (size va)).

Definition aapcs32_slot (fp : bool) (n : Z) (va : va_std) : Z * va_std :=
  let p := if 4 <? n then up (ptr va) 8 else ptr va in
  (p, VaStd (p + up n 4) (size va)).

Definition std_wf (n : Z) (va : va_std) : Prop :=
  size va = 4 /\ 0 <= ptr va /\ ptr va mod 4 = 0 /\ ptr va + 8 * n < 2 ^ 64.

Context (Align : aligner) (HA : rounds_up Align).

Lemma align_up x n : 0 < n -> Align x n = up x n.
Proof. apply HA. Qed.

Lemma up_add x s : x mod 4 = 0 -> up (x + s) 4 = x + up s 4.
Proof. intros Hx. unfold up. Z.div_mod_to_equations. lia. Qed.

Lemma up_word s : 1 <= s <= 8 -> s <= up s 4 <= 8 /\ up s 4 mod 4 = 0.
Proof. intros Hs. unfold up. Z.div_mod_to_equations. lia. Qed.

Lemma up_id x : x mod 4 = 0 -> up x 4 = x.
Proof. intros Hx. unfold up. Z.div_mod_to_equations. lia. Qed.

Lemma std_read_slot n va s b fp :
  0 <= n -> std_wf (n + 1) va -> 1 <= s <= 8 -> zlen b = s -> holds mem (i386_slot fp s va).1 b ->
  exists va1, Read h s va = (va1, inl b) /\ realign Align va1 = (i386_slot fp s va).2 /\
    std_wf n (i386_slot fp s va).2.
Proof.
  intros Hn (Hsz & Hp & Hp4 & Hr) Hs Hb Hm. unfold Read, i386_slot in *. cbn [fst snd] in *.
  destruct (up_word s Hs). rewrite !uint64_id by wrap_lia. erewrite holds_read by done.
  eexists. split; [done|]. unfold realign. cbn. rewrite align_up, up_add by (done || lia). split; [done|].
  unfold std_wf. cbn. split_and!; [done|lia| |lia]. rewrite <- Zplus_mod_idemp_r.
  by replace (up s 4 mod 4) with 0 by lia; rewrite Z.add_0_r.
Qed.

#[local] Instance std_conforms :
  Conforms (H := Std.stream h) mem 4 (realign Align) i386_slot std_wf.
Proof.
  split.
  - intros n va (Hsz & Hp & Hp4 & Hr). unfold realign. rewrite align_up, up_id by (done || lia). by destruct va.
  - intros n va a b Hn Hok Hs Hb Hm. destruct a as [s k|k|k|k]; cbn [arg_size is_float] in *;
      cbn [run_decode decoder given Stream.Read Stream.ReadStream Stream.ReadFloat Stream.ReadDouble Std.stream].
    + destruct (std_read_slot n va s b false) as (va1 & -> & Hva1); eauto.
    + destruct (std_read_slot n va 4 b false) as (va1 & E & Hva1); [done|done|lia|done..|].
      unfold as_pointer. rewrite (proj1 Hok), E. eauto.
    + destruct (std_read_slot n va 8 b true) as (va1 & E & Hva1); [done|done|lia|done..|].
      unfold to_float32, ReadDouble. rewrite E. eauto.
    + destruct (std_read_slot n va 8 b true) as (va1 & E & Hva1); [done|done|lia|done..|].
      unfold ReadDouble. rewrite E. eauto.
Qed.

(** C27: Extract on a plain list with four-byte words implements va_arg of
    the i386 convention: consecutive words, two of them for a double or an
    eight-byte integer. The decoder, which is the debugger's, is taken to
    make one call of the stream for each destination. *)
Theorem std_extract_follows_i386 args va :
  std_wf (zlen args) va -> passed mem 4 i386_slot args va ->
  let r := Extract h Align (decoder ∘ fst <$> args) va in
  (realign Align r.1, r.2) = received 4 i386_slot args va.
Proof. apply (extract_conforms (H := Std.stream h) mem 4 (realign Align) i386_slot std_wf). Qed.

Lemma holds_app a b1 b2 : holds mem a b1 -> holds mem (a + zlen b1) b2 -> holds mem a (b1 ++ b2).
Proof.
  intros H1 H2 i x Hx. apply lookup_app_Some in Hx as [Hx|[Hl Hx]]; [by apply H1|].
  rewrite <- (H2 _ _ Hx). f_equal. unfold zlen. lia.
Qed.

Lemma holds_take a b n : holds mem a b -> holds mem a (take n b).
Proof. intros Hb i x Hx. apply Hb. by apply lookup_take_Some in Hx as [? _]. Qed.

(** On ARM a double passed after an int starts at the next multiple of eight;
    Extract does not skip the padding and hands the destination the padding
    word and the low half of the double. *)
Theorem arm_double_after_int p va kn kd n pad d :
  NewVaList_arm p = inl va -> std_wf 2 va -> p mod 8 = 0 ->
  passed mem 4 aapcs32_slot [(AInt 4 kn, n); (ADouble kd, d)] va ->
  holds mem (p + 4) pad -> zlen pad = 4 -> kn (inl n) = None ->
  (Extract h Align (decoder <$> [AInt 4 kn; ADouble kd]) va).2 =
    kd (inl (float64_of_bits (le_decode (pad ++ take 4 d)))).
Proof.
  intros Hva Hwf Hp8 Hpass Hpad Hpad4 Hkn.
  assert (va = VaStd p 4) as ->.
  { unfold NewVaList_arm, NewStdVaList in Hva. by destruct (p =? 0); inv Hva. }
  destruct Hpass as (_ & Hn & Hnm & _ & Hd & Hdm & _). cbn in Hnm, Hdm, Hn, Hd.
  assert (up (p + up 4 4) 8 = p + 8) as Hup.
  { change (up 4 4) with 4. unfold up. Z.div_mod_to_equations. lia. }
  rewrite Hup in Hdm.
  pose proof (extract_conforms (H := Std.stream h) mem 4 (realign Align) i386_slot std_wf
    [(AInt 4 kn, n); (ADouble kd, pad ++ take 4 d)] (VaStd p 4) Hwf) as Hx.
  cbn [received given] in Hx. rewrite Hkn in Hx.
  assert (length d = 8%nat /\ length pad = 4%nat) as [Hd8 Hp4] by (unfold zlen in *; lia).
  ospecialize (Hx _).
  { cbn. split; [lia|]. split_and!; [done|done|done| | |done].
    - unfold zlen. rewrite length_app, length_take. lia.
    - apply holds_app; [done|]. apply holds_take. change (up 4 4) with 4. rewrite Hpad4.
      by replace (p + 4 + 4) with (p + 8) by lia. }
  apply (f_equal snd) in Hx. cbn [snd] in Hx. unfold Extract. cbn [fmap list_fmap] in *.
  etransitivity; [exact Hx|]. by destruct (kd _).
Qed.

End std.

(** ** Witnesses *)

(** Memory at 0x1000 that holds its own offsets. *)
Definition abi_sim : sim :=
  sim_set_mem (sim_poke ∅ 0x1000 ((fun i => byte_of_Z (Z.of_nat i)) <$> seq 0 256)) sim0.
Definition abi_host : Host (Debugger := SimDebugger) := abi_sim.
Definition abi_mem (a : Z) : option byte := sm_mem abi_sim !! a.

Fixpoint holds_check (a : Z) (b : bytes) : bool :=
  match b with
  | [] => true
  | x :: b => match abi_mem a with Some y => Byte.eqb x y | None => false end && holds_check (a + 1) b
  end.

Lemma holds_check_ok b : forall a, holds_check a b = true -> holds abi_mem a b.
Proof.
  induction b as [|x b IH]; intros a; cbn [holds_check]; intros H i y Hy; [done|].
  apply andb_true_iff in H as [Hx Hb]. destruct (abi_mem a) as [z|] eqn:E; [|done].
  apply Byte.byte_dec_bl in Hx as ->. destruct i as [|i]; cbn in Hy.
  - inv Hy. by rewrite Z.add_0_r.
  - rewrite <- (IH _ Hb _ _ Hy). f_equal. lia.
Qed.

(** Bytes [n], [n + 1], ... and an integer destination that insists on them. *)
Definition abi_bytes (n : Z) (k : nat) : bytes := (fun i => byte_of_Z (n + Z.of_nat i)) <$> seq 0 k.
Definition abi_int (n : Z) (k : nat) : argument * bytes :=
  (AInt (Z.of_nat k) (fun r => match r with
     | inl b => if decide (b = abi_bytes n k) then None else Some ErrUnsupported
     | inr e => Some e end), abi_bytes n k).
Definition abi_any {A} (r : A + error) : option error := match r with inl _ => None | inr e => Some e end.
Definition abi_double (n : Z) : argument * bytes := (ADouble abi_any, abi_bytes n 8).
Definition abi_float (n : Z) : argument * bytes := (AFloat abi_any, abi_bytes n 8).
Definition abi_ptr (n : Z) (k : nat) : argument * bytes := (APtr abi_any, abi_bytes n k).

Ltac passed_tac := cbn; repeat split; try lia; try done; apply holds_check_ok; by vm_compute.

(** The last general and the last vector register, then the stack. *)
Definition abi_x64_args := [abi_int 40 4; abi_double 160; abi_float 176; abi_ptr 184 8; abi_int 192 1].

Lemma x64_extract_follows_abi_witness :
  let r := X8664.Extract abi_host sim_align (decoder ∘ fst <$> abi_x64_args) (VaX8664 40 160 0x10B0 0x1000) in
  (X8664.realign sim_align r.1, r.2) = (VaX8664 48 176 0x10C8 0x1000, None).
Proof.
  refine (eq_trans (x64_extract_follows_abi abi_host abi_mem sim_align _ abi_x64_args
    (VaX8664 40 160 0x10B0 0x1000) _ _) _); [by intros x n|by vm_compute|passed_tac|by vm_compute].
Defined.

Definition abi_a64 : va_arm64 := VaArm64 0x1080 0x1030 0x1080 (-8) (-16).
Definition abi_a64_args := [abi_double 112; abi_int 40 2; abi_ptr 128 8; abi_float 136; abi_int 144 8].

Lemma a64_extract_follows_abi_witness :
  let r := Arm64.Extract abi_host sim_align (decoder ∘ fst <$> abi_a64_args) abi_a64 in
  (Arm64.realign sim_align r.1, r.2) = (VaArm64 0x1098 0x1030 0x1080 0 0, None).
Proof.
  refine (eq_trans (a64_extract_follows_abi abi_host abi_mem sim_align _ abi_a64_args abi_a64 _ _) _);
    [by intros x n|by vm_compute|passed_tac|by vm_compute].
Defined.

Definition abi_std_args := [abi_int 0 1; abi_double 4; abi_ptr 12 4; abi_int 16 8].

Lemma std_extract_follows_i386_witness :
  let r := Std.Extract abi_host sim_align (decoder ∘ fst <$> abi_std_args) (Std.VaStd 0x1000 4) in
  (Std.realign sim_align r.1, r.2) = (Std.VaStd 0x1018 4, None).
Proof.
  refine (eq_trans (std_extract_follows_i386 abi_host abi_mem sim_align _ abi_std_args
    (Std.VaStd 0x1000 4) _ _) _); [by intros x n|by vm_compute|passed_tac|by vm_compute].
Defined.

(** The int at 0x1000, padding at 0x1004 and the double at 0x1008: a
    destination that insists on the double passed refuses what it is given. *)
Definition abi_same (n : Z) (r : spec_float + error) : option error :=
  match r with
  | inl x => if SFeqb x (float64_of_bits (le_decode (abi_bytes n 8))) then None else Some ErrUnsupported
  | inr e => Some e
  end.

Lemma arm_double_after_int_witness :
  (Std.Extract abi_host sim_align (decoder <$> [(abi_int 0 4).1; ADouble (abi_same 8)])
    (Std.VaStd 0x1000 4)).2 = Some ErrUnsupported.
Proof.
  refine (eq_trans (arm_double_after_int abi_host abi_mem sim_align _ 0x1000 (Std.VaStd 0x1000 4) _ (abi_same 8)
    (abi_bytes 0 4) (abi_bytes 4 4) (abi_bytes 8 8) _ _ _ _ _ _ _) _);
    [by intros x n|done|by vm_compute|done|passed_tac|apply holds_check_ok; by vm_compute|done|by vm_compute|by vm_compute].
Defined.
